(* ===== verification/_CoqProject ===== *)
-Q . S2P
Prelude.v
GoBase.v
Text.v
Regex.v
GoTime.v
Queue.v
Pattern.v
Collect.v
AgentReport.v
HubTypes.v
HubStore.v
Schema.v
Fault.v
Rules.v
Ingest.v
Working.v
Watch.v
Retention.v
Sse.v
Handlers.v
Stream.v
Sync.v
Messages.v
Sha256.v
Auth.v
Body.v
Flags.v
Orderly.v
Install.v
Config.v
Admin.v
Nas.v
Collectors.v
Start.v
Release.v
Proxy.v
Conduct.v
Lasting.v
Clock.v
Hub.v
Pipeline.v
