(* ===== verification/Prelude.v ===== *)
(** Sakura Assistant: an agent on each server collects metrics and events, keeps them in an
    offline queue and posts them to a hub; the hub stores them, turns events into faults and
    messages, evaluates rules, and serves clients that read, mark and follow the changes.
    This library models the Go program of [src/hub] and [src/agent] and proves what makes its
    parts correct.

    * How the model reads the code

    A Go function that touches shared state is a computation [stM World herr A] (the hub) or
    [stM Reporter rerr A] (the agent): state passing with errors, where an error keeps the
    effects already done, as an early return does.  Sequencing is [x ← m; k] and [m ;; k];
    [st_try] is a call whose error the caller looks at; [st_foldl] is a range loop.  A pure
    function is a Gallina function with the source's name.

    What the program cannot control is an environment, a typeclass every definition takes:
    [HubEnv] (clock, ULIDs, random bytes, which database call fails, and after how many rows an
    iteration breaks off: [h_rows]) and [ReportEnv] and [QueueEnv] (frames, the hub's answers,
    failures).  Theorems hold for every environment, so for every pattern of failures.  Where
    the code asks [rows.Err()] a broken iteration is an error; where it does not ([db_rows],
    [tx_rows]) the rows it gave are taken for all, and [whole_rows] says that none breaks off.
    A database table is a list of rows in insertion order with
    its primary key ([Keyed]); a transaction ([withTx]) works on its own copy, which commit
    makes the committed one.  Integers are [Z], with [wrap64] where a value from outside can
    make an int64 wrap; what only counts up by one or by rows (change and sequence numbers,
    rounds of a fault, ids of the queue) is not bounded.  float64 is IEEE binary64
    ([spec_float]); strings are bytes, cut into runes where the code does; a
    [time.Time] is nanoseconds since 1970 in UTC.

    Requests are modelled from the decoded body on.  Parsers of outside formats
    ([encoding/json], [net/url], bcrypt) are parameters of the definitions that use them;
    [sort.Slice], which is not stable, is a typeclass of sorting functions; SHA-256, regular
    expressions, RFC 3339, [strconv] and the UTF-8 of strings are written out.

    * Files

    - [Prelude]: results, the state-and-error monad with its triples and invariants, tables,
      lists, automation ([mrun], [pres], the hint database [presdb]).
    - [GoBase], [Text], [GoTime], [Regex], [Pattern], [Sha256], [Flags]: what the code uses of
      Go: integers, durations, strings, floats; the length of texts and numbers; instants and
      RFC 3339 ([hub/util.go]); anchored regular expressions, and searching ones with groups;
      SHA-256; [flag], [strconv] and [time.ParseDuration].
    - The agent.  [Queue] ([agent/internal/queue/queue.go]): the offline queue.  [Collect],
      [Nas], [Collectors] ([agent/internal/collect]): the sample's types, disks and pools, and a
      whole frame.  [AgentReport] ([agent/internal/report]): the reporter: collecting, draining
      with backoff, pausing on 401, probing, dropping what the hub refuses for good.  [Config]
      ([agent/internal/config/config.go]): flags and variables.  [Start]
      ([agent/cmd/assistant-agent/main.go], the constructors): from a command line to a running
      reporter, [--check], what is logged of an address.
    - The hub's ground.  [HubTypes] ([hub/types.go], the schema of [hub/db.go]) and [HubStore]
      ([hub/store.go], the broker of [hub/sse.go]): rows, tables, the world, transactions, the
      change log.  [Schema] ([hub/db.go]): opening the database, the migration.  [Body]
      ([hub/util.go] decodeBody): bodies, compressed or not, and their limits.
    - [Fault] ([hub/fault.go]): [applyEventTx] and the fault's state machine, with the tables'
      invariant [db_ok].  [Rules] ([hub/rules.go]): the rule engine and the heartbeat monitor.
      [Ingest] ([hub/ingest.go]): the two posts of the agent.  [Working] and [Watch]: what posts
      and the heartbeat monitor do while the database works.  [Retention]
      ([hub/retention.go]): roll-up and retention.
    - [Sse] and [Stream] ([hub/sse.go]): frames, the app's parser of them
      ([app/.../SseParser.kt]) and the stream as a state machine among committing
      transactions and retention runs that shorten the log.  [Sync] ([hub/api.go]): catch-up by pages.
    - [Handlers] and [Messages] ([hub/api.go]): overview, lists with cursors, read and mute
      marks, series.  [Auth] ([hub/auth.go]): sessions, source keys, the login limit.
      [Install] and [Admin] ([hub/admin.go], [hub/util.go]): install instructions; sources,
      rules and settings.  [Proxy] ([hub/feedback_proxy.go], [hub/attachments.go]): the proxy to
      the Feedback services.  [Release] ([hub/agent_release.go]): the cache of agent releases.
    - The whole.  [Orderly] and [Lasting]: two calculi of what every handler and loop keeps
      (transactions closed and changes published in order; events only added), [Conduct]: that
      they do.  [Clock]: the clock readings of an ingest post, and what it answers by them.
      [Hub] ([hub/main.go], [hub/api.go] routes): configuration, routes with their guards ([GET
      /stream] opens a stream, which takes its turns as operations of the run), background
      loops, runs of all of it, one operation after the other; [Stream] has what overlaps.
      [Pipeline]: the agent's requests as bodies on a network that loses them, arriving at the
      hub, which does anything else in between.

    The parts meet in [World]: a handler runs a transaction, whose body appends to the change
    log, and after the commit publishes the same changes to the subscribers.  [applyEventTx]
    is shared by ingest, rules and the heartbeat monitor; [emitSourceChangeTx] by ingest and
    management; [loadRules] by ingest and management.  The agent meets the hub only through
    the requests it posts and the answers it gets: [AgentReport] takes the answers from an
    environment, and [Pipeline] gives it those of the hub's handlers.

    * What is proved

    - End to end ([Pipeline.delivered_once]): whatever the network loses and whatever else the
      hub does, an event the agent made is never on record twice, and is still queued, or on
      record, or was until retention forgot it, or was refused in an answer because the hub's
      clock showed it to be more than 90 days old, or was in too large a batch.  The hub
      ([Hub]): over any run of requests, turns of streams and loop ticks the tables keep their
      invariant and the changes are numbered and published in order; no request gets past its
      credential.
    - Faults: an event that is newer than everything on record moves the fault of its key as
      a counter of rounds with an open bit ([abs_fault], [abs_step]), and batches refine the
      same specification in whatever order they list their events.  A threshold opens its fault
      after [forSeconds] of violating readings without one within the limit.
    - Posts: all or nothing, each event accounted for once, replay changes nothing, metrics
      are applied once.  While the database works every post is answered as it is due, never
      with 500 ([Working]), and every silent device is announced ([Watch]).
    - The queue loses nothing silently; the reporter never drops an event that the hub may
      still take, and with a healthy hub delivers everything, oldest first.
    - Retention announces what it deletes and keeps the window of the change log; the stream
      is ordered, and complete under orderly publication and a retention that leaves alone what
      it has yet to replay; catch-up ends with every change.
    - Marks, lists and series behave as documented; authentication lets in exactly the live
      sessions, limits attempts and rotates tokens; management changes documents only from the
      version the client names, keeps them well-formed, and moves keys exactly as answered.
    Most properties describe a whole handler, errors included; some lemmas ([Fault.late_open_of_closed_round_reopens],
    [Queue.TakeOverflow_race], [AgentReport.poison_events_never_end], [Rules.for_seconds_overflow],
    [Stream.out_of_order_publish_skips], [Stream.overflow_skips], [Stream.prune_before_replay_skips], [Sync.sync_cursor_race],
    [Sync.sync_broken_skips], [Messages.read_all_breaks], [Retention.broken_rows_orphan],
    [Auth.refresh_without_label], [Auth.refresh_race], [Admin.put_race], [Hub.retention_days_overflow],
    [Nas.smart_cap_mixed], [Collectors.net_rate_wraps], [Start.redactURL_leaks]) show where the code does not
    do what it means to.

    * Bounds and fuel

    The agent's drain loops recurse on fuel, because a hub that refuses every batch keeps them
    going ([poison_events_never_end]); [drain_delivers] gives the fuel that is enough when the
    hub is healthy.  [walk] and [follow] (paging) take fuel too: one more than the rows is
    enough and is proved to be.  [runes_fuel], [blocks] and the like take the length of their
    input.  All other recursion is structural.

    * Not modelled

    Listening, signals, shutdown and timeouts, HTTP headers but for those the code reads, and
    the embedded installer script; what gopsutil, Docker and the sub-processes answer, which is
    given as values, as are the release server and the Feedback services; [compress/gzip] and
    [encoding/json], which are parameters with the laws used; how rows are scanned out of SQL
    columns, and the text of the SQL itself; the log.  The Flutter application and the Kotlin
    service but for the parser of the event stream, deployment scripts, contracts and
    documentation are other programs or no programs. *)

From stdpp Require Export base tactics option list strings gmap sorting.
From Stdlib Require Export ZArith Lia.

(** ** Results and the state-and-error monad *)

(** The value of a Go call that returns [(v, error)]: either a value or an error. *)
Inductive outcome (E A : Type) : Type :=
| Ok (a : A)
| Err (e : E).
Arguments Ok {E A} a.
Arguments Err {E A} e.

(** A computation over a state [S] that may return an error.  The state survives an
    error: Go code that returns early keeps every side effect it already had. *)
Definition stM (S E A : Type) : Type := S → outcome E A * S.

#[export] Instance stM_ret {S E} : MRet (stM S E) := λ A a s, (Ok a, s).

#[export] Instance stM_bind {S E} : MBind (stM S E) := λ A B k m s,
  match m s with
  | (Ok a, s') => k a s'
  | (Err e, s') => (Err e, s')
  end.

Definition st_gets {S E A} (f : S → A) : stM S E A := λ s, (Ok (f s), s).
Definition st_modify {S E} (f : S → S) : stM S E () := λ s, (Ok (), f s).
Definition st_throw {S E A} (e : E) : stM S E A := λ s, (Err e, s).

(** [st_try m] is a call whose error the caller inspects instead of returning it. *)
Definition st_try {S E A} (m : stM S E A) : stM S E (outcome E A) := λ s,
  let (r, s') := m s in (Ok r, s').

(** [for _, x := range xs { acc = body(acc, x) }] with early return on error. *)
Fixpoint st_foldl {S E A B} (body : A → B → stM S E A) (acc : A) (xs : list B) : stM S E A :=
  match xs with
  | [] => mret acc
  | x :: xs' => acc' ← body acc x; st_foldl body acc' xs'
  end.

(** ** Tables keyed by a primary key *)

(** The primary key of a row type: what a table needs to know about its rows. *)
Class Keyed (K R : Type) := pkey : R → K.

Section tables.
Context {K R : Type} `{EqDecision K} `{!Keyed K R}.

(** [SELECT ... WHERE pk = k] through [QueryRow]: the first matching row. *)
Definition tbl_lookup (k : K) (t : list R) : option R := head (filter (λ r, pkey r = k) t).

(** [INSERT]: [None] is the uniqueness violation. *)
Definition tbl_insert (r : R) (t : list R) : option (list R) :=
  if decide (pkey r ∈ (pkey <$> t : list K)) then None else Some (t ++ [r]).

(** [INSERT OR REPLACE] *)
Definition tbl_replace (r : R) (t : list R) : list R :=
  filter (λ r', pkey r' ≠ pkey r) t ++ [r].

(** [INSERT OR IGNORE] *)
Definition tbl_insert_ignore (r : R) (t : list R) : list R :=
  if decide (pkey r ∈ (pkey <$> t : list K)) then t else t ++ [r].

(** [UPDATE ... WHERE pk = k] *)
Definition tbl_update (k : K) (f : R → R) (t : list R) : list R :=
  (λ r, if decide (pkey r = k) then f r else r) <$> t.

(** [DELETE ... WHERE pk = k] *)
Definition tbl_delete (k : K) (t : list R) : list R := filter (λ r, pkey r ≠ k) t.

(** The uniqueness constraint a primary key declares. *)
Definition tbl_unique (t : list R) : Prop := NoDup (pkey <$> t : list K).
End tables.

(** ** Lemmas on the monad *)

Section monad_lemmas.
Context {S E : Type}.

Lemma st_bind_Ok {A B} (m : stM S E A) (k : A → stM S E B) s b s' :
  (m ≫= k) s = (Ok b, s') ↔ ∃ a s1, m s = (Ok a, s1) ∧ k a s1 = (Ok b, s').
Proof.
  unfold mbind, stM_bind. destruct (m s) as [[a|e] s1]; split.
  - eauto.
  - intros (a' & s2 & [= <- <-] & H). done.
  - done.
  - intros (a' & s2 & [=] & _).
Qed.

Lemma st_bind_Ok_step {A B} (m : stM S E A) (k : A → stM S E B) s a s1 :
  m s = (Ok a, s1) → (m ≫= k) s = k a s1.
Proof. unfold mbind, stM_bind. by intros ->. Qed.

Lemma st_bind_Err_step {A B} (m : stM S E A) (k : A → stM S E B) s e s1 :
  m s = (Err e, s1) → (m ≫= k) s = (Err e, s1).
Proof. unfold mbind, stM_bind. by intros ->. Qed.

(** [triple P m Q X]: from a state in [P], a call of [m] that returns a value ends in [Q],
    one that returns an error ends in [X]. *)
Definition triple {A} (P : S → Prop) (m : stM S E A)
    (Q : A → S → Prop) (X : E → S → Prop) : Prop :=
  ∀ s, P s → match m s with (Ok a, s') => Q a s' | (Err e, s') => X e s' end.

(** [preserves I m]: the invariant [I] survives [m], on every path. *)
Definition preserves {A} (I : S → Prop) (m : stM S E A) : Prop := ∀ s, I s → I (m s).2.

Lemma triple_ret {A} P (a : A) (Q : A → S → Prop) X :
  (∀ s, P s → Q a s) → triple P (mret a) Q X.
Proof. intros H s Hs. apply H, Hs. Qed.

Lemma triple_bind {A B} P (m : stM S E A) R (k : A → stM S E B) Q X :
  triple P m R X → (∀ a, triple (R a) (k a) Q X) → triple P (m ≫= k) Q X.
Proof.
  intros Hm Hk s Hs. specialize (Hm s Hs). unfold mbind, stM_bind.
  destruct (m s) as [[a|e] s1]; [by apply Hk|done].
Qed.

Lemma triple_conseq {A} (P P' : S → Prop) (m : stM S E A) (Q Q' : A → S → Prop) X X' :
  triple P' m Q' X' → (∀ s, P s → P' s) → (∀ a s, Q' a s → Q a s) →
  (∀ e s, X' e s → X e s) → triple P m Q X.
Proof.
  intros Hm HP HQ HX s Hs. specialize (Hm s (HP s Hs)).
  destruct (m s) as [[a|e] s1]; eauto.
Qed.

Lemma triple_foldl {A B} (I : A → list B → S → Prop) (body : A → B → stM S E A) X :
  (∀ a x xs, triple (I a (x :: xs)) (body a x) (λ a', I a' xs) X) →
  ∀ xs a, triple (I a xs) (st_foldl body a xs) (λ a', I a' []) X.
Proof.
  intros Hb xs. induction xs as [|x xs IH]; intros a; cbn.
  - by apply triple_ret.
  - eapply triple_bind; [apply Hb|]. intros a'. apply IH.
Qed.

Lemma preserves_ret {A} (I : S → Prop) (a : A) : preserves I (mret a).
Proof. by intros s Hs. Qed.

Lemma preserves_throw {A} (I : S → Prop) e : preserves I (st_throw (A:=A) e).
Proof. by intros s Hs. Qed.

Lemma preserves_gets {A} (I : S → Prop) (f : S → A) : preserves I (st_gets f).
Proof. by intros s Hs. Qed.

Lemma preserves_modify (I : S → Prop) f : (∀ s, I s → I (f s)) → preserves I (st_modify f).
Proof. intros H s Hs. by apply H. Qed.

Lemma preserves_bind {A B} (I : S → Prop) (m : stM S E A) (k : A → stM S E B) :
  preserves I m → (∀ a, preserves I (k a)) → preserves I (m ≫= k).
Proof.
  intros Hm Hk s Hs. specialize (Hm s Hs). unfold mbind, stM_bind.
  destruct (m s) as [[a|e] s1]; cbn in *; [by apply Hk|done].
Qed.

Lemma preserves_try {A} (I : S → Prop) (m : stM S E A) : preserves I m → preserves I (st_try m).
Proof.
  intros Hm s Hs. specialize (Hm s Hs). unfold st_try. by destruct (m s) as [r s1].
Qed.

Lemma preserves_foldl {A B} (I : S → Prop) (body : A → B → stM S E A) :
  (∀ a x, preserves I (body a x)) → ∀ xs a, preserves I (st_foldl body a xs).
Proof.
  intros Hb xs. induction xs as [|x xs IH]; intros a; cbn.
  - apply preserves_ret.
  - apply preserves_bind; [apply Hb|]. intros a'. apply IH.
Qed.

Lemma preserves_foldl_elem {A B} (I : S → Prop) (body : A → B → stM S E A) xs :
  (∀ a x, x ∈ xs → preserves I (body a x)) → ∀ a, preserves I (st_foldl body a xs).
Proof.
  induction xs as [|x xs IH]; intros Hb a; cbn; [apply preserves_ret|].
  apply preserves_bind; [apply Hb; left|]. intros a'. apply IH. intros; apply Hb; by right.
Qed.

(** An invariant is a triple; what holds before a call and does not depend on the state. *)
Lemma triple_preserves {A} (I : S → Prop) (m : stM S E A) : preserves I m → triple I m (λ _, I) (λ _, I).
Proof. intros H s Hs. specialize (H s Hs). by destruct (m s) as [[a|e] s1]. Qed.

Lemma triple_pure {A} (P : S → Prop) (F : Prop) (m : stM S E A) Q X :
  (F → triple P m Q X) → triple (λ s, P s ∧ F) m Q X.
Proof. intros H s [Hs HF]. by apply (H HF). Qed.
End monad_lemmas.

(** ** Lemmas on lists *)

Lemma list_filter_ext_elem {A} (P1 P2 : A → Prop)
    `{!∀ x, Decision (P1 x), !∀ x, Decision (P2 x)} (l : list A) :
  (∀ x, x ∈ l → (P1 x ↔ P2 x)) → filter P1 l = filter P2 l.
Proof.
  intros Hiff. induction l as [|x l IH]; [done|].
  rewrite !filter_cons, IH by (intros; apply Hiff; by right).
  destruct (Hiff x ltac:(left)). repeat case_decide; tauto.
Qed.

Lemma list_filter_all {A} (P : A → Prop) `{!∀ x, Decision (P x)} (l : list A) :
  (∀ x, x ∈ l → P x) → filter P l = l.
Proof.
  intros Hall. induction l as [|x l IH]; [done|].
  rewrite filter_cons_True, IH; [done|set_solver|set_solver].
Qed.

Lemma list_filter_none {A} (P : A → Prop) `{!∀ x, Decision (P x)} (l : list A) :
  (∀ x, x ∈ l → ¬ P x) → filter P l = [].
Proof.
  intros Hnone. induction l as [|x l IH]; [done|].
  rewrite filter_cons_False, IH; [done|set_solver|set_solver].
Qed.

Lemma StronglySorted_lt_NoDup (l : list Z) : StronglySorted Z.le l → NoDup l → StronglySorted Z.lt l.
Proof.
  induction 1 as [|x l _ IH Hx]; intros Hnd; [constructor|].
  apply NoDup_cons in Hnd as [Hn Hnd]. constructor; [by apply IH|].
  rewrite Forall_forall in Hx |- *. intros y Hy. specialize (Hx y Hy).
  assert (x ≠ y) by (intros ->; done). lia.
Qed.

Lemma sorted_lt_distinct (l : list Z) : StronglySorted Z.lt l → NoDup l.
Proof.
  induction 1 as [|x l _ IH Hx]; constructor; [|done]. intros Hin. rewrite Forall_forall in Hx.
  specialize (Hx _ Hin). lia.
Qed.

(** Rows in the order of a key stay so when some are dropped. *)
Lemma sorted_filter_key {A} (g : A → Z) (P : A → Prop) `{!∀ x, Decision (P x)} (l : list A) :
  StronglySorted Z.lt (g <$> l) → StronglySorted Z.lt (g <$> filter P l).
Proof.
  induction l as [|x l IH]; [done|]. rewrite fmap_cons, filter_cons. intros [Hs Hx]%StronglySorted_inv.
  case_decide; [|auto]. rewrite fmap_cons. constructor; [auto|].
  rewrite Forall_forall in Hx |- *. intros z (y & -> & [_ Hy]%list_elem_of_filter)%list_elem_of_fmap.
  apply Hx. apply list_elem_of_fmap. eauto.
Qed.

Lemma filter_by_key {A K} `{EqDecision K} (g : A → K) (P : A → Prop) `{!∀ x, Decision (P x)} (l : list A) :
  NoDup (g <$> l) → filter (λ x, g x ∉ g <$> filter P l) l = filter (λ x, ¬ P x) l.
Proof.
  intros Hnd. apply list_filter_ext_elem. intros x Hx. rewrite list_elem_of_fmap. split.
  - intros Hn HP. apply Hn. exists x. split; [done|]. by apply list_elem_of_filter.
  - intros Hn (y & Hg & [HP Hy]%list_elem_of_filter). apply Hn.
    assert (x = y) as ->; [|done]. clear -Hnd Hx Hy Hg. induction l as [|z l IH]; [by apply elem_of_nil in Hx|].
    cbn in Hnd. apply NoDup_cons in Hnd as [Hz Hnd].
    apply elem_of_cons in Hx as [->|Hx], Hy as [->|Hy]; [done| | |by apply IH].
    + exfalso. apply Hz. rewrite Hg. apply list_elem_of_fmap. eauto.
    + exfalso. apply Hz. rewrite <-Hg. apply list_elem_of_fmap. eauto.
Qed.

Lemma filter_or_perm {A} (P Q R : A → Prop) `{!∀ x, Decision (P x), !∀ x, Decision (Q x), !∀ x, Decision (R x)}
    (l : list A) :
  (∀ x, R x ↔ P x ∨ Q x) → filter P l ++ filter Q (filter (λ x, ¬ P x) l) ≡ₚ filter R l.
Proof.
  intros HR. induction l as [|x l IH]; [done|]. destruct (decide (P x)) as [HP|HP].
  - rewrite (filter_cons_True P), (filter_cons_False (λ x, ¬ P x)), (filter_cons_True R) by (rewrite ?HR; tauto).
    cbn. by rewrite IH.
  - rewrite (filter_cons_False P), (filter_cons_True (λ x, ¬ P x)) by tauto. destruct (decide (Q x)) as [HQ|HQ].
    + rewrite (filter_cons_True Q), (filter_cons_True R) by (rewrite ?HR; tauto).
      rewrite <-Permutation_middle. by rewrite IH.
    + rewrite (filter_cons_False Q), (filter_cons_False R) by (rewrite ?HR; tauto). exact IH.
Qed.

Lemma NoDup_fmap_filter {A K} (g : A → K) (P : A → Prop) `{!∀ x, Decision (P x)} (l : list A) :
  NoDup (g <$> l) → NoDup (g <$> filter P l).
Proof.
  induction l as [|x l IH]; [done|]. rewrite fmap_cons, filter_cons. intros [Hx Hnd]%NoDup_cons.
  case_decide; [|auto]. rewrite fmap_cons. apply NoDup_cons. split; [|auto].
  intros (y & Hy & [_ Hin]%list_elem_of_filter)%list_elem_of_fmap. apply Hx. rewrite Hy.
  apply list_elem_of_fmap. eauto.
Qed.

(** ** Lemmas on tables *)

Section table_lemmas.
Context {K R : Type} `{EqDecision K} `{!Keyed K R}.
Implicit Types (t : list R) (k : K) (r : R).

Lemma tbl_lookup_Some k t r : tbl_lookup k t = Some r → r ∈ t ∧ pkey r = k.
Proof.
  unfold tbl_lookup. destruct (filter _ t) as [|x l] eqn:E; [done|].
  intros [= ->]. assert (r ∈ filter (λ r, pkey r = k) t) as H by (rewrite E; left).
  by apply list_elem_of_filter in H as [??].
Qed.

Lemma tbl_lookup_None k t : tbl_lookup k t = None ↔ k ∉ (pkey <$> t : list K).
Proof.
  unfold tbl_lookup. rewrite list_elem_of_fmap. split.
  - intros Hh (r & -> & Hr).
    assert (r ∈ filter (λ r', pkey r' = pkey r) t) as Hin by (by apply list_elem_of_filter).
    destruct (filter _ t); [by apply elem_of_nil in Hin|done].
  - intros Hn. destruct (filter _ t) as [|x l] eqn:E; [done|]. exfalso. apply Hn.
    assert (x ∈ filter (λ r, pkey r = k) t) as H by (rewrite E; left).
    apply list_elem_of_filter in H as [??]. eauto.
Qed.

Lemma tbl_lookup_unique k t r : tbl_unique t → r ∈ t → pkey r = k → tbl_lookup k t = Some r.
Proof.
  unfold tbl_unique, tbl_lookup. intros Hu Hr <-. induction t as [|x t IH].
  - by apply elem_of_nil in Hr.
  - cbn in Hu. apply NoDup_cons in Hu as [Hx Hu].
    rewrite filter_cons. apply elem_of_cons in Hr as [->|Hr].
    + by rewrite decide_True.
    + rewrite decide_False; [by apply IH|]. intros Heq. apply Hx.
      rewrite Heq. apply list_elem_of_fmap. eauto.
Qed.

Lemma tbl_insert_Some r t t' :
  tbl_insert r t = Some t' ↔ pkey r ∉ (pkey <$> t : list K) ∧ t' = t ++ [r].
Proof. unfold tbl_insert. case_decide; naive_solver. Qed.

Lemma tbl_insert_unique r t t' : tbl_insert r t = Some t' → tbl_unique t → tbl_unique t'.
Proof.
  intros [Hn ->]%tbl_insert_Some Hu. unfold tbl_unique. rewrite fmap_app. cbn.
  apply NoDup_app. split_and!; [done|set_solver|apply NoDup_singleton].
Qed.

Lemma tbl_update_keys k (f : R → R) t :
  (∀ r, pkey (f r) = pkey r) → (pkey <$> tbl_update k f t : list K) = (pkey <$> t).
Proof.
  intros Hf. unfold tbl_update. rewrite <-list_fmap_compose. apply list_fmap_ext.
  intros i r _. cbn. by case_decide.
Qed.

Lemma tbl_update_unique k (f : R → R) t :
  (∀ r, pkey (f r) = pkey r) → tbl_unique t → tbl_unique (tbl_update k f t).
Proof. intros Hf. unfold tbl_unique. by rewrite tbl_update_keys. Qed.

Lemma tbl_lookup_update k k' (f : R → R) t :
  (∀ r, pkey (f r) = pkey r) →
  tbl_lookup k' (tbl_update k f t) =
    (if decide (k' = k) then f <$> tbl_lookup k' t else tbl_lookup k' t).
Proof.
  intros Hf. unfold tbl_lookup, tbl_update.
  induction t as [|x t IH]; [by case_decide|].
  rewrite fmap_cons, !filter_cons. destruct (decide (pkey x = k)) as [Hx|Hx].
  - rewrite Hf. destruct (decide (pkey x = k')) as [Hx'|Hx'].
    + rewrite decide_True by congruence. done.
    + rewrite decide_False in IH |- * by congruence. apply IH.
  - destruct (decide (pkey x = k')) as [Hx'|Hx'].
    + by rewrite decide_False by congruence.
    + apply IH.
Qed.

Lemma tbl_filter_unique (P : R → Prop) `{∀ r, Decision (P r)} t :
  tbl_unique t → tbl_unique (filter P t).
Proof.
  unfold tbl_unique. induction t as [|x t IH]; [done|].
  rewrite fmap_cons, NoDup_cons. intros [Hx Hu]. rewrite filter_cons.
  case_decide; [|auto]. cbn. apply NoDup_cons. split; [|auto].
  intros (y & Hy & Hin)%list_elem_of_fmap. apply Hx. rewrite Hy.
  apply list_elem_of_fmap. exists y. split; [done|].
  by apply list_elem_of_filter in Hin as [_ ?].
Qed.

Lemma tbl_lookup_filter_key k k' t :
  k ≠ k' → tbl_lookup k (tbl_delete k' t) = tbl_lookup k t.
Proof.
  intros Hne. unfold tbl_lookup, tbl_delete. f_equal.
  rewrite list_filter_filter. apply list_filter_iff. intros r. naive_solver.
Qed.

Lemma tbl_lookup_app k t1 t2 :
  tbl_lookup k (t1 ++ t2) =
    match tbl_lookup k t1 with Some r => Some r | None => tbl_lookup k t2 end.
Proof.
  unfold tbl_lookup. rewrite filter_app. by destruct (filter _ t1).
Qed.
End table_lemmas.

(** ** Automation *)

(** [mrun H] breaks a successful run of a monadic sequence into the runs of its steps. *)
Ltac mrun H :=
  match type of H with
  | (mbind _ _) _ = (Ok _, _) =>
      let a := fresh "a" in let s := fresh "s" in let H1 := fresh "Hrun" in
      apply st_bind_Ok in H as (a & s & H1 & H); cbn beta in H
  end.

Create HintDb presdb.
#[export] Hint Resolve preserves_ret preserves_throw preserves_gets preserves_try : presdb.

(** [pres] proves an invariant of a monadic program from those of its steps. *)
Ltac pres_step :=
  match goal with
  | |- preserves _ (mbind _ _) => apply preserves_bind; [|intros ?]
  | |- preserves _ (st_try _) => apply preserves_try
  | |- preserves _ (st_foldl _ _ _) => apply preserves_foldl; intros ??
  | |- preserves _ (if ?b then _ else _) => destruct b
  | |- preserves _ (match ?x with _ => _ end) => destruct x
  | |- preserves _ (let _ := _ in _) => cbv zeta
  | |- preserves _ _ => solve [eauto with presdb nocore]
  end.
Ltac pres := repeat pres_step.
