(* ===== verification/GoBase.v ===== *)
(** Fragments of the Go language and standard library the program relies on: 64-bit
    integers and durations, byte strings and their order, UTF-8 runes, IEEE double
    comparison and the [%d] / [%.2f] / [%.0f] verbs.  All of it computes. *)

From S2P Require Import Prelude.
From Stdlib Require Import SpecFloat DecimalString Ascii.
Local Open Scope Z_scope.

(** ** Integers and durations *)

Definition int64_max : Z := 2 ^ 63 - 1.
Definition int64_min : Z := - 2 ^ 63.

(** The value an [int64] operation produces: two's-complement wrap-around. *)
Definition wrap64 (z : Z) : Z := (z + 2 ^ 63) mod 2 ^ 64 - 2 ^ 63.

(** [time.Duration] is an [int64] of nanoseconds. *)
Definition Millisecond : Z := 1000000.
Definition Second : Z := 1000000000.
Definition Minute : Z := 60 * Second.
Definition Hour : Z := 60 * Minute.

(** [time.Duration(n) * unit] *)
Definition duration_mul (n unit : Z) : Z := wrap64 (n * unit).

(** [Time.Sub] saturates at the ends of [time.Duration]. *)
Definition time_sub (t u : Z) : Z :=
  if decide (t - u < int64_min) then int64_min
  else if decide (int64_max < t - u) then int64_max else t - u.

(** ** Decimal notation *)

(** [strconv.FormatInt(z, 10)], also the [%d] verb. *)
Definition fmt_d (z : Z) : string := NilZero.string_of_int (Z.to_int z).

(** One decimal digit. *)
Definition digit (d : Z) : ascii := ascii_of_N (Z.to_N (48 + d)).

(** The last [w] decimal digits of [z], zero-padded. *)
Fixpoint pad (w : nat) (z : Z) : string :=
  match w with
  | O => EmptyString
  | S w' => String (digit (z / 10 ^ Z.of_nat w')) (pad w' (z mod 10 ^ Z.of_nat w'))
  end.

(** [time]'s [appendInt]: at least [w] digits. *)
Definition append_int (w : nat) (z : Z) : string :=
  let body v := if decide (v < 10 ^ Z.of_nat w) then pad w v else fmt_d v in
  if decide (z < 0) then String "-" (body (- z)) else body z.

Definition is_digit (c : ascii) : bool :=
  let n := Z.of_N (N_of_ascii c) in (48 <=? n) && (n <=? 57).

Definition digit_val (c : ascii) : Z := Z.of_N (N_of_ascii c) - 48.

(** ** Byte strings *)

(** Go's [<] on strings, SQLite's BINARY collation: lexicographic on bytes. *)
Definition str_lt (a b : string) : Prop := String.compare a b = Lt.
Definition str_le (a b : string) : Prop := String.compare a b ≠ Gt.
#[export] Instance str_lt_dec a b : Decision (str_lt a b).
Proof. unfold str_lt. apply _. Defined.
#[export] Instance str_le_dec a b : Decision (str_le a b).
Proof. unfold str_le. apply _. Defined.

(** [strings.HasPrefix] *)
Definition has_prefix (p s : string) : bool := String.prefix p s.

(** [strings.TrimPrefix] *)
Definition trim_prefix (p s : string) : string :=
  if has_prefix p s then String.substring (String.length p) (String.length s) s else s.

(** [len(s)] *)
Definition str_len (s : string) : Z := Z.of_nat (String.length s).

(** [s[len(s)-4:]] *)
Definition last4 (s : string) : string := String.substring (String.length s - 4) 4 s.

(** ** UTF-8 *)

Definition byte_in (lo hi : Z) (c : ascii) : bool :=
  let n := Z.of_N (N_of_ascii c) in (lo <=? n) && (n <=? hi).

(** The number of bytes of the rune at the head of [s], 0 when they are not UTF-8
    (Go then yields one U+FFFD for the byte). *)
Definition rune_width (s : string) : nat :=
  let cont := byte_in 128 191 in
  match s with
  | EmptyString => 0%nat
  | String a s1 =>
    if byte_in 0 127 a then 1%nat else
    match s1 with
    | EmptyString => 0%nat
    | String b s2 =>
      if byte_in 194 223 a then (if cont b then 2%nat else 0%nat) else
      match s2 with
      | EmptyString => 0%nat
      | String c s3 =>
        let ok3 :=
          (byte_in 224 224 a && byte_in 160 191 b) || (byte_in 225 236 a && cont b) ||
          (byte_in 237 237 a && byte_in 128 159 b) || (byte_in 238 239 a && cont b) in
        if ok3 then (if cont c then 3%nat else 0%nat) else
        match s3 with
        | EmptyString => 0%nat
        | String d _ =>
          let ok4 :=
            (byte_in 240 240 a && byte_in 144 191 b) || (byte_in 241 243 a && cont b) ||
            (byte_in 244 244 a && byte_in 128 143 b) in
          if ok4 && cont c && cont d then 4%nat else 0%nat
        end
      end
    end
  end.

Definition replacement_rune : string :=
  String (ascii_of_N 239) (String (ascii_of_N 191) (String (ascii_of_N 189) EmptyString)).

Fixpoint runes_fuel (n : nat) (s : string) : list string :=
  match n, s with
  | S n', String _ rest =>
    match rune_width s with
    | O => replacement_rune :: runes_fuel n' rest
    | w => String.substring 0 w s :: runes_fuel n' (String.substring w (String.length s) s)
    end
  | _, _ => []
  end.

(** [[]rune(s)], each rune as the bytes [string(r)] gives back. *)
Definition runes (s : string) : list string := runes_fuel (String.length s) s.

Fixpoint concat_str (l : list string) : string :=
  match l with [] => EmptyString | s :: l' => (s +:+ concat_str l')%string end.

(** [utf8.RuneCountInString] *)
Definition rune_count (s : string) : Z := Z.of_nat (length (runes s)).

(** The bytes of [s] cut into runes: a rune's own bytes, or one byte that is not UTF-8. *)
Fixpoint chunks_fuel (n : nat) (s : string) : list string :=
  match n, s with
  | S n', String _ _ =>
    let w := Nat.max 1 (rune_width s) in
    String.substring 0 w s :: chunks_fuel n' (String.substring w (String.length s) s)
  | _, _ => []
  end.
Definition chunks (s : string) : list string := chunks_fuel (String.length s) s.

Definition bytes_str (l : list N) : string :=
  fold_right (λ n s, String (ascii_of_N n) s) EmptyString l.

(** [unicode.IsSpace], on a rune's bytes. *)
Definition space_runes : list string :=
  bytes_str <$> [[9]; [10]; [11]; [12]; [13]; [32]; [194; 133]; [194; 160]; [225; 154; 128];
    [226; 128; 128]; [226; 128; 129]; [226; 128; 130]; [226; 128; 131]; [226; 128; 132];
    [226; 128; 133]; [226; 128; 134]; [226; 128; 135]; [226; 128; 136]; [226; 128; 137];
    [226; 128; 138]; [226; 128; 168]; [226; 128; 169]; [226; 128; 175]; [226; 129; 159];
    [227; 128; 128]]%N.
Definition is_space (r : string) : bool := bool_decide (r ∈ space_runes).

Fixpoint drop_spaces (l : list string) : list string :=
  match l with
  | r :: l' => if is_space r then drop_spaces l' else l
  | [] => []
  end.

(** [strings.TrimSpace] *)
Definition trim_space (s : string) : string :=
  concat_str (rev (drop_spaces (rev (drop_spaces (chunks s))))).

(** [s[:n]] when [s] is longer than [n] bytes. *)
Definition cut_bytes (n : nat) (s : string) : string :=
  if decide (n < String.length s)%nat then String.substring 0 n s else s.

Fixpoint all_digits (s : string) : bool :=
  match s with String c s' => is_digit c && all_digits s' | EmptyString => true end.

Fixpoint digits_val (acc : Z) (s : string) : Z :=
  match s with String c s' => digits_val (10 * acc + digit_val c) s' | EmptyString => acc end.

(** [strconv.Atoi] *)
Definition atoi (s : string) : option Z :=
  let '(neg, ds) := match s with
                    | String "-" s' => (true, s')
                    | String "+" s' => (false, s')
                    | _ => (false, s)
                    end in
  if negb (String.eqb ds EmptyString) && all_digits ds then
    let v := if neg : bool then - digits_val 0 ds else digits_val 0 ds in
    if decide (int64_min <= v <= int64_max) then Some v else None
  else None.

(** ** More of [strings] *)

(** [strings.TrimRight(s, c)] *)
Fixpoint trim_right (c : ascii) (s : string) : string :=
  match s with
  | EmptyString => EmptyString
  | String a s' =>
    let r := trim_right c s' in
    if decide (r = EmptyString ∧ a = c) then EmptyString else String a r
  end.

(** [strings.Contains(s, sub)] *)
Fixpoint contains (sub s : string) : bool :=
  has_prefix sub s || match s with EmptyString => false | String _ s' => contains sub s' end.

(** [strings.Split(s, c)] *)
Fixpoint split_on (c : ascii) (s : string) : list string :=
  match s with
  | EmptyString => [EmptyString]
  | String a s' =>
    if decide (a = c) then EmptyString :: split_on c s'
    else match split_on c s' with
         | w :: ws => String a w :: ws
         | [] => [String a EmptyString]
         end
  end.

(** [strings.ReplaceAll(s, c, by)] *)
Fixpoint replace_char (c : ascii) (by_ s : string) : string :=
  match s with
  | EmptyString => EmptyString
  | String a s' => (if decide (a = c) then by_ +:+ replace_char c by_ s' else String a (replace_char c by_ s'))%string
  end.

(** [strings.Fields]: the maximal runs of runes that are not space. *)
Fixpoint fields_loop (l : list string) (cur : string) : list string :=
  match l with
  | [] => if decide (cur = EmptyString) then [] else [cur]
  | r :: l' =>
    if is_space r then (if decide (cur = EmptyString) then [] else [cur]) ++ fields_loop l' EmptyString
    else fields_loop l' (cur +:+ r)%string
  end.
Definition fields (s : string) : list string := fields_loop (chunks s) EmptyString.

(** [strings.ToUpper] and [strings.ToLower], as far as ASCII goes: the letters, and the runes
    outside ASCII whose image is in it.  The program only looks for ASCII in the result. *)
Definition upper_rune (r : string) : string :=
  match r with
  | String c EmptyString => if byte_in 97 122 c then String (ascii_of_N (N_of_ascii c - 32)) EmptyString else r
  | _ => if decide (r = bytes_str [196; 177]%N) then "I" else if decide (r = bytes_str [197; 191]%N) then "S" else r
  end%string.
Definition lower_rune (r : string) : string :=
  match r with
  | String c EmptyString => if byte_in 65 90 c then String (ascii_of_N (N_of_ascii c + 32)) EmptyString else r
  | _ => if decide (r = bytes_str [196; 176]%N) then "i" else if decide (r = bytes_str [226; 132; 170]%N) then "k" else r
  end%string.
Definition to_upper (s : string) : string := concat_str (upper_rune <$> runes s).
Definition to_lower (s : string) : string := concat_str (lower_rune <$> runes s).

Definition hex_digit (n : N) : ascii :=
  ascii_of_N (if (n <? 10)%N then 48 + n else 87 + n)%N.

(** [hex.EncodeToString] *)
Definition hex_string (bs : list N) : string :=
  fold_right (λ b s, String (hex_digit (b / 16)%N) (String (hex_digit (b mod 16)%N) s)) EmptyString bs.

(** Percent-encoding ([net/url]) of the bytes that are not [safe]. *)
Definition upper_hex (n : N) : ascii := ascii_of_N (if (n <? 10)%N then 48 + n else 55 + n)%N.
Fixpoint percent_escape (safe : ascii → bool) (s : string) : string :=
  match s with
  | EmptyString => EmptyString
  | String c s' =>
    if safe c then String c (percent_escape safe s')
    else String "%" (String (upper_hex (N_of_ascii c / 16)) (String (upper_hex (N_of_ascii c mod 16)) (percent_escape safe s')))
  end.

(** [io.ReadAll(io.LimitReader(r, n))] of a stream that delivers [body] and then ends, or
    breaks off with an error. *)
Definition read_limited (n : Z) (body : string) (broken : bool) : option string :=
  if decide (n <= str_len body) then Some (String.substring 0 (Z.to_nat n) body)
  else if broken then None else Some body.

(** ** float64 *)

(** IEEE binary64 values.  Samples and rules are decoded from JSON, so they are finite. *)
Definition float64 : Type := spec_float.
Definition f64_of_Z (z : Z) : float64 := binary_normalize 53 1024 z 0 false.
Definition f64_lt (a b : float64) : bool := SFltb a b.
Definition f64_le (a b : float64) : bool := SFleb a b.
Definition f64_add (a b : float64) : float64 := SFadd 53 1024 a b.
Definition f64_mul (a b : float64) : float64 := SFmul 53 1024 a b.
Definition f64_div (a b : float64) : float64 := SFdiv 53 1024 a b.
Definition f64_sub (a b : float64) : float64 := SFsub 53 1024 a b.

(** The float nearest to [n / d] ([0 < d]): 66 significant bits and a sticky one are enough to
    round correctly. *)
Definition f64_of_ratio (n d : Z) : float64 :=
  let a := Z.abs n in
  if decide (a = 0) then S754_zero (n <? 0) else
  let k := Z.max 0 (66 + Z.log2 d - Z.log2 a) in
  let q := a * 2 ^ k / d in
  let m := 2 * q + (if decide (a * 2 ^ k mod d = 0) then 0 else 1) in
  binary_normalize 53 1024 (if n <? 0 then - m else m) (- k - 1) false.

(** A decimal constant or literal: [m * 10 ^ e]. *)
Definition f64_of_dec (m e : Z) : float64 :=
  if decide (0 <= e) then f64_of_ratio (m * 10 ^ e) 1 else f64_of_ratio m (10 ^ (- e)).

(** [int(x)]: towards zero; out of range as amd64 gives it. *)
Definition f64_to_int (x : float64) : Z :=
  match x with
  | S754_zero _ => 0
  | S754_finite s m e =>
    let a := if decide (0 <= e) then Z.pos m * 2 ^ e else Z.pos m / 2 ^ (- e) in
    let v := if s then - a else a in
    if decide (int64_min <= v <= int64_max) then v else int64_min
  | _ => int64_min
  end.

(** What [json.Marshal] can write: not an infinity, not a NaN. *)
Definition f64_finite (x : float64) : bool :=
  match x with S754_infinity _ | S754_nan => false | _ => true end.

#[export] Instance float64_eq_dec : EqDecision float64.
Proof. unfold EqDecision, Decision, float64. repeat decide equality. Defined.

(** [n / d] rounded to the nearest integer, ties to even ([0 <= n], [0 < d]). *)
Definition div_half_even (n d : Z) : Z :=
  let q := n / d in let r := n mod d in
  match Z.compare (2 * r) d with
  | Lt => q | Gt => q + 1 | Eq => if Z.even q then q else q + 1
  end.

(** [fmt.Sprintf("%.<k>f", x)]: the exact binary value rounded to [k] decimals. *)
Definition fmt_f (k : nat) (x : float64) : string :=
  let sgn (s : bool) := if s then "-"%string else ""%string in
  let body (v : Z) :=
    let p := 10 ^ Z.of_nat k in
    (fmt_d (v / p) +:+ (if decide (k = 0%nat) then "" else "." +:+ pad k (v mod p)))%string in
  match x with
  | S754_zero s => (sgn s +:+ body 0)%string
  | S754_infinity s => if s then "-Inf"%string else "+Inf"%string
  | S754_nan => "NaN"%string
  | S754_finite s m e =>
    let n := Z.pos m * 10 ^ Z.of_nat k in
    (sgn s +:+ body (if decide (0 <= e) then n * 2 ^ e else div_half_even n (2 ^ (- e))))%string
  end.

(** ** JSON *)

(** A decoded JSON value ([any]); numbers keep their text. *)
Inductive json :=
| JNull
| JBool (b : bool)
| JNum (s : string)
| JStr (s : string)
| JArr (l : list json)
| JObj (l : list (string * json)).

(** ** Facts *)

Lemma wrap64_small z : int64_min <= z <= int64_max → wrap64 z = z.
Proof. unfold wrap64, int64_min, int64_max. intros H. rewrite Z.mod_small; lia. Qed.

Lemma wrap64_range z : int64_min <= wrap64 z <= int64_max.
Proof.
  unfold wrap64, int64_min, int64_max.
  pose proof (Z.mod_pos_bound (z + 2 ^ 63) (2 ^ 64) eq_refl). lia.
Qed.

Lemma time_sub_small t u :
  int64_min <= t - u <= int64_max → time_sub t u = t - u.
Proof. intros H. unfold time_sub. rewrite !decide_False by lia. done. Qed.

Lemma str_compare_refl s : String.compare s s = Eq.
Proof.
  pose proof (String.compare_antisym s s) as H.
  by destruct (String.compare s s).
Qed.

Lemma str_lt_irrefl s : ¬ str_lt s s.
Proof. unfold str_lt. by rewrite str_compare_refl. Qed.

Example runes_example : length (runes "失联!") = 3%nat.
Proof. vm_compute. reflexivity. Qed.

Example fmt_f_example : fmt_f 2 (S754_finite false 6333186975989760 (-46)) = "90.00"%string.
Proof. vm_compute. reflexivity. Qed.

Example trim_space_example :
  trim_space (bytes_str [32; 97; 32; 98; 227; 128; 128; 10]%N) = "a b"%string.
Proof. vm_compute. reflexivity. Qed.

Example atoi_example : atoi "-120" = Some (-120) ∧ atoi "1.5" = None ∧ atoi "9223372036854775808" = None.
Proof. vm_compute. done. Qed.

(** Parts of a string. *)
Lemma substring_length n m s : (String.length (String.substring n m s) <= m)%nat.
Proof. revert n m. induction s as [|c s IH]; intros [|n] [|m]; cbn; try lia; [apply le_n_S, IH|apply IH|apply IH]. Qed.

Lemma substring_length_le n m s : (String.length (String.substring n m s) <= String.length s)%nat.
Proof.
  revert n m. induction s as [|c s IH]; intros [|n] [|m]; cbn; try lia; [apply le_n_S, IH|etransitivity; [apply IH|lia]..].
Qed.

Lemma substring_all m s : (String.length s <= m)%nat → String.substring 0 m s = s.
Proof. revert s. induction m as [|m IH]; intros [|c s] H; cbn in *; try done; [lia|]. by rewrite IH by lia. Qed.
