(* ===== verification/Text.v ===== *)
(** How long texts are: a string cut to a number of runes has as many
    ([string([]rune(s)[:n])]), a number of 64 bits has few
    digits, and its digits are read back as the number. *)

From S2P Require Import Prelude GoBase.
From Stdlib Require Import Ascii Decimal DecimalString DecimalPos.
Local Open Scope Z_scope.

(** A rune, whatever follows it. *)
Definition whole (r : string) : Prop := (0 < String.length r)%nat ∧ ∀ t, rune_width (r +:+ t)%string = String.length r.

Lemma append_cons c s t : (String c s +:+ t = String c (s +:+ t))%string.
Proof. done. Qed.

Lemma substring_none s : String.substring 0 0 s = EmptyString.
Proof. by destruct s. Qed.

(** A rune of the bytes at hand, whatever follows them. *)
Local Ltac cutoff := intros _; cbn [String.substring String.length]; rewrite ?substring_none; split;
  [split; [cbn; lia|intros t; rewrite !append_cons; cbn -[byte_in] in *]
  |rewrite !append_cons, substring_all by lia; done].

Lemma rune_head s : (0 < rune_width s)%nat →
  let r := String.substring 0 (rune_width s) s in
  whole r ∧ s = (r +:+ String.substring (rune_width s) (String.length s) s)%string.
Proof.
  intros Hw. destruct s as [|a s1]; [cbn in Hw; lia|]. unfold whole. revert Hw. cbn -[byte_in String.substring].
  destruct (byte_in 0 127 a) eqn:E1; [cutoff; by rewrite E1|].
  destruct s1 as [|b s2]; [lia|]. destruct (byte_in 194 223 a) eqn:E2.
  { destruct (byte_in 128 191 b) eqn:C1; [|lia]. cutoff. by rewrite E1, E2, C1. }
  destruct s2 as [|c s3]; [lia|]. destruct (_ || _ || _ || _) eqn:E3.
  { destruct (byte_in 128 191 c) eqn:C1; [|lia]. cutoff. by rewrite E1, E2, E3, C1. }
  destruct s3 as [|d s4]; [lia|]. destruct (_ && _ && _) eqn:E4; [|lia].
  cutoff. by rewrite E1, E2, E3, E4.
Qed.

Lemma runes_fuel_enough n m s :
  (String.length s <= n)%nat → (String.length s <= m)%nat → runes_fuel n s = runes_fuel m s.
Proof.
  revert m s. induction n as [|n IH]; intros m s Hn Hm; [destruct s; [by destruct m|cbn in Hn; lia]|].
  destruct s as [|a s]; [by destruct m|]. destruct m as [|m]; [cbn in Hm; lia|]. cbn [runes_fuel String.length] in *.
  destruct (rune_width (String a s)) as [|w]; f_equal; apply IH; try lia; cbn [String.substring];
    (etransitivity; [apply substring_length_le|lia]).
Qed.

Lemma substring_app r m t :
  String.substring 0 (String.length r) (r +:+ t)%string = r ∧
  String.substring (String.length r) m (r +:+ t)%string = String.substring 0 m t.
Proof.
  induction r as [|c r [IH1 IH2]]; [split; [apply substring_none|done]|].
  rewrite append_cons. cbn [String.length String.substring]. by rewrite IH1, IH2.
Qed.

Lemma length_append r t : String.length (r +:+ t)%string = (String.length r + String.length t)%nat.
Proof. induction r as [|c r IH]; [done|]. rewrite append_cons. cbn. by rewrite IH. Qed.

Lemma runes_cons r t : whole r → runes (r +:+ t)%string = r :: runes t.
Proof.
  intros [Hr Hw]. unfold runes at 1. specialize (Hw t). destruct (substring_app r (String.length (r +:+ t)%string) t) as [H1 H2].
  rewrite length_append in *. revert Hw H1 H2. destruct (String.length r) as [|k] eqn:Ek; [lia|].
  destruct (r +:+ t)%string as [|a u] eqn:Eu; [destruct r; done|]. intros Hw H1 H2. cbn [runes_fuel Nat.add]. rewrite Hw, H1.
  f_equal. assert (String.length u = (k + String.length t)%nat) as Hl.
  { apply (f_equal String.length) in Eu. rewrite length_append, Ek in Eu. cbn in Eu. lia. }
  rewrite (substring_all _ t) in H2 by lia. cbn [String.length]. rewrite Hl.
  change (S (k + String.length t)) with (S k + String.length t)%nat. rewrite H2. apply runes_fuel_enough; lia.
Qed.

Lemma runes_concat l : Forall whole l → runes (concat_str l) = l.
Proof. induction 1 as [|r l Hr _ IH]; [done|]. cbn [concat_str]. by rewrite runes_cons, IH. Qed.

Lemma runes_whole s : Forall whole (runes s).
Proof.
  unfold runes. generalize (String.length s). intros n. revert s. induction n as [|n IH]; intros s; [constructor|].
  destruct s as [|a s]; [constructor|]. cbn [runes_fuel]. pose proof (rune_head (String a s)) as Hh.
  destruct (rune_width (String a s)) as [|w] eqn:E; constructor; try apply IH; [split; [cbn; lia|done]|].
  apply Hh. lia.
Qed.

(** A string cut to [n] runes has as many. *)
Lemma runes_cut n s : runes (concat_str (take n (runes s))) = take n (runes s).
Proof. apply runes_concat, Forall_take, runes_whole. Qed.

Lemma runes_length s : (length (runes s) <= String.length s)%nat.
Proof.
  unfold runes. generalize (String.length s) at 1. intros n. revert s. induction n as [|n IH]; intros s; [cbn; lia|].
  destruct s as [|a s]; [cbn; lia|]. cbn [runes_fuel String.length]. destruct (rune_width (String a s)) as [|w]; cbn [length];
    apply le_n_S; [apply IH|]. etransitivity; [apply IH|]. cbn [String.substring]. apply substring_length_le.
Qed.

(** ** Digits *)

Local Open Scope nat_scope.

Lemma little_digits u : nb_digits (Little.double u) ≤ S (nb_digits u) ∧ nb_digits (Little.succ_double u) ≤ S (nb_digits u).
Proof. induction u; cbn in *; lia. Qed.

Lemma positive_digits p : nb_digits (Pos.to_little_uint p) ≤ Pos.size_nat p.
Proof.
  induction p as [p IH|p IH|]; cbn [Pos.to_little_uint Pos.size_nat]; [| |cbn; lia];
    pose proof (little_digits (Pos.to_little_uint p)); lia.
Qed.

Lemma revapp_digits u v : nb_digits (revapp u v) = nb_digits u + nb_digits v.
Proof. revert v. induction u; intros v; cbn [revapp nb_digits]; try done; rewrite IHu; cbn [nb_digits]; lia. Qed.

Lemma uint_length u : String.length (NilZero.string_of_uint u) ≤ S (nb_digits u).
Proof.
  assert (∀ v, String.length (NilEmpty.string_of_uint v) = nb_digits v) as H by (induction v; cbn; congruence).
  destruct u; cbn; rewrite ?H; lia.
Qed.

(** A number of 64 bits, with its sign. *)
Lemma fmt_d_length z : (int64_min <= z <= int64_max)%Z → String.length (fmt_d z) ≤ 66.
Proof.
  intros Hz. unfold fmt_d. assert (∀ p, (Z.pos p <= 2 ^ 63)%Z → nb_digits (Pos.to_uint p) ≤ 64) as Hp.
  { intros p Hp. unfold Pos.to_uint, rev. rewrite revapp_digits. pose proof (positive_digits p). 
    assert (Pos.size_nat p ≤ Pos.size_nat (2 ^ 63)) as Hs.
    { destruct (decide (p = 2 ^ 63)%positive) as [->|Hne]; [done|]. apply Pos.size_nat_monotone. lia. }
    cbn [nb_digits]. change (Pos.size_nat (2 ^ 63)) with 64%nat in Hs. lia. }
  destruct z as [|p|p]; cbn [Z.to_int NilZero.string_of_int]; [cbn; lia|..].
  - pose proof (uint_length (Pos.to_uint p)). specialize (Hp p). unfold int64_max in Hz. lia.
  - cbn [String.length]. pose proof (uint_length (Pos.to_uint p)). specialize (Hp p). unfold int64_min in Hz. lia.
Qed.

Lemma pad_length w z : String.length (pad w z) = w.
Proof. revert z. induction w as [|w IH]; intros z; cbn; [done|]. by rewrite IH. Qed.

Local Open Scope Z_scope.

(** [Atoi] reads back what [Itoa] writes. *)
Lemma digits_val_acc u p : digits_val (Z.pos p) (NilEmpty.string_of_uint u) = Z.pos (Pos.of_uint_acc u p).
Proof.
  revert p. induction u; intros p; [done|..]; cbn [NilEmpty.string_of_uint digits_val Pos.of_uint_acc];
    rewrite <-IHu; f_equal; unfold digit_val; cbn [N_of_ascii N_of_digits]; lia.
Qed.
Lemma digits_val_uint u : digits_val 0 (NilEmpty.string_of_uint u) = Z.of_N (Pos.of_uint u).
Proof.
  induction u; [done|exact IHu|..]; cbn [NilEmpty.string_of_uint digits_val Pos.of_uint Z.of_N]; rewrite <-digits_val_acc; done.
Qed.
Lemma uint_digits u : all_digits (NilEmpty.string_of_uint u) = true.
Proof. induction u; cbn; done. Qed.

Lemma atoi_fmt_d z : int64_min <= z <= int64_max → atoi (fmt_d z) = Some z.
Proof.
  assert (∀ p, ∃ c s, NilZero.string_of_uint (Pos.to_uint p) = String c s ∧ is_digit c = true ∧
    all_digits (String c s) = true ∧ digits_val 0 (String c s) = Z.pos p) as Hp.
  { intros p. pose proof (Unsigned.of_to p) as Ho. pose proof (digits_val_uint (Pos.to_uint p)) as Hv. rewrite Ho in Hv.
    pose proof (uint_digits (Pos.to_uint p)) as Hd. unfold NilZero.string_of_uint.
    destruct (Pos.to_uint p); [done|..]; cbn [NilEmpty.string_of_uint] in *; eexists _, _; split_and!; try reflexivity; done. }
  intros Hz. unfold fmt_d. destruct z as [|p|p]; cbn [Z.to_int NilZero.string_of_int]; [done|..];
    destruct (Hp p) as (c & s & -> & Hc & Hd & Hv).
  - unfold atoi. assert (match String c s with String "-" s' => (true, s') | String "+" s' => (false, s') | _ => (false, String c s) end
      = (false, String c s)) as ->.
    { revert Hc. clear. unfold is_digit. destruct c as [[] [] [] [] [] [] [] []]; cbn; done. }
    rewrite Hd. cbn [negb String.eqb andb]. rewrite Hv. by rewrite decide_True.
  - unfold atoi. rewrite Hd. cbn [negb String.eqb andb]. rewrite Hv. by rewrite decide_True.
Qed.
