(* ===== verification/Regex.v ===== *)
(** Regular expressions as the program uses them ([regexp], anchored at both ends): classes of
    ASCII characters, concatenation, choice and repetition.  A class without non-ASCII
    characters never matches a byte of a longer rune, so matching bytes is matching runes.

    [matches] decides by derivatives; [in_re] is the language; [matches_iff] relates them. *)

From S2P Require Import Prelude GoBase.
From Stdlib Require Import Ascii.

Inductive regex :=
| Void
| Eps
| Cls (ranges : list (ascii * ascii))
| Cat (r1 r2 : regex)
| Alt (r1 r2 : regex)
| Star (r : regex).

Definition in_cls (ranges : list (ascii * ascii)) (c : ascii) : bool :=
  existsb (λ p, (N_of_ascii p.1 <=? N_of_ascii c)%N && (N_of_ascii c <=? N_of_ascii p.2)%N) ranges.

(** [x{0,n}], [x{m,m+n}], [x+], [x?] and a literal. *)
Fixpoint upto (n : nat) (r : regex) : regex :=
  match n with O => Eps | S n' => Alt Eps (Cat r (upto n' r)) end.
Fixpoint between (m n : nat) (r : regex) : regex :=
  match m with O => upto n r | S m' => Cat r (between m' n r) end.
Definition Plus (r : regex) : regex := Cat r (Star r).
Definition Opt (r : regex) : regex := Alt Eps r.
Fixpoint Lit (s : string) : regex :=
  match s with EmptyString => Eps | String c s' => Cat (Cls [(c, c)]) (Lit s') end.
Definition just (c : ascii) : ascii * ascii := (c, c).
Definition digit_cls : regex := Cls [("0", "9")]%char.

(** ** The language *)

Inductive in_re : regex → string → Prop :=
| in_eps : in_re Eps ""
| in_class ranges c : in_cls ranges c = true → in_re (Cls ranges) (String c "")
| in_cat r1 r2 s1 s2 : in_re r1 s1 → in_re r2 s2 → in_re (Cat r1 r2) (s1 +:+ s2)
| in_alt_l r1 r2 s : in_re r1 s → in_re (Alt r1 r2) s
| in_alt_r r1 r2 s : in_re r2 s → in_re (Alt r1 r2) s
| in_star_nil r : in_re (Star r) ""
| in_star_cons r s1 s2 : in_re r s1 → in_re (Star r) s2 → in_re (Star r) (s1 +:+ s2).

(** ** Matching *)

Fixpoint nullable (r : regex) : bool :=
  match r with
  | Eps | Star _ => true
  | Void | Cls _ => false
  | Cat r1 r2 => nullable r1 && nullable r2
  | Alt r1 r2 => nullable r1 || nullable r2
  end.

(** Concatenation and choice that forget what cannot match. *)
Definition cat (r1 r2 : regex) : regex :=
  match r1, r2 with Void, _ | _, Void => Void | Eps, _ => r2 | _, _ => Cat r1 r2 end.
Definition alt (r1 r2 : regex) : regex :=
  match r1, r2 with Void, _ => r2 | _, Void => r1 | _, _ => Alt r1 r2 end.

(** What is left to match after [c]. *)
Fixpoint deriv (c : ascii) (r : regex) : regex :=
  match r with
  | Void | Eps => Void
  | Cls ranges => if in_cls ranges c then Eps else Void
  | Cat r1 r2 => if nullable r1 then alt (cat (deriv c r1) r2) (deriv c r2) else cat (deriv c r1) r2
  | Alt r1 r2 => alt (deriv c r1) (deriv c r2)
  | Star r' => cat (deriv c r') (Star r')
  end.

Fixpoint matches (r : regex) (s : string) : bool :=
  match s with EmptyString => nullable r | String c s' => matches (deriv c r) s' end.

(** ** Matching decides the language *)

Lemma nullable_iff r : nullable r = true ↔ in_re r "".
Proof.
  split.
  - induction r as [| | |r1 IH1 r2 IH2|r1 IH1 r2 IH2|r IH]; cbn; intros H; try done; [by constructor| | |by constructor].
    + apply andb_true_iff in H as [H1 H2]. apply (in_cat r1 r2 "" ""); auto.
    + apply orb_true_iff in H as [H|H]; [apply in_alt_l|apply in_alt_r]; auto.
  - intros H. remember ""%string as s eqn:Es. induction H as [|ranges c Hc|r1 r2 s1 s2 H1 IH1 H2 IH2|r1 r2 s H IH|r1 r2 s H IH|r|r s1 s2 H1 IH1 H2 IH2];
      cbn; try done; [|by rewrite IH|by rewrite IH, orb_true_r].
    destruct s1; [|done]. cbn in Es. by rewrite IH1, IH2.
Qed.

Lemma in_void s : ¬ in_re Void s.
Proof. by inversion 1. Qed.

Lemma in_cat_iff r1 r2 s : in_re (Cat r1 r2) s ↔ ∃ s1 s2, s = (s1 +:+ s2)%string ∧ in_re r1 s1 ∧ in_re r2 s2.
Proof. split; [inversion 1; subst; eauto|intros (s1 & s2 & -> & ? & ?); by constructor]. Qed.

Lemma in_alt_iff r1 r2 s : in_re (Alt r1 r2) s ↔ in_re r1 s ∨ in_re r2 s.
Proof. split; [inversion 1; subst; eauto|intros [?|?]; [by apply in_alt_l|by apply in_alt_r]]. Qed.

Lemma in_eps_iff s : in_re Eps s ↔ s = ""%string.
Proof. split; [by inversion 1|intros ->; constructor]. Qed.

Lemma cat_iff r1 r2 s : in_re (cat r1 r2) s ↔ in_re (Cat r1 r2) s.
Proof.
  assert (∀ r, in_re (Cat Eps r) s ↔ in_re r s) as Heps.
  { intros r. rewrite in_cat_iff. split; [intros (s1 & s2 & -> & ->%in_eps_iff & H); done|].
    intros H. exists ""%string, s. split_and!; [done|constructor|done]. }
  assert (∀ r, ¬ in_re (Cat Void r) s) as Hvl.
  { intros r (s1 & s2 & _ & H & _)%in_cat_iff. by apply in_void in H. }
  assert (∀ r, ¬ in_re (Cat r Void) s) as Hvr.
  { intros r (s1 & s2 & _ & _ & H)%in_cat_iff. by apply in_void in H. }
  pose proof (in_void s). destruct r1; destruct r2; cbn; rewrite ?Heps; try done;
    (split; [done|intros Hf; exfalso; first [by eapply Hvl|by eapply Hvr]]).
Qed.

Lemma alt_iff r1 r2 s : in_re (alt r1 r2) s ↔ in_re r1 s ∨ in_re r2 s.
Proof.
  pose proof (in_void s). destruct r1; destruct r2; cbn; rewrite ?in_alt_iff; tauto.
Qed.

(** A non-empty word of an iteration begins with a non-empty word of the body. *)
Lemma star_cons r c s :
  in_re (Star r) (String c s) → ∃ s1 s2, s = (s1 +:+ s2)%string ∧ in_re r (String c s1) ∧ in_re (Star r) s2.
Proof.
  intros H. remember (Star r) as q eqn:Eq. remember (String c s) as t eqn:Et. revert c s Et.
  induction H as [| | | | |r'|r' s1 s2 H1 IH1 H2 IH2]; intros c0 s0 Et; try done. injection Eq as ->.
  destruct s1 as [|c1 s1]; cbn in Et; [by apply IH2|]. injection Et as <- <-. by exists s1, s2.
Qed.

Lemma deriv_iff c r s : in_re (deriv c r) s ↔ in_re r (String c s).
Proof.
  revert s. induction r as [| |ranges|r1 IH1 r2 IH2|r1 IH1 r2 IH2|r IH]; intros s; cbn [deriv].
  - split; intros H; inversion H.
  - split; intros H; inversion H.
  - destruct (in_cls ranges c) eqn:E; split.
    + intros ->%in_eps_iff. by constructor.
    + inversion 1. constructor.
    + by intros ?%in_void.
    + inversion 1 as [|? ? Hc| | | | |]. subst. congruence.
  - assert (in_re (cat (deriv c r1) r2) s ↔ ∃ s1 s2, s = (s1 +:+ s2)%string ∧ in_re r1 (String c s1) ∧ in_re r2 s2) as Hc.
    { rewrite cat_iff, in_cat_iff. by setoid_rewrite IH1. }
    assert (in_re (Cat r1 r2) (String c s) ↔ in_re (cat (deriv c r1) r2) s ∨ in_re r1 "" ∧ in_re r2 (String c s)) as Hs.
    { rewrite Hc, in_cat_iff. split.
      - intros (s1 & s2 & E & H1 & H2). destruct s1 as [|c1 s1]; cbn in E; [rewrite E; by right|].
        injection E as -> ->. left. by exists s1, s2.
      - intros [(s1 & s2 & -> & H1 & H2)|[H1 H2]]; [by exists (String c s1), s2|by exists ""%string, (String c s)]. }
    rewrite Hs, <-nullable_iff. destruct (nullable r1); [rewrite alt_iff, IH2|]; naive_solver.
  - by rewrite alt_iff, in_alt_iff, IH1, IH2.
  - rewrite cat_iff, in_cat_iff. split.
    + intros (s1 & s2 & -> & H1%IH & H2). by apply (in_star_cons r (String c s1)).
    + intros (s1 & s2 & -> & H1 & H2)%star_cons. exists s1, s2. by rewrite IH.
Qed.

Theorem matches_iff r s : matches r s = true ↔ in_re r s.
Proof.
  revert r. induction s as [|c s IH]; intros r; cbn [matches]; [apply nullable_iff|].
  by rewrite IH, deriv_iff.
Qed.

(** ** What a match is made of *)

Fixpoint str_all (p : ascii → bool) (s : string) : bool :=
  match s with EmptyString => true | String c s' => p c && str_all p s' end.

Lemma str_all_app p s1 s2 : str_all p (s1 +:+ s2) = str_all p s1 && str_all p s2.
Proof. induction s1 as [|c s1 IH]; [done|]. change (String c s1 +:+ s2)%string with (String c (s1 +:+ s2)). cbn [str_all]. by rewrite IH, andb_assoc. Qed.

(** Every class of the expression is within [p]. *)
Fixpoint re_all (p : ascii → bool) (r : regex) : Prop :=
  match r with
  | Void | Eps => True
  | Cls ranges => ∀ c, in_cls ranges c = true → p c = true
  | Cat r1 r2 | Alt r1 r2 => re_all p r1 ∧ re_all p r2
  | Star r' => re_all p r'
  end.

Lemma re_all_sound p r s : re_all p r → in_re r s → str_all p s = true.
Proof.
  intros Hp H. induction H as [|ranges c Hc|r1 r2 s1 s2 H1 IH1 H2 IH2|r1 r2 s H IH|r1 r2 s H IH|r|r s1 s2 H1 IH1 H2 IH2]; cbn in Hp |- *.
  - done.
  - by rewrite (Hp c Hc).
  - rewrite str_all_app, IH1, IH2; [done|apply Hp|apply Hp].
  - apply IH, Hp.
  - apply IH, Hp.
  - done.
  - by rewrite str_all_app, IH1, IH2.
Qed.

(** Bounds on the length. *)
Lemma in_upto ranges n s :
  in_re (upto n (Cls ranges)) s ↔ (String.length s <= n)%nat ∧ str_all (in_cls ranges) s = true.
Proof.
  revert s. induction n as [|n IH]; intros s; cbn [upto]; [rewrite in_eps_iff|rewrite in_alt_iff, in_eps_iff, in_cat_iff].
  - destruct s; cbn; split; intros H; try done. destruct H; lia.
  - split.
    + intros [->|(s1 & s2 & -> & H1 & H2)]; [split; [cbn; lia|done]|]. apply IH in H2 as [Hl Ha]. inversion H1 as [|? c Hc| | | | |]; subst.
      change (String c "" +:+ s2)%string with (String c s2). cbn. split; [lia|]. by rewrite Hc.
    + destruct s as [|c s]; [by left|]. cbn. intros [Hl [Hc Ha]%andb_true_iff]. right. exists (String c ""), s.
      split_and!; [done|by constructor|]. apply IH. split; [lia|done].
Qed.

Lemma in_between ranges m n s :
  in_re (between m n (Cls ranges)) s ↔ (m <= String.length s <= m + n)%nat ∧ str_all (in_cls ranges) s = true.
Proof.
  revert s. induction m as [|m IH]; intros s; cbn [between].
  - rewrite in_upto. split; intros [? ?]; (split; [lia|done]).
  - rewrite in_cat_iff. split.
    + intros (s1 & s2 & -> & H1 & H2). apply IH in H2 as [Hl Ha]. inversion H1 as [|? c Hc| | | | |]; subst.
      change (String c "" +:+ s2)%string with (String c s2). cbn. split; [lia|]. by rewrite Hc.
    + destruct s as [|c s]; cbn; [intros [? _]; lia|]. intros [Hl [Hc Ha]%andb_true_iff]. exists (String c ""), s.
      split_and!; [done|by constructor|]. apply IH. split; [lia|done].
Qed.

(** Deciding a claim about every character. *)
Lemma for_all_ascii (p : ascii → bool) :
  forallb p ((λ n, ascii_of_nat n) <$> seq 0 256) = true → ∀ c, p c = true.
Proof.
  intros H c. rewrite forallb_forall in H. apply H. rewrite <-(ascii_nat_embedding c). apply in_map.
  apply in_seq. pose proof (nat_ascii_bounded c). lia.
Qed.

(** A class within a predicate, and one predicate within another. *)
Lemma cls_within ranges (p : ascii → bool) :
  forallb (λ c, negb (in_cls ranges c) || p c) ((λ n, ascii_of_nat n) <$> seq 0 256) = true →
  ∀ c, in_cls ranges c = true → p c = true.
Proof. intros H c Hc. pose proof (for_all_ascii _ H c) as Hp. cbn in Hp. by rewrite Hc in Hp. Qed.

Lemma str_all_impl (p q : ascii → bool) s : (∀ c, p c = true → q c = true) → str_all p s = true → str_all q s = true.
Proof. intros Hpq. induction s as [|x s IH]; [done|]. cbn. intros [?%Hpq ?]%andb_true_iff. apply andb_true_iff. auto. Qed.
