(* ===== verification/GoTime.v ===== *)
(** The timestamps of the hub ([hub/util.go]): [fmtTS] renders an instant as RFC 3339 UTC
    with milliseconds, [parseTS] reads any RFC 3339 string.  Every time comparison the hub
    makes in SQL is a comparison of such strings, so the order theorem [fmtTS_order] below
    is what makes retention cut-offs and cursors mean what they say.

    An instant ([time.Time] in UTC) is the number of nanoseconds since the Unix epoch. *)

From S2P Require Import Prelude GoBase.
From Stdlib Require Import Ascii.
Local Open Scope Z_scope.

(** ** The proleptic Gregorian calendar ([time.Date] and [Time.Date]) *)

(** Days since 1970-01-01 of a date; years start in March internally. *)
Definition days_from_civil (y m d : Z) : Z :=
  let y' := if decide (m <= 2) then y - 1 else y in
  let era := y' / 400 in
  let yoe := y' mod 400 in
  let mp := if decide (2 < m) then m - 3 else m + 9 in
  let doy := (153 * mp + 2) / 5 + d - 1 in
  era * 146097 + (yoe * 365 + yoe / 4 - yoe / 100 + doy) - 719468.

Definition civil_from_days (days : Z) : Z * Z * Z :=
  let z := days + 719468 in
  let era := z / 146097 in
  let doe := z mod 146097 in
  let yoe := (doe - doe / 1460 + doe / 36524 - doe / 146096) / 365 in
  let doy := doe - (365 * yoe + yoe / 4 - yoe / 100) in
  let mp := (5 * doy + 2) / 153 in
  let d := doy - (153 * mp + 2) / 5 + 1 in
  let m := if decide (mp < 10) then mp + 3 else mp - 9 in
  let y := yoe + era * 400 in
  (if decide (m <= 2) then y + 1 else y, m, d).

Definition is_leap (y : Z) : bool :=
  (y mod 4 =? 0) && (negb (y mod 100 =? 0) || (y mod 400 =? 0)).

(** [daysIn] *)
Definition days_in (m y : Z) : Z :=
  if decide (m = 2) then (if is_leap y then 29 else 28)
  else if decide (m = 4 ∨ m = 6 ∨ m = 9 ∨ m = 11) then 30 else 31.

Definition day_ns : Z := 24 * Hour.

(** [time.Date(y, m, d, hh, mm, ss, ns, time.UTC)] for fields in range. *)
Definition date_utc (y m d hh mm ss ns : Z) : Z :=
  days_from_civil y m d * day_ns + hh * Hour + mm * Minute + ss * Second + ns.

(** [Time.Truncate(d)]: down to a multiple of [d] since year 1 (for [d] dividing a day). *)
Definition truncate_to (d t : Z) : Z := t - t mod d.

(** ** Formatting *)

(* @src hub/util.go 22-22 tsFmt *)
(** The layout [2006-01-02T15:04:05.000Z]. *)
Definition tsFmt (y m d hh mm ss ms : Z) : string :=
  (append_int 4 y +:+ "-" +:+ pad 2 m +:+ "-" +:+ pad 2 d +:+ "T" +:+
   pad 2 hh +:+ ":" +:+ pad 2 mm +:+ ":" +:+ pad 2 ss +:+ "." +:+ pad 3 ms +:+ "Z")%string.

(* @src hub/util.go 28-28 fmtTS *)
(** [fmtTS(t)]: milliseconds, truncated. *)
Definition fmtTS (t : Z) : string :=
  let '(y, m, d) := civil_from_days (t / day_ns) in
  let sod := t mod day_ns in
  tsFmt y m d (sod / Hour) (sod mod Hour / Minute) (sod mod Minute / Second)
    (sod mod Second / Millisecond).

(** [t.UTC().Format(time.RFC3339)]: whole seconds. *)
Definition fmtRFC3339 (t : Z) : string :=
  let '(y, m, d) := civil_from_days (t / day_ns) in
  let sod := t mod day_ns in
  (append_int 4 y +:+ "-" +:+ pad 2 m +:+ "-" +:+ pad 2 d +:+ "T" +:+
   pad 2 (sod / Hour) +:+ ":" +:+ pad 2 (sod mod Hour / Minute) +:+ ":" +:+
   pad 2 (sod mod Minute / Second) +:+ "Z")%string.

(** ** Parsing: [time.Parse(time.RFC3339Nano, s)] *)

Definition lit (c : ascii) (s : string) : option string :=
  match s with
  | String c' r => if decide (c' = c) then Some r else None
  | EmptyString => None
  end.

(** [getnum]: two digits, or one when not [fixed]. *)
Definition getnum (fixed : bool) (s : string) : option (Z * string) :=
  match s with
  | EmptyString => None
  | String a r =>
    if is_digit a then
      match r with
      | String b r' =>
        if is_digit b then Some (10 * digit_val a + digit_val b, r')
        else if fixed then None else Some (digit_val a, r)
      | EmptyString => if fixed then None else Some (digit_val a, r)
      end
    else None
  end.

Definition parse_year (s : string) : option (Z * string) :=
  '(h, r) ← getnum true s; '(l, r') ← getnum true r; Some (100 * h + l, r').

(** The digits of a fraction, at most nine significant: value, digits used, rest. *)
Fixpoint frac_digits (s : string) (k : nat) (acc : Z) : Z * nat * string :=
  match s with
  | String c r =>
    if is_digit c then
      if decide (k < 9)%nat then frac_digits r (S k) (10 * acc + digit_val c)
      else frac_digits r k acc
    else (acc, k, s)
  | EmptyString => (acc, k, s)
  end.

(** An optional fraction of a second, in nanoseconds. *)
Definition parse_frac (s : string) : Z * string :=
  match s with
  | String c ((String c1 _) as r) =>
    if (Ascii.eqb c "." || Ascii.eqb c ",") && is_digit c1 then
      let '(v, k, r') := frac_digits r 0 0 in (v * 10 ^ Z.of_nat (9 - k), r')
    else (0, s)
  | _ => (0, s)
  end.

(** [Z07:00]: the offset east of UTC in seconds. *)
Definition parse_zone (s : string) : option (Z * string) :=
  match s with
  | String "Z" r => Some (0, r)
  | String sg r =>
    '(hr, r1) ← getnum true r; r2 ← lit ":" r1; '(mm, r3) ← getnum true r2;
    if decide (24 < hr ∨ 60 < mm) then None
    else if decide (sg = "+"%char) then Some ((hr * 60 + mm) * 60, r3)
    else if decide (sg = "-"%char) then Some (- ((hr * 60 + mm) * 60), r3)
    else None
  | EmptyString => None
  end.

(* @src hub/util.go 40-46 parseTS *)
Definition parseTS (s : string) : option Z :=
  '(y, s) ← parse_year s; s ← lit "-" s;
  '(m, s) ← getnum true s; s ← lit "-" s;
  '(d, s) ← getnum true s; s ← lit "T" s;
  '(hh, s) ← getnum false s; s ← lit ":" s;
  '(mm, s) ← getnum true s; s ← lit ":" s;
  '(ss, s) ← getnum true s;
  let '(ns, s) := parse_frac s in
  '(off, s) ← parse_zone s;
  if decide (s = EmptyString) then
    if decide (1 <= m <= 12 ∧ 1 <= d <= days_in m y ∧ hh < 24 ∧ mm < 60 ∧ ss < 60) then
      Some (date_utc y m d hh mm ss ns - off * Second)
    else None
  else None.

(* @src hub/util.go 49-58 parseTSOpt *)
(** [Ok None] is the nil time of an empty string. *)
Definition parseTSOpt (s : string) : outcome () (option Z) :=
  if decide (s = EmptyString) then Ok None
  else match parseTS s with None => Err () | Some t => Ok (Some t) end.

(* @src hub/util.go 31-37 fmtTSPtr *)
Definition fmtTSPtr (t : option Z) : option string := fmtTS <$> t.

(** The zero [time.Time] (year 1), what [parseTS] returns beside an error. *)
Definition zero_time : Z := date_utc 1 1 1 0 0 0 0.

(** [now.Truncate(d)]: rounded down since the zero time. *)
Definition time_truncate (t d : Z) : Z := t - (t - zero_time) mod d.

(** ** Calendar notions the proofs use *)

Definition year_start (y' : Z) : Z := 365 * y' + y' / 4 - y' / 100 + y' / 400 - 719468.

Definition valid_date (y m d : Z) : Prop := 1 <= m <= 12 ∧ 1 <= d <= days_in m y.

Definition date_lt (a b : Z * Z * Z) : Prop :=
  let '(y1, m1, d1) := a in let '(y2, m2, d2) := b in
  y1 < y2 ∨ (y1 = y2 ∧ (m1 < m2 ∨ (m1 = m2 ∧ d1 < d2))).

Definition mp_of (m : Z) : Z := if decide (2 < m) then m - 3 else m + 9.

Definition yp_of (y m : Z) : Z := if decide (m <= 2) then y - 1 else y.

Definition month_start (mp : Z) : Z := (153 * mp + 2) / 5.

(** The comparison of two numbers, refined by [k] when they are equal. *)
Definition lexcmp (a b : Z) (k : comparison) : comparison :=
  match a ?= b with Eq => k | c => c end.

(** The instants whose year is written with four digits. *)
Definition ts_range (t : Z) : Prop := date_utc 0 1 1 0 0 0 0 <= t < date_utc 10000 1 1 0 0 0 0.

Example fmtTS_epoch : fmtTS 0 = "1970-01-01T00:00:00.000Z"%string.
Proof. vm_compute. reflexivity. Qed.
Example parseTS_offset :
  parseTS "2026-09-18T14:29:58.25+08:00" = parseTS "2026-09-18T06:29:58.250Z".
Proof. vm_compute. reflexivity. Qed.
Example parseTS_bad_day : parseTS "2026-02-29T00:00:00Z" = None.
Proof. vm_compute. reflexivity. Qed.
Example fmtTS_some : fmtTS 1789712998250999999 = "2026-09-18T06:29:58.250Z"%string.
Proof. vm_compute. reflexivity. Qed.

(** ** The calendar *)

Lemma year_start_mono y1 y2 : y1 <= y2 → year_start y1 <= year_start y2.
Proof. unfold year_start. intros. Z.div_mod_to_equations. lia. Qed.

Lemma year_start_succ y : year_start (y + 1) - year_start y = (if is_leap (y + 1) then 366 else 365).
Proof.
  unfold year_start, is_leap.
  destruct ((y + 1) mod 4 =? 0) eqn:E4; destruct ((y + 1) mod 100 =? 0) eqn:E100; destruct ((y + 1) mod 400 =? 0) eqn:E400; cbn [andb negb orb].
  all: rewrite ?Z.eqb_eq, ?Z.eqb_neq in *; Z.div_mod_to_equations; lia.
Qed.

Lemma days_from_civil_eq y m d : days_from_civil y m d =
  let y' := if decide (m <= 2) then y - 1 else y in
  let mp := if decide (2 < m) then m - 3 else m + 9 in
  year_start y' + (153 * mp + 2) / 5 + d - 1.
Proof.
  unfold days_from_civil, year_start. cbv zeta.
  generalize (if decide (m <= 2) then y - 1 else y).
  generalize (if decide (2 < m) then m - 3 else m + 9). intros mp y'.
  assert (y' = 400 * (y' / 400) + y' mod 400) by (apply Z.div_mod; lia).
  assert (y' / 4 = 100 * (y' / 400) + (y' mod 400) / 4 /\ y' / 100 = 4 * (y' / 400) + (y' mod 400) / 100) as [??] by (Z.div_mod_to_equations; lia). lia.
Qed.

Lemma month_start_mono a b : a <= b → month_start a <= month_start b.
Proof. unfold month_start. intros. Z.div_mod_to_equations. lia. Qed.

Lemma valid_month_room y m d : valid_date y m d →
  month_start (mp_of m) + d <=
    (if decide (m = 2) then month_start 11 + (if is_leap y then 29 else 28) else month_start (mp_of m + 1)).
Proof.
  intros [Hm Hd].
  assert (m ∈ [1;2;3;4;5;6;7;8;9;10;11;12]) as Hin.
  { rewrite !elem_of_cons. lia. }
  unfold days_in, mp_of, month_start in *.
  repeat (apply elem_of_cons in Hin as [->|Hin];
    [repeat case_decide; try lia; try destruct (is_leap y); Z.div_mod_to_equations; lia|]).
  by apply elem_of_nil in Hin.
Qed.

Lemma days_from_civil_bounds y m d : valid_date y m d →
  year_start (yp_of y m) <= days_from_civil y m d < year_start (yp_of y m + 1) .
Proof.
  intros Hv. pose proof (valid_month_room _ _ _ Hv) as Hr. destruct Hv as [Hm Hd].
  rewrite days_from_civil_eq. fold (yp_of y m) (mp_of m). cbv zeta. fold (month_start (mp_of m)).
  pose proof (month_start_mono 0 (mp_of m)) as H0. pose proof (month_start_mono (mp_of m + 1) 11) as H11.
  change (month_start 0) with 0 in *. change (month_start 11) with 337 in *.
  assert (0 <= mp_of m <= 11) by (unfold mp_of; destruct (decide (2 < m)); lia).
  assert (m ≠ 2 → mp_of m + 1 <= 11) by (unfold mp_of; destruct (decide (2 < m)); lia).
  pose proof (year_start_succ (yp_of y m)) as Hs.
  destruct (decide (m = 2)).
  - subst m. replace (yp_of y 2 + 1) with y in * by (unfold yp_of; rewrite decide_True; lia).
    destruct (is_leap y); lia.
  - destruct (is_leap _); lia.
Qed.

Lemma days_from_civil_mono y1 m1 d1 y2 m2 d2 :
  valid_date y1 m1 d1 → valid_date y2 m2 d2 → date_lt (y1, m1, d1) (y2, m2, d2) →
  days_from_civil y1 m1 d1 < days_from_civil y2 m2 d2.
Proof.
  intros Hv1 Hv2 Hlt.
  pose proof (days_from_civil_bounds _ _ _ Hv1) as B1.
  pose proof (days_from_civil_bounds _ _ _ Hv2) as B2.
  pose proof (valid_month_room _ _ _ Hv1) as Hr. destruct Hv1 as [Hm1 Hd1], Hv2 as [Hm2 Hd2].
  assert (Hyp : yp_of y1 m1 < yp_of y2 m2 ∨
    (yp_of y1 m1 = yp_of y2 m2 ∧ (mp_of m1 < mp_of m2 ∨ (m1 = m2 ∧ d1 < d2)))).
  { unfold date_lt, yp_of, mp_of in *. repeat case_decide; lia. }
  destruct Hyp as [Hy|[Hy Hm]].
  - pose proof (year_start_mono (yp_of y1 m1 + 1) (yp_of y2 m2)). lia.
  - rewrite !days_from_civil_eq in *. fold (yp_of y1 m1) (yp_of y2 m2) (mp_of m1) (mp_of m2). cbv zeta in *. 
    fold (month_start (mp_of m1)) (month_start (mp_of m2)). rewrite Hy.
    destruct Hm as [Hm|[-> Hd]]; [|lia].
    pose proof (month_start_mono (mp_of m1 + 1) (mp_of m2)).
    destruct (decide (m1 = 2)); [|lia]. subst m1. unfold mp_of in Hm. rewrite (decide_False (P:=2 < 2)) in Hm by lia. destruct (decide (2 < m2)); lia.
Qed.

Lemma is_leap_era y era : is_leap (y + era * 400) = is_leap y.
Proof.
  unfold is_leap.
  assert ((y + era * 400) mod 4 = y mod 4 ∧ (y + era * 400) mod 100 = y mod 100 ∧
          (y + era * 400) mod 400 = y mod 400) as (-> & -> & ->); [|done].
  split_and!; Z.div_mod_to_equations; lia.
Qed.

Lemma doy_bounds doe : 0 <= doe < 146097 →
  let yoe := (doe - doe / 1460 + doe / 36524 - doe / 146096) / 365 in
  let doy := doe - (365 * yoe + yoe / 4 - yoe / 100) in
  0 <= yoe <= 399 ∧ 0 <= doy ∧ (doy <= 364 ∨ (doy = 365 ∧ is_leap (yoe + 1) = true)).
Proof.
  intros Hd. cbv zeta. set (yoe := (doe - doe / 1460 + doe / 36524 - doe / 146096) / 365).
  unfold is_leap.
  destruct ((yoe + 1) mod 4 =? 0) eqn:E4; destruct ((yoe + 1) mod 100 =? 0) eqn:E100;
    destruct ((yoe + 1) mod 400 =? 0) eqn:E400; cbn [andb negb orb]; unfold yoe in *; clear yoe.
  all: rewrite ?Z.eqb_eq, ?Z.eqb_neq in *; Z.div_mod_to_equations; lia.
Qed.

Lemma month_of_doy doy y : 0 <= doy → (doy <= 364 ∨ (doy = 365 ∧ is_leap y = true)) →
  let mp := (5 * doy + 2) / 153 in
  let m := if decide (mp < 10) then mp + 3 else mp - 9 in
  0 <= mp <= 11 ∧ ∀ y', (m = 2 → y' = y) → valid_date y' m (doy - month_start mp + 1).
Proof.
  intros H0 H1. cbv zeta. set (mp := (5 * doy + 2) / 153).
  assert (Hmp : 0 <= mp <= 11) by (unfold mp; Z.div_mod_to_equations; lia).
  split; [done|]. intros y' Hy. unfold valid_date, days_in, month_start.
  assert (Hq : 153 * mp <= 5 * doy + 2 < 153 * (mp + 1)) by (unfold mp; Z.div_mod_to_equations; lia).
  clearbody mp.
  assert (mp ∈ [0;1;2;3;4;5;6;7;8;9;10;11]) as Hin by (rewrite !elem_of_cons; lia).
  repeat (apply elem_of_cons in Hin as [->|Hin];
    [repeat case_decide; try lia; try (rewrite (Hy eq_refl) in *; destruct (is_leap y));
     Z.div_mod_to_equations; lia|]).
  by apply elem_of_nil in Hin.
Qed.

Lemma civil_from_days_valid z :
  let '(y, m, d) := civil_from_days z in valid_date y m d ∧ days_from_civil y m d = z.
Proof.
  unfold civil_from_days. cbv zeta.
  set (x := z + 719468). assert (Hx : z = x - 719468) by lia. rewrite Hx. clear Hx. clearbody x. clear z.
  pose proof (Z.div_mod x 146097 ltac:(lia)).
  pose proof (Z.mod_pos_bound x 146097 ltac:(lia)) as Hdoe.
  set (era := x / 146097) in *. set (doe := x mod 146097) in *. clearbody era doe.
  pose proof (doy_bounds doe Hdoe) as Hb. cbv zeta in Hb.
  set (yoe := (doe - doe / 1460 + doe / 36524 - doe / 146096) / 365) in *. clearbody yoe.
  remember (doe - (365 * yoe + yoe / 4 - yoe / 100)) as doy eqn:Edoy.
  destruct Hb as (Hyoe & H0 & Hdoy).
  pose proof (month_of_doy doy (yoe + 1) H0 Hdoy) as Hm. cbv zeta in Hm.
  set (mp := (5 * doy + 2) / 153) in *. clearbody mp.
  fold (month_start mp). destruct Hm as [Hmp Hm].
  set (m := if decide (mp < 10) then mp + 3 else mp - 9) in *.
  assert (Hmm : mp_of m = mp) by (unfold mp_of, m; repeat case_decide; lia).
  split.
  - destruct (Hm (yoe + 1) ltac:(done)) as [? Hd]. split; [done|].
    revert Hd. unfold days_in. destruct (decide (m = 2)) as [->|Hne]; [|done].
    rewrite (decide_True (P:=2 <= 2)) by lia.
    replace (yoe + era * 400 + 1) with (yoe + 1 + era * 400) by lia. by rewrite is_leap_era.
  - rewrite days_from_civil_eq. fold (mp_of m). cbv zeta. rewrite Hmm. fold (month_start mp).
    replace (if decide (m <= 2) then _ - 1 else _) with (yoe + era * 400)
      by (destruct (decide (m <= 2)); lia).
    unfold year_start. Z.div_mod_to_equations. lia.
Qed.



Lemma lexcmp_lt a b k : a < b → lexcmp a b k = Lt.
Proof. unfold lexcmp. by intros ->%Z.compare_lt_iff. Qed.

Lemma lexcmp_eq a k : lexcmp a a k = k.
Proof. unfold lexcmp. by rewrite Z.compare_refl. Qed.

Lemma digit_compare a b : 0 <= a < 10 → 0 <= b < 10 →
  Ascii.compare (digit a) (digit b) = (a ?= b).
Proof.
  intros Ha Hb. unfold Ascii.compare, digit. rewrite !N_ascii_embedding by lia.
  rewrite <-N2Z.inj_compare, !Z2N.id by lia.
  destruct (Z.compare_spec a b); [apply Z.compare_eq_iff|apply Z.compare_lt_iff|apply Z.compare_gt_iff]; lia.
Qed.

Lemma str_compare_cons a b s t :
  String.compare (String a s) (String b t) =
    match Ascii.compare a b with Eq => String.compare s t | c => c end.
Proof. reflexivity. Qed.

Lemma str_app_cons a s t : (String a s +:+ t)%string = String a (s +:+ t)%string.
Proof. reflexivity. Qed.

Lemma pad_compare w a b s t :
  0 <= a < 10 ^ Z.of_nat w → 0 <= b < 10 ^ Z.of_nat w →
  String.compare (pad w a +:+ s) (pad w b +:+ t) = lexcmp a b (String.compare s t).
Proof.
  revert a b. induction w as [|w IH]; intros a b Ha Hb.
  - change (10 ^ Z.of_nat 0) with 1 in *. replace a with 0 by lia. replace b with 0 by lia.
    by rewrite lexcmp_eq.
  - cbn [pad]. rewrite Nat2Z.inj_succ, Z.pow_succ_r in Ha, Hb by lia.
    set (p := 10 ^ Z.of_nat w) in *. assert (0 < p) by (apply Z.pow_pos_nonneg; lia).
    pose proof (Z.div_mod a p ltac:(lia)). pose proof (Z.mod_pos_bound a p ltac:(lia)).
    pose proof (Z.div_mod b p ltac:(lia)). pose proof (Z.mod_pos_bound b p ltac:(lia)).
    assert (0 <= a / p < 10) by (split; [apply Z.div_pos; lia|apply Z.div_lt_upper_bound; lia]).
    assert (0 <= b / p < 10) by (split; [apply Z.div_pos; lia|apply Z.div_lt_upper_bound; lia]).
    rewrite !str_app_cons, str_compare_cons, digit_compare, IH by lia.
    unfold lexcmp. destruct (Z.compare_spec (a / p) (b / p)) as [E|E|E].
    + rewrite E in *.
      destruct (Z.compare_spec (a mod p) (b mod p)); symmetry.
      * by replace (a ?= b) with Eq by (symmetry; apply Z.compare_eq_iff; lia).
      * by replace (a ?= b) with Lt by (symmetry; apply Z.compare_lt_iff; lia).
      * by replace (a ?= b) with Gt by (symmetry; apply Z.compare_gt_iff; lia).
    + replace (a ?= b) with Lt; [done|]. symmetry; apply Z.compare_lt_iff. nia.
    + replace (a ?= b) with Gt; [done|]. symmetry; apply Z.compare_gt_iff. nia.
Qed.

Lemma civil_mono q1 q2 : q1 < q2 → date_lt (civil_from_days q1) (civil_from_days q2).
Proof.
  intros Hlt. pose proof (civil_from_days_valid q1) as H1. pose proof (civil_from_days_valid q2) as H2.
  destruct (civil_from_days q1) as [[y1 m1] d1], (civil_from_days q2) as [[y2 m2] d2].
  destruct H1 as [V1 <-], H2 as [V2 <-].
  pose proof (days_from_civil_mono _ _ _ _ _ _ V2 V1) as Hm.
  assert (date_lt (y1, m1, d1) (y2, m2, d2) ∨ date_lt (y2, m2, d2) (y1, m1, d1) ∨
    (y1, m1, d1) = (y2, m2, d2)) as [?|[?|[= -> -> ->]]]; [|done|specialize (Hm ltac:(done)); lia|lia].
  unfold date_lt. destruct (Z.compare_spec y1 y2), (Z.compare_spec m1 m2), (Z.compare_spec d1 d2); subst; auto; lia.
Qed.

Lemma civil_year_range t y m d :
  ts_range t → civil_from_days (t / day_ns) = (y, m, d) → 0 <= y < 10000.
Proof.
  unfold ts_range, date_utc. intros Ht E. pose proof (civil_from_days_valid (t / day_ns)) as Hv.
  rewrite E in Hv. destruct Hv as [Hv Hd].
  assert (days_from_civil 0 1 1 <= t / day_ns < days_from_civil 10000 1 1) as Hq.
  { split; [apply Z.div_le_lower_bound|apply Z.div_lt_upper_bound]; unfold day_ns, Hour, Minute, Second in *; lia. }
  assert (V0 : valid_date 0 1 1) by (by vm_compute).
  assert (V1 : valid_date 10000 1 1) by (by vm_compute).
  pose proof (days_from_civil_mono _ _ _ _ _ _ Hv V0) as M0.
  pose proof (days_from_civil_mono _ _ _ _ _ _ V1 Hv) as M1.
  unfold date_lt, valid_date in *.
  destruct (decide (y < 0)); [lia|]. destruct (decide (y < 10000)); [lia|].
  destruct (decide (y = 10000 ∧ m = 1 ∧ d = 1)) as [(-> & -> & ->)|]; lia.
Qed.

(** The time of day, as the four fields the layout prints. *)
Lemma time_of_day_lex r1 r2 :
  0 <= r1 < day_ns → 0 <= r2 < day_ns →
  lexcmp (r1 / Hour) (r2 / Hour)
    (lexcmp (r1 mod Hour / Minute) (r2 mod Hour / Minute)
      (lexcmp (r1 mod Minute / Second) (r2 mod Minute / Second)
        (lexcmp (r1 mod Second / Millisecond) (r2 mod Second / Millisecond) Eq)))
  = (r1 / Millisecond ?= r2 / Millisecond).
Proof.
  intros H1 H2. unfold lexcmp, Hour, Minute, Second, Millisecond in *.
  repeat match goal with |- context [?a ?= ?b] => 
    lazymatch goal with H : context [a ?= b] |- _ => fail | _ => 
    destruct (Z.compare_spec a b) end end; try done; exfalso; Z.div_mod_to_equations; lia.
Qed.

Lemma lit_compare c s t : String.compare (String c s) (String c t) = String.compare s t.
Proof.
  rewrite str_compare_cons. unfold Ascii.compare. by rewrite N.compare_refl.
Qed.

Lemma append_int_pad w z : 0 <= z < 10 ^ Z.of_nat w → append_int w z = pad w z.
Proof. intros H. unfold append_int. rewrite decide_False, decide_True by lia. done. Qed.

Lemma tod_ranges t : let sod := t mod day_ns in
  0 <= sod < day_ns ∧ 0 <= sod / Hour < 24 ∧ 0 <= sod mod Hour / Minute < 60 ∧
  0 <= sod mod Minute / Second < 60 ∧ 0 <= sod mod Second / Millisecond < 1000.
Proof.
  cbv zeta. unfold day_ns, Hour, Minute, Second, Millisecond. Z.div_mod_to_equations. lia.
Qed.

Lemma tsFmt_compare y1 m1 d1 hh1 mm1 ss1 ms1 y2 m2 d2 hh2 mm2 ss2 ms2 :
  0 <= y1 < 10000 → 0 <= m1 < 100 → 0 <= d1 < 100 → 0 <= hh1 < 100 → 0 <= mm1 < 100 →
  0 <= ss1 < 100 → 0 <= ms1 < 1000 →
  0 <= y2 < 10000 → 0 <= m2 < 100 → 0 <= d2 < 100 → 0 <= hh2 < 100 → 0 <= mm2 < 100 →
  0 <= ss2 < 100 → 0 <= ms2 < 1000 →
  String.compare (tsFmt y1 m1 d1 hh1 mm1 ss1 ms1) (tsFmt y2 m2 d2 hh2 mm2 ss2 ms2) =
  lexcmp y1 y2 (lexcmp m1 m2 (lexcmp d1 d2
    (lexcmp hh1 hh2 (lexcmp mm1 mm2 (lexcmp ss1 ss2 (lexcmp ms1 ms2 Eq)))))).
Proof.
  intros. unfold tsFmt. rewrite !append_int_pad by done.
  repeat first [rewrite pad_compare by done; f_equal
               |progress change (EmptyString +:+ ?s)%string with s
               |rewrite str_app_cons
               |rewrite lit_compare].
Qed.

Lemma date_lt_lexcmp y1 m1 d1 y2 m2 d2 k : date_lt (y1, m1, d1) (y2, m2, d2) →
  lexcmp y1 y2 (lexcmp m1 m2 (lexcmp d1 d2 k)) = Lt ∧
  lexcmp y2 y1 (lexcmp m2 m1 (lexcmp d2 d1 k)) = Gt.
Proof.
  unfold date_lt, lexcmp. intros H.
  destruct (Z.compare_spec y1 y2), (Z.compare_spec y2 y1); try lia; [|done].
  destruct (Z.compare_spec m1 m2), (Z.compare_spec m2 m1); try lia; [|done].
  destruct (Z.compare_spec d1 d2), (Z.compare_spec d2 d1); try lia; done.
Qed.

Lemma day_lt_ms t1 t2 : t1 / day_ns < t2 / day_ns → t1 / Millisecond < t2 / Millisecond.
Proof. unfold Millisecond, day_ns, Hour, Minute, Second. intros. Z.div_mod_to_equations. lia. Qed.

Lemma days_in_le m y : days_in m y <= 31.
Proof. unfold days_in. repeat case_decide; destruct (is_leap y); lia. Qed.

Lemma fmtTS_compare t1 t2 : ts_range t1 → ts_range t2 →
  String.compare (fmtTS t1) (fmtTS t2) = (t1 / Millisecond ?= t2 / Millisecond).
Proof.
  intros R1 R2. unfold fmtTS.
  destruct (civil_from_days (t1 / day_ns)) as [[y1 m1] d1] eqn:E1.
  destruct (civil_from_days (t2 / day_ns)) as [[y2 m2] d2] eqn:E2.
  pose proof (civil_year_range _ _ _ _ R1 E1). pose proof (civil_year_range _ _ _ _ R2 E2).
  pose proof (civil_from_days_valid (t1 / day_ns)) as V1. rewrite E1 in V1.
  pose proof (civil_from_days_valid (t2 / day_ns)) as V2. rewrite E2 in V2.
  pose proof (days_in_le m1 y1). pose proof (days_in_le m2 y2).
  destruct V1 as [[Vm1 Vd1] D1], V2 as [[Vm2 Vd2] D2].
  pose proof (tod_ranges t1) as T1. pose proof (tod_ranges t2) as T2. cbv zeta in *.
  rewrite tsFmt_compare, time_of_day_lex by lia.
  destruct (Z.compare_spec (t1 / day_ns) (t2 / day_ns)) as [Eq|Lt|Gt].
  - rewrite Eq, E2 in E1. injection E1 as -> -> ->. rewrite !lexcmp_eq.
    unfold Millisecond, day_ns, Hour, Minute, Second in *.
    destruct (Z.compare_spec (t1 / 1000000) (t2 / 1000000));
      [apply Z.compare_eq_iff|apply Z.compare_lt_iff|apply Z.compare_gt_iff];
      Z.div_mod_to_equations; lia.
  - pose proof (civil_mono _ _ Lt) as Hd. rewrite E1, E2 in Hd.
    rewrite (proj1 (date_lt_lexcmp _ _ _ _ _ _ _ Hd)).
    symmetry. apply Z.compare_lt_iff, day_lt_ms, Lt.
  - pose proof (civil_mono _ _ Gt) as Hd. rewrite E1, E2 in Hd.
    rewrite (proj2 (date_lt_lexcmp _ _ _ _ _ _ _ Hd)).
    symmetry. apply Z.compare_gt_iff, day_lt_ms, Gt.
Qed.

(** ** Reading a rendered instant back *)

Lemma is_digit_digit d : 0 <= d < 10 → is_digit (digit d) = true.
Proof. intros H. unfold is_digit, digit. rewrite N_ascii_embedding by lia. cbv zeta. rewrite andb_true_iff, !Z.leb_le. lia. Qed.

Lemma digit_val_digit d : 0 <= d < 10 → digit_val (digit d) = d.
Proof. intros H. unfold digit_val, digit. rewrite N_ascii_embedding by lia. lia. Qed.

Lemma pad_2 x : pad 2 x = String (digit (x / 10)) (String (digit (x mod 10 / 1)) EmptyString).
Proof. reflexivity. Qed.

Lemma getnum_pad f x s : 0 <= x < 100 → getnum f (pad 2 x +:+ s)%string = Some (x, s).
Proof.
  intros H. rewrite pad_2, Z.div_1_r, !str_app_cons. cbn [getnum].
  assert (0 <= x / 10 < 10 ∧ 0 <= x mod 10 < 10 ∧ 10 * (x / 10) + x mod 10 = x) as (? & ? & Hx)
    by (Z.div_mod_to_equations; lia).
  rewrite !is_digit_digit, !digit_val_digit, Hx by done. done.
Qed.

Lemma str_app_assoc a b c : ((a +:+ b) +:+ c = a +:+ (b +:+ c))%string.
Proof. induction a as [|x a IH]; [done|]. by rewrite !str_app_cons, IH. Qed.

Lemma parse_year_pad y s : 0 <= y < 10000 → parse_year (pad 4 y +:+ s)%string = Some (y, s).
Proof.
  intros H. unfold parse_year.
  assert (E : pad 4 y = (pad 2 (y / 100) +:+ pad 2 (y mod 100))%string).
  { cbn [pad]. change (10 ^ Z.of_nat 3) with 1000. change (10 ^ Z.of_nat 2) with 100.
    change (10 ^ Z.of_nat 1) with 10. change (10 ^ Z.of_nat 0) with 1.
    rewrite !str_app_cons. change (EmptyString +:+ ?s)%string with s.
    assert (y / 1000 = y / 100 / 10 ∧ y mod 1000 / 100 = (y / 100) mod 10 / 1 ∧
      (y mod 1000) mod 100 / 10 = y mod 100 / 10 ∧
      ((y mod 1000) mod 100) mod 10 / 1 = (y mod 100) mod 10 / 1) as (-> & -> & -> & ->)
      by (Z.div_mod_to_equations; lia).
    done. }
  rewrite E, str_app_assoc.
  rewrite getnum_pad by (Z.div_mod_to_equations; lia). cbn [mbind option_bind].
  rewrite getnum_pad by (Z.div_mod_to_equations; lia). cbn [mbind option_bind].
  do 2 f_equal. Z.div_mod_to_equations; lia.
Qed.

Lemma frac_digits_digit d s k acc : 0 <= d < 10 → (k < 9)%nat →
  frac_digits (String (digit d) s) k acc = frac_digits s (S k) (10 * acc + d).
Proof.
  intros Hd Hk. cbn [frac_digits]. rewrite is_digit_digit, digit_val_digit by done.
  by rewrite decide_True.
Qed.

Lemma parse_frac_pad ms : 0 <= ms < 1000 →
  parse_frac ("." +:+ pad 3 ms +:+ "Z")%string = (ms * Millisecond, "Z"%string).
Proof.
  intros H. cbn [pad]. change (10 ^ Z.of_nat 2) with 100.
  change (10 ^ Z.of_nat 1) with 10. change (10 ^ Z.of_nat 0) with 1. rewrite Z.div_1_r.
  rewrite !str_app_cons. change (EmptyString +:+ ?s)%string with s.
  set (a := ms / 100). set (b := ms mod 100 / 10). set (c := (ms mod 100) mod 10).
  assert (0 <= a < 10 ∧ 0 <= b < 10 ∧ 0 <= c < 10 ∧ 100 * a + 10 * b + c = ms) as (? & ? & ? & E)
    by (unfold a, b, c; Z.div_mod_to_equations; lia).
  unfold parse_frac. rewrite is_digit_digit by done.
  change ((Ascii.eqb "." "." || Ascii.eqb "." ",") && true) with true. cbv iota.
  rewrite !frac_digits_digit by (done || lia).
  change (frac_digits ("" +:+ "Z")%string ?k ?v) with (v, k, "Z"%string). cbv beta iota.
  clearbody a b c. subst ms. change (10 ^ Z.of_nat (9 - 3)) with Millisecond.
  f_equal. unfold Millisecond. lia.
Qed.

Lemma parse_fmt t : ts_range t → parseTS (fmtTS t) = Some (truncate_to Millisecond t).
Proof.
  intros R. unfold fmtTS.
  destruct (civil_from_days (t / day_ns)) as [[y m] d] eqn:E.
  pose proof (civil_year_range _ _ _ _ R E).
  pose proof (civil_from_days_valid (t / day_ns)) as V. rewrite E in V. destruct V as [V D].
  pose proof (days_in_le m y).
  pose proof (tod_ranges t) as T. cbv zeta in T.
  pose proof V as [Vm Vd].
  set (hh := t mod day_ns / Hour) in *. set (mm := (t mod day_ns) mod Hour / Minute) in *.
  set (ss := (t mod day_ns) mod Minute / Second) in *.
  set (ms := (t mod day_ns) mod Second / Millisecond) in *.
  unfold parseTS, tsFmt. rewrite append_int_pad by done.
  rewrite parse_year_pad by done. cbn [mbind option_bind].
  change (lit "-" ("-" +:+ ?s)%string) with (Some s). cbn [mbind option_bind].
  rewrite getnum_pad by lia. cbn [mbind option_bind].
  change (lit "-" ("-" +:+ ?s)%string) with (Some s). cbn [mbind option_bind].
  rewrite getnum_pad by lia. cbn [mbind option_bind].
  change (lit "T" ("T" +:+ ?s)%string) with (Some s). cbn [mbind option_bind].
  rewrite getnum_pad by lia. cbn [mbind option_bind].
  change (lit ":" (":" +:+ ?s)%string) with (Some s). cbn [mbind option_bind].
  rewrite getnum_pad by lia. cbn [mbind option_bind].
  change (lit ":" (":" +:+ ?s)%string) with (Some s). cbn [mbind option_bind].
  rewrite getnum_pad by lia. cbn [mbind option_bind].
  rewrite parse_frac_pad by lia.
  change (parse_zone "Z") with (Some (0, EmptyString)). cbn [mbind option_bind].
  rewrite decide_True by done. rewrite decide_True by lia.
  f_equal. unfold date_utc, truncate_to. rewrite D. subst hh mm ss ms.
  unfold day_ns, Hour, Minute, Second, Millisecond in *. Z.div_mod_to_equations. lia.
Qed.

(** C18: [fmtTS] is an order embedding: two rendered instants compare as byte strings
    exactly as the instants do at millisecond precision, so the hub's SQL string
    comparisons ([received_at < msgCut], [ts >= from], ...) are time comparisons. *)
Theorem fmtTS_order t1 t2 (R1 : ts_range t1) (R2 : ts_range t2) :
  (str_lt (fmtTS t1) (fmtTS t2) ↔ t1 / Millisecond < t2 / Millisecond) ∧
  (fmtTS t1 = fmtTS t2 ↔ t1 / Millisecond = t2 / Millisecond).
Proof.
  pose proof (fmtTS_compare t1 t2 R1 R2) as H. split.
  - unfold str_lt. rewrite H. apply Z.compare_lt_iff.
  - rewrite <-Z.compare_eq_iff, <-H. split.
    + intros ->. apply str_compare_refl.
    + apply String.compare_eq_iff.
Qed.

Lemma fmtTS_order_witness :
  ts_range 1789712998250000000 ∧
  (str_lt (fmtTS 1789712998250000000) (fmtTS 1789712998999000000) ↔
     1789712998250000000 / Millisecond < 1789712998999000000 / Millisecond).
Proof.
  split; [by vm_compute|].
  apply (fmtTS_order 1789712998250000000 1789712998999000000); by vm_compute.
Defined.

(** C17: of an instant in the years 0 to 9999 [parseTS] reads back what [fmtTS] wrote, truncated
    to the millisecond. *)
Theorem parseTS_fmtTS t (R : ts_range t) :
  parseTS (fmtTS t) = Some (truncate_to Millisecond t).
Proof. apply parse_fmt, R. Qed.

Lemma parseTS_fmtTS_witness :
  parseTS (fmtTS 1789712998250999999) = Some 1789712998250000000.
Proof. apply (parseTS_fmtTS 1789712998250999999). by vm_compute. Defined.
