(* ===== verification/Queue.v ===== *)
(** The agent's persistent queue ([agent/internal/queue/queue.go]).

    The SQLite file is the record [qdb]: one list per queue table in rowid order (an
    [INTEGER PRIMARY KEY AUTOINCREMENT] table is stored in id order, and ids are only ever
    handed out upwards), the [meta] counters and the [overflow] ledger.  Every database
    call may fail: the oracle [q_io] says which, so the early returns and the rollbacks of
    the code are paths of the model.  [q_clock] is [q.now()] at each database call. *)

From S2P Require Import Prelude GoBase.
Local Open Scope Z_scope.

(** What the queue cannot control: the clock and which database calls fail. *)
Class QueueEnv := { q_clock : nat → Z; q_io : nat → bool }.

(* @src agent/internal/queue/queue.go 33-47 MetricsRow, EventRow *)
Record qrow (P : Type) := QRow {
  q_ID : Z;
  q_Seq : Z;
  q_Payload : P;
  q_CreatedAt : Z }.
Arguments QRow {P}.
Arguments q_ID {P}.
Arguments q_Seq {P}.
Arguments q_Payload {P}.
Arguments q_CreatedAt {P}.

(* @src agent/internal/queue/queue.go 49-54 Overflow *)
Record Overflow := {
  ov_Dropped : Z;
  ov_FirstAt : Z;
  ov_LastAt : Z }.

(** One queue table: its rows in id order and SQLite's AUTOINCREMENT high-water mark. *)
Record qtbl (P : Type) := { qt_rows : list (qrow P); qt_autoinc : Z }.
Arguments Build_qtbl {P}.
Arguments qt_rows {P}.
Arguments qt_autoinc {P}.

(* @src agent/internal/queue/queue.go 67-92 !Open *)
(** The schema: the tables [meta], [metrics_q], [events_q] and [overflow]. *)
Record qdb (P : Type) := {
  qd_meta : gmap string Z;
  qd_metrics_q : qtbl P;
  qd_events_q : qtbl P;
  qd_overflow : gmap string Overflow }.
Arguments Build_qdb {P}.
Arguments qd_meta {P}.
Arguments qd_metrics_q {P}.
Arguments qd_events_q {P}.
Arguments qd_overflow {P}.

(* @src agent/internal/queue/queue.go 17-23 KindMetrics, KindEvents *)
Inductive qtab := metrics_q | events_q.

#[export] Instance qtab_eq_dec : EqDecision qtab.
Proof. solve_decision. Defined.

Definition kind_of (t : qtab) : string :=
  match t with metrics_q => "metrics" | events_q => "events" end.

(* @src agent/internal/queue/queue.go 25-31 Queue *)
(** The open database, with the number of database calls made so far. *)
Record Queue (P : Type) := {
  q_db : qdb P;
  q_calls : nat;
  q_maxBatch : Z;
  q_maxEvents : Z }.
Arguments Build_Queue {P}.
Arguments q_db {P}.
Arguments q_calls {P}.
Arguments q_maxBatch {P}.
Arguments q_maxEvents {P}.

(** Any error SQLite returned. *)
Inductive qerr := QueueIO.

(** The freshly created queue file. *)
Definition empty_qdb {P} : qdb P :=
  {| qd_meta := ∅; qd_metrics_q := {| qt_rows := []; qt_autoinc := 0 |};
     qd_events_q := {| qt_rows := []; qt_autoinc := 0 |}; qd_overflow := ∅ |}.

(* @src agent/internal/queue/queue.go 98-103 !Open *)
(** [Open] on an existing (or, with [empty_qdb], a new) file: nothing is lost or reset. *)
Definition Open {P} (db : qdb P) (maxBatches maxEvents : Z) : Queue P :=
  {| q_db := db; q_calls := 0; q_maxBatch := maxBatches; q_maxEvents := maxEvents |}.

Section queue.
Context `{QE : QueueEnv} {P : Type}.
Notation QM := (stM (Queue P) qerr).

Definition qset_db (db : qdb P) (q : Queue P) : Queue P :=
  {| q_db := db; q_calls := q_calls q; q_maxBatch := q_maxBatch q; q_maxEvents := q_maxEvents q |}.

Definition qtick (q : Queue P) : Queue P :=
  {| q_db := q_db q; q_calls := S (q_calls q); q_maxBatch := q_maxBatch q;
     q_maxEvents := q_maxEvents q |}.

(** One database call: fails when the oracle says so, else reads and writes the file. *)
Definition q_call {A} (f : qdb P → A * qdb P) : QM A := λ q,
  if q_io (q_calls q) then (Err QueueIO, qtick q)
  else let (a, db) := f (q_db q) in (Ok a, qtick (qset_db db q)).

Definition q_query {A} (f : qdb P → A) : QM A := q_call (λ db, (f db, db)).
Definition q_exec (f : qdb P → qdb P) : QM () := q_call (λ db, ((), f db)).

(** [q.now().UnixNano()], read while building the next statement. *)
Definition q_now : QM Z := st_gets (λ q, q_clock (q_calls q)).

(** [Begin]; body; [Commit], with [defer tx.Rollback()]. *)
Definition q_tx {A} (body : QM A) : QM A := λ q,
  match (q_query (λ _, ()) ;; a ← body; q_query (λ _, ()) ;; mret a) q with
  | (Ok a, q') => (Ok a, q')
  | (Err e, q') => (Err e, qset_db (q_db q) q')
  end.

Definition get_tab (t : qtab) (db : qdb P) : qtbl P :=
  match t with metrics_q => qd_metrics_q db | events_q => qd_events_q db end.

Definition set_tab (t : qtab) (v : qtbl P) (db : qdb P) : qdb P :=
  match t with
  | metrics_q => {| qd_meta := qd_meta db; qd_metrics_q := v; qd_events_q := qd_events_q db;
                    qd_overflow := qd_overflow db |}
  | events_q => {| qd_meta := qd_meta db; qd_metrics_q := qd_metrics_q db; qd_events_q := v;
                   qd_overflow := qd_overflow db |}
  end.

Definition set_meta (m : gmap string Z) (db : qdb P) : qdb P :=
  {| qd_meta := m; qd_metrics_q := qd_metrics_q db; qd_events_q := qd_events_q db;
     qd_overflow := qd_overflow db |}.

Definition set_overflow (o : gmap string Overflow) (db : qdb P) : qdb P :=
  {| qd_meta := qd_meta db; qd_metrics_q := qd_metrics_q db; qd_events_q := qd_events_q db;
     qd_overflow := o |}.

(** [SELECT COUNT( * )] *)
Definition count_rows (t : qtab) (db : qdb P) : Z := Z.of_nat (length (qt_rows (get_tab t db))).

(** [ORDER BY id ASC LIMIT n]: a negative limit is no limit. *)
Definition oldest (t : qtab) (n : Z) (db : qdb P) : list (qrow P) :=
  if decide (n < 0) then qt_rows (get_tab t db) else take (Z.to_nat n) (qt_rows (get_tab t db)).

(** [INSERT INTO t(seq, payload, created_at)] *)
Definition insert_row (t : qtab) (seq : Z) (payload : P) (created : Z) (db : qdb P) : qdb P :=
  let tb := get_tab t db in
  let id := qt_autoinc tb + 1 in
  set_tab t {| qt_rows := qt_rows tb ++ [QRow id seq payload created]; qt_autoinc := id |} db.

(** [DELETE ... WHERE id IN ids] *)
Definition delete_where_id (t : qtab) (ids : list Z) (db : qdb P) : qdb P :=
  let tb := get_tab t db in
  set_tab t {| qt_rows := filter (λ r, q_ID r ∉ ids) (qt_rows tb);
               qt_autoinc := qt_autoinc tb |} db.

(** [SELECT MIN(created_at), MAX(created_at)]: NULLs on an empty set. *)
Definition min_max_created (l : list (qrow P)) : option (Z * Z) :=
  match l with
  | [] => None
  | r :: l' =>
    Some (foldr Z.min (q_CreatedAt r) (q_CreatedAt <$> l'),
          foldr Z.max (q_CreatedAt r) (q_CreatedAt <$> l'))
  end.

(* @src agent/internal/queue/queue.go 111-119 nextSeq *)
Definition nextSeq (key : string) : QM Z :=
  q_call (λ db,
    let v := match qd_meta db !! key with Some v => v + 1 | None => 1 end in
    (v, set_meta (<[key := v]> (qd_meta db)) db)).

(* @src agent/internal/queue/queue.go 121-124 NextMetricsSeq *)
Definition NextMetricsSeq : QM Z := nextSeq "metrics_seq".

(* @src agent/internal/queue/queue.go 126-129 NextEventSeq *)
Definition NextEventSeq : QM Z := nextSeq "events_seq".

(* @src agent/internal/queue/queue.go 191-201 addOverflow *)
Definition addOverflow (kind : string) (dropped firstNs lastNs : Z) : QM () :=
  q_exec (λ db,
    let o := match qd_overflow db !! kind with
             | None => {| ov_Dropped := dropped; ov_FirstAt := firstNs; ov_LastAt := lastNs |}
             | Some o => {| ov_Dropped := ov_Dropped o + dropped;
                            ov_FirstAt := Z.min (ov_FirstAt o) firstNs;
                            ov_LastAt := Z.max (ov_LastAt o) lastNs |}
             end in
    set_overflow (<[kind := o]> (qd_overflow db)) db).

(* @src agent/internal/queue/queue.go 151-189 enqueue *)
Definition enqueue (t : qtab) (max seq : Z) (payload : P) : QM Z :=
  q_tx (
    now ← q_now;
    q_exec (insert_row t seq payload now) ;;
    count ← q_query (count_rows t);
    if decide (max < count) then
      let excess := count - max in
      mm ← q_query (λ db, min_max_created (oldest t excess db));
      match mm with
      | None => st_throw QueueIO (* NULL scanned into an int64 *)
      | Some (firstNs, lastNs) =>
        q_exec (λ db, delete_where_id t (q_ID <$> oldest t excess db) db) ;;
        addOverflow (kind_of t) excess firstNs lastNs ;;
        mret excess
      end
    else mret 0).

(* @src agent/internal/queue/queue.go 131-135 EnqueueMetrics *)
Definition EnqueueMetrics (seq : Z) (payload : P) : QM Z :=
  max ← st_gets q_maxBatch; enqueue metrics_q max seq payload.

(* @src agent/internal/queue/queue.go 137-140 EnqueueEvent *)
Definition EnqueueEvent (seq : Z) (payload : P) : QM Z :=
  max ← st_gets q_maxEvents; enqueue events_q max seq payload.

(* @src agent/internal/queue/queue.go 142-149 EnqueueEventNoTrim *)
Definition EnqueueEventNoTrim (seq : Z) (payload : P) : QM () :=
  now ← q_now; q_exec (insert_row events_q seq payload now).

(** The two statements of [TakeOverflow], which are not in one transaction. *)
Definition take_overflow_select (kind : string) : QM (option Overflow) :=
  q_query (λ db, qd_overflow db !! kind).

Definition take_overflow_delete (kind : string) : QM () :=
  q_exec (λ db, set_overflow (delete kind (qd_overflow db)) db).

(* @src agent/internal/queue/queue.go 203-222 TakeOverflow *)
(** [None] is the [false] of the Go result: no record for this kind. *)
Definition TakeOverflow (kind : string) : QM (option Overflow) :=
  ov ← take_overflow_select kind;
  match ov with
  | None => mret None
  | Some ov => take_overflow_delete kind ;; mret (Some ov)
  end.

(* @src agent/internal/queue/queue.go 234-238 pending *)
Definition pending (t : qtab) : QM Z := q_query (count_rows t).

(* @src agent/internal/queue/queue.go 224-227 MetricsPending *)
Definition MetricsPending : QM Z := pending metrics_q.

(* @src agent/internal/queue/queue.go 229-232 EventsPending *)
Definition EventsPending : QM Z := pending events_q.

(* @src agent/internal/queue/queue.go 240-259 PeekMetrics *)
Definition PeekMetrics (limit : Z) : QM (list (qrow P)) := q_query (oldest metrics_q limit).

(* @src agent/internal/queue/queue.go 261-280 PeekEvents *)
Definition PeekEvents (limit : Z) : QM (list (qrow P)) := q_query (oldest events_q limit).

(* @src agent/internal/queue/queue.go 292-312 deleteIDs *)
Definition deleteIDs (t : qtab) (ids : list Z) : QM () :=
  match ids with
  | [] => mret ()
  | _ => q_tx (q_query (λ _, ()) ;;
               st_foldl (λ _ id, q_exec (delete_where_id t [id])) () ids)
  end.

(* @src agent/internal/queue/queue.go 282-285 DeleteMetrics *)
Definition DeleteMetrics (ids : list Z) : QM () := deleteIDs metrics_q ids.

(* @src agent/internal/queue/queue.go 287-290 DeleteEvents *)
Definition DeleteEvents (ids : list Z) : QM () := deleteIDs events_q ids.

(* @src agent/internal/queue/queue.go 325-362 dropOldest *)
Definition dropOldest (t : qtab) (n : Z) : QM Z :=
  if decide (n <= 0) then mret 0 else
  q_tx (
    mm ← q_query (λ db, min_max_created (oldest t n db));
    match mm with
    | None => mret 0
    | Some (firstNs, lastNs) =>
      dropped ← q_call (λ db,
        let ids := q_ID <$> oldest t n db in
        let db' := delete_where_id t ids db in
        (count_rows t db - count_rows t db', db'));
      (if decide (0 < dropped) then addOverflow (kind_of t) dropped firstNs lastNs else mret ()) ;;
      mret dropped
    end).

(* @src agent/internal/queue/queue.go 314-318 DropOldestMetrics *)
Definition DropOldestMetrics (n : Z) : QM Z := dropOldest metrics_q n.

(* @src agent/internal/queue/queue.go 320-323 DropOldestEvents *)
Definition DropOldestEvents (n : Z) : QM Z := dropOldest events_q n.

(** ** Specification *)

(** A table is well formed when ids increase along it and none exceeds the AUTOINCREMENT
    mark, so a new id is larger than every id ever used. *)
Definition tbl_wf (tb : qtbl P) : Prop :=
  StronglySorted Z.lt (q_ID <$> qt_rows tb) ∧ Forall (λ r, q_ID r <= qt_autoinc tb) (qt_rows tb).

Definition qdb_wf (db : qdb P) : Prop := tbl_wf (qd_metrics_q db) ∧ tbl_wf (qd_events_q db).
Definition queue_wf (q : Queue P) : Prop := qdb_wf (q_db q).

(** The drops recorded in the overflow ledger and not yet taken. *)
Definition ov_count (kind : string) (db : qdb P) : Z :=
  match qd_overflow db !! kind with Some o => ov_Dropped o | None => 0 end.

(** The public operations, as one data type of commands. *)
Inductive qop :=
| OpNextSeq (key : string)
| OpEnqueue (t : qtab) (seq : Z) (payload : P)
| OpEnqueueNoTrim (seq : Z) (payload : P)
| OpPeek (t : qtab) (limit : Z)
| OpDelete (t : qtab) (ids : list Z)
| OpDropOldest (t : qtab) (n : Z)
| OpTakeOverflow (t : qtab).

(** What an operation moved, per queue: rows put in, rows the caller deleted, drops the
    caller took out of the ledger. *)
Record ledger := { lg_in : qtab → Z; lg_deleted : qtab → Z; lg_taken : qtab → Z }.

Definition ledger0 : ledger := {| lg_in := λ _, 0; lg_deleted := λ _, 0; lg_taken := λ _, 0 |}.

Definition bump (f : qtab → Z) (t : qtab) (n : Z) : qtab → Z :=
  λ t', if decide (t' = t) then f t' + n else f t'.

Definition max_of (t : qtab) (q : Queue P) : Z :=
  match t with metrics_q => q_maxBatch q | events_q => q_maxEvents q end.

(** One operation, run atomically, with the ledger kept beside it. *)
Definition run_op (o : qop) (q : Queue P) (l : ledger) : Queue P * ledger :=
  match o with
  | OpNextSeq key => ((nextSeq key q).2, l)
  | OpEnqueue t seq p =>
    match enqueue t (max_of t q) seq p q with
    | (Ok _, q') =>
      (q', {| lg_in := bump (lg_in l) t 1; lg_deleted := lg_deleted l; lg_taken := lg_taken l |})
    | (Err _, q') => (q', l)
    end
  | OpEnqueueNoTrim seq p =>
    match EnqueueEventNoTrim seq p q with
    | (Ok _, q') =>
      (q', {| lg_in := bump (lg_in l) events_q 1; lg_deleted := lg_deleted l;
              lg_taken := lg_taken l |})
    | (Err _, q') => (q', l)
    end
  | OpPeek t limit => ((q_query (oldest t limit) q).2, l)
  | OpDelete t ids =>
    let q' := (deleteIDs t ids q).2 in
    (q', {| lg_in := lg_in l;
            lg_deleted := bump (lg_deleted l) t (count_rows t (q_db q) - count_rows t (q_db q'));
            lg_taken := lg_taken l |})
  | OpDropOldest t n => ((dropOldest t n q).2, l)
  | OpTakeOverflow t =>
    match TakeOverflow (kind_of t) q with
    | (Ok (Some ov), q') =>
      (q', {| lg_in := lg_in l; lg_deleted := lg_deleted l;
              lg_taken := bump (lg_taken l) t (ov_Dropped ov) |})
    | (_, q') => (q', l)
    end
  end.

Fixpoint run_ops (os : list qop) (q : Queue P) (l : ledger) : Queue P * ledger :=
  match os with
  | [] => (q, l)
  | o :: os' => let (q', l') := run_op o q l in run_ops os' q' l'
  end.

(** Every row that entered is pending, was deleted by the caller, was reported as dropped,
    or is still in the ledger waiting to be reported. *)
Definition balanced (t : qtab) (q : Queue P) (l : ledger) : Prop :=
  lg_in l t = count_rows t (q_db q) + lg_deleted l t + lg_taken l t
              + ov_count (kind_of t) (q_db q).

(** The limits are configuration: no operation changes them. *)
Definition same_limits (q q' : Queue P) : Prop := q_maxBatch q' = q_maxBatch q ∧ q_maxEvents q' = q_maxEvents q.

Definition keeps_limits {A} (m : stM (Queue P) qerr A) : Prop := ∀ q, same_limits q (m q).2.

(** What every run of operations keeps true. *)
Definition queue_inv (q : Queue P) (l : ledger) : Prop :=
  queue_wf q ∧ (∀ t, balanced t q l) ∧ count_rows metrics_q (q_db q) <= q_maxBatch q ∧
  0 <= q_maxEvents q.
End queue.

(** ** Lemmas *)

Section lemmas.
Context `{QE : QueueEnv} {P : Type}.
Implicit Types (q : Queue P) (db : qdb P) (t : qtab).

Lemma q_call_Ok {A} (f : qdb P → A * qdb P) q a q' :
  q_call f q = (Ok a, q') ↔
  q_io (q_calls q) = false ∧ a = (f (q_db q)).1 ∧ q' = qtick (qset_db (f (q_db q)).2 q).
Proof.
  unfold q_call. destruct (q_io _); [naive_solver|].
  destruct (f (q_db q)) as [b db]. naive_solver.
Qed.

Lemma q_call_Err {A} (f : qdb P → A * qdb P) q e q' :
  q_call f q = (Err e, q') → q' = qtick q.
Proof. unfold q_call. destruct (q_io _); [naive_solver|]. by destruct (f (q_db q)). Qed.

(** A transaction that fails leaves the file as it was. *)
Lemma q_tx_Err {A} (body : stM (Queue P) qerr A) q e q' :
  q_tx body q = (Err e, q') → q_db q' = q_db q.
Proof.
  unfold q_tx. match goal with |- context [match ?x with _ => _ end] => destruct x as [[b|e'] q1] end;
    intros; by simplify_eq.
Qed.

Lemma qset_db_id q : qset_db (q_db q) q = q.
Proof. by destruct q. Qed.

Lemma q_query_Ok {A} (f : qdb P → A) q a q' :
  q_query f q = (Ok a, q') ↔ q_io (q_calls q) = false ∧ a = f (q_db q) ∧ q' = qtick q.
Proof. unfold q_query. rewrite q_call_Ok. cbn. by rewrite qset_db_id. Qed.

Lemma q_exec_Ok (f : qdb P → qdb P) q u q' :
  q_exec f q = (Ok u, q') ↔ q_io (q_calls q) = false ∧ q' = qtick (qset_db (f (q_db q)) q).
Proof. unfold q_exec. rewrite q_call_Ok. cbn. destruct u. naive_solver. Qed.

(** A transaction that commits ran its body from the same file. *)
Lemma q_tx_Ok {A} (body : stM (Queue P) qerr A) q a q' :
  q_tx body q = (Ok a, q') →
  ∃ q1, body (qtick q) = (Ok a, q1) ∧ q' = qtick q1.
Proof.
  unfold q_tx. match goal with |- context [match ?x with _ => _ end] => destruct x as [[b|e'] q1] eqn:E end;
    [|done].
  intros [= -> ->]. mrun E. apply q_query_Ok in Hrun as (_ & _ & ->).
  mrun E. mrun E. apply q_query_Ok in Hrun0 as (_ & _ & ->).
  injection E as -> <-. eauto.
Qed.

Lemma get_set_tab t t' v db :
  get_tab t (set_tab t' v db) = if decide (t = t') then v else get_tab t db.
Proof. by destruct t, t'. Qed.

Lemma delete_oldest (l : list (qrow P)) n :
  StronglySorted Z.lt (q_ID <$> l) →
  filter (λ r, q_ID r ∉ (q_ID <$> take n l)) l = drop n l.
Proof.
  revert n. induction l as [|r l IH]; intros [|n] Hs; try done.
  - cbn [take drop]. rewrite fmap_nil. apply list_filter_all. set_solver.
  - rewrite fmap_cons in Hs. apply StronglySorted_inv in Hs as [Hs Hr].
    cbn [take drop]. rewrite filter_cons_False by (rewrite fmap_cons; set_solver).
    rewrite <-(IH n Hs). apply list_filter_ext_elem.
    intros x Hx. rewrite fmap_cons, not_elem_of_cons.
    assert (q_ID r < q_ID x).
    { rewrite Forall_forall in Hr. apply Hr. apply list_elem_of_fmap. eauto. }
    split; [intros [_ ?]; done|]. intros ?; split; [lia|done].
Qed.

Lemma insert_row_wf t seq p ns db :
  tbl_wf (get_tab t db) → tbl_wf (get_tab t (insert_row t seq p ns db)).
Proof.
  intros [Hs Hb]. unfold insert_row. rewrite get_set_tab, decide_True by done.
  split; cbn.
  - rewrite fmap_app. apply StronglySorted_app_2; [|done|cbn; repeat constructor].
    intros x y (r & -> & Hr)%list_elem_of_fmap Hy. cbn in Hy.
    apply list_elem_of_singleton in Hy as ->.
    rewrite Forall_forall in Hb. specialize (Hb r Hr). lia.
  - apply Forall_app. split; [|repeat constructor; cbn; lia].
    eapply Forall_impl; [exact Hb|]. cbn. intros r; lia.
Qed.

Lemma drop_wf (tb : qtbl P) n :
  tbl_wf tb → tbl_wf {| qt_rows := drop n (qt_rows tb); qt_autoinc := qt_autoinc tb |}.
Proof.
  intros [Hs Hb]. split; cbn.
  - rewrite fmap_drop. rewrite <-(take_drop n (q_ID <$> qt_rows tb)) in Hs.
    by eapply StronglySorted_app_1_r in Hs.
  - by apply Forall_drop.
Qed.

Lemma filter_wf (tb : qtbl P) (Q : qrow P → Prop) `{!∀ r, Decision (Q r)} :
  tbl_wf tb → tbl_wf {| qt_rows := filter Q (qt_rows tb); qt_autoinc := qt_autoinc tb |}.
Proof.
  intros [Hs Hb]. split; cbn.
  - revert Hs. induction (qt_rows tb) as [|r l IH]; [done|].
    rewrite fmap_cons. intros [Hs Hr]%StronglySorted_inv. apply Forall_cons in Hb as [_ Hb].
    rewrite filter_cons. case_decide; [|auto]. rewrite fmap_cons. constructor; [auto|].
    rewrite Forall_forall in *. intros x (r' & -> & [_ Hr']%list_elem_of_filter)%list_elem_of_fmap.
    apply Hr, list_elem_of_fmap. eauto.
  - rewrite Forall_forall in *. intros r [_ Hr]%list_elem_of_filter. auto.
Qed.

(** Deleting the [n] oldest rows leaves the others, in order. *)
Lemma delete_oldest_rows t n db :
  tbl_wf (get_tab t db) → 0 <= n →
  get_tab t (delete_where_id t (q_ID <$> oldest t n db) db) =
    {| qt_rows := drop (Z.to_nat n) (qt_rows (get_tab t db));
       qt_autoinc := qt_autoinc (get_tab t db) |}.
Proof.
  intros [Hs _] Hn. unfold delete_where_id, oldest.
  rewrite get_set_tab, decide_True by done. rewrite decide_False by lia.
  by rewrite delete_oldest.
Qed.

Lemma min_max_created_None (l : list (qrow P)) : min_max_created l = None ↔ l = [].
Proof. by destruct l. Qed.

Lemma addOverflow_Ok kind n a b q u q' :
  addOverflow kind n a b q = (Ok u, q') →
  (∀ t, get_tab t (q_db q') = get_tab t (q_db q)) ∧ qd_meta (q_db q') = qd_meta (q_db q) ∧
  q_maxBatch q' = q_maxBatch q ∧ q_maxEvents q' = q_maxEvents q ∧
  ∀ k, ov_count k (q_db q') = ov_count k (q_db q) + (if decide (k = kind) then n else 0).
Proof.
  unfold addOverflow. intros [_ ->]%q_exec_Ok. split_and!; [by intros []|done..|].
  intros k. unfold ov_count. cbn. rewrite lookup_insert. destruct (decide (kind = k)) as [->|Hne].
  - rewrite decide_True by done. destruct (qd_overflow (q_db q) !! k); cbn; lia.
  - rewrite (decide_False (P:=k = kind)) by done. lia.
Qed.

(** The whole effect of a successful [enqueue]. *)
Lemma enqueue_Ok t max seq p q d q' :
  tbl_wf (get_tab t (q_db q)) → 0 <= max → enqueue t max seq p q = (Ok d, q') →
  let tb := get_tab t (q_db q) in
  let rows := qt_rows tb ++ [QRow (qt_autoinc tb + 1) seq p (q_clock (S (q_calls q)))] in
  d = Z.max 0 (Z.of_nat (length rows) - max) ∧
  get_tab t (q_db q') = {| qt_rows := drop (Z.to_nat d) rows; qt_autoinc := qt_autoinc tb + 1 |} ∧
  (∀ t', t' ≠ t → get_tab t' (q_db q') = get_tab t' (q_db q)) ∧
  qd_meta (q_db q') = qd_meta (q_db q) ∧
  q_maxBatch q' = q_maxBatch q ∧ q_maxEvents q' = q_maxEvents q ∧
  ∀ k, ov_count k (q_db q') = ov_count k (q_db q) + (if decide (k = kind_of t) then d else 0).
Proof.
  intros Hwf Hmax H tb rows. unfold enqueue in H. apply q_tx_Ok in H as (q1 & H & ->).
  mrun H. injection Hrun as <- <-. mrun H. apply q_exec_Ok in Hrun as [_ ->].
  mrun H. apply q_query_Ok in Hrun as (_ & -> & ->). cbn [qtick qset_db q_db q_calls] in H.
  set (db1 := insert_row t seq p (q_clock (S (q_calls q))) (q_db q)) in *.
  assert (Hwf1 : tbl_wf (get_tab t db1)) by (by apply insert_row_wf).
  assert (Hrows : get_tab t db1 = {| qt_rows := rows; qt_autoinc := qt_autoinc tb + 1 |}).
  { unfold db1, insert_row. by rewrite get_set_tab, decide_True. }
  assert (Hoth : ∀ t', t' ≠ t → get_tab t' db1 = get_tab t' (q_db q)).
  { intros t' Ht. unfold db1, insert_row. by rewrite get_set_tab, decide_False. }
  assert (Hov : qd_overflow db1 = qd_overflow (q_db q) ∧ qd_meta db1 = qd_meta (q_db q)) by (by destruct t).
  destruct Hov as [Hov Hme].
  assert (Hcnt : count_rows t db1 = Z.of_nat (length rows)) by (unfold count_rows; by rewrite Hrows).
  rewrite Hcnt in H.
  case_decide as Hgt.
  - mrun H. apply q_query_Ok in Hrun as (_ & -> & ->). cbn [qtick qset_db q_db q_calls] in H.
    destruct (min_max_created _) as [[f l]|] eqn:Emm; [|by destruct q].
    mrun H. apply q_exec_Ok in Hrun as [_ ->]. mrun H.
    apply addOverflow_Ok in Hrun as (Htab & Hmeta & Hm1 & Hm2 & Hc).
    injection H as <- <-. cbn [qtick qset_db q_db] in *.
    rewrite Z.max_r by lia. split; [done|]. split_and!.
    + rewrite Htab, delete_oldest_rows by (done || lia). by rewrite Hrows.
    + intros t' Ht. rewrite Htab, <-Hoth by done.
      unfold delete_where_id. by rewrite get_set_tab, decide_False.
    + rewrite Hmeta, <-Hme. by destruct t.
    + done.
    + done.
    + intros k. rewrite Hc. unfold ov_count, delete_where_id.
      replace (qd_overflow (set_tab _ _ db1)) with (qd_overflow db1) by (by destruct t).
      by rewrite Hov.
  - injection H as <- <-. cbn [qtick qset_db q_db q_maxBatch q_maxEvents].
    rewrite Z.max_l by lia. split_and!; try done.
    intros k. unfold ov_count. rewrite Hov. case_decide; lia.
Qed.

Lemma enqueue_Err t max seq p q e q' : enqueue t max seq p q = (Err e, q') → q_db q' = q_db q.
Proof. apply q_tx_Err. Qed.

Lemma same_limits_trans q1 q2 q3 : same_limits q1 q2 → same_limits q2 q3 → same_limits q1 q3.
Proof. unfold same_limits. naive_solver congruence. Qed.

Lemma q_call_limits {A} (f : qdb P → A * qdb P) q : same_limits q (q_call f q).2.
Proof. unfold q_call. destruct (q_io _); [done|]. by destruct (f (q_db q)). Qed.

Lemma keeps_limits_bind {A B} (m : stM (Queue P) qerr A) (k : A → stM (Queue P) qerr B) :
  keeps_limits m → (∀ a, keeps_limits (k a)) → keeps_limits (m ≫= k).
Proof.
  intros Hm Hk q. specialize (Hm q). unfold mbind, stM_bind.
  destruct (m q) as [[a|e] q1]; cbn in *; [|done].
  eapply same_limits_trans; [exact Hm|apply Hk].
Qed.

Lemma keeps_limits_ret {A} (a : A) : keeps_limits (P:=P) (mret a).
Proof. by intros q. Qed.

Lemma keeps_limits_tx {A} (body : stM (Queue P) qerr A) : keeps_limits body → keeps_limits (q_tx body).
Proof.
  intros Hb q. unfold q_tx.
  assert (keeps_limits (q_query (λ _, ()) ;; a ← body; q_query (λ _, ()) ;; mret a)) as H.
  { apply keeps_limits_bind; [intros ?; apply q_call_limits|intros _].
    apply keeps_limits_bind; [done|intros a].
    apply keeps_limits_bind; [intros ?; apply q_call_limits|intros _; apply keeps_limits_ret]. }
  specialize (H q).
  match goal with |- context [match ?x with _ => _ end] => destruct x as [[b|e] q1] end; apply H.
Qed.

(** Deleting by id removes exactly the named rows of that table. *)
Lemma deleteIDs_loop t ids q u q' :
  st_foldl (λ _ id, q_exec (delete_where_id t [id])) u ids q = (Ok (), q') →
  get_tab t (q_db q') =
    {| qt_rows := filter (λ r, q_ID r ∉ ids) (qt_rows (get_tab t (q_db q)));
       qt_autoinc := qt_autoinc (get_tab t (q_db q)) |} ∧
  (∀ t', t' ≠ t → get_tab t' (q_db q') = get_tab t' (q_db q)) ∧
  qd_meta (q_db q') = qd_meta (q_db q) ∧ qd_overflow (q_db q') = qd_overflow (q_db q).
Proof.
  revert q u. induction ids as [|id ids IH]; intros q u H; cbn in H.
  - injection H as _ <-. split_and!; try done.
    rewrite list_filter_all by set_solver. by destruct (get_tab t (q_db q)).
  - mrun H. apply q_exec_Ok in Hrun as [_ ->]. apply IH in H as (H1 & H2 & H3 & H4).
    cbn [qtick qset_db q_db] in *. unfold delete_where_id in *.
    rewrite get_set_tab, decide_True in H1 by done. cbn in H1. split_and!.
    + rewrite H1, list_filter_filter. f_equal. apply list_filter_iff. set_solver.
    + intros t' Ht. rewrite H2, get_set_tab, decide_False by done. done.
    + rewrite H3. by destruct t.
    + rewrite H4. by destruct t.
Qed.

Lemma deleteIDs_effect t ids q r q' :
  deleteIDs t ids q = (r, q') →
  ((r = Ok () ∧ get_tab t (q_db q') =
      {| qt_rows := filter (λ r, q_ID r ∉ ids) (qt_rows (get_tab t (q_db q)));
         qt_autoinc := qt_autoinc (get_tab t (q_db q)) |}) ∨
   (r = Err QueueIO ∧ q_db q' = q_db q)) ∧
  (∀ t', t' ≠ t → get_tab t' (q_db q') = get_tab t' (q_db q)) ∧
  qd_meta (q_db q') = qd_meta (q_db q) ∧ qd_overflow (q_db q') = qd_overflow (q_db q).
Proof.
  unfold deleteIDs. destruct ids as [|id ids].
  - intros [= <- <-]. split_and!; try done. left. split; [done|].
    rewrite list_filter_all by set_solver. by destruct (get_tab t (q_db q)).
  - destruct r as [[]|[]]; intros H.
    + apply q_tx_Ok in H as (q1 & H & ->). mrun H. apply q_query_Ok in Hrun as (_ & _ & ->).
      apply deleteIDs_loop in H as (H1 & H2 & H3 & H4). cbn [qtick q_db] in *. eauto 10.
    + apply q_tx_Err in H as ->. eauto 10.
Qed.

(** The effect of [dropOldest]: what leaves the table enters the overflow ledger. *)
Lemma dropOldest_effect t n q r q' :
  tbl_wf (get_tab t (q_db q)) →
  dropOldest t n q = (r, q') →
  ((∃ d, r = Ok d ∧ 0 <= d ∧ d = Z.min (Z.max 0 n) (count_rows t (q_db q)) ∧
      get_tab t (q_db q') =
        {| qt_rows := drop (Z.to_nat n) (qt_rows (get_tab t (q_db q)));
           qt_autoinc := qt_autoinc (get_tab t (q_db q)) |} ∧
      ∀ k, ov_count k (q_db q') = ov_count k (q_db q) + (if decide (k = kind_of t) then d else 0)) ∨
   (r = Err QueueIO ∧ q_db q' = q_db q)) ∧
  (∀ t', t' ≠ t → get_tab t' (q_db q') = get_tab t' (q_db q)) ∧
  qd_meta (q_db q') = qd_meta (q_db q).
Proof.
  intros Hwf. unfold dropOldest. case_decide as Hn.
  { intros [= <- <-]. split_and!; try done. left. exists 0.
    split_and!; [done|lia|unfold count_rows; lia| |intros k; case_decide; lia].
    replace (Z.to_nat n) with 0%nat by lia. rewrite drop_0. by destruct (get_tab t (q_db q)). }
  destruct r as [d|[]]; intros H; [|apply q_tx_Err in H as ->; eauto].
  apply q_tx_Ok in H as (q1 & H & ->). mrun H.
  apply q_query_Ok in Hrun as (_ & -> & ->). cbn [qtick qset_db q_db q_calls] in H.
  destruct (min_max_created _) as [[f l]|] eqn:Emm.
  - mrun H. apply q_call_Ok in Hrun as (_ & -> & ->). cbn [qtick qset_db q_db q_calls fst snd] in H.
    set (db1 := delete_where_id t (q_ID <$> oldest t n (q_db q)) (q_db q)) in *.
    pose proof (delete_oldest_rows t n (q_db q) Hwf ltac:(lia)) as Hd. fold db1 in Hd.
    assert (Hc : count_rows t (q_db q) - count_rows t db1 = Z.min (Z.max 0 n) (count_rows t (q_db q))).
    { unfold count_rows. rewrite Hd. cbn [qt_rows]. rewrite length_drop. lia. }
    assert (Hpos : 0 < count_rows t (q_db q)).
    { unfold oldest in Emm. rewrite decide_False in Emm by lia. unfold count_rows.
      destruct (qt_rows (get_tab t (q_db q))); cbn in *; [by rewrite take_nil in Emm|lia]. }
    rewrite Hc in H. rewrite decide_True in H by lia. mrun H.
    apply addOverflow_Ok in Hrun as (Htab & Hmeta & _ & _ & Ho). injection H as <- <-.
    cbn [qtick qset_db q_db] in *. split_and!.
    + left. eexists. split_and!; [done|lia|done|by rewrite Htab|].
      intros k. rewrite Ho. unfold ov_count.
      by replace (qd_overflow db1) with (qd_overflow (q_db q)) by (by destruct t).
    + intros t' Ht. rewrite Htab. unfold db1, delete_where_id. by rewrite get_set_tab, decide_False.
    + rewrite Hmeta. by destruct t.
  - injection H as <- <-. cbn [qtick qset_db q_db]. split_and!; try done. left.
    apply min_max_created_None in Emm. unfold oldest in Emm. rewrite decide_False in Emm by lia.
    assert (Hnil : qt_rows (get_tab t (q_db q)) = []).
    { destruct (qt_rows (get_tab t (q_db q))); [done|].
      destruct (Z.to_nat n) eqn:E; [lia|done]. }
    exists 0. unfold count_rows. rewrite Hnil. split_and!; [done|lia|cbn; lia| |intros k; case_decide; lia].
    rewrite drop_nil, <-Hnil. by destruct (get_tab t (q_db q)).
Qed.

Lemma kind_of_inj t t' : kind_of t = kind_of t' ↔ t = t'.
Proof. by destruct t, t'. Qed.

Lemma queue_wf_intro q : (∀ t, tbl_wf (get_tab t (q_db q))) → queue_wf q.
Proof. intros H. exact (conj (H metrics_q) (H events_q)). Qed.

Lemma queue_wf_tab q t : queue_wf q → tbl_wf (get_tab t (q_db q)).
Proof. intros [??]. by destruct t. Qed.

Lemma max_of_nonneg q l t : queue_inv q l → 0 <= max_of t q.
Proof. intros (_ & _ & H1 & H2). unfold count_rows in H1. destruct t; cbn; lia. Qed.

(** An operation that moves only table [t]: the invariant follows from its account there. *)
Lemma queue_inv_step t q q' l l' :
  queue_inv q l → same_limits q q' →
  tbl_wf (get_tab t (q_db q')) →
  (∀ t', t' ≠ t → get_tab t' (q_db q') = get_tab t' (q_db q) ∧
     ov_count (kind_of t') (q_db q') = ov_count (kind_of t') (q_db q) ∧
     lg_in l' t' = lg_in l t' ∧ lg_deleted l' t' = lg_deleted l t' ∧ lg_taken l' t' = lg_taken l t') →
  balanced t q' l' →
  (t = metrics_q → count_rows metrics_q (q_db q') <= q_maxBatch q) →
  queue_inv q' l'.
Proof.
  intros (Hwf & Hbal & Hmax & Hev) [Hl1 Hl2] Hwf' Hoth Hb Hm. split_and!.
  - apply queue_wf_intro. intros t'. destruct (decide (t' = t)) as [->|Ht]; [done|].
    destruct (Hoth t' Ht) as [-> _]. by apply queue_wf_tab.
  - intros t'. destruct (decide (t' = t)) as [->|Ht]; [done|].
    specialize (Hbal t'). destruct (Hoth t' Ht) as (E1 & E2 & E3 & E4 & E5).
    unfold balanced, count_rows in *. rewrite E1, E2, E3, E4, E5. exact Hbal.
  - rewrite Hl1. destruct (decide (t = metrics_q)) as [->|Ht]; [by apply Hm|].
    unfold count_rows in *. by destruct (Hoth metrics_q ltac:(done)) as [-> _].
  - by rewrite Hl2.
Qed.

Lemma queue_inv_same_db q q' l : queue_inv q l → q_db q' = q_db q → same_limits q q' → queue_inv q' l.
Proof.
  unfold queue_inv, queue_wf, balanced. intros H E [-> ->]. by rewrite E.
Qed.

Lemma keeps_limits_enqueue t max seq p : keeps_limits (P:=P) (enqueue t max seq p).
Proof.
  apply keeps_limits_tx. apply keeps_limits_bind; [by intros ?|intros now].
  apply keeps_limits_bind; [intros ?; apply q_call_limits|intros _].
  apply keeps_limits_bind; [intros ?; apply q_call_limits|intros c].
  case_decide; [|apply keeps_limits_ret].
  apply keeps_limits_bind; [intros ?; apply q_call_limits|intros [[f la]|]]; [|by intros ?].
  apply keeps_limits_bind; [intros ?; apply q_call_limits|intros _].
  apply keeps_limits_bind; [intros ?; apply q_call_limits|intros _]. apply keeps_limits_ret.
Qed.

Lemma keeps_limits_delete t ids : keeps_limits (P:=P) (deleteIDs t ids).
Proof.
  unfold deleteIDs. destruct ids as [|id ids]; [apply keeps_limits_ret|].
  apply keeps_limits_tx. apply keeps_limits_bind; [intros ?; apply q_call_limits|intros _].
  generalize (id :: ids). intros l. induction l as [|x l IH]; [apply keeps_limits_ret|].
  apply keeps_limits_bind; [intros ?; apply q_call_limits|intros []; apply IH].
Qed.

Lemma keeps_limits_dropOldest t n : keeps_limits (P:=P) (dropOldest t n).
Proof.
  unfold dropOldest. case_decide; [apply keeps_limits_ret|].
  apply keeps_limits_tx. apply keeps_limits_bind; [intros ?; apply q_call_limits|intros [[f la]|]].
  - apply keeps_limits_bind; [intros ?; apply q_call_limits|intros d].
    apply keeps_limits_bind; [|intros _; apply keeps_limits_ret].
    case_decide; [intros ?; apply q_call_limits|apply keeps_limits_ret].
  - apply keeps_limits_ret.
Qed.

Lemma TakeOverflow_effect t q r q' :
  TakeOverflow (kind_of t) q = (r, q') →
  (∀ t', get_tab t' (q_db q') = get_tab t' (q_db q)) ∧ qd_meta (q_db q') = qd_meta (q_db q) ∧
  same_limits q q' ∧
  match r with
  | Ok (Some ov) => ov_Dropped ov = ov_count (kind_of t) (q_db q) ∧ ov_count (kind_of t) (q_db q') = 0 ∧
      (∀ t', t' ≠ t → ov_count (kind_of t') (q_db q') = ov_count (kind_of t') (q_db q))
  | _ => q_db q' = q_db q
  end.
Proof.
  unfold TakeOverflow, take_overflow_select, take_overflow_delete, q_query, q_exec, q_call.
  unfold mbind, stM_bind. destruct (q_io (q_calls q)); [by intros [= <- <-]|].
  destruct (qd_overflow (q_db q) !! kind_of t) as [ov|] eqn:E; [|by intros [= <- <-]].
  cbn. destruct (q_io (S (q_calls q))); intros [= <- <-]; cbn.
  - by destruct q.
  - split_and!; [by intros []|done|by destruct q|..].
    + unfold ov_count. by rewrite E.
    + unfold ov_count. cbn. by rewrite lookup_delete_eq.
    + intros t' Ht. unfold ov_count. cbn. rewrite lookup_delete_ne; [done|].
      by rewrite kind_of_inj.
Qed.

Lemma run_op_limits o q l : same_limits q (run_op o q l).1.
Proof.
  destruct o as [k|t seq p|seq p|t lim|t ids|t n|t]; cbn [run_op fst].
  - apply q_call_limits.
  - pose proof (keeps_limits_enqueue t (max_of t q) seq p q) as H.
    by destruct (enqueue _ _ _ _ q) as [[d|e] q'].
  - assert (keeps_limits (P:=P) (EnqueueEventNoTrim seq p)) as H.
    { apply keeps_limits_bind; [by intros ?|]. intros ? ?. apply q_call_limits. }
    specialize (H q). by destruct (EnqueueEventNoTrim seq p q) as [[d|e] q'].
  - apply q_call_limits.
  - apply keeps_limits_delete.
  - apply keeps_limits_dropOldest.
  - destruct (TakeOverflow (kind_of t) q) as [r q'] eqn:E.
    apply TakeOverflow_effect in E as (_ & _ & H & _). by destruct r as [[ov|]|e].
Qed.

Lemma run_ops_limits os q l : same_limits q (run_ops os q l).1.
Proof.
  revert q l. induction os as [|o os IH]; intros q l; [done|].
  cbn [run_ops]. pose proof (run_op_limits o q l). destruct (run_op o q l) as [q1 l1].
  eapply same_limits_trans; [done|]. apply IH.
Qed.

(** Each operation keeps the invariant. *)
Lemma enqueue_inv t seq p q l : queue_inv q l → queue_inv (run_op (OpEnqueue t seq p) q l).1 (run_op (OpEnqueue t seq p) q l).2.
Proof.
  intros Hinv. pose proof Hinv as (Hwf & Hbal & Hmax & Hev). cbn [run_op].
  destruct (enqueue t (max_of t q) seq p q) as [[d|e] q'] eqn:E; cbn [fst snd].
  + pose proof (keeps_limits_enqueue t (max_of t q) seq p q) as Hl. rewrite E in Hl.
    pose proof (queue_wf_tab q t Hwf) as Hwt.
    apply enqueue_Ok in E as (Hd & Htab & Hoth & _ & _ & _ & Hov);
      [|done|by eapply max_of_nonneg]. cbv zeta in *.
    apply (queue_inv_step t q q' l); try done.
    * rewrite Htab. apply (drop_wf {| qt_rows := _; qt_autoinc := _ |}).
      pose proof (insert_row_wf t seq p (q_clock (S (q_calls q))) (q_db q) Hwt) as Hi.
      unfold insert_row in Hi. by rewrite get_set_tab, decide_True in Hi.
    * intros t' Ht. cbn. unfold bump. rewrite Hov, (decide_False (P:=t' = t)) by done.
      rewrite decide_False by (by rewrite kind_of_inj). split_and!; auto; lia.
    * specialize (Hbal t). unfold balanced, count_rows in *. cbn. unfold bump.
      rewrite Hov, Htab, !decide_True by done. cbn [qt_rows].
      pose proof (max_of_nonneg q l t Hinv).
      rewrite length_drop. rewrite length_app in *. cbn [length] in *. lia.
    * intros ->. unfold count_rows. rewrite Htab. cbn [qt_rows max_of] in *.
      rewrite length_drop. rewrite length_app in *. cbn [length] in *.
      unfold count_rows in Hmax. cbn in *. lia.
  + pose proof (keeps_limits_enqueue t (max_of t q) seq p q) as Hl. rewrite E in Hl.
    by apply (queue_inv_same_db q), Hl; [|apply enqueue_Err in E].
Qed.

Lemma enqueueNoTrim_inv seq p q l : queue_inv q l → queue_inv (run_op (OpEnqueueNoTrim seq p) q l).1 (run_op (OpEnqueueNoTrim seq p) q l).2.
Proof.
  intros Hinv. pose proof Hinv as (Hwf & Hbal & Hmax & Hev). cbn [run_op].
  destruct (EnqueueEventNoTrim seq p q) as [[d|e] q'] eqn:E; cbn [fst snd].
  + unfold EnqueueEventNoTrim in E. mrun E. injection Hrun as <- <-.
    apply q_exec_Ok in E as [_ ->].
    apply (queue_inv_step events_q q _ l); try done; cbn [qtick qset_db q_db].
    * by apply insert_row_wf, queue_wf_tab.
    * intros [] Ht; [|done]. cbn. unfold bump. by rewrite decide_False.
    * specialize (Hbal events_q). unfold balanced, count_rows, bump in *. cbn in *.
      rewrite length_app. cbn. rewrite decide_True by done.
      unfold ov_count in *. cbn in *. lia.
  + unfold EnqueueEventNoTrim in E. unfold mbind, stM_bind, q_now, st_gets in E. cbn in E.
    unfold q_exec in E. apply q_call_Err in E as ->. by apply (queue_inv_same_db q).
Qed.

Lemma delete_inv t ids q l : queue_inv q l → queue_inv (run_op (OpDelete t ids) q l).1 (run_op (OpDelete t ids) q l).2.
Proof.
  intros Hinv. pose proof Hinv as (Hwf & Hbal & Hmax & Hev). cbn [run_op].
  pose proof (keeps_limits_delete t ids q) as Hl.
  destruct (deleteIDs t ids q) as [r q'] eqn:E. cbn [fst snd] in *.
  apply deleteIDs_effect in E as (Hcase & Hoth & _ & Hov).
  apply (queue_inv_step t q q' l); try done.
  + destruct Hcase as [[_ ->]|[_ ->]]; [apply filter_wf|]; by apply queue_wf_tab.
  + intros t' Ht. unfold ov_count, bump. cbn. rewrite Hov, (decide_False (P:=t' = t)) by done. auto.
  + specialize (Hbal t). unfold balanced, bump, ov_count in *. cbn. rewrite Hov, decide_True by done. lia.
  + intros ->. destruct Hcase as [[_ Ht]|[_ ->]]; [|done].
    unfold count_rows in *. rewrite Ht. cbn.
    pose proof (length_filter (λ r, q_ID r ∉ ids) (qt_rows (get_tab metrics_q (q_db q)))).
    cbn in *. lia.
Qed.

Lemma dropOldest_inv t n q l : queue_inv q l → queue_inv (run_op (OpDropOldest t n) q l).1 (run_op (OpDropOldest t n) q l).2.
Proof.
  intros Hinv. pose proof Hinv as (Hwf & Hbal & Hmax & Hev). cbn [run_op].
  pose proof (keeps_limits_dropOldest t n q) as Hl.
  destruct (dropOldest t n q) as [r q'] eqn:E. cbn [fst snd] in *.
  apply dropOldest_effect in E as (Hcase & Hoth & _); [|by apply queue_wf_tab].
  destruct Hcase as [(d & _ & Hd & Hdn & Htab & Hov)|[_ Hdb]]; [|by apply (queue_inv_same_db q)].
  apply (queue_inv_step t q q' l); try done.
  + rewrite Htab. by apply drop_wf, queue_wf_tab.
  + intros t' Ht. rewrite Hov. rewrite decide_False by (by rewrite kind_of_inj). rewrite Hoth by done.
    split_and!; auto; lia.
  + specialize (Hbal t). unfold balanced, count_rows in *. rewrite Hov, decide_True, Htab by done.
    cbn. rewrite length_drop. lia.
  + intros ->. unfold count_rows in *. rewrite Htab. cbn. rewrite length_drop. cbn in *. lia.
Qed.

Lemma takeOverflow_inv t q l : queue_inv q l → queue_inv (run_op (OpTakeOverflow t) q l).1 (run_op (OpTakeOverflow t) q l).2.
Proof.
  intros Hinv. pose proof Hinv as (Hwf & Hbal & Hmax & Hev). cbn [run_op].
  destruct (TakeOverflow (kind_of t) q) as [r q'] eqn:E.
  apply TakeOverflow_effect in E as (Htab & _ & Hl & Hr).
  destruct r as [[ov|]|e]; cbn [fst snd]; [|by apply (queue_inv_same_db q)..].
  destruct Hr as (Hd & Hz & Hoth).
  apply (queue_inv_step t q q' l); try done.
  + rewrite Htab. by apply queue_wf_tab.
  + intros t' Ht. cbn. unfold bump. rewrite (decide_False (P:=t' = t)) by done. auto 10.
  + specialize (Hbal t). unfold balanced, count_rows, bump in *. cbn.
    rewrite Htab, Hz, decide_True by done. lia.
  + intros ->. unfold count_rows in *. by rewrite Htab.
Qed.

Lemma run_op_inv o q l : queue_inv q l → queue_inv (run_op o q l).1 (run_op o q l).2.
Proof.
  intros Hinv. destruct o as [key|t seq p|seq p|t lim|t ids|t n|t].
  - cbn [run_op]. unfold nextSeq, q_call. destruct (q_io _); cbn; [by apply (queue_inv_same_db q)|done].
  - by apply enqueue_inv.
  - by apply enqueueNoTrim_inv.
  - cbn [run_op]. unfold q_query, q_call. destruct (q_io _); cbn; by apply (queue_inv_same_db q); [|by destruct q|].
  - by apply delete_inv.
  - by apply dropOldest_inv.
  - by apply takeOverflow_inv.
Qed.

Lemma run_ops_inv os q l : queue_inv q l → queue_inv (run_ops os q l).1 (run_ops os q l).2.
Proof.
  revert q l. induction os as [|o os IH]; intros q l H; [done|].
  cbn [run_ops]. pose proof (run_op_inv o q l H) as H1.
  destruct (run_op o q l) as [q1 l1]. apply IH, H1.
Qed.
End lemmas.

(** ** Sequence numbers *)

Section sequence_numbers.
Context `{QE : QueueEnv} {P : Type}.
Implicit Types (q : Queue P) (t : qtab).

(** The last value handed out for a counter; 0 before the first. *)
Lemma nextSeq_Ok key q v q' :
  nextSeq key q = (Ok v, q') →
  v = default 0 (qd_meta (q_db q) !! key) + 1 ∧
  qd_meta (q_db q') = <[key := v]> (qd_meta (q_db q)).
Proof.
  unfold nextSeq. intros (_ & -> & ->)%q_call_Ok. cbn.
  destruct (qd_meta (q_db q) !! key); cbn; split; done.
Qed.

(** No operation moves a counter down. *)
Lemma run_op_meta o q l key :
  queue_inv q l →
  default 0 (qd_meta (q_db q) !! key) <= default 0 (qd_meta (q_db (run_op o q l).1) !! key).
Proof.
  intros Hinv. pose proof Hinv as (Hwf & _).
  assert (∀ t, 0 <= max_of t q) as Hmax by (intros t; by eapply max_of_nonneg).
  destruct o as [k|t seq p|seq p|t lim|t ids|t n|t]; cbn [run_op fst].
  - destruct (nextSeq k q) as [[v|e] q'] eqn:E; cbn.
    + apply nextSeq_Ok in E as [-> ->]. rewrite lookup_insert.
      case_decide as Hk; [subst|lia]. cbn. lia.
    + unfold nextSeq in E. apply q_call_Err in E as ->. cbn. lia.
  - destruct (enqueue _ _ _ _ q) as [[d|e] q'] eqn:E; cbn [fst].
    + apply enqueue_Ok in E as (_ & _ & _ & -> & _); [lia|by apply queue_wf_tab|done].
    + apply enqueue_Err in E as ->. lia.
  - destruct (EnqueueEventNoTrim seq p q) as [[d|e] q'] eqn:E; cbn [fst].
    + unfold EnqueueEventNoTrim in E. mrun E. injection Hrun as <- <-.
      apply q_exec_Ok in E as [_ ->]. cbn. lia.
    + unfold EnqueueEventNoTrim in E. unfold mbind, stM_bind, q_now, st_gets in E. cbn in E.
      unfold q_exec in E. apply q_call_Err in E as ->. cbn. lia.
  - unfold q_query, q_call. destruct (q_io _); cbn; lia.
  - destruct (deleteIDs t ids q) as [r q'] eqn:E. cbn.
    apply deleteIDs_effect in E as (_ & _ & -> & _). lia.
  - destruct (dropOldest t n q) as [r q'] eqn:E. cbn.
    apply dropOldest_effect in E as (_ & _ & ->); [lia|by apply queue_wf_tab].
  - destruct (TakeOverflow (kind_of t) q) as [r q'] eqn:E.
    apply TakeOverflow_effect in E as (_ & Hm & _). destruct r as [[ov|]|e]; cbn [fst]; rewrite Hm; lia.
Qed.

Lemma run_ops_meta os q l key :
  queue_inv q l →
  default 0 (qd_meta (q_db q) !! key) <= default 0 (qd_meta (q_db (run_ops os q l).1) !! key).
Proof.
  revert q l. induction os as [|o os IH]; intros q l H; [done|].
  cbn [run_ops]. pose proof (run_op_inv o q l H) as H1. pose proof (run_op_meta o q l key H).
  destruct (run_op o q l) as [q1 l1]. cbn in *. specialize (IH q1 l1 H1). lia.
Qed.

(** The ledger is kept beside the queue: it never feeds back. *)
Lemma run_ops_ledger_irrel os q l1 l2 : (run_ops os q l1).1 = (run_ops os q l2).1.
Proof.
  revert q l1 l2. induction os as [|o os IH]; intros q l1 l2; [done|]. cbn [run_ops].
  assert ((run_op o q l1).1 = (run_op o q l2).1) as H.
  { destruct o as [k|t seq p|seq p|t lim|t ids|t n|t]; cbn [run_op]; try done.
    - by destruct (enqueue _ _ _ _ q) as [[?|?] ?].
    - by destruct (EnqueueEventNoTrim _ _ q) as [[?|?] ?].
    - by destruct (TakeOverflow _ q) as [[[?|]|?] ?]. }
  destruct (run_op o q l1), (run_op o q l2). cbn in H. subst. apply IH.
Qed.
End sequence_numbers.

Lemma queue_inv_empty {P} a b : 0 <= a → 0 <= b → queue_inv (P:=P) (Open empty_qdb a b) ledger0.
Proof.
  intros Ha Hb. split_and!; cbn; [split; split; constructor| |done|done].
  intros t. unfold balanced, count_rows, ov_count. cbn. rewrite lookup_empty. by destruct t.
Qed.

(** Any ledger can be started over on a well-formed file within its limits. *)
Lemma queue_inv_reopen {P} (db : qdb P) a b :
  qdb_wf db → count_rows metrics_q db <= a → 0 <= b → ∃ l, queue_inv (Open db a b) l.
Proof.
  intros Hwf Hc Hb.
  exists {| lg_in := λ t, count_rows t db + ov_count (kind_of t) db; lg_deleted := λ _, 0;
            lg_taken := λ _, 0 |}.
  split_and!; [done| |done|done]. intros t. unfold balanced. cbn. lia.
Qed.

(** ** Properties *)

(** C8: conservation.  From a new queue file, after any sequence of operations, whichever of
    the database calls failed: every row ever accepted is still pending, was deleted by the
    caller, or is counted (once) by an overflow record, taken or waiting; ids are strictly
    increasing; and the metrics table never exceeds its configured capacity. *)
Theorem queue_conserves `{QE : QueueEnv} {P} (os : list (qop (P:=P))) (maxBatches maxEvents : Z)
    (Hb : 0 <= maxBatches) (He : 0 <= maxEvents) :
  let (q, l) := run_ops os (Open empty_qdb maxBatches maxEvents) ledger0 in
  (∀ t, lg_in l t = count_rows t (q_db q) + lg_deleted l t + lg_taken l t
                    + ov_count (kind_of t) (q_db q)) ∧
  queue_wf q ∧ count_rows metrics_q (q_db q) <= maxBatches.
Proof.
  pose proof (run_ops_inv os _ _ (queue_inv_empty maxBatches maxEvents Hb He)) as H.
  pose proof (run_ops_limits os (Open (P:=P) empty_qdb maxBatches maxEvents) ledger0) as [Hl _].
  destruct (run_ops os _ _) as [q l]. cbn in *. destruct H as (Hwf & Hbal & Hm & _).
  split_and!; [exact Hbal|done|lia].
Qed.

(** A run with a fault in it: the commit of the second enqueue fails. *)
Definition faulty_env : QueueEnv :=
  {| q_clock := λ n, 1000 + Z.of_nat n; q_io := λ n, Nat.eqb n 7 |}.

Lemma queue_conserves_witness :
  let ops := [OpEnqueue metrics_q 1 (); OpEnqueue metrics_q 2 (); OpEnqueue metrics_q 3 ();
              OpEnqueue metrics_q 4 (); OpTakeOverflow metrics_q] in
  let r := run_ops (QE := faulty_env) ops (Open empty_qdb 2 2) ledger0 in
  0 <= 2 ∧ (∀ t, lg_in r.2 t = count_rows t (q_db r.1) + lg_deleted r.2 t + lg_taken r.2 t
                    + ov_count (kind_of t) (q_db r.1)) ∧ lg_in r.2 metrics_q = 3
  ∧ lg_taken r.2 metrics_q = 1.
Proof.
  intros ops r. pose proof (queue_conserves (QE := faulty_env) ops 2 2 ltac:(done) ltac:(done)) as H.
  fold r in H. destruct r as [q l] eqn:E. destruct H as [H _].
  split; [done|]. split; [exact H|]. vm_compute in E. injection E as _ <-.
  split; vm_compute; reflexivity.
Defined.

(** [enqueue].  On success the table is the old one with the new row at its end and
    exactly the excess over the capacity cut from its head, the number returned is that
    excess and it is added to the queue's overflow count, nothing else moves; on failure,
    at whichever database call, the file is unchanged. *)
Theorem enqueue_spec `{QE : QueueEnv} {P} t max seq (p : P) (q : Queue P)
    (Hwf : queue_wf q) (Hmax : 0 <= max) :
  match enqueue t max seq p q with
  | (Ok d, q') =>
    let tb := get_tab t (q_db q) in
    let rows := qt_rows tb ++ [QRow (qt_autoinc tb + 1) seq p (q_clock (S (q_calls q)))] in
    d = Z.max 0 (Z.of_nat (length rows) - max) ∧
    qt_rows (get_tab t (q_db q')) = drop (Z.to_nat d) rows ∧
    count_rows t (q_db q') = Z.min max (Z.of_nat (length rows)) ∧
    (∀ t', t' ≠ t → get_tab t' (q_db q') = get_tab t' (q_db q)) ∧
    qd_meta (q_db q') = qd_meta (q_db q) ∧ queue_wf q' ∧
    (∀ k, ov_count k (q_db q') = ov_count k (q_db q) + (if decide (k = kind_of t) then d else 0))
  | (Err _, q') => q_db q' = q_db q
  end.
Proof.
  destruct (enqueue t max seq p q) as [[d|e] q'] eqn:E; [|by apply enqueue_Err in E].
  apply enqueue_Ok in E as (Hd & Htab & Hoth & Hme & _ & _ & Hov);
    [|by apply queue_wf_tab|done]. cbv zeta in *.
  split_and!; try done.
  - by rewrite Htab.
  - unfold count_rows. rewrite Htab. cbn [qt_rows]. rewrite length_drop.
    rewrite length_app in *. cbn [length] in *. lia.
  - apply queue_wf_intro. intros t'. destruct (decide (t' = t)) as [->|Ht].
    + rewrite Htab. apply (drop_wf {| qt_rows := _; qt_autoinc := _ |}).
      pose proof (insert_row_wf t seq p (q_clock (S (q_calls q))) (q_db q) (queue_wf_tab q t Hwf)) as Hi.
      unfold insert_row in Hi. by rewrite get_set_tab, decide_True in Hi.
    + rewrite Hoth by done. by apply queue_wf_tab.
Qed.

Definition good_env : QueueEnv := {| q_clock := λ n, 1000 + Z.of_nat n; q_io := λ _, false |}.

(** Three rows into a queue of two: the first is dropped and counted. *)
Definition full_queue : Queue string :=
  (run_ops (QE := good_env) [OpEnqueue metrics_q 1 "a"%string; OpEnqueue metrics_q 2 "b"%string]
     (Open empty_qdb 2 2) ledger0).1.

Lemma enqueue_spec_witness :
  let r := enqueue (QE := good_env) metrics_q 2 3 "c"%string full_queue in
  queue_wf full_queue ∧ r.1 = Ok 1 ∧ ov_count "metrics" (q_db r.2) = 1.
Proof.
  assert (queue_wf full_queue) as Hwf.
  { apply (run_ops_inv (QE := good_env) _ _ _ (queue_inv_empty 2 2 ltac:(done) ltac:(done))). }
  pose proof (enqueue_spec (QE := good_env) metrics_q 2 3 "c"%string full_queue Hwf ltac:(done)) as H.
  intros r. fold r in H. assert (r.1 = Ok 1) as E by (vm_compute; reflexivity).
  split; [exact Hwf|]. split; [exact E|].
  destruct r as [o q']. cbn in E. subst o. destruct H as (_ & _ & _ & _ & _ & _ & H).
  cbn [snd]. rewrite (H "metrics"%string). vm_compute. reflexivity.
Defined.



(** FIFO hand-over.  The rows [Peek] returns are the oldest, in order; deleting exactly
    them leaves exactly the rest, in order, whatever was appended to the queue in between. *)
Theorem peek_delete_fifo `{QE : QueueEnv} {P} t limit (q q1 q2 q3 : Queue P) batch later
    (Hwf : queue_wf q2)
    (Hpeek : q_query (oldest t limit) q = (Ok batch, q1))
    (Happ : qt_rows (get_tab t (q_db q2)) = qt_rows (get_tab t (q_db q1)) ++ later)
    (Hdel : deleteIDs t (q_ID <$> batch) q2 = (Ok (), q3)) :
  batch `prefix_of` qt_rows (get_tab t (q_db q)) ∧
  batch ++ qt_rows (get_tab t (q_db q3)) = qt_rows (get_tab t (q_db q)) ++ later.
Proof.
  apply q_query_Ok in Hpeek as (_ & -> & ->). cbn [qtick q_db] in Happ.
  assert (∃ n, oldest t limit (q_db q) = take n (qt_rows (get_tab t (q_db q)))) as [n Hn].
  { unfold oldest. case_decide; [|eauto].
    exists (length (qt_rows (get_tab t (q_db q)))). by rewrite take_ge. }
  rewrite Hn in *. split; [apply prefix_take|].
  apply deleteIDs_effect in Hdel as ([[_ H]|[? _]] & _); [|done].
  rewrite H. cbn [qt_rows].
  assert (take n (qt_rows (get_tab t (q_db q))) =
          take (Nat.min n (length (qt_rows (get_tab t (q_db q))))) (qt_rows (get_tab t (q_db q2)))) as ->.
  { rewrite Happ, take_app_le by lia. destruct (Nat.le_gt_cases n (length (qt_rows (get_tab t (q_db q))))).
    - by rewrite Nat.min_l.
    - by rewrite Nat.min_r, !take_ge by lia. }
  rewrite delete_oldest by apply (queue_wf_tab q2 t Hwf).
  by rewrite take_drop, Happ.
Qed.

Lemma peek_delete_fifo_witness :
  let q1 := (PeekMetrics (QE := good_env) 1 full_queue).2 in
  let q2 := (EnqueueMetrics (QE := good_env) 3 "c"%string (Open (q_db q1) 9 9)).2 in
  let q3 := (DeleteMetrics (QE := good_env) [1] q2).2 in
  let batch := take 1 (qt_rows (qd_metrics_q (q_db full_queue))) in
  q_Payload <$> batch ++ qt_rows (qd_metrics_q (q_db q3)) = ["a"; "b"; "c"]%string.
Proof.
  intros q1 q2 q3 batch.
  assert (queue_wf q2) as Hwf.
  { vm_compute. repeat (constructor || discriminate). }
  pose proof (peek_delete_fifo (QE := good_env) metrics_q 1 full_queue q1 q2 q3 batch
    (drop 2 (qt_rows (qd_metrics_q (q_db q2)))) Hwf ltac:(vm_compute; reflexivity)
    ltac:(vm_compute; reflexivity) ltac:(vm_compute; reflexivity)) as [_ H].
  cbn [get_tab] in H.
  rewrite H. vm_compute. reflexivity.
Defined.

(** The two statements of [TakeOverflow] do not share a transaction: what another caller's
    [enqueue] adds to the record between them is deleted without having been reported. *)
Theorem TakeOverflow_race `{QE : QueueEnv} {P} max seq (p : P) (q q1 q2 q3 : Queue P) ov d
    (Hwf : queue_wf q) (Hmax : 0 <= max)
    (Hsel : take_overflow_select "metrics" q = (Ok (Some ov), q1))
    (Henq : enqueue metrics_q max seq p q1 = (Ok d, q2))
    (Hdel : take_overflow_delete "metrics" q2 = (Ok (), q3)) :
  ov_Dropped ov = ov_count "metrics" (q_db q) ∧ ov_count "metrics" (q_db q2) = ov_Dropped ov + d ∧
  ov_count "metrics" (q_db q3) = 0.
Proof.
  apply q_query_Ok in Hsel as (_ & Hov & ->). apply q_exec_Ok in Hdel as [_ ->].
  apply enqueue_Ok in Henq as (_ & _ & _ & _ & _ & _ & Hc);
    [|apply (queue_wf_tab q metrics_q Hwf)|done].
  assert (ov_Dropped ov = ov_count "metrics" (q_db q)) as Ho by (unfold ov_count; by rewrite <-Hov).
  split; [done|]. split.
  - rewrite Hc, Ho, decide_True by done. reflexivity.
  - unfold ov_count. cbn. by rewrite lookup_delete_eq.
Qed.
