(* ===== verification/Pattern.v ===== *)
(** Searching with submatches ([regexp.FindStringSubmatch]) for the expressions the collectors
    use: repetition is greedy and of one class of characters, and the leftmost match of the
    first alternative wins, by backtracking.

    Classes are tests of bytes.  A negated class takes every byte of a longer rune, so it
    takes the rune. *)

From S2P Require Import Prelude GoBase.
From Stdlib Require Import Ascii.

Inductive pattern :=
| PEnd                                   (* nothing *)
| POne (p : ascii → bool)                (* one character *)
| PMany (p : ascii → bool)               (* x* *)
| PSeq (r1 r2 : pattern)
| POr (r1 r2 : pattern)
| PGroup (n : nat) (r : pattern).

(** The texts of the groups; a group that took no part is empty. *)
Definition groups : Type := list (nat * string).
Definition group (n : nat) (g : groups) : string :=
  match head (filter (λ p, p.1 = n) g) with Some p => p.2 | None => EmptyString end.

(** [s] without the [rest] it ends in. *)
Definition taken (s rest : string) : string := String.substring 0 (String.length s - String.length rest) s.

Fixpoint pmatch (r : pattern) (s : string) (g : groups) (k : string → groups → option groups) : option groups :=
  match r with
  | PEnd => k s g
  | POne p => match s with String c s' => if p c then k s' g else None | EmptyString => None end
  | PMany p =>
    (fix many (s : string) : option groups :=
       match s with
       | String c s' =>
         if p c then match many s' with Some x => Some x | None => k s g end else k s g
       | EmptyString => k s g
       end) s
  | PSeq r1 r2 => pmatch r1 s g (λ s' g', pmatch r2 s' g' k)
  | POr r1 r2 => match pmatch r1 s g k with Some x => Some x | None => pmatch r2 s g k end
  | PGroup n r' => pmatch r' s g (λ s' g', k s' ((n, taken s s') :: g'))
  end.

(** A match that begins where [s] does, and the leftmost match anywhere. *)
Definition pmatch_here (r : pattern) (s : string) : option groups := pmatch r s [] (λ _ g, Some g).
Fixpoint pfind (r : pattern) (s : string) : option groups :=
  match pmatch_here r s with
  | Some g => Some g
  | None => match s with String _ s' => pfind r s' | EmptyString => None end
  end.

Definition pfound (r : pattern) (s : string) : bool := match pfind r s with Some _ => true | None => false end.

Definition PMany1 (p : ascii → bool) : pattern := PSeq (POne p) (PMany p).
Definition is_char (c x : ascii) : bool := bool_decide (x = c).
Fixpoint PLit (s : string) : pattern :=
  match s with EmptyString => PEnd | String c s' => PSeq (POne (is_char c)) (PLit s') end.

(** A letter under [(?i)]: both cases, and for s and k the other rune that folds to them. *)
Definition fold_char (c : ascii) : pattern :=
  let upper := if byte_in 97 122 c then ascii_of_N (N_of_ascii c - 32) else c in
  let either := POne (λ x, is_char c x || is_char upper x) in
  if decide (c = "s"%char) then POr either (PLit (bytes_str [197; 191]%N))
  else if decide (c = "k"%char) then POr either (PLit (bytes_str [226; 132; 170]%N))
  else either.
Fixpoint PFold (s : string) : pattern :=
  match s with EmptyString => PEnd | String c s' => PSeq (fold_char c) (PFold s') end.

(** [\s], [\S], [\d], [\w]. *)
Definition space_cls (c : ascii) : bool := bool_decide (c ∈ ["009"; "010"; "012"; "013"; " "]%char).
Definition nonspace_cls (c : ascii) : bool := negb (space_cls c).
Definition digit_byte (c : ascii) : bool := byte_in 48 57 c.
Definition word_cls (c : ascii) : bool := byte_in 48 57 c || byte_in 65 90 c || byte_in 97 122 c || is_char "_" c.

(** ** How a greedy run matches *)

Fixpoint take_while (p : ascii → bool) (s : string) : string :=
  match s with String c s' => if p c then String c (take_while p s') else EmptyString | EmptyString => EmptyString end.

Lemma str_app_empty (s : string) : (s +:+ "")%string = s.
Proof. induction s as [|c s IH]; [done|]. exact (f_equal (String c) IH). Qed.

(** The whole run, if what follows it then matches. *)
Lemma pmatch_many p run rest g k x :
  take_while p run = run → match rest with String c _ => p c = false | EmptyString => True end →
  k rest g = Some x → pmatch (PMany p) (run +:+ rest) g k = Some x.
Proof.
  intros Hrun Hrest Hk. induction run as [|c run IH].
  - change ("" +:+ rest)%string with rest. destruct rest as [|c rest]; [done|]. cbn. by rewrite Hrest.
  - change (String c run +:+ rest)%string with (String c (run +:+ rest)). cbn [take_while] in Hrun.
    destruct (p c) eqn:Hc; [|done]. injection Hrun as Hrun. specialize (IH Hrun). cbn in IH |- *. by rewrite Hc, IH.
Qed.

Lemma substring_prefix (a b : string) : String.substring 0 (String.length a) (a +:+ b) = a.
Proof. induction a as [|c a IH]; [by destruct b|]. exact (f_equal (String c) IH). Qed.

Lemma str_length_app (a b : string) : String.length (a +:+ b) = (String.length a + String.length b)%nat.
Proof. induction a as [|c a IH]; [done|]. exact (f_equal S IH). Qed.

Lemma taken_app a b : taken (a +:+ b) b = a.
Proof. unfold taken. rewrite str_length_app. replace (_ + _ - _)%nat with (String.length a) by lia. apply substring_prefix. Qed.

Lemma pmatch_lit s rest g k : pmatch (PLit s) (s +:+ rest) g k = k rest g.
Proof.
  induction s as [|c s IH]; [done|]. change (String c s +:+ rest)%string with (String c (s +:+ rest)).
  cbn [PLit pmatch]. unfold is_char at 1. rewrite bool_decide_true by done. exact IH.
Qed.
