(* ===== verification/Collect.v ===== *)
(** What the agent collects ([agent/internal/collect]): the sample and its blocks.

    A [float64] is an IEEE value, a [uint64] a [Z], an [ISOTime] a UTC instant in
    nanoseconds; a nil pointer or an absent field is [None]. *)

From S2P Require Import Prelude GoBase GoTime.
Local Open Scope Z_scope.

(* @src agent/internal/collect/types.go 15-23 CapStatus *)
Inductive CapStatus := CapNone | CapOK | CapAsleep | CapUnsupported | CapFailed.

#[export] Instance CapStatus_eq_dec : EqDecision CapStatus.
Proof. solve_decision. Defined.

(* @src agent/internal/collect/types.go 25-31 Capabilities *)
Record Capabilities := {
  cap_Containers : CapStatus;
  cap_Smart : CapStatus;
  cap_StoragePool : CapStatus;
  cap_Network : CapStatus }.

(* @src agent/internal/collect/types.go 38-41 NewISOTime *)
Definition NewISOTime (t : Z) : Z := truncate_to Millisecond t.

(* @src agent/internal/collect/types.go 43-46 MarshalJSON *)
Definition ISOTime_MarshalJSON (t : Z) : string := fmtTS t.

(* @src agent/internal/collect/types.go 48-60 UnmarshalJSON *)
(** [unquote] is [json.Unmarshal] into a string. *)
Definition ISOTime_UnmarshalJSON (unquote : string → option string) (b : string) : option Z :=
  match unquote b with None => None | Some s => parseTS s end.

(* @src agent/internal/collect/types.go 62-69 DiskUsage *)
Record DiskUsage := {
  du_Mount : string;
  du_Percent : float64;
  du_UsedBytes : Z;
  du_TotalBytes : Z;
  du_Fstype : string }.

(* @src agent/internal/collect/types.go 71-75 NetRate *)
Record NetRate := { nr_RxBps : Z; nr_TxBps : Z }.

(* @src agent/internal/collect/types.go 77-84 Container *)
Record Container := {
  ct_Name : string;
  ct_State : string;
  ct_ExitCode : option Z;
  ct_StartedAt : option Z;
  ct_RestartCount : Z }.

(* @src agent/internal/collect/types.go 86-91 NASDisk *)
Record NASDisk := { nd_Dev : string; nd_Smart : string; nd_TempC : option Z }.

(* @src agent/internal/collect/types.go 93-97 NASPool *)
Record NASPool := { np_Name : string; np_State : string }.

(* @src agent/internal/collect/types.go 99-103 NAS *)
Record NAS := { nas_Disks : list NASDisk; nas_Pools : list NASPool }.

(* @src agent/internal/collect/types.go 105-119 Sample *)
Record Sample := {
  sm_TS : Z;
  sm_CPUPercent : option float64;
  sm_MemPercent : option float64;
  sm_MemUsedBytes : option Z;
  sm_MemTotalBytes : option Z;
  sm_Load1 : option float64;
  sm_UptimeSeconds : option Z;
  sm_BootTime : option Z;
  sm_Disks : list DiskUsage;
  sm_Net : option NetRate;
  sm_Containers : option (list Container);
  sm_NAS : option NAS }.

(* @src agent/internal/collect/types.go 121-125 Result *)
Record Result := { res_Capabilities : Capabilities; res_Sample : Sample }.

(** A time comes back from JSON, to the millisecond. *)
Lemma ISOTime_roundtrip unquote b t : ts_range t → unquote b = Some (ISOTime_MarshalJSON t) →
  ISOTime_UnmarshalJSON unquote b = Some (truncate_to Millisecond t).
Proof. intros Ht Hb. unfold ISOTime_UnmarshalJSON. rewrite Hb. by apply parse_fmt. Qed.
