(* ===== verification/AgentReport.v ===== *)
(** The agent's reporter ([agent/internal/report]): the hub client's classification of
    answers, the events it builds itself, and the loops that move the queue to the hub.

    The hub and the network are the oracle [re_hub]: what the n-th request is answered.
    While a request is under way the collecting goroutine keeps running; [re_frames] gives
    the frames it collects meanwhile, so a drain sees its queue grow under it; [re_scanned]
    says whether a peek that fails had its row already.  Payloads are kept as the typed values whose JSON text the queue stores. *)

From S2P Require Import Prelude GoBase GoTime Queue Collect.
Local Open Scope Z_scope.

(** ** The client's data *)

(* @src agent/internal/report/client.go 21-31 ErrKind *)
Inductive ErrKind := ErrRetryable | ErrUnauthorized | ErrPoison.

#[export] Instance ErrKind_eq_dec : EqDecision ErrKind.
Proof. solve_decision. Defined.

(* @src agent/internal/report/client.go 33-39 SendError *)
Record SendError := {
  se_Kind : ErrKind;
  se_Status : Z;
  se_RetryAfter : Z;
  se_Detail : string }.

(* @src agent/internal/report/client.go 41-46 Error *)
Definition SendError_Error (e : SendError) : string :=
  if decide (se_Detail e = EmptyString) then ("ingest status " +:+ fmt_d (se_Status e))%string
  else ("ingest status " +:+ fmt_d (se_Status e) +:+ ": " +:+ se_Detail e)%string.

(* @src agent/internal/report/client.go 48-54 MetricsAck *)
Record MetricsAck := {
  ma_Accepted : bool;
  ma_Duplicate : bool;
  ma_ServerTime : string;
  ma_ReportIntervalSeconds : Z }.

(* @src agent/internal/report/client.go 56-61 RejectedEvent *)
Record RejectedEvent := { rej_EventID : string; rej_Code : string; rej_Message : string }.

(* @src agent/internal/report/client.go 63-70 EventsAck *)
Record EventsAck := {
  ea_Accepted : list string;
  ea_Duplicates : list string;
  ea_Rejected : list RejectedEvent;
  ea_LastSeq : Z;
  ea_ServerTime : string }.

(** A response body, by what each decoder makes of it: the two acknowledgements ([None] is
    a decoding error, with its text), the error envelope ([rb_code] is empty when the body
    is not one), and the raw text. *)
Record resp_body := {
  rb_metrics : option MetricsAck;
  rb_events : option EventsAck;
  rb_decode_err : string;
  rb_code : string;
  rb_message : string;
  rb_text : string }.

(** How a request ends: it cannot be built, gets no response, or gets one. *)
Inductive http_answer :=
| NoRequest
| NoResponse (why : string)
| Response (status : Z) (retry_after : string) (body : resp_body).

(** Errors: a classified one, any other ([errors.As] finds no [SendError] in it), and the
    loop bound of the model, which is not an error of the program. *)
Inductive rerr :=
| ESend (e : SendError)
| EOther
| EFuel.

(* @src agent/internal/report/client.go 175-198 errDetail *)
Definition errDetail (b : resp_body) : string :=
  if decide (rb_code b ≠ EmptyString) then
    cut_bytes 300 (if decide (rb_message b = EmptyString) then rb_code b
                   else (rb_code b +:+ ": " +:+ rb_message b)%string)
  else cut_bytes 300 (trim_space (rb_text b)).

(* @src agent/internal/report/client.go 122-173 post *)
Definition post (a : http_answer) : outcome rerr resp_body :=
  match a with
  | NoRequest => Err EOther
  | NoResponse why =>
    Err (ESend {| se_Kind := ErrRetryable; se_Status := 0; se_RetryAfter := 0; se_Detail := why |})
  | Response st ra b =>
    if decide (200 <= st ∧ st < 300) then Ok b
    else if decide (st = 401) then
      Err (ESend {| se_Kind := ErrUnauthorized; se_Status := st; se_RetryAfter := 0;
                    se_Detail := errDetail b |})
    else if decide (st = 400 ∨ st = 413) then
      Err (ESend {| se_Kind := ErrPoison; se_Status := st; se_RetryAfter := 0;
                    se_Detail := errDetail b |})
    else
      let after :=
        if decide (st = 429) then
          if decide (ra ≠ EmptyString) then
            match atoi ra with Some n => duration_mul n Second | None => 0 end
          else 0
        else 0 in
      Err (ESend {| se_Kind := ErrRetryable; se_Status := st; se_RetryAfter := after;
                    se_Detail := errDetail b |})
  end.

(* @src agent/internal/report/client.go 200-207 Classify *)
Definition Classify (e : rerr) : ErrKind :=
  match e with ESend se => se_Kind se | _ => ErrRetryable end.

(* @src agent/internal/report/client.go 95-106 PostMetrics *)
Definition metrics_ack (a : http_answer) : outcome rerr MetricsAck :=
  match post a with
  | Err e => Err e
  | Ok b =>
    match rb_metrics b with
    | Some ack => Ok ack
    | None => Err (ESend {| se_Kind := ErrRetryable; se_Status := 0; se_RetryAfter := 0;
                            se_Detail := "bad metrics ack: " +:+ rb_decode_err b |})
    end
  end%string.

(* @src agent/internal/report/client.go 108-119 PostEvents *)
Definition events_ack (a : http_answer) : outcome rerr EventsAck :=
  match post a with
  | Err e => Err e
  | Ok b =>
    match rb_events b with
    | Some ack => Ok ack
    | None => Err (ESend {| se_Kind := ErrRetryable; se_Status := 0; se_RetryAfter := 0;
                            se_Detail := "bad events ack: " +:+ rb_decode_err b |})
    end
  end%string.

(** ** Payloads *)

(* @src agent/internal/report/payload.go 10-16 AgentInfo *)
Record AgentInfo := {
  ai_Version : string;
  ai_OS : string;
  ai_Arch : string;
  ai_Hostname : string }.

(* @src agent/internal/report/payload.go 18-25 metricsPayload *)
Record metricsPayload := {
  mp_Seq : Z;
  mp_SentAt : Z;
  mp_Agent : AgentInfo;
  mp_Capabilities : Capabilities;
  mp_Sample : Sample }.

(* @src agent/internal/report/events.go 31-39 Attachment *)
Record Attachment := {
  at_ID : string;
  at_Kind : string;
  at_Filename : string;
  at_Mime : string;
  at_ByteSize : Z;
  at_SHA256 : string }.

(* @src agent/internal/report/events.go 12-29 Event *)
Record Event := {
  ev_EventID : string;
  ev_Seq : Z;
  ev_Kind : string;
  ev_OccurredAt : Z;
  ev_Severity : string;
  ev_FaultKey : option string;
  ev_IncidentAction : option string;
  ev_Title : string;
  ev_Body : string;
  ev_Ref : option json;
  ev_Attachments : list Attachment }.

(** A queued payload, and a request body. *)
Inductive payload := PMetrics (m : metricsPayload) | PEvent (e : Event).
Inductive request := ReqMetrics (p : payload) | ReqEvents (sentAt : Z) (evs : list payload).

(** The floats of a sample: [json.Marshal] fails when one is not finite, and on nothing else
    in a frame. *)
Definition sample_floats (s : Sample) : list float64 :=
  omap id [sm_CPUPercent s; sm_MemPercent s; sm_Load1 s] ++ (du_Percent <$> sm_Disks s).

(* @src agent/internal/report/payload.go 33-42 BuildMetrics *)
Definition BuildMetrics (seq : Z) (info : AgentInfo) (res : Result) (sentAt : Z) : option payload :=
  if forallb f64_finite (sample_floats (res_Sample res)) then
    Some (PMetrics {| mp_Seq := seq; mp_SentAt := NewISOTime sentAt; mp_Agent := info;
                      mp_Capabilities := res_Capabilities res; mp_Sample := res_Sample res |})
  else None.

(* @src agent/internal/report/payload.go 44-50 BuildEvents *)
Definition BuildEvents (events : list payload) (sentAt : Z) : request :=
  ReqEvents (NewISOTime sentAt) events.

(* @src agent/internal/report/payload.go 52-55 MarshalEvent *)
Definition MarshalEvent (e : Event) : payload := PEvent e.

(* @src agent/internal/report/events.go 75-81 truncateRunes *)
Definition truncateRunes (s : string) (max : Z) : string :=
  let r := runes s in
  if decide (Z.of_nat (length r) <= max) then s else concat_str (take (Z.to_nat max) r).

(* @src agent/internal/report/events.go 41-52 newEvent *)
(** [id] is [ulid.Make().String()]. *)
Definition newEvent (kind severity title body : string) (seq now : Z) (id : string) : Event :=
  {| ev_EventID := "ag_" +:+ id; ev_Seq := seq; ev_Kind := kind;
     ev_OccurredAt := NewISOTime now; ev_Severity := severity; ev_FaultKey := None;
     ev_IncidentAction := None; ev_Title := truncateRunes title 200;
     ev_Body := truncateRunes body 20000; ev_Ref := None; ev_Attachments := [] |}%string.

(* @src agent/internal/report/events.go 54-58 AgentStartedEvent *)
Definition AgentStartedEvent (seq : Z) (version hostname : string) (now : Z) (id : string) : Event :=
  newEvent "agent_started" "info" ("采集代理已启动 v" +:+ version +:+ " @" +:+ hostname) "" seq now id.

(* @src agent/internal/report/events.go 60-70 QueueOverflowEvent *)
Definition QueueOverflowEvent (seq : Z) (queueKind : string) (dropped firstAt lastAt now : Z)
    (id : string) : Event :=
  let e := newEvent "queue_overflow" "warning" "本地持久队列溢出：丢弃最旧数据" "" seq now id in
  {| ev_EventID := ev_EventID e; ev_Seq := ev_Seq e; ev_Kind := ev_Kind e;
     ev_OccurredAt := ev_OccurredAt e; ev_Severity := ev_Severity e;
     ev_FaultKey := ev_FaultKey e; ev_IncidentAction := ev_IncidentAction e;
     ev_Title := ev_Title e;
     ev_Body := "queue=" +:+ queueKind +:+ " dropped=" +:+ fmt_d dropped +:+
                " window=" +:+ fmtRFC3339 firstAt +:+ ".." +:+ fmtRFC3339 lastAt;
     ev_Ref := ev_Ref e; ev_Attachments := ev_Attachments e |}%string.

(* @src agent/internal/report/events.go 72-76 PayloadDroppedEvent *)
Definition PayloadDroppedEvent (seq : Z) (what reason : string) (now : Z) (id : string) : Event :=
  newEvent "custom" "warning" "上报载荷被中枢拒绝并已丢弃" (what +:+ ": " +:+ reason) seq now id.

(** ** The reporter *)

(* @src agent/internal/report/reporter.go 17-33 DefaultBackoff *)
(** [time.Second << uint(attempt)], capped; an [int64]. *)
Definition DefaultBackoff (attempt : Z) : Z :=
  let attempt := if decide (attempt < 0) then 0 else attempt in
  if decide (10 < attempt) then 60 * Second
  else let d := wrap64 (Z.shiftl Second attempt) in
       if decide (60 * Second < d) then 60 * Second else d.

(** The reporter's surroundings: the faults and clock of its queue, its own clock, the ULID
    generator, the hub, and the frames collected while the n-th request is under way. *)
Class ReportEnv := {
  #[global] re_queue :: QueueEnv;
  re_now : nat → Z;
  re_ulid : nat → string;
  re_hub : nat → request → http_answer;
  re_frames : nat → list (option Result);
  re_scanned : nat → bool }.

(* @src agent/internal/report/reporter.go 41-59 Reporter *)
(** The fields of [Reporter], the value of [wake]'s one-slot buffer, how often the clock and
    the ULID generator were read, and the requests made so far with their answers. *)
Record Reporter := {
  rp_q : Queue payload;
  rp_info : AgentInfo;
  rp_wake : bool;
  rp_interval : Z;
  rp_probeEvery : Z;
  rp_maxReplay : Z;
  rp_maxEventSend : Z;
  rp_ticks : nat;
  rp_ulids : nat;
  rp_posts : list (request * http_answer) }.

Definition rset_q (q : Queue payload) (r : Reporter) : Reporter :=
  {| rp_q := q; rp_info := rp_info r; rp_wake := rp_wake r; rp_interval := rp_interval r;
     rp_probeEvery := rp_probeEvery r; rp_maxReplay := rp_maxReplay r;
     rp_maxEventSend := rp_maxEventSend r; rp_ticks := rp_ticks r; rp_ulids := rp_ulids r;
     rp_posts := rp_posts r |}.

Definition rset_wake (w : bool) (r : Reporter) : Reporter :=
  {| rp_q := rp_q r; rp_info := rp_info r; rp_wake := w; rp_interval := rp_interval r;
     rp_probeEvery := rp_probeEvery r; rp_maxReplay := rp_maxReplay r;
     rp_maxEventSend := rp_maxEventSend r; rp_ticks := rp_ticks r; rp_ulids := rp_ulids r;
     rp_posts := rp_posts r |}.

Definition rset_interval (i : Z) (r : Reporter) : Reporter :=
  {| rp_q := rp_q r; rp_info := rp_info r; rp_wake := rp_wake r; rp_interval := i;
     rp_probeEvery := rp_probeEvery r; rp_maxReplay := rp_maxReplay r;
     rp_maxEventSend := rp_maxEventSend r; rp_ticks := rp_ticks r; rp_ulids := rp_ulids r;
     rp_posts := rp_posts r |}.

Definition rset_counters (ticks ulids : nat) (r : Reporter) : Reporter :=
  {| rp_q := rp_q r; rp_info := rp_info r; rp_wake := rp_wake r; rp_interval := rp_interval r;
     rp_probeEvery := rp_probeEvery r; rp_maxReplay := rp_maxReplay r;
     rp_maxEventSend := rp_maxEventSend r; rp_ticks := ticks; rp_ulids := ulids;
     rp_posts := rp_posts r |}.

Definition rset_posts (ps : list (request * http_answer)) (r : Reporter) : Reporter :=
  {| rp_q := rp_q r; rp_info := rp_info r; rp_wake := rp_wake r; rp_interval := rp_interval r;
     rp_probeEvery := rp_probeEvery r; rp_maxReplay := rp_maxReplay r;
     rp_maxEventSend := rp_maxEventSend r; rp_ticks := rp_ticks r; rp_ulids := rp_ulids r;
     rp_posts := ps |}.

(* @src agent/internal/report/reporter.go 61-82 New *)
Definition New (q : Queue payload) (info : AgentInfo) (interval : Z) : Reporter :=
  {| rp_q := q; rp_info := info; rp_wake := false;
     rp_interval := if decide (interval <= 0) then 30 * Second else interval;
     rp_probeEvery := 5 * Minute; rp_maxReplay := 100; rp_maxEventSend := 100;
     rp_ticks := 0; rp_ulids := 0; rp_posts := [] |}.

(** ** Specification *)

Definition events_of (q : Queue payload) : list (qrow payload) := qt_rows (qd_events_q (q_db q)).
Definition metrics_of (q : Queue payload) : list (qrow payload) := qt_rows (qd_metrics_q (q_db q)).

(** The hub disposed of a payload: a request carrying it was acknowledged, or refused for
    good (400 or 413). *)
Definition event_settled (p : payload) (posts : list (request * http_answer)) : Prop :=
  ∃ at_ ps a, (ReqEvents at_ ps, a) ∈ posts ∧ p ∈ ps ∧
    ((∃ ack, events_ack a = Ok ack) ∨ ∃ e, events_ack a = Err e ∧ Classify e = ErrPoison).

(** A queue in a state its operations can lead to. *)
Definition queue_ok (q : Queue payload) : Prop := ∃ l, queue_inv q l.

Section reporter.
Context `{RE : ReportEnv}.
Notation RM := (stM Reporter rerr).

(** A queue call: its error is not a [SendError]. *)
Definition lift_q {A} (m : stM (Queue payload) qerr A) : RM A := λ r,
  match m (rp_q r) with
  | (Ok a, q') => (Ok a, rset_q q' r)
  | (Err _, q') => (Err EOther, rset_q q' r)
  end.

Definition r_now : RM Z := λ r,
  (Ok (re_now (rp_ticks r)), rset_counters (S (rp_ticks r)) (rp_ulids r) r).

Definition r_ulid : RM string := λ r,
  (Ok (re_ulid (rp_ulids r)), rset_counters (rp_ticks r) (S (rp_ulids r)) r).

(* @src agent/internal/report/reporter.go 99-105 signal *)
Definition signal : RM () := st_modify (rset_wake true).

(* @src agent/internal/report/reporter.go 107-116 setIntervalSeconds *)
Definition setIntervalSeconds (s : Z) : RM () :=
  let s := if decide (s < 10) then 10 else s in
  let s := if decide (600 < s) then 600 else s in
  st_modify (rset_interval (duration_mul s Second)).

(* @src agent/internal/report/reporter.go 118-136 emitEvent *)
(** Every failure is logged and swallowed. *)
Definition emitEvent (build : Z → RM Event) : RM () :=
  seq ← st_try (lift_q NextEventSeq);
  match seq with
  | Err _ => mret ()
  | Ok seq =>
    e ← build seq;
    d ← st_try (lift_q (EnqueueEvent seq (MarshalEvent e)));
    match d with Err _ => mret () | Ok _ => signal end
  end.

(* @src agent/internal/report/reporter.go 138-154 emitSystemEventNoTrim *)
Definition emitSystemEventNoTrim (build : Z → RM Event) : RM () :=
  seq ← st_try (lift_q NextEventSeq);
  match seq with
  | Err _ => mret ()
  | Ok seq =>
    e ← build seq;
    _ ← st_try (lift_q (EnqueueEventNoTrim seq (MarshalEvent e)));
    mret ()
  end.

(* @src agent/internal/report/reporter.go 173-200 collectOnce *)
(** One collected frame ([None]: [Collect] failed). *)
Definition collectOnce (res : option Result) : RM () :=
  match res with
  | None => mret ()
  | Some res =>
    seq ← st_try (lift_q NextMetricsSeq);
    match seq with
    | Err _ => mret ()
    | Ok seq =>
      now ← r_now;
      info ← st_gets rp_info;
      match BuildMetrics seq info res now with
      | None => mret ()
      | Some body =>
        dropped ← st_try (lift_q (EnqueueMetrics seq body));
        match dropped with Err _ => mret () | Ok _ => signal end
      end
    end
  end.

(** A request is answered by the hub; the collecting goroutine runs meanwhile. *)
Definition do_request (req : request) : RM http_answer := λ r,
  let n := length (rp_posts r) in
  let a := re_hub n req in
  (st_foldl (λ _ f, collectOnce f) () (re_frames n) ;; mret a)
    (rset_posts (rp_posts r ++ [(req, a)]) r).

(** A call whose error the caller inspects; running out of fuel is not one of its errors. *)
Definition catch {A} (m : RM A) : RM (outcome rerr A) :=
  res ← st_try m; match res with Err EFuel => st_throw EFuel | _ => mret res end.

Definition of_outcome {A} (o : outcome rerr A) : RM A := λ r, (o, r).

(* @src agent/internal/report/client.go 96-106 !PostMetrics *)
Definition PostMetrics (body : payload) : RM MetricsAck :=
  a ← do_request (ReqMetrics body); of_outcome (metrics_ack a).

(* @src agent/internal/report/client.go 109-119 !PostEvents *)
Definition PostEvents (req : request) : RM EventsAck :=
  a ← do_request req; of_outcome (events_ack a).

(* @src agent/internal/report/reporter.go 268-276 anyPending *)
Definition anyPending : RM bool :=
  m ← st_try (lift_q MetricsPending);
  e ← st_try (lift_q EventsPending);
  mret match m, e with
       | Ok m, Ok e => bool_decide (0 < m + e)
       | _, _ => true
       end.

(* @src agent/internal/report/reporter.go 370-388 flushOverflowEvents *)
Definition flushOverflowEvents : RM () :=
  st_foldl (λ _ t,
    ov ← lift_q (TakeOverflow (kind_of t));
    match ov with
    | None => mret ()
    | Some ov =>
      emitSystemEventNoTrim (λ seq,
        now ← r_now; id ← r_ulid;
        mret (QueueOverflowEvent seq (kind_of t) (ov_Dropped ov) (ov_FirstAt ov) (ov_LastAt ov)
                now id))
    end) () [metrics_q; events_q].

(** [err.Error()] of a classified error; the text of any other is not modelled. *)
Definition err_text (e : rerr) : string :=
  match e with ESend se => SendError_Error se | _ => EmptyString end.

(* @src agent/internal/report/reporter.go 390-399 dropPoisonMetrics *)
Definition dropPoisonMetrics (row : qrow payload) (serr : rerr) : RM () :=
  _ ← st_try (lift_q (DeleteMetrics [q_ID row]));
  emitSystemEventNoTrim (λ seq,
    now ← r_now; id ← r_ulid;
    mret (PayloadDroppedEvent seq ("metrics seq=" +:+ fmt_d (q_Seq row))%string (err_text serr) now id)).

(* @src agent/internal/report/reporter.go 401-414 dropPoisonEvents *)
Definition dropPoisonEvents (rows : list (qrow payload)) (serr : rerr) : RM () :=
  _ ← st_try (lift_q (DeleteEvents (q_ID <$> rows)));
  emitSystemEventNoTrim (λ seq,
    now ← r_now; id ← r_ulid;
    mret (PayloadDroppedEvent seq ("events count=" +:+ fmt_d (Z.of_nat (length rows)))%string
            (err_text serr) now id)).

(* @src agent/internal/report/reporter.go 279-324 !drainOnce *)
(** The metrics half of [drainOnce]; the fuel bounds its [for] loop. *)
Fixpoint drain_metrics (fuel : nat) : RM () :=
  match fuel with
  | O => st_throw EFuel
  | S fuel =>
    pending ← lift_q MetricsPending;
    if decide (pending = 0) then mret () else
    max ← st_gets rp_maxReplay;
    if decide (max < pending) then
      dropped ← lift_q (DropOldestMetrics (pending - max));
      (if decide (0 < dropped) then flushOverflowEvents else mret ()) ;;
      drain_metrics fuel
    else
    rows ← lift_q (PeekMetrics 1);
    match rows with
    | [] => mret ()
    | row :: _ =>
      ack ← st_try (PostMetrics (q_Payload row));
      match ack with
      | Err serr =>
        if decide (Classify serr = ErrPoison) then
          dropPoisonMetrics row serr ;; drain_metrics fuel
        else st_throw serr
      | Ok ack =>
        lift_q (DeleteMetrics [q_ID row]) ;;
        (if decide (0 < ma_ReportIntervalSeconds ack)
         then setIntervalSeconds (ma_ReportIntervalSeconds ack) else mret ()) ;;
        drain_metrics fuel
      end
    end
  end.

(* @src agent/internal/report/reporter.go 326-359 !drainOnce *)
(** The events half of [drainOnce]. *)
Fixpoint drain_events (fuel : nat) : RM () :=
  match fuel with
  | O => st_throw EFuel
  | S fuel =>
    max ← st_gets rp_maxEventSend;
    rows ← lift_q (PeekEvents max);
    match rows with
    | [] => mret ()
    | _ =>
      now ← r_now;
      ack ← st_try (PostEvents (BuildEvents (q_Payload <$> rows) now));
      match ack with
      | Err serr =>
        if decide (Classify serr = ErrPoison) then
          dropPoisonEvents rows serr ;; drain_events fuel
        else st_throw serr
      | Ok _ =>
        lift_q (DeleteEvents (q_ID <$> rows)) ;; drain_events fuel
      end
    end
  end.

(* @src agent/internal/report/reporter.go 278-368 drainOnce *)
Definition drainOnce (fuel : nat) : RM () :=
  flushOverflowEvents ;; drain_metrics fuel ;; drain_events fuel.

(** ** The drain loop *)

(** Its local variables; the zero [nextTry] is [zero_time]. *)
(* @src agent/internal/report/reporter.go 203-206 !drainLoop *)
Record drain_state := { dl_attempt : Z; dl_unauthorized : bool; dl_nextTry : Z }.

Definition drain_init : drain_state :=
  {| dl_attempt := 0; dl_unauthorized := false; dl_nextTry := zero_time |}.

(* @src agent/internal/report/reporter.go 451-461 handleProbeErr *)
Definition handleProbeErr (err : rerr) (d : drain_state) : RM drain_state :=
  if decide (Classify err = ErrUnauthorized) then
    now ← r_now; every ← st_gets rp_probeEvery;
    mret {| dl_attempt := dl_attempt d; dl_unauthorized := dl_unauthorized d;
            dl_nextTry := now + every |}
  else
    now ← r_now;
    mret {| dl_attempt := dl_attempt d + 1; dl_unauthorized := false;
            dl_nextTry := now + DefaultBackoff (dl_attempt d) |}.

(** The state after a probe that got through. *)
Definition probe_ok (d : drain_state) : drain_state :=
  {| dl_attempt := 0; dl_unauthorized := false; dl_nextTry := dl_nextTry d |}.

(** The head row of a table for the probe, which ignores the error of a peek: a call that
    fails yields its row nevertheless when it had scanned it ([re_scanned]). *)
Definition peek_head (t : qtab) (peek : stM (Queue payload) qerr (list (qrow payload))) :
    RM (list (qrow payload)) := λ r,
  match lift_q peek r with
  | (Ok rows, r') => (Ok rows, r')
  | (Err _, r') => (Ok (if re_scanned (q_calls (rp_q r)) then oldest t 1 (q_db (rp_q r)) else []), r')
  end.

(* @src agent/internal/report/reporter.go 405-450 probeUnauthorized *)
(** Errors of peeking and deleting are ignored. *)
Definition probeUnauthorized (d : drain_state) : RM drain_state :=
  rows ← peek_head metrics_q (PeekMetrics 1);
  match rows with
  | row :: _ =>
    ack ← st_try (PostMetrics (q_Payload row));
    match ack with
    | Ok ack =>
      (if decide (0 < ma_ReportIntervalSeconds ack)
       then setIntervalSeconds (ma_ReportIntervalSeconds ack) else mret ()) ;;
      _ ← st_try (lift_q (DeleteMetrics [q_ID row]));
      mret (probe_ok d)
    | Err err => handleProbeErr err d
    end
  | [] =>
    evs ← peek_head events_q (PeekEvents 1);
    match evs with
    | ev :: _ =>
      now ← r_now;
      ack ← st_try (PostEvents (BuildEvents [q_Payload ev] now));
      match ack with
      | Ok _ =>
        _ ← st_try (lift_q (DeleteEvents [q_ID ev]));
        mret (probe_ok d)
      | Err err => handleProbeErr err d
      end
    | [] => mret {| dl_attempt := dl_attempt d; dl_unauthorized := false;
                   dl_nextTry := dl_nextTry d |}
    end
  end.

(** What a drain's result does to the loop's variables. *)
(* @src agent/internal/report/reporter.go 238-260 !drainLoop *)
Definition after_drain (d : drain_state) (res : outcome rerr ()) : RM drain_state :=
  match res with
  | Ok _ => mret {| dl_attempt := 0; dl_unauthorized := dl_unauthorized d; dl_nextTry := zero_time |}
  | Err err =>
    match Classify err with
    | ErrUnauthorized =>
      now ← r_now; every ← st_gets rp_probeEvery;
      mret {| dl_attempt := dl_attempt d; dl_unauthorized := true; dl_nextTry := now + every |}
    | ErrPoison =>
      mret {| dl_attempt := 0; dl_unauthorized := dl_unauthorized d; dl_nextTry := dl_nextTry d |}
    | ErrRetryable =>
      let delay := match err with
                   | ESend se => if decide (0 < se_RetryAfter se) then se_RetryAfter se
                                 else DefaultBackoff (dl_attempt d)
                   | _ => DefaultBackoff (dl_attempt d)
                   end in
      now ← r_now;
      mret {| dl_attempt := dl_attempt d + 1; dl_unauthorized := dl_unauthorized d;
              dl_nextTry := now + delay |}
    end
  end.

(** Which case of a [select] is taken: the context is done, the [wake] channel has a value,
    or the timer fires. *)
Inductive sel := SelDone | SelWake | SelTimer.

(** One iteration of the loop: it goes on with new variables, returns, or the chosen case
    is not ready. *)
Inductive loop_res := Continue (d : drain_state) | Return | Blocked.

(* @src agent/internal/report/reporter.go 464-473 finalFlush *)
Definition finalFlush (fuel : nat) : RM () := _ ← catch (drainOnce fuel); mret ().

(** [case <-r.wake]: takes the value out of the channel. *)
Definition on_wake (d : drain_state) : RM loop_res :=
  w ← st_gets rp_wake;
  if w : bool then st_modify (rset_wake false) ;; mret (Continue d) else mret Blocked.

(* @src agent/internal/report/reporter.go 202-266 drainLoop *)
Definition drain_iteration (fuel : nat) (s : sel) (d : drain_state) : RM loop_res :=
  now ← r_now;
  if decide (now < dl_nextTry d) then
    match s with
    | SelDone => finalFlush fuel ;; mret Return
    | SelWake => on_wake d
    | SelTimer => mret (Continue d)
    end
  else
  any ← anyPending;
  if negb any then
    match s with
    | SelDone => finalFlush fuel ;; mret Return
    | SelWake => on_wake d
    | SelTimer => mret Blocked
    end
  else if dl_unauthorized d then
    d' ← probeUnauthorized d; mret (Continue d')
  else
    res ← catch (drainOnce fuel);
    d' ← after_drain d res; mret (Continue d').

(* @src agent/internal/report/reporter.go 89-97 Run *)
(** [Run]'s prologue; the loops follow, as iterations. *)
Definition Run_start : RM () :=
  info ← st_gets rp_info;
  emitEvent (λ seq, now ← r_now; id ← r_ulid;
    mret (AgentStartedEvent seq (ai_Version info) (ai_Hostname info) now id)).

(* @src agent/internal/report/reporter.go 156-171 collectLoop *)
(** One tick of the collecting loop's timer. *)
Definition collect_tick (res : option Result) : RM () := collectOnce res.

(** The two goroutines and what wakes them, as steps of one agent. *)
Inductive agent_step := StepCollect (res : option Result) | StepDrain (s : sel).

Definition run_step (fuel : nat) (st : agent_step) (d : drain_state) : RM loop_res :=
  match st with
  | StepCollect res => collect_tick res ;; mret (Continue d)
  | StepDrain s => drain_iteration fuel s d
  end.

(** An interleaving of the two goroutines. *)
Fixpoint run_steps (fuel : nat) (steps : list agent_step) (d : drain_state) : RM drain_state :=
  match steps with
  | [] => mret d
  | st :: steps =>
    res ← run_step fuel st d;
    match res with
    | Continue d' => run_steps fuel steps d'
    | Blocked => run_steps fuel steps d
    | Return => mret d
    end
  end.
End reporter.

(** ** Lemmas: what the drain does to the events queue *)

(** Settled by one of the requests made after [ps0]. *)
Definition settled_since (ps0 : list (request * http_answer)) (p : payload)
    (ps : list (request * http_answer)) : Prop := event_settled p (drop (length ps0) ps).

Lemma settled_since_mono ps0 p ps ps' :
  ps0 `prefix_of` ps → ps `prefix_of` ps' → settled_since ps0 p ps → settled_since ps0 p ps'.
Proof.
  intros [k1 ->] [k ->] (a & b & c & H & ?). exists a, b, c. split; [|done].
  rewrite <-app_assoc, drop_app_length in *. by rewrite drop_app_length in H || set_solver.
Qed.

(** Collecting makes no request. *)
Lemma collect_posts `{RE : ReportEnv} f r : rp_posts (collectOnce f r).2 = rp_posts r.
Proof.
  assert (∀ A (m : stM (Queue payload) qerr A), preserves (λ r', rp_posts r' = rp_posts r) (lift_q m)) as Hl.
  { intros A m r' <-. unfold lift_q. by destruct (m (rp_q r')) as [[?|?] ?]. }
  cut (preserves (E:=rerr) (λ r', rp_posts r' = rp_posts r) (collectOnce f)); [intros H; by apply H|].
  unfold collectOnce. pose proof (@preserves_ret Reporter rerr) as Hr.
  destruct f as [res|]; [|apply Hr]. apply preserves_bind; [apply preserves_try, Hl|].
  intros [seq|?]; [|apply Hr]. apply preserves_bind; [by intros ? <-|intros now].
  apply preserves_bind; [apply preserves_gets|intros info]. destruct (BuildMetrics _ _ _ _); [|apply Hr].
  apply preserves_bind; [apply preserves_try, Hl|intros [?|?]; [by intros ? <-|apply Hr]].
Qed.

Section events_kept.
Context `{RE : ReportEnv}.
Implicit Types (r : Reporter) (q : Queue payload).

(** The operations that take no event out of the queue. *)
Definition keeps_events (o : qop (P:=payload)) : Prop :=
  match o with
  | OpEnqueue t _ _ | OpDelete t _ | OpDropOldest t _ => t = metrics_q
  | _ => True
  end.

Lemma run_op_keeps_events o q l row :
  keeps_events o → queue_inv q l → row ∈ events_of q → row ∈ events_of (run_op o q l).1.
Proof.
  intros Hk Hinv Hrow. pose proof Hinv as (Hwf & _).
  pose proof (max_of_nonneg q l metrics_q Hinv) as Hmax. unfold events_of in *.
  assert (∀ q', get_tab events_q (q_db q') = get_tab events_q (q_db q) →
    row ∈ qt_rows (qd_events_q (q_db q'))) as Hsame by (cbn; by intros ? ->).
  destruct o as [k|t seq p|seq p|t lim|t ids|t n|t]; cbn [run_op fst keeps_events] in *; subst.
  - apply Hsame. unfold nextSeq, q_call. by destruct (q_io _).
  - destruct (enqueue _ _ _ _ q) as [[d|e] q'] eqn:E; cbn [fst]; apply Hsame.
    + apply enqueue_Ok in E as (_ & _ & H & _); [by apply H|apply (queue_wf_tab q metrics_q Hwf)|done].
    + by apply enqueue_Err in E as ->.
  - destruct (EnqueueEventNoTrim seq p q) as [[d|e] q'] eqn:E; cbn [fst].
    + unfold EnqueueEventNoTrim in E. mrun E. injection Hrun as <- <-.
      apply q_exec_Ok in E as [_ ->]. cbn. apply elem_of_app. by left.
    + unfold EnqueueEventNoTrim in E. unfold mbind, stM_bind, q_now, st_gets in E. cbn in E.
      unfold q_exec in E. apply q_call_Err in E as ->. by apply Hsame.
  - apply Hsame. unfold q_query, q_call. by destruct (q_io _).
  - apply Hsame. destruct (deleteIDs _ ids q) as [x q'] eqn:E.
    apply deleteIDs_effect in E as (_ & H & _). by apply H.
  - apply Hsame. destruct (dropOldest _ n q) as [x q'] eqn:E.
    apply dropOldest_effect in E as (_ & H & _); [by apply H|apply (queue_wf_tab q metrics_q Hwf)].
  - destruct (TakeOverflow _ q) as [x q'] eqn:E. apply TakeOverflow_effect in E as (H & _).
    destruct x as [[ov|]|e]; apply Hsame, H.
Qed.

(** A queue call that acts as one of the queue's operations. *)
Definition acts_as {A} (o : qop (P:=payload)) (m : stM (Queue payload) qerr A) : Prop :=
  ∀ q l, (m q).2 = (run_op o q l).1.

Lemma acts_nextSeq key : acts_as (OpNextSeq key) (nextSeq key).
Proof. done. Qed.
Lemma acts_enqueue_metrics seq p : acts_as (OpEnqueue metrics_q seq p) (EnqueueMetrics seq p).
Proof. intros q l. cbn. unfold EnqueueMetrics, mbind, stM_bind, st_gets. by destruct (enqueue _ _ _ _ q) as [[?|?] ?]. Qed.
Lemma acts_notrim seq p : acts_as (OpEnqueueNoTrim seq p) (EnqueueEventNoTrim seq p).
Proof. intros q l. cbn. by destruct (EnqueueEventNoTrim _ _ q) as [[?|?] ?]. Qed.
Lemma acts_pending t t' lim : acts_as (OpPeek t' lim) (pending t).
Proof. intros q l. cbn. unfold pending, q_query, q_call. by destruct (q_io _). Qed.
Lemma acts_peek t lim : acts_as (OpPeek t lim) (q_query (oldest t lim)).
Proof. done. Qed.
Lemma acts_delete t ids : acts_as (OpDelete t ids) (deleteIDs t ids).
Proof. done. Qed.
Lemma acts_drop t n : acts_as (OpDropOldest t n) (dropOldest t n).
Proof. done. Qed.
Lemma acts_take t : acts_as (OpTakeOverflow t) (TakeOverflow (kind_of t)).
Proof. intros q l. cbn. by destruct (TakeOverflow _ q) as [[[?|]|?] ?]. Qed.

(** The invariant: the queue is sound, the events [E0] are pending or settled (in the sense
    of [St]), and the requests [ps0] were made. *)
Variables (St : payload → list (request * http_answer) → Prop).
Variables (E0 : list (qrow payload)) (ps0 : list (request * http_answer)).
Hypothesis St_mono : ∀ p ps ps', ps0 `prefix_of` ps → ps `prefix_of` ps' → St p ps → St p ps'.

Definition kept r : Prop :=
  queue_ok (rp_q r) ∧ ps0 `prefix_of` rp_posts r ∧
  ∀ row, row ∈ E0 → row ∈ events_of (rp_q r) ∨ St (q_Payload row) (rp_posts r).

Lemma kept_ext r r' : rp_q r' = rp_q r → rp_posts r' = rp_posts r → kept r → kept r'.
Proof. unfold kept. by intros -> ->. Qed.

Lemma kept_op {A} o (m : stM (Queue payload) qerr A) :
  keeps_events o → acts_as o m → preserves (E:=rerr) kept (lift_q m).
Proof.
  intros Hk Ha r ([l Hl] & Hps & Hrows). unfold lift_q.
  specialize (Ha (rp_q r) l). pose proof (run_op_inv o _ _ Hl) as Hinv.
  assert (∀ row, row ∈ events_of (rp_q r) → row ∈ events_of (m (rp_q r)).2) as He.
  { intros row Hrow. rewrite Ha. by apply run_op_keeps_events. }
  rewrite <-Ha in Hinv.
  destruct (m (rp_q r)) as [[a|e] q']; cbn in *; (split; [by eexists|split; [done|]]);
    intros row Hr; destruct (Hrows row Hr); auto.
Qed.

Lemma kept_now : preserves (E:=rerr) kept r_now.
Proof. intros r H. by eapply kept_ext, H. Qed.
Lemma kept_ulid : preserves (E:=rerr) kept r_ulid.
Proof. intros r H. by eapply kept_ext, H. Qed.
Lemma kept_modify_wake w : preserves (E:=rerr) kept (st_modify (rset_wake w)).
Proof. intros r H. by eapply kept_ext, H. Qed.
Lemma kept_interval s : preserves (E:=rerr) kept (setIntervalSeconds s).
Proof. intros r H. by eapply kept_ext, H. Qed.

Lemma kept_notrim build :
  (∀ seq, preserves (E:=rerr) kept (build seq)) → preserves (E:=rerr) kept (emitSystemEventNoTrim build).
Proof.
  intros Hb. apply preserves_bind; [apply preserves_try, (kept_op (OpNextSeq "events_seq")); done|].
  intros [seq|?]; [|apply preserves_ret]. apply preserves_bind; [apply Hb|intros e].
  apply preserves_bind; [|intros ?; apply preserves_ret].
  by eapply preserves_try, (kept_op (OpEnqueueNoTrim seq (MarshalEvent e))), acts_notrim.
Qed.

Lemma kept_build {A} (f : Z → string → A) : preserves (E:=rerr) kept (now ← r_now; id ← r_ulid; mret (f now id)).
Proof.
  apply preserves_bind; [apply kept_now|intros]. apply preserves_bind; [apply kept_ulid|intros].
  apply preserves_ret.
Qed.

Lemma kept_collect res : preserves (E:=rerr) kept (collectOnce res).
Proof.
  destruct res as [res|]; [|apply preserves_ret].
  apply preserves_bind; [apply preserves_try, (kept_op (OpNextSeq "metrics_seq")); done|].
  intros [seq|?]; [|apply preserves_ret]. apply preserves_bind; [apply kept_now|intros now].
  apply preserves_bind; [apply preserves_gets|intros info].
  destruct (BuildMetrics _ _ _ _); [|apply preserves_ret].
  apply preserves_bind; [|intros [?|?]; [apply kept_modify_wake|apply preserves_ret]].
  by eapply preserves_try, kept_op; [|apply acts_enqueue_metrics].
Qed.

Lemma kept_flush : preserves (E:=rerr) kept flushOverflowEvents.
Proof.
  apply preserves_foldl. intros ? t.
  apply preserves_bind; [by eapply kept_op; [|apply acts_take]|].
  intros [ov|]; [|apply preserves_ret]. apply kept_notrim. intros seq. apply kept_build.
Qed.

(** Making a request: it is on record, and the invariant holds. *)
Lemma kept_request req r a r' :
  kept r → do_request req r = (Ok a, r') → kept r' ∧ (rp_posts r ++ [(req, a)]) `prefix_of` rp_posts r'.
Proof.
  intros (Hq & Hps & Hrows) Hd. unfold do_request in Hd.
  set (n := length (rp_posts r)) in *. set (a0 := re_hub n req) in *.
  set (r1 := rset_posts (rp_posts r ++ [(req, a0)]) r) in *.
  apply st_bind_Ok in Hd as (u & r2 & Hf & Hr). injection Hr as <- <-.
  assert (kept r1) as Hk1.
  { split; [done|]. cbn. split; [by apply prefix_app_r|]. intros row Hrow.
    destruct (Hrows row Hrow); [by left|right]. eapply St_mono; [exact Hps| |done]. by apply prefix_app_r. }
  assert (∀ fs r u r2, st_foldl (λ _ f, collectOnce f) u fs r = (Ok (), r2) →
    kept r → kept r2 ∧ rp_posts r `prefix_of` rp_posts r2) as Hloop.
  { clear. intros fs r u r2 H Hk.
    assert (preserves (E:=rerr) (λ r', kept r' ∧ rp_posts r `prefix_of` rp_posts r')
              (st_foldl (λ _ f, collectOnce f) u fs)) as Hp.
    { apply preserves_foldl. intros _ f r' [Hk' Hs]. split; [by apply kept_collect|].
      by rewrite collect_posts. }
    specialize (Hp r (conj Hk (reflexivity _))). by rewrite H in Hp. }
  destruct u. apply Hloop in Hf as [Hk2 Hs]; [|done]. done.
Qed.
End events_kept.

Section drain_keeps_events.
Context `{RE : ReportEnv}.
Implicit Types (r : Reporter).
Variables (E0 : list (qrow payload)) (ps0 : list (request * http_answer)).
Notation keptE := (kept (settled_since ps0) E0 ps0).

Lemma row_by_id r (row row' : qrow payload) :
  queue_ok (rp_q r) → row ∈ events_of (rp_q r) → row' ∈ events_of (rp_q r) →
  q_ID row = q_ID row' → row = row'.
Proof.
  intros [l Hl] H1 H2 Heq. destruct Hl as (Hwf & _).
  destruct (queue_wf_tab _ events_q Hwf) as [Hs _]. cbn in Hs. unfold events_of in *.
  induction (qt_rows (qd_events_q (q_db (rp_q r)))) as [|x l' IH]; [by apply elem_of_nil in H1|].
  rewrite fmap_cons in Hs. apply StronglySorted_inv in Hs as [Hs Hx].
  rewrite Forall_forall in Hx.
  assert (∀ y, y ∈ l' → q_ID x < q_ID y) as Hlt by (intros; apply Hx, list_elem_of_fmap; eauto).
  apply elem_of_cons in H1 as [->|H1]; apply elem_of_cons in H2 as [->|H2]; auto.
  - specialize (Hlt _ H2). lia.
  - specialize (Hlt _ H1). lia.
Qed.

(** Deleting settled events keeps the invariant, whether or not the delete fails. *)
Lemma kept_delete (rows : list (qrow payload)) r :
  keptE r → (∀ row, row ∈ rows → row ∈ events_of (rp_q r)) →
  (∀ row, row ∈ rows → settled_since ps0 (q_Payload row) (rp_posts r)) →
  keptE (lift_q (DeleteEvents (q_ID <$> rows)) r).2.
Proof.
  intros ([l Hl] & Hps & Hrows) Hin Hset. unfold lift_q, DeleteEvents.
  pose proof (run_op_inv (OpDelete events_q (q_ID <$> rows)) _ _ Hl) as Hinv. cbn [run_op] in Hinv.
  destruct (deleteIDs events_q _ (rp_q r)) as [x q'] eqn:E.
  assert (keptE (rset_q q' r)) as Hk; [|by destruct x as [[]|?]].
  split; [by eexists|]. split; [done|]. intros row Hrow. cbn.
  destruct (Hrows row Hrow) as [Hev|?]; [|by right].
  apply deleteIDs_effect in E as (Hcase & _).
  destruct (decide (q_ID row ∈ q_ID <$> rows)) as [Hid|Hid].
  - right. apply list_elem_of_fmap in Hid as (row' & Heq & Hr').
    assert (row = row') as -> by (apply (row_by_id r); [by exists l|exact Hev|by apply Hin|exact Heq]).
    by apply Hset.
  - left. unfold events_of. destruct Hcase as [[_ H]|[_ ->]]; [|done]. cbn in H. rewrite H. cbn.
    apply list_elem_of_filter. done.
Qed.

(** A request about events that are still pending: they stay pending, and it is on record. *)
Lemma request_pending req (rows : list (qrow payload)) r a r' :
  keptE r → (∀ row, row ∈ rows → row ∈ events_of (rp_q r)) →
  do_request req r = (Ok a, r') →
  keptE r' ∧ (∀ row, row ∈ rows → row ∈ events_of (rp_q r')) ∧
  (req, a) ∈ drop (length ps0) (rp_posts r').
Proof.
  intros Hk Hin Hd.
  destruct (kept_request (settled_since ps0) E0 ps0 (settled_since_mono ps0) _ _ _ _ Hk Hd)
    as [Hk' Hp].
  split; [done|]. split.
  2:{ destruct Hk as (_ & [k1 Hk1] & _). destruct Hp as [k2 ->]. rewrite Hk1, <-!app_assoc, drop_app_length.
      set_solver. }
  assert (kept (λ _ _, False) rows [] r) as Hk0.
  { split; [apply Hk|]. split; [apply prefix_nil|]. intros row Hr. left. by apply Hin. }
  destruct (kept_request (λ _ _, False) rows [] ltac:(by intros) _ _ _ _ Hk0 Hd) as [(_ & _ & H) _].
  intros row Hr. by destruct (H row Hr).
Qed.

Lemma do_request_Ok req r : ∃ a r', do_request req r = (Ok a, r') ∧ a = re_hub (length (rp_posts r)) req.
Proof.
  assert (∀ fs u r, ∃ r', st_foldl (λ _ f, collectOnce f) u fs r = (Ok () : outcome rerr (), r')) as H.
  { clear. induction fs as [|f fs IH]; intros u r; [destruct u; by eexists|]. cbn.
    unfold mbind, stM_bind. destruct (collectOnce f r) as [[v|e] r1] eqn:E; [apply IH|].
    exfalso. unfold collectOnce in E. destruct f as [res|]; [|done].
    unfold mbind, stM_bind, st_try, lift_q in E. destruct (NextMetricsSeq (rp_q r)) as [[?|?] ?]; [|done].
    cbn in E. destruct (BuildMetrics _ _ _ _); [|done]. destruct (EnqueueMetrics _ _ _) as [[?|?] ?]; done. }
  destruct (H (re_frames (length (rp_posts r))) ()
    (rset_posts (rp_posts r ++ [(req, re_hub (length (rp_posts r)) req)]) r)) as [r' Hr'].
  eexists _, r'. split; [|reflexivity]. unfold do_request, mbind, stM_bind. by rewrite Hr'.
Qed.

Lemma keptE_op {A} o (m : stM (Queue payload) qerr A) :
  keeps_events o → acts_as o m → preserves (E:=rerr) keptE (lift_q m).
Proof. apply kept_op. Qed.

Lemma keptE_request req : preserves (E:=rerr) keptE (do_request req).
Proof.
  intros r Hk. destruct (do_request_Ok req r) as (a & r' & Hd & _).
  destruct (kept_request (settled_since ps0) E0 ps0 (settled_since_mono ps0) _ _ _ _ Hk Hd)
    as [Hk' _].
  by rewrite Hd.
Qed.

Lemma keptE_outcome {A} (o : outcome rerr A) : preserves keptE (of_outcome o).
Proof. by intros r H. Qed.

Lemma keptE_post_metrics p : preserves (E:=rerr) keptE (PostMetrics p).
Proof. apply preserves_bind; [apply keptE_request|intros a; apply keptE_outcome]. Qed.

Lemma keptE_delete_metrics ids : preserves (E:=rerr) keptE (lift_q (DeleteMetrics ids)).
Proof. by eapply keptE_op; [|apply acts_delete]. Qed.

Lemma keptE_drain_metrics fuel : preserves keptE (drain_metrics fuel).
Proof.
  induction fuel as [|fuel IH]; cbn [drain_metrics]; [apply preserves_throw|].
  apply preserves_bind; [by eapply (keptE_op (OpPeek metrics_q 0)); [|apply acts_pending]|intros n].
  case_decide; [apply preserves_ret|].
  apply preserves_bind; [apply preserves_gets|intros max]. case_decide.
  - apply preserves_bind; [by eapply keptE_op; [|apply acts_drop]|intros dr].
    apply preserves_bind; [|intros _; apply IH]. case_decide; [apply kept_flush|apply preserves_ret].
  - apply preserves_bind; [by eapply keptE_op; [|apply acts_peek]|intros [|row rows]];
      [apply preserves_ret|].
    apply preserves_bind; [apply preserves_try, keptE_post_metrics|intros [ack|serr]].
    + apply preserves_bind; [apply keptE_delete_metrics|intros _].
      apply preserves_bind; [|intros _; apply IH]. case_decide; [apply kept_interval|apply preserves_ret].
    + case_decide; [|apply preserves_throw]. apply preserves_bind; [|intros _; apply IH].
      apply preserves_bind; [apply preserves_try, keptE_delete_metrics|intros _].
      apply kept_notrim. intros seq. apply kept_build.
Qed.

Lemma keptE_drop_poison rows serr r :
  keptE r → (∀ row, row ∈ rows → row ∈ events_of (rp_q r)) →
  (∀ row, row ∈ rows → settled_since ps0 (q_Payload row) (rp_posts r)) →
  keptE (dropPoisonEvents rows serr r).2.
Proof.
  intros Hk Hin Hset. unfold dropPoisonEvents. pose proof (kept_delete rows r Hk Hin Hset) as Hk1.
  unfold mbind at 1, stM_bind, st_try. destruct (lift_q (DeleteEvents (q_ID <$> rows)) r) as [x r1].
  cbn [snd] in Hk1. apply kept_notrim; [|done]. intros seq. apply kept_build.
Qed.

Lemma peek_events_rows lim r rows r1 :
  lift_q (PeekEvents lim) r = (Ok rows, r1) →
  (∀ row, row ∈ rows → row ∈ events_of (rp_q r1)).
Proof.
  unfold lift_q. destruct (PeekEvents lim (rp_q r)) as [[x|?] q'] eqn:E; [|done].
  intros [= -> <-]. apply q_query_Ok in E as (_ & -> & ->). unfold events_of, oldest.
  case_decide; [done|]. intros row Hr. cbn in *.
  rewrite <-(take_drop (Z.to_nat lim) (qt_rows (qd_events_q (q_db (rp_q r))))).
  apply elem_of_app. by left.
Qed.

(** What the probe finds is in the table, whether the peek failed or not. *)
Lemma peek_head_rows r :
  ∃ rows r1, peek_head events_q (PeekEvents 1) r = (Ok rows, r1) ∧ (∀ row, row ∈ rows → row ∈ events_of (rp_q r1)).
Proof.
  unfold peek_head. destruct (lift_q (PeekEvents 1) r) as [[rows|e] r1] eqn:E.
  - exists rows, r1. split; [done|]. by eapply peek_events_rows.
  - eexists _, r1. split; [done|]. destruct (re_scanned _); [|by intros row Hr; apply elem_of_nil in Hr].
    unfold lift_q, PeekEvents, q_query, q_call in E. destruct (q_io _); [|done]. injection E as _ <-.
    intros row Hr. unfold events_of, oldest in *. rewrite decide_False in Hr by lia. cbn in *.
    rewrite <-(take_drop 1 (qt_rows _)). apply elem_of_app. by left.
Qed.

Lemma keptE_drain_events fuel : preserves keptE (drain_events fuel).
Proof.
  induction fuel as [|fuel IH]; cbn [drain_events]; [apply preserves_throw|].
  apply preserves_bind; [apply preserves_gets|intros max]. intros r Hk.
  pose proof (keptE_op (OpPeek events_q max) (PeekEvents max) I (acts_peek events_q max) r Hk)
    as Hk1.
  destruct (lift_q (PeekEvents max) r) as [[rows|e] r1] eqn:Ep;
    [|by rewrite (st_bind_Err_step _ _ _ _ _ Ep)].
  rewrite (st_bind_Ok_step _ _ _ _ _ Ep). pose proof (peek_events_rows _ _ _ _ Ep) as Hin.
  cbn [snd] in Hk1. destruct rows as [|row0 rows0]; [done|]. set (rows := row0 :: rows0) in *.
  set (r2 := rset_counters (S (rp_ticks r1)) (rp_ulids r1) r1).
  rewrite (st_bind_Ok_step _ _ _ (re_now (rp_ticks r1)) r2) by done.
  assert (keptE r2) as Hk2 by (by eapply kept_ext, Hk1).
  set (req := BuildEvents _ _). destruct (do_request_Ok req r2) as (a & r3 & Hd & _).
  destruct (request_pending req rows r2 a r3 Hk2 Hin Hd) as (Hk3 & Hin3 & Hp3).
  assert (st_try (PostEvents req) r2 = (Ok (events_ack a), r3)) as Ht.
  { unfold st_try, PostEvents. by rewrite (st_bind_Ok_step _ _ _ _ _ Hd). }
  rewrite (st_bind_Ok_step _ _ _ _ _ Ht).
  assert (((∃ ack, events_ack a = Ok ack) ∨
      (∃ e, events_ack a = Err e ∧ Classify e = ErrPoison)) →
    ∀ row, row ∈ rows → settled_since ps0 (q_Payload row) (rp_posts r3)) as Hset.
  { intros Ha row Hrow. eexists _, _, a. split; [exact Hp3|]. split; [|done].
    apply list_elem_of_fmap. eauto. }
  destruct (events_ack a) as [ack|serr] eqn:Ea.
  - pose proof (kept_delete rows r3 Hk3 Hin3 (Hset (or_introl (ex_intro _ _ eq_refl)))) as Hk4.
    destruct (lift_q (DeleteEvents (q_ID <$> rows)) r3) as [[u|e] r4] eqn:Edel;
      [rewrite (st_bind_Ok_step _ _ _ _ _ Edel)|by rewrite (st_bind_Err_step _ _ _ _ _ Edel)].
    by apply IH.
  - case_decide as Hc; [|done].
    pose proof (keptE_drop_poison rows serr r3 Hk3 Hin3 (Hset (or_intror (ex_intro _ _ (conj eq_refl Hc))))) as Hk4.
    destruct (dropPoisonEvents rows serr r3) as [[u|e] r4] eqn:Edel;
      [rewrite (st_bind_Ok_step _ _ _ _ _ Edel)|by rewrite (st_bind_Err_step _ _ _ _ _ Edel)].
    by apply IH.
Qed.

Lemma keptE_drainOnce fuel : preserves keptE (drainOnce fuel).
Proof.
  apply preserves_bind; [apply kept_flush|intros _].
  apply preserves_bind; [apply keptE_drain_metrics|intros _; apply keptE_drain_events].
Qed.
End drain_keeps_events.

(** ** Lemmas: a drain when nothing fails *)

Section healthy.
Context `{RE : ReportEnv}.
Implicit Types (r : Reporter) (q : Queue payload).
Hypothesis no_fault : ∀ n, q_io n = false.
Hypothesis no_frames : ∀ n, re_frames n = [].

(** The parts of the reporter a drain leaves alone. *)
Definition same_config r r' : Prop :=
  rp_maxReplay r' = rp_maxReplay r ∧ rp_maxEventSend r' = rp_maxEventSend r ∧
  same_limits (rp_q r) (rp_q r').

Lemma same_config_refl r : same_config r r.
Proof. by unfold same_config, same_limits. Qed.

Lemma same_config_trans r1 r2 r3 : same_config r1 r2 → same_config r2 r3 → same_config r1 r3.
Proof. unfold same_config, same_limits. naive_solver congruence. Qed.

Lemma q_call_ok {A} (f : qdb payload → A * qdb payload) q :
  q_call f q = (Ok (f (q_db q)).1, qtick (qset_db (f (q_db q)).2 q)).
Proof. unfold q_call. rewrite no_fault. by destruct (f (q_db q)). Qed.

Lemma lift_query {A} (f : qdb payload → A) r :
  lift_q (q_query f) r = (Ok (f (q_db (rp_q r))), rset_q (qtick (rp_q r)) r).
Proof. unfold lift_q, q_query. rewrite q_call_ok. cbn. by rewrite qset_db_id. Qed.

Lemma delete_loop_ok t ids q u :
  ∃ q', st_foldl (λ _ id, q_exec (delete_where_id t [id])) u ids q = (Ok () : outcome qerr (), q').
Proof.
  revert q u. induction ids as [|id ids IH]; intros q u; [destruct u; by eexists|].
  cbn [st_foldl]. unfold mbind at 1, stM_bind, q_exec. rewrite q_call_ok. apply IH.
Qed.

Lemma delete_ok t ids q : ∃ q', deleteIDs t ids q = (Ok (), q').
Proof.
  unfold deleteIDs. destruct ids as [|id ids]; [by eexists|].
  unfold q_tx, mbind, stM_bind, q_query. rewrite !q_call_ok.
  edestruct (delete_loop_ok t (id :: ids)) as [q1 ->]. rewrite q_call_ok. by eexists.
Qed.

(** Deleting the [n] oldest rows of a table by id. *)
Lemma delete_head t n r :
  queue_ok (rp_q r) →
  ∃ q', lift_q (deleteIDs t (q_ID <$> take n (qt_rows (get_tab t (q_db (rp_q r)))))) r = (Ok (), rset_q q' r) ∧
    queue_ok q' ∧ qt_rows (get_tab t (q_db q')) = drop n (qt_rows (get_tab t (q_db (rp_q r)))) ∧
    (∀ t', t' ≠ t → get_tab t' (q_db q') = get_tab t' (q_db (rp_q r))) ∧
    qd_overflow (q_db q') = qd_overflow (q_db (rp_q r)) ∧ same_limits (rp_q r) q'.
Proof.
  intros [l Hl]. set (ids := q_ID <$> _). destruct (delete_ok t ids (rp_q r)) as [q' E].
  exists q'. unfold lift_q. rewrite E. split; [done|].
  pose proof (run_op_inv (OpDelete t ids) _ _ Hl) as Hinv. cbn [run_op] in Hinv.
  pose proof (keeps_limits_delete t ids (rp_q r)) as Hlim.
  rewrite E in Hinv, Hlim. split; [by eexists|].
  apply deleteIDs_effect in E as ([[_ H]|[? _]] & Ho & _ & Hov); [|done].
  split; [|done]. rewrite H. cbn. apply delete_oldest, (queue_wf_tab (rp_q r) t), Hl.
Qed.

Lemma request_ok req r :
  do_request req r = (Ok (re_hub (length (rp_posts r)) req),
    rset_posts (rp_posts r ++ [(req, re_hub (length (rp_posts r)) req)]) r).
Proof. unfold do_request. by rewrite no_frames. Qed.

Lemma emit_ok (f : Z → Z → string → Event) r :
  queue_ok (rp_q r) →
  ∃ r' row, emitSystemEventNoTrim (λ seq, now ← r_now; id ← r_ulid; mret (f seq now id)) r = (Ok (), r') ∧
    queue_ok (rp_q r') ∧ metrics_of (rp_q r') = metrics_of (rp_q r) ∧
    events_of (rp_q r') = events_of (rp_q r) ++ [row] ∧ rp_posts r' = rp_posts r ∧ same_config r r' ∧
    qd_overflow (q_db (rp_q r')) = qd_overflow (q_db (rp_q r)).
Proof.
  intros [l Hl].
  pose proof (run_op_inv (OpNextSeq "events_seq") _ _ Hl) as Hl1. cbn [run_op fst snd] in Hl1.
  unfold emitSystemEventNoTrim, NextEventSeq, EnqueueEventNoTrim, nextSeq, q_exec, q_now.
  unfold mbind, stM_bind, st_try, lift_q, st_gets, r_now, r_ulid, mret, stM_ret.
  unfold nextSeq in Hl1. rewrite q_call_ok in Hl1 |- *. cbn [fst snd] in *.
  set (q1 := qtick _) in *. set (seq := match qd_meta (P:=payload) _ !! _ with Some v => v + 1 | None => 1 end).
  cbn [rset_q rset_counters rp_q rp_ticks rp_ulids fst snd].
  pose proof (run_op_inv (OpEnqueueNoTrim seq (MarshalEvent (f seq (re_now (rp_ticks r)) (re_ulid (rp_ulids r))))) _ _ Hl1) as Hl2.
  cbn [run_op fst snd] in Hl2. unfold EnqueueEventNoTrim, q_exec, q_now, mbind, stM_bind, st_gets in Hl2.
  rewrite q_call_ok in Hl2 |- *. cbn [fst snd] in *.
  eexists _, _. split; [reflexivity|]. split; [by eexists|]. cbn.
  repeat (split; [reflexivity|]). split; [|done]. by unfold same_config, same_limits.
Qed.

Lemma take_ok t q :
  queue_ok q →
  ∃ ov q', TakeOverflow (kind_of t) q = (Ok ov, q') ∧ queue_ok q' ∧
    metrics_of q' = metrics_of q ∧ events_of q' = events_of q ∧ same_limits q q'.
Proof.
  intros [l Hl]. pose proof (run_op_inv (OpTakeOverflow t) _ _ Hl) as Hinv. cbn [run_op] in Hinv.
  destruct (TakeOverflow (kind_of t) q) as [x q'] eqn:E.
  assert (∃ ov, x = Ok ov) as [ov ->].
  { unfold TakeOverflow, take_overflow_select, take_overflow_delete, q_query, q_exec in E.
    unfold mbind, stM_bind in E. rewrite q_call_ok in E. cbn [fst snd] in E.
    destruct (qd_overflow _ !! _); [rewrite q_call_ok in E|]; injection E as <- _; eauto. }
  exists ov, q'. split; [done|]. apply TakeOverflow_effect in E as (H & _ & Hlim & _).
  split; [|split; [apply (f_equal qt_rows (H metrics_q))|split; [apply (f_equal qt_rows (H events_q))|done]]].
  by destruct ov; eexists.
Qed.

(** One round of [flushOverflowEvents] adds at most one event. *)
Lemma flush_ok r :
  queue_ok (rp_q r) →
  ∃ r' extra, flushOverflowEvents r = (Ok (), r') ∧ queue_ok (rp_q r') ∧ (length extra <= 2)%nat ∧
    metrics_of (rp_q r') = metrics_of (rp_q r) ∧ events_of (rp_q r') = events_of (rp_q r) ++ extra ∧
    rp_posts r' = rp_posts r ∧ same_config r r'.
Proof.
  intros Hq. unfold flushOverflowEvents. set (body := λ (_ : ()) (t : qtab), _).
  assert (∀ t r u, queue_ok (rp_q r) → ∃ r' extra, body u t r = (Ok () : outcome rerr (), r') ∧ queue_ok (rp_q r') ∧
    (length extra <= 1)%nat ∧ metrics_of (rp_q r') = metrics_of (rp_q r) ∧
    events_of (rp_q r') = events_of (rp_q r) ++ extra ∧ rp_posts r' = rp_posts r ∧ same_config r r') as H.
  { clear r Hq. intros t r u Hq. subst body. cbn beta.
    destruct (take_ok t (rp_q r) Hq) as (ov & q' & E & Hq' & Hm & He & Hlim).
    assert (same_config r (rset_q q' r)) as Hsc by done.
    unfold mbind at 1, stM_bind at 1, lift_q at 1. rewrite E. destruct ov as [ov|].
    - destruct (emit_ok (λ seq now id, QueueOverflowEvent seq (kind_of t) (ov_Dropped ov)
        (ov_FirstAt ov) (ov_LastAt ov) now id) (rset_q q' r) Hq') as (r2 & row & -> & Hq2 & Hm2 & He2 & Hp2 & Hc2 & _).
      exists r2, [row]. cbn in *. rewrite <-Hm, <-He, <-Hm2, He2, Hp2.
      repeat (split; [done || lia|]). by eapply same_config_trans.
    - exists (rset_q q' r), []. cbn. rewrite app_nil_r.
      repeat (split; [done || lia|]). done. }
  destruct (H metrics_q r () Hq) as (r1 & x1 & E1 & Hq1 & Hn1 & Hm1 & He1 & Hp1 & Hc1).
  destruct (H events_q r1 () Hq1) as (r2 & x2 & E2 & Hq2 & Hn2 & Hm2 & He2 & Hp2 & Hc2).
  exists r2, (x1 ++ x2). cbn [st_foldl]. unfold mbind, stM_bind. rewrite E1, E2.
  rewrite Hm2, Hm1, He2, He1, Hp2, Hp1, length_app, app_assoc.
  repeat (split; [done || lia|]). by eapply same_config_trans.
Qed.

Hypothesis accepts_metrics : ∀ n p, ∃ ack, metrics_ack (re_hub n (ReqMetrics p)) = Ok ack.
Hypothesis accepts_events : ∀ n s evs, ∃ ack, events_ack (re_hub n (ReqEvents s evs)) = Ok ack.

(** The requests on record, without their answers. *)
Definition requests r : list request := fst <$> rp_posts r.

Lemma interval_ok s r : ∃ i, setIntervalSeconds s r = (Ok (), rset_interval i r).
Proof. by eexists. Qed.

Lemma drain_metrics_ok fuel r :
  queue_ok (rp_q r) → Z.of_nat (length (metrics_of (rp_q r))) <= rp_maxReplay r →
  (length (metrics_of (rp_q r)) < fuel)%nat →
  ∃ r', drain_metrics fuel r = (Ok (), r') ∧ queue_ok (rp_q r') ∧ metrics_of (rp_q r') = [] ∧
    events_of (rp_q r') = events_of (rp_q r) ∧ same_config r r' ∧
    requests r' = requests r ++ (ReqMetrics ∘ q_Payload <$> metrics_of (rp_q r)).
Proof.
  revert r. induction fuel as [|fuel IH]; intros r Hq Hmax Hfuel; [lia|].
  cbn [drain_metrics]. unfold MetricsPending, pending.
  unfold mbind at 1, stM_bind at 1. rewrite lift_query.
  replace (count_rows metrics_q (q_db (rp_q r))) with (Z.of_nat (length (metrics_of (rp_q r)))) by done.
  set (r1 := rset_q (qtick (rp_q r)) r).
  assert (queue_ok (rp_q r1)) as Hq1 by exact Hq.
  case_decide as Hz.
  { assert (metrics_of (rp_q r) = []) as Hnil by (apply nil_length_inv; lia).
    exists r1. rewrite Hnil, app_nil_r. repeat (split; [done|]). done. }
  unfold mbind at 1, stM_bind at 1. cbn [st_gets rp_maxReplay rset_q r1].
  rewrite decide_False by lia.
  unfold mbind at 1, stM_bind at 1. unfold PeekMetrics. rewrite lift_query.
  set (r2 := rset_q (qtick (rp_q r1)) r1).
  destruct (metrics_of (rp_q r)) as [|row rows] eqn:Em; [cbn in Hz; lia|].
  replace (oldest metrics_q 1 (q_db (rp_q r1))) with [row]
    by (unfold oldest; rewrite decide_False by lia; unfold metrics_of in Em; cbn; by rewrite Em).
  unfold mbind at 1, stM_bind at 1, st_try at 1, PostMetrics. unfold mbind at 1, stM_bind at 1.
  rewrite request_ok. unfold of_outcome at 1.
  destruct (accepts_metrics (length (rp_posts r2)) (q_Payload row)) as [ack ->].
  set (r3 := rset_posts _ r2).
  destruct (delete_head metrics_q 1 r3 Hq) as (q' & Hdel & Hq' & Hrows & Hoth & Hov & Hlim).
  replace (qt_rows (get_tab metrics_q (q_db (rp_q r3)))) with (row :: rows) in Hdel, Hrows by done.
  change (q_ID <$> take 1 (row :: rows)) with [q_ID row] in Hdel.
  cbn [drop] in Hrows.
  unfold mbind at 1, stM_bind at 1, DeleteMetrics. rewrite Hdel.
  assert (∃ i, (if decide (0 < ma_ReportIntervalSeconds ack)
    then setIntervalSeconds (ma_ReportIntervalSeconds ack) else mret ()) (rset_q q' r3) =
    (Ok () : outcome rerr (), rset_interval i (rset_q q' r3))) as [i Hi].
  { case_decide; [apply interval_ok|]. by exists (rp_interval (rset_q q' r3)). }
  unfold mbind at 1, stM_bind at 1. rewrite Hi.
  set (r4 := rset_interval i _).
  assert (metrics_of (rp_q r4) = rows) as Em4 by exact Hrows.
  destruct (IH r4) as (r' & -> & Hq'' & Hm' & He' & Hc' & Hp'); [done| | |].
  { rewrite Em4. cbn in *. lia. }
  { rewrite Em4. cbn in *. lia. }
  exists r'. split; [done|]. split; [done|]. split; [done|]. split.
  { rewrite He'. apply (f_equal qt_rows (Hoth events_q ltac:(done))). }
  split; [by eapply same_config_trans; [|exact Hc']|].
  rewrite Hp', Em4. unfold requests, r4, r3. cbn. rewrite fmap_app, <-app_assoc. done.
Qed.

Lemma drain_events_ok fuel r :
  queue_ok (rp_q r) → 0 < rp_maxEventSend r →
  (length (events_of (rp_q r)) < fuel)%nat →
  ∃ r' (bs : list (Z * list (qrow payload))), drain_events fuel r = (Ok (), r') ∧ queue_ok (rp_q r') ∧
    events_of (rp_q r') = [] ∧ metrics_of (rp_q r') = metrics_of (rp_q r) ∧ same_config r r' ∧
    requests r' = requests r ++ ((λ b, BuildEvents (q_Payload <$> b.2) b.1) <$> bs) ∧
    concat (snd <$> bs) = events_of (rp_q r) ∧
    Forall (λ b, 0 < Z.of_nat (length b.2) <= rp_maxEventSend r) bs.
Proof.
  revert r. induction fuel as [|fuel IH]; intros r Hq Hmax Hfuel; [lia|].
  cbn [drain_events]. unfold mbind at 1, stM_bind at 1. cbn [st_gets].
  unfold mbind at 1, stM_bind at 1, PeekEvents. rewrite lift_query.
  set (r1 := rset_q (qtick (rp_q r)) r).
  set (n := Z.to_nat (rp_maxEventSend r)).
  replace (oldest events_q (rp_maxEventSend r) (q_db (rp_q r))) with (take n (events_of (rp_q r)))
    by (unfold oldest; by rewrite decide_False by lia).
  destruct (events_of (rp_q r)) as [|row rows] eqn:Ee.
  { rewrite take_nil. exists r1, []. cbn. rewrite app_nil_r. repeat (split; [done|]). done. }
  assert (∃ x l, take n (row :: rows) = x :: l) as (x & l & Et).
  { destruct n eqn:En; [unfold n in En; lia|]. cbn. eauto. }
  set (batch := take n (row :: rows)) in *. rewrite Et.
  unfold mbind at 1, stM_bind at 1. cbn [r_now].
  set (r2 := rset_counters _ _ r1). rewrite <-Et.
  unfold mbind at 1, stM_bind at 1, st_try at 1, PostEvents. unfold mbind at 1, stM_bind at 1.
  rewrite request_ok. unfold of_outcome at 1. unfold BuildEvents at 1.
  destruct (accepts_events (length (rp_posts r2)) (NewISOTime (re_now (rp_ticks r1))) (q_Payload <$> batch))
    as [ack ->].
  set (r3 := rset_posts _ r2).
  destruct (delete_head events_q n r3 Hq) as (q' & Hdel & Hq' & Hrows & Hoth & Hov & Hlim).
  replace (qt_rows (get_tab events_q (q_db (rp_q r3)))) with (row :: rows) in Hdel, Hrows by done.
  fold batch in Hdel. unfold mbind at 1, stM_bind at 1, DeleteEvents. rewrite Hdel.
  set (r4 := rset_q q' r3).
  assert (events_of (rp_q r4) = drop n (row :: rows)) as Ee4 by exact Hrows.
  assert (0 < n)%nat as Hn by (unfold n; lia).
  destruct (IH r4) as (r' & bs & -> & Hq'' & He' & Hm' & Hc' & Hp' & Hcat & Hall); [done|done| |].
  { rewrite Ee4, length_drop. cbn in *. lia. }
  exists r', ((re_now (rp_ticks r1), batch) :: bs).
  split; [done|]. split; [done|]. split; [done|]. split.
  { rewrite Hm'. apply (f_equal qt_rows (Hoth metrics_q ltac:(done))). }
  split; [by eapply same_config_trans; [|exact Hc']|]. split; [|split].
  - rewrite Hp'. unfold requests, r4, r3. cbn. rewrite fmap_app, <-app_assoc. done.
  - cbn. rewrite Hcat, Ee4. apply take_drop.
  - constructor; [|exact Hall]. cbn [snd]. subst batch. rewrite length_take. cbn [length]. unfold n. lia.
Qed.

(** A hub that refuses every batch of events for good: each pass deletes the batch and
    queues an event about it, so the queue is never empty. *)
Lemma poison_loop fuel r :
  (∀ n s evs, ∃ e, events_ack (re_hub n (ReqEvents s evs)) = Err (ESend e) ∧ se_Kind e = ErrPoison) →
  queue_ok (rp_q r) → 0 < rp_maxEventSend r → events_of (rp_q r) ≠ [] →
  ∃ r', drain_events fuel r = (Err EFuel, r') ∧ length (rp_posts r') = (length (rp_posts r) + fuel)%nat.
Proof.
  intros Hpoison. revert r. induction fuel as [|fuel IH]; intros r Hq Hmax Hne.
  { exists r. split; [done|lia]. }
  cbn [drain_events]. unfold mbind at 1, stM_bind at 1. cbn [st_gets].
  unfold mbind at 1, stM_bind at 1, PeekEvents. rewrite lift_query.
  set (r1 := rset_q (qtick (rp_q r)) r).
  set (n := Z.to_nat (rp_maxEventSend r)).
  replace (oldest events_q (rp_maxEventSend r) (q_db (rp_q r))) with (take n (events_of (rp_q r)))
    by (unfold oldest; by rewrite decide_False by lia).
  assert (∃ x l, take n (events_of (rp_q r)) = x :: l) as (x & l & Et).
  { destruct n eqn:En; [unfold n in En; lia|]. destruct (events_of (rp_q r)); [done|]. cbn. eauto. }
  set (batch := take n (events_of (rp_q r))) in *. rewrite Et.
  unfold mbind at 1, stM_bind at 1. cbn [r_now].
  set (r2 := rset_counters _ _ r1). rewrite <-Et.
  unfold mbind at 1, stM_bind at 1, st_try at 1, PostEvents. unfold mbind at 1, stM_bind at 1.
  rewrite request_ok. unfold of_outcome at 1. unfold BuildEvents at 1.
  destruct (Hpoison (length (rp_posts r2)) (NewISOTime (re_now (rp_ticks r1))) (q_Payload <$> batch))
    as (e & -> & He).
  set (r3 := rset_posts _ r2). rewrite decide_True by done.
  destruct (delete_head events_q n r3 Hq) as (q' & Hdel & Hq' & Hrows & Hoth & Hov & Hlim).
  unfold mbind at 1, stM_bind at 1, dropPoisonEvents. unfold mbind at 1, stM_bind at 1, st_try at 1.
  change (deleteIDs events_q (q_ID <$> take n (qt_rows (get_tab events_q (q_db (rp_q r3))))))
    with (DeleteEvents (P:=payload) (q_ID <$> batch)) in Hdel.
  rewrite Hdel.
  destruct (emit_ok (λ seq now id, PayloadDroppedEvent seq
      ("events count=" +:+ fmt_d (Z.of_nat (length batch)))%string (err_text (ESend e)) now id)
      (rset_q q' r3) Hq') as (r4 & row & -> & Hq4 & Hm4 & He4 & Hp4 & Hc4 & _).
  destruct (IH r4) as (r' & -> & Hlen); [done|by destruct Hc4 as (_ & -> & _)| |].
  { rewrite He4. intros H. by apply app_eq_nil in H as [_ H]. }
  exists r'. split; [done|]. rewrite Hlen, Hp4. unfold r3. cbn. rewrite length_app. cbn. lia.
Qed.
End healthy.

(** ** Lemmas: the interval and the pause *)

Section frame.
Context `{RE : ReportEnv}.
Variable I : Reporter → Prop.
Hypothesis I_q : ∀ q r, I r → I (rset_q q r).
Hypothesis I_wake : ∀ w r, I r → I (rset_wake w r).
Hypothesis I_counters : ∀ a b r, I r → I (rset_counters a b r).

Lemma frame_lift {A} (m : stM (Queue payload) qerr A) : preserves (E:=rerr) I (lift_q m).
Proof. intros r H. unfold lift_q. destruct (m (rp_q r)) as [[?|?] ?]; by apply I_q. Qed.
Lemma frame_peek t m : preserves (E:=rerr) I (peek_head t m).
Proof. intros r H. unfold peek_head, lift_q. destruct (m (rp_q r)) as [[?|?] ?]; by apply I_q. Qed.
Lemma frame_now : preserves (E:=rerr) I r_now.
Proof. intros r H. by apply I_counters. Qed.
Lemma frame_ulid : preserves (E:=rerr) I r_ulid.
Proof. intros r H. by apply I_counters. Qed.
Lemma frame_wake w : preserves (E:=rerr) I (st_modify (rset_wake w)).
Proof. intros r H. by apply I_wake. Qed.
#[local] Hint Resolve frame_lift frame_peek frame_now frame_ulid frame_wake : presdb.

Lemma frame_collect res : preserves (E:=rerr) I (collectOnce res).
Proof. unfold collectOnce, signal. pres. Qed.
Lemma frame_any : preserves (E:=rerr) I anyPending.
Proof. unfold anyPending. pres. Qed.

Hypothesis I_posts : ∀ ps r, I r → I (rset_posts ps r).

Lemma frame_request req : preserves (E:=rerr) I (do_request req).
Proof.
  intros r H. unfold do_request. apply (preserves_bind (E:=rerr) I); [|intros ?; apply preserves_ret|by apply I_posts].
  apply preserves_foldl. intros ??. apply frame_collect.
Qed.
Lemma frame_outcome {A} (o : outcome rerr A) : preserves I (of_outcome o).
Proof. by intros r H. Qed.
#[local] Hint Resolve frame_request frame_outcome : presdb.

Hypothesis I_interval : ∀ s, preserves (E:=rerr) I (setIntervalSeconds s).
#[local] Hint Resolve I_interval : presdb.

Lemma frame_flush : preserves (E:=rerr) I flushOverflowEvents.
Proof. unfold flushOverflowEvents, emitSystemEventNoTrim. pres. Qed.
#[local] Hint Resolve frame_flush : presdb.

Lemma frame_drain fuel : preserves (E:=rerr) I (drainOnce fuel).
Proof.
  unfold drainOnce. apply preserves_bind; [apply frame_flush|intros _].
  apply preserves_bind; [|intros _]; induction fuel as [|fuel IH]; cbn;
    unfold dropPoisonMetrics, dropPoisonEvents, emitSystemEventNoTrim, PostMetrics, PostEvents; pres.
Qed.

Lemma frame_catch {A} (m : stM Reporter rerr A) : preserves I m → preserves I (catch m).
Proof. intros H. unfold catch. pres. Qed.

Lemma frame_step fuel st d : preserves (E:=rerr) I (run_step fuel st d).
Proof.
  assert (preserves (E:=rerr) I (finalFlush fuel)) as Hf.
  { unfold finalFlush. apply preserves_bind; [apply frame_catch, frame_drain|intros; apply preserves_ret]. }
  assert (preserves (E:=rerr) I (catch (drainOnce fuel))) as Hd by apply frame_catch, frame_drain.
  destruct st as [res|s]; unfold run_step, collect_tick.
  - apply preserves_bind; [apply frame_collect|intros; apply preserves_ret].
  - unfold drain_iteration, on_wake, probeUnauthorized, handleProbeErr, after_drain, PostMetrics, PostEvents.
    pose proof frame_any. pres.
Qed.

Lemma frame_steps fuel steps d : preserves (E:=rerr) I (run_steps fuel steps d).
Proof.
  revert d. induction steps as [|st steps IH]; intros d; cbn; [apply preserves_ret|].
  apply preserves_bind; [apply frame_step|intros []; auto; apply preserves_ret].
Qed.
End frame.

(** ** Properties *)

(** C10: a drain never loses an event.  Whatever the hub answers, whichever database calls
    fail and whatever is collected meanwhile, after a drain that was cut at any point every
    event that was pending is still pending, or was carried by one of this drain's requests
    that the hub acknowledged or refused for good (400 or 413). *)
Theorem drain_keeps_events `{RE : ReportEnv} fuel (r : Reporter) (row : qrow payload)
    (Hok : queue_ok (rp_q r)) (Hrow : row ∈ events_of (rp_q r)) :
  let r' := (drainOnce fuel r).2 in
  row ∈ events_of (rp_q r') ∨
  event_settled (q_Payload row) (drop (length (rp_posts r)) (rp_posts r')).
Proof.
  intros r'. assert (kept (settled_since (rp_posts r)) [row] (rp_posts r) r) as Hk.
  { split; [done|]. split; [done|]. intros row' ->%list_elem_of_singleton. by left. }
  destruct (keptE_drainOnce [row] (rp_posts r) fuel r Hk) as (_ & _ & H). apply (H row). set_solver.
Qed.

Definition empty_body : resp_body :=
  {| rb_metrics := None; rb_events := None; rb_decode_err := "EOF"; rb_code := ""; rb_message := "";
     rb_text := "" |}%string.
Definition ack_body : resp_body :=
  {| rb_metrics := Some {| ma_Accepted := true; ma_Duplicate := false; ma_ServerTime := ""; ma_ReportIntervalSeconds := 5 |};
     rb_events := Some {| ea_Accepted := []; ea_Duplicates := []; ea_Rejected := []; ea_LastSeq := 0; ea_ServerTime := "" |};
     rb_decode_err := ""; rb_code := ""; rb_message := ""; rb_text := "" |}%string.

(** A healthy agent whose hub accepts everything, and one whose hub is down. *)
Definition accept_env : ReportEnv :=
  {| re_queue := good_env; re_now := λ n, 1000 * Second + Z.of_nat n; re_ulid := λ n, fmt_d (Z.of_nat n);
     re_hub := λ _ _, Response 202 "" ack_body; re_frames := λ _, []; re_scanned := λ _, false |}.
Definition down_env : ReportEnv :=
  {| re_queue := good_env; re_now := λ n, 1000 * Second + Z.of_nat n; re_ulid := λ n, fmt_d (Z.of_nat n);
     re_hub := λ _ _, NoResponse "refused"; re_frames := λ _, []; re_scanned := λ _, false |}.
Definition denied_env : ReportEnv :=
  {| re_queue := good_env; re_now := λ n, 1000 * Second + Z.of_nat n; re_ulid := λ n, fmt_d (Z.of_nat n);
     re_hub := λ _ _, Response 401 "" empty_body; re_frames := λ _, []; re_scanned := λ _, false |}.

Definition test_info : AgentInfo :=
  {| ai_Version := "1"; ai_OS := "linux"; ai_Arch := "amd64"; ai_Hostname := "h" |}.
Definition test_sample : Result :=
  {| res_Capabilities := {| cap_Containers := CapOK; cap_Smart := CapOK; cap_StoragePool := CapOK; cap_Network := CapOK |};
     res_Sample := {| sm_TS := 0; sm_CPUPercent := None; sm_MemPercent := None; sm_MemUsedBytes := None;
       sm_MemTotalBytes := None; sm_Load1 := None; sm_UptimeSeconds := None; sm_BootTime := None;
       sm_Disks := []; sm_Net := None; sm_Containers := None; sm_NAS := None |} |}.

(** A frame with a float that JSON cannot write is left out; its number is gone. *)
Example nan_frame_left_out :
  let s := {| sm_TS := 0; sm_CPUPercent := Some (f64_div (f64_of_Z 0) (f64_of_Z 0)); sm_MemPercent := None; sm_MemUsedBytes := None;
              sm_MemTotalBytes := None; sm_Load1 := None; sm_UptimeSeconds := None; sm_BootTime := None;
              sm_Disks := []; sm_Net := None; sm_Containers := None; sm_NAS := None |} in
  let r := (collectOnce (RE := accept_env) (Some {| res_Capabilities := res_Capabilities test_sample; res_Sample := s |})
              (New (Open empty_qdb 10 10) test_info 0)).2 in
  metrics_of (rp_q r) = [] ∧ (NextMetricsSeq (QE := good_env) (rp_q r)).1 = Ok 2.
Proof. vm_compute. by split. Qed.

(** Two collected frames and the start event, waiting. *)
Definition loaded : Reporter :=
  ((Run_start (RE := accept_env) ;; collectOnce (RE := accept_env) (Some test_sample) ;;
    collectOnce (RE := accept_env) (Some test_sample)) (New (Open empty_qdb 10 10) test_info 0)).2.

Lemma loaded_ok : queue_ok (rp_q loaded).
Proof.
  eexists {| lg_in := λ t, if decide (t = metrics_q) then 2 else 1; lg_deleted := λ _, 0; lg_taken := λ _, 0 |}.
  split_and!; [apply queue_wf_intro| | |]; try (vm_compute; discriminate).
  - intros []; vm_compute; repeat (constructor || discriminate).
  - intros []; vm_compute; reflexivity.
Defined.

Lemma drain_keeps_events_witness :
  ∃ row, row ∈ events_of (rp_q loaded) ∧
  (row ∈ events_of (rp_q (drainOnce (RE := down_env) 5 loaded).2) ∨
   event_settled (q_Payload row) (drop (length (rp_posts loaded))
     (rp_posts (drainOnce (RE := down_env) 5 loaded).2))).
Proof.
  destruct (events_of (rp_q loaded)) as [|row rows] eqn:E; [by vm_compute in E|].
  assert (row ∈ events_of (rp_q loaded)) as Hr by (rewrite E; left).
  exists row. split; [left|]. exact (drain_keeps_events (RE := down_env) 5 loaded row loaded_ok Hr).
Defined.

(** C11: a healthy drain delivers everything.  With a hub that accepts every post, no failing
    database call, no frame collected meanwhile and at most [maxReplay] (100) frames queued (of
    more the drain drops the oldest), a drain succeeds (within the given fuel) and leaves both
    queues empty; it sends every frame in its own request, oldest first, then the
    events, oldest first, in batches of at most [maxEventSend] (with up to two more events,
    the overflow summaries, at their end). *)
Theorem drain_delivers `{RE : ReportEnv} fuel (r : Reporter)
    (no_fault : ∀ n, q_io n = false) (no_frames : ∀ n, re_frames n = [])
    (accepts_metrics : ∀ n p, ∃ ack, metrics_ack (re_hub n (ReqMetrics p)) = Ok ack)
    (accepts_events : ∀ n s evs, ∃ ack, events_ack (re_hub n (ReqEvents s evs)) = Ok ack)
    (Hok : queue_ok (rp_q r))
    (Hbacklog : Z.of_nat (length (metrics_of (rp_q r))) <= rp_maxReplay r)
    (Hsend : 0 < rp_maxEventSend r)
    (Hfuel : (length (metrics_of (rp_q r)) + length (events_of (rp_q r)) + 2 < fuel)%nat) :
  ∃ r' extra (bs : list (Z * list (qrow payload))), drainOnce fuel r = (Ok (), r') ∧
    metrics_of (rp_q r') = [] ∧ events_of (rp_q r') = [] ∧ (length extra <= 2)%nat ∧
    requests r' = requests r ++ (ReqMetrics ∘ q_Payload <$> metrics_of (rp_q r)) ++
                  ((λ b, BuildEvents (q_Payload <$> b.2) b.1) <$> bs) ∧
    concat (snd <$> bs) = events_of (rp_q r) ++ extra ∧
    Forall (λ b, 0 < Z.of_nat (length b.2) <= rp_maxEventSend r) bs.
Proof.
  destruct (flush_ok no_fault r Hok) as (r1 & extra & E1 & Hq1 & Hx & Hm1 & He1 & Hp1 & Hc1).
  pose proof Hc1 as (Hr1 & Hs1 & _).
  destruct (drain_metrics_ok no_fault no_frames accepts_metrics fuel r1) as
    (r2 & E2 & Hq2 & Hm2 & He2 & (Hr2 & Hs2 & _) & Hp2); [done|by rewrite Hm1, Hr1|rewrite Hm1; lia|].
  destruct (drain_events_ok no_fault no_frames accepts_events fuel r2) as
    (r3 & bs & E3 & Hq3 & He3 & Hm3 & _ & Hp3 & Hcat & Hall);
    [done|by rewrite Hs2, Hs1|rewrite He2, He1, length_app; lia|].
  exists r3, extra, bs. split.
  { unfold drainOnce. rewrite (st_bind_Ok_step _ _ _ _ _ E1), (st_bind_Ok_step _ _ _ _ _ E2). done. }
  split; [by rewrite Hm3|]. split; [done|]. split; [done|]. split.
  { rewrite Hp3, Hp2, Hm1, <-app_assoc. unfold requests. by rewrite Hp1. }
  split; [by rewrite Hcat, He2|]. by rewrite Hs2, Hs1 in Hall.
Qed.

Lemma drain_delivers_witness :
  length (metrics_of (rp_q loaded)) = 2%nat ∧
  ∃ r' extra (bs : list (Z * list (qrow payload))), drainOnce (RE := accept_env) 6 loaded = (Ok (), r') ∧
    metrics_of (rp_q r') = [] ∧ events_of (rp_q r') = [] ∧ (length extra <= 2)%nat ∧
    requests r' = requests loaded ++ (ReqMetrics ∘ q_Payload <$> metrics_of (rp_q loaded)) ++
                  ((λ b, BuildEvents (q_Payload <$> b.2) b.1) <$> bs) ∧
    concat (snd <$> bs) = events_of (rp_q loaded) ++ extra ∧
    Forall (λ b, 0 < Z.of_nat (length b.2) <= rp_maxEventSend loaded) bs.
Proof.
  split; [vm_compute; reflexivity|].
  apply (drain_delivers (RE := accept_env)).
  - done.
  - done.
  - intros n p. eexists. reflexivity.
  - intros n s evs. eexists. reflexivity.
  - apply loaded_ok.
  - vm_compute. discriminate.
  - vm_compute. reflexivity.
  - vm_compute. lia.
Defined.

(** The backoff is 1, 2, 4, ... seconds, capped at 60, for every [int] attempt. *)
Theorem DefaultBackoff_spec (attempt : Z) :
  DefaultBackoff attempt = Z.min 60 (2 ^ Z.max 0 attempt) * Second.
Proof.
  unfold DefaultBackoff. destruct (decide (attempt < 0)) as [Hn|Hn].
  - rewrite Z.max_l by lia. reflexivity.
  - rewrite Z.max_r by lia. destruct (decide (10 < attempt)).
    + assert (60 <= 2 ^ attempt); [|rewrite Z.min_l by lia; lia].
      transitivity (2 ^ 10); [lia|]. apply Z.pow_le_mono_r; lia.
    + assert (attempt ∈ seqZ 0 11) as H by (apply elem_of_seqZ; lia). cbn in H.
      repeat (apply elem_of_cons in H as [->|H]; [reflexivity|]). by apply elem_of_nil in H.
Qed.

(** The reporting interval.  Whatever the hub asks for and whatever fails, the interval
    in force is the configured one (30 s if that is not positive) or lies in 10 s .. 600 s. *)
Theorem interval_in_range `{RE : ReportEnv} fuel steps d q info interval :
  let r := (run_steps fuel steps d (New q info interval)).2 in
  (rp_interval r = if decide (interval <= 0) then 30 * Second else interval) ∨
  10 * Second <= rp_interval r <= 600 * Second.
Proof.
  apply (frame_steps (λ r, (rp_interval r = if decide (interval <= 0) then 30 * Second else interval) ∨
    10 * Second <= rp_interval r <= 600 * Second)); try done.
  - intros s r _. right. unfold setIntervalSeconds, duration_mul. cbn.
    set (s' := if decide (s < 10) then 10 else s).
    assert (10 <= s') as H1 by (unfold s'; case_decide; lia).
    set (s2 := if decide (600 < s') then 600 else s').
    assert (10 <= s2 <= 600) as H2 by (unfold s2; case_decide; lia).
    rewrite wrap64_small; unfold int64_min, int64_max, Second; lia.
  - by left.
Qed.

Lemma paused_step `{RE : ReportEnv} fuel st d (r : Reporter) :
  (∀ s, st = StepDrain s → s ≠ SelDone) →
  re_now (rp_ticks r) < dl_nextTry d →
  ∃ res, run_step fuel st d r = (Ok res, (run_step fuel st d r).2) ∧ res ∈ [Continue d; Blocked] ∧
    rp_posts (run_step fuel st d r).2 = rp_posts r ∧
    (rp_ticks (run_step fuel st d r).2 <= S (rp_ticks r))%nat ∧
    (rp_ticks r <= rp_ticks (run_step fuel st d r).2)%nat.
Proof.
  intros Hs Hnow. destruct st as [res|s]; cbn [run_step].
  - exists (Continue d). unfold collect_tick.
    assert (∃ r', collectOnce res r = (Ok () : outcome rerr (), r') ∧ rp_posts r' = rp_posts r ∧
      (rp_ticks r <= rp_ticks r' <= S (rp_ticks r))%nat) as (r' & E & Hp & Ht).
    { destruct (collectOnce res r) as [x r'] eqn:E. exists r'.
      pose proof (collect_posts res r) as Hp. rewrite E in Hp. cbn in Hp.
      unfold collectOnce in E. destruct res as [res|]; [|by injection E as <- <-; repeat split; auto].
      unfold mbind, stM_bind, st_try, lift_q in E.
      destruct (NextMetricsSeq (rp_q r)) as [[seq|?] ?]; [|injection E as <- <-; cbn; repeat split; auto].
      cbn in E. destruct (BuildMetrics _ _ _ _); [|injection E as <- <-; cbn; repeat split; auto].
      destruct (EnqueueMetrics _ _ _) as [[?|?] ?]; injection E as <- <-; cbn; repeat split; auto. }
    unfold mbind, stM_bind. rewrite E. cbn. split; [done|]. split; [left|]. split; [done|]. lia.
  - unfold drain_iteration, mbind, stM_bind, r_now. rewrite decide_True by done.
    destruct s; [by destruct (Hs SelDone)| |].
    + unfold on_wake, mbind, stM_bind, st_gets. cbn. destruct (rp_wake r); cbn; eexists;
        (split; [done|]); (split; [set_solver|]); (split; [done|]); lia.
    + exists (Continue d). cbn. split; [done|]. split; [left|]. split; [done|]. lia.
Qed.

(** The pause.  While the clock is before [nextTry] (five minutes after a 401, the
    backoff after any other failure) no interleaving of collecting, waking and timers makes
    a request or changes the loop's variables; only shutdown does. *)
Theorem paused_silent `{RE : ReportEnv} fuel (steps : list agent_step) (d : drain_state) (r : Reporter)
    (Hrun : StepDrain SelDone ∉ steps)
    (Hclock : ∀ n, (rp_ticks r <= n < rp_ticks r + length steps)%nat → re_now n < dl_nextTry d) :
  (run_steps fuel steps d r).1 = Ok d ∧
  rp_posts (run_steps fuel steps d r).2 = rp_posts r.
Proof.
  revert r Hclock. induction steps as [|st steps IH]; intros r Hclock; [done|].
  cbn [run_steps length] in *.
  destruct (paused_step fuel st d r) as (res & E & Hres & Hp & Ht1 & Ht2).
  { intros s -> ->. apply Hrun. left. }
  { apply Hclock. lia. }
  rewrite (st_bind_Ok_step _ _ _ _ _ E). rewrite <-Hp.
  assert (∀ n, (rp_ticks (run_step fuel st d r).2 <= n <
      rp_ticks (run_step fuel st d r).2 + length steps)%nat → re_now n < dl_nextTry d) as Hc.
  { intros n Hn. apply Hclock. lia. }
  assert (StepDrain SelDone ∉ steps) as Hr by (intros H; apply Hrun; by right).
  apply elem_of_cons in Hres as [->| ->%list_elem_of_singleton]; by apply IH.
Qed.

(** After one drain answered 401 the agent pauses; five minutes of clock are silence. *)
Definition paused : outcome rerr loop_res * Reporter :=
  drain_iteration (RE := denied_env) 9 SelTimer drain_init loaded.

Lemma paused_silent_witness :
  let d := {| dl_attempt := 0; dl_unauthorized := true; dl_nextTry := 1300 * Second + 4 |} in
  let steps := [StepCollect (Some test_sample); StepDrain SelWake; StepDrain SelTimer] in
  paused.1 = Ok (Continue d) ∧
  rp_posts (run_steps (RE := denied_env) 9 steps d paused.2).2 = rp_posts paused.2.
Proof.
  intros d steps. split; [vm_compute; reflexivity|].
  apply (paused_silent (RE := denied_env)).
  - unfold steps. intros H. repeat (apply elem_of_cons in H as [H|H]; [discriminate H|]).
    by apply elem_of_nil in H.
  - intros n Hn. assert (rp_ticks paused.2 = 5)%nat as E by (vm_compute; reflexivity).
    rewrite E in Hn. cbn [length steps] in Hn. cbn [re_now denied_env d dl_nextTry].
    unfold Second. lia.
Defined.

Lemma post_401 a : (∃ e, post a = Err e ∧ Classify e = ErrUnauthorized) ↔ ∃ ra b, a = Response 401 ra b.
Proof.
  split.
  - intros (e & He & Hc). destruct a as [|w|st ra b]; unfold post in He.
    + by injection He as <-.
    + by injection He as <-.
    + repeat case_decide; simplify_eq; try done; eauto.
  - intros (ra & b & ->). unfold post. rewrite decide_False by lia. rewrite decide_True by done. by eexists.
Qed.

Lemma unauthorized_metrics a :
  (∃ e, metrics_ack a = Err e ∧ Classify e = ErrUnauthorized) ↔ ∃ ra b, a = Response 401 ra b.
Proof.
  rewrite <-post_401. unfold metrics_ack. destruct (post a) as [b|e]; [|naive_solver].
  destruct (rb_metrics b); naive_solver.
Qed.

Lemma unauthorized_events a :
  (∃ e, events_ack a = Err e ∧ Classify e = ErrUnauthorized) ↔ ∃ ra b, a = Response 401 ra b.
Proof.
  rewrite <-post_401. unfold events_ack. destruct (post a) as [b|e]; [|naive_solver].
  destruct (rb_events b); naive_solver.
Qed.

Lemma request_one `{RE : ReportEnv} req (r : Reporter) :
  ∃ r', do_request req r = (Ok (re_hub (length (rp_posts r)) req), r') ∧
    rp_posts r' = rp_posts r ++ [(req, re_hub (length (rp_posts r)) req)] ∧
    rp_probeEvery r' = rp_probeEvery r.
Proof.
  destruct (do_request_Ok req r) as (a & r' & E & ->). exists r'. split; [done|].
  set (a := re_hub _ _) in *. unfold do_request in E. fold a in E.
  apply st_bind_Ok in E as (u & r2 & Hf & E). injection E as <-.
  set (I := λ r2 : Reporter, rp_posts r2 = rp_posts r ++ [(req, a)] ∧ rp_probeEvery r2 = rp_probeEvery r).
  assert (I r2) as [??]; [|done].
  assert (preserves (E:=rerr) I (st_foldl (λ _ f, collectOnce f) () (re_frames (length (rp_posts r))))) as Hp.
  { apply preserves_foldl. intros _ f. by apply frame_collect. }
  specialize (Hp (rset_posts (rp_posts r ++ [(req, a)]) r) (conj eq_refl eq_refl)). by rewrite Hf in Hp.
Qed.

Lemma handleProbeErr_spec `{RE : ReportEnv} e d (r : Reporter) :
  ∃ d' r', handleProbeErr e d r = (Ok d', r') ∧ rp_posts r' = rp_posts r ∧
    (dl_unauthorized d = true →
     (dl_unauthorized d' = true ↔ Classify e = ErrUnauthorized) ∧
     dl_nextTry d' = re_now (rp_ticks r) +
       if decide (Classify e = ErrUnauthorized) then rp_probeEvery r else DefaultBackoff (dl_attempt d)).
Proof.
  unfold handleProbeErr. case_decide as Hc; eexists _, _; (split; [reflexivity|]);
    (split; [done|]); intros Hu; cbn; (split; [|done]); naive_solver.
Qed.

(** What a probe that made a request amounts to. *)
Definition probed (d' : drain_state) (r r' : Reporter) : Prop := ∃ req a,
  rp_posts r' = rp_posts r ++ [(req, a)] ∧
  (dl_unauthorized d' = true ↔ ∃ ra b, a = Response 401 ra b) ∧
  (dl_unauthorized d' = true → ∃ now, dl_nextTry d' = now + rp_probeEvery r).

Lemma probe_answer `{RE : ReportEnv} {X} (ackf : http_answer → outcome rerr X)
    (ok : X → stM Reporter rerr drain_state) req d (r : Reporter) :
  dl_unauthorized d = true →
  (∀ a, (∃ e, ackf a = Err e ∧ Classify e = ErrUnauthorized) ↔ ∃ ra b, a = Response 401 ra b) →
  (∀ x r2, ∃ r3, ok x r2 = (Ok (probe_ok d), r3) ∧ rp_posts r3 = rp_posts r2) →
  ∃ d' r', (ack ← st_try (a ← do_request req; of_outcome (ackf a));
            match ack with Ok x => ok x | Err err => handleProbeErr err d end) r = (Ok d', r') ∧
    probed d' r r'.
Proof.
  intros Hauth H401 Hok. destruct (request_one req r) as (r2 & E & Hp2 & Hb2).
  set (a := re_hub _ _) in *.
  assert (st_try (a ← do_request req; of_outcome (ackf a)) r = (Ok (ackf a), r2)) as Et.
  { unfold st_try, mbind, stM_bind. by rewrite E. }
  rewrite (st_bind_Ok_step _ _ _ _ _ Et). destruct (ackf a) as [x|e] eqn:Ea.
  - destruct (Hok x r2) as (r3 & -> & Hp3). eexists _, r3. split; [done|].
    exists req, a. rewrite Hp3, Hp2. split; [done|]. split; [|done].
    rewrite <-H401, Ea. naive_solver.
  - destruct (handleProbeErr_spec e d r2) as (d' & r3 & -> & Hp3 & Hs).
    destruct (Hs Hauth) as [Hiff Hnt]. exists d', r3. split; [done|]. exists req, a.
    rewrite Hp3, Hp2. split; [done|]. split.
    + rewrite Hiff, <-H401, Ea. naive_solver.
    + intros Hd. apply Hiff in Hd. rewrite decide_True in Hnt by done. rewrite Hb2 in Hnt. eauto.
Qed.

Lemma try_lift_posts `{RE : ReportEnv} {A} (m : stM (Queue payload) qerr A) (r : Reporter) :
  ∃ r' x, st_try (E:=rerr) (lift_q m) r = (Ok x, r') ∧ rp_posts r' = rp_posts r ∧
    rp_probeEvery r' = rp_probeEvery r.
Proof. unfold st_try, lift_q. destruct (m (rp_q r)) as [[?|?] ?]; eexists _, _; split_and!; done. Qed.

Lemma peek_posts `{RE : ReportEnv} t m (r : Reporter) :
  ∃ r' rows, peek_head t m r = (Ok rows, r') ∧ rp_posts r' = rp_posts r ∧ rp_probeEvery r' = rp_probeEvery r.
Proof. unfold peek_head, lift_q. destruct (m (rp_q r)) as [[?|?] ?]; eexists _, _; split_and!; done. Qed.

(** The probe.  A probe of a paused agent makes at most one request and never fails;
    without a request (nothing to probe with) it ends the unauthorized state, with one it
    stays unauthorized exactly when that request was answered 401, and the pause is then
    extended by [probeEvery]. *)
Theorem probe_outcome `{RE : ReportEnv} (d : drain_state) (r : Reporter)
    (Hauth : dl_unauthorized d = true) :
  ∃ d' r', probeUnauthorized d r = (Ok d', r') ∧
    ((rp_posts r' = rp_posts r ∧ dl_unauthorized d' = false) ∨ probed d' r r').
Proof.
  assert (∀ r1 r2 : Reporter, ∀ d' r', rp_posts r1 = rp_posts r2 → rp_probeEvery r1 = rp_probeEvery r2 →
    probed d' r1 r' → probed d' r2 r') as Hext.
  { unfold probed. by intros ??? ? -> ->. }
  unfold probeUnauthorized.
  destruct (peek_posts metrics_q (PeekMetrics 1) r) as (r1 & rows & E1 & Hp1 & Hb1).
  rewrite (st_bind_Ok_step _ _ _ _ _ E1).
  assert (∀ (r1 : Reporter), rp_posts r1 = rp_posts r → rp_probeEvery r1 = rp_probeEvery r →
    ∃ d' r', (evs ← peek_head events_q (PeekEvents 1);
      match evs with
      | ev :: _ =>
        now ← r_now;
        ack ← st_try (PostEvents (BuildEvents [q_Payload ev] now));
        match ack with
        | Ok _ => _ ← st_try (lift_q (DeleteEvents [q_ID ev])); mret (probe_ok d)
        | Err err => handleProbeErr err d
        end
      | [] => mret {| dl_attempt := dl_attempt d; dl_unauthorized := false; dl_nextTry := dl_nextTry d |}
      end) r1 = (Ok d', r') ∧
    ((rp_posts r' = rp_posts r ∧ dl_unauthorized d' = false) ∨ probed d' r r')) as Hev.
  { clear rows r1 E1 Hp1 Hb1. intros r1 Hp1 Hb1.
    destruct (peek_posts events_q (PeekEvents 1) r1) as (r2 & evs & E2 & Hp2 & Hb2).
    rewrite (st_bind_Ok_step _ _ _ _ _ E2).
    destruct evs as [|ev evs]; [|rewrite (st_bind_Ok_step r_now _ _ _ _ eq_refl)];
      [eexists _, _; split; [done|]; left; split; [congruence|done]|].
    edestruct (probe_answer events_ack (λ _, _ ← st_try (lift_q (DeleteEvents [q_ID ev])); mret (probe_ok d))
      (BuildEvents [q_Payload ev] (re_now (rp_ticks r2))) d) as (d' & r' & E & Hprobe);
      [exact Hauth|apply unauthorized_events| |].
    - intros _ r3. destruct (try_lift_posts (DeleteEvents [q_ID ev]) r3) as (r4 & x & Ex & Hp4 & _).
      exists r4. by rewrite (st_bind_Ok_step _ _ _ _ _ Ex).
    - exists d', r'. split; [exact E|]. right. eapply Hext, Hprobe; cbn; congruence. }
  destruct rows as [|row rows]; [by apply Hev|].
  edestruct (probe_answer metrics_ack (λ ack,
      (if decide (0 < ma_ReportIntervalSeconds ack)
       then setIntervalSeconds (ma_ReportIntervalSeconds ack) else mret ()) ;;
      _ ← st_try (lift_q (DeleteMetrics [q_ID row])); mret (probe_ok d))
      (ReqMetrics (q_Payload row)) d r1) as (d' & r' & E & Hprobe);
    [exact Hauth|apply unauthorized_metrics| |].
  - intros ack r3. assert (∃ i, (if decide (0 < ma_ReportIntervalSeconds ack)
      then setIntervalSeconds (ma_ReportIntervalSeconds ack) else mret ()) r3 =
      (Ok () : outcome rerr (), rset_interval i r3)) as [i Hi].
    { case_decide; [by eexists|]. exists (rp_interval r3). by destruct r3. }
    rewrite (st_bind_Ok_step _ _ _ _ _ Hi).
    destruct (try_lift_posts (DeleteMetrics [q_ID row]) (rset_interval i r3)) as (r4 & x & Ex & Hp4 & _).
    exists r4. by rewrite (st_bind_Ok_step _ _ _ _ _ Ex).
  - exists d', r'. split; [exact E|]. right. eapply Hext, Hprobe; done.
Qed.

Lemma probe_outcome_witness :
  let d := {| dl_attempt := 0; dl_unauthorized := true; dl_nextTry := 0 |} in
  ∃ d' r', probeUnauthorized (RE := denied_env) d loaded = (Ok d', r') ∧
    ((rp_posts r' = rp_posts loaded ∧ dl_unauthorized d' = false) ∨ probed d' loaded r').
Proof. intros d. apply (probe_outcome (RE := denied_env) d loaded). reflexivity. Defined.

(** A hub that refuses every batch of events for good makes a drain spin without backoff:
    each pass deletes the batch and queues a new event about it. *)
Theorem poison_events_never_end `{RE : ReportEnv} fuel (r : Reporter)
    (no_fault : ∀ n, q_io n = false) (no_frames : ∀ n, re_frames n = [])
    (Hpoison : ∀ n s evs, ∃ e, events_ack (re_hub n (ReqEvents s evs)) = Err (ESend e) ∧ se_Kind e = ErrPoison)
    (Hok : queue_ok (rp_q r)) (Hsend : 0 < rp_maxEventSend r) (Hne : events_of (rp_q r) ≠ []) :
  ∃ r', drain_events fuel r = (Err EFuel, r') ∧
    length (rp_posts r') = (length (rp_posts r) + fuel)%nat.
Proof. by apply poison_loop. Qed.
