(* ===== verification/HubTypes.v ===== *)
(** The hub's data ([hub/types.go], and the schema of [hub/db.go]).

    A pointer, a [sql.NullString] or a nullable column is an [option]; a JSON column holds the
    typed value whose text the program stores; [ref] and [RawMessage] columns hold their text.
    The tables of the database are lists of rows in insertion order. *)

From S2P Require Import Prelude GoBase GoTime.
Local Open Scope Z_scope.

(** ** Payloads from the sources *)

(* @src hub/types.go 19-24 agentInfo *)
Record agentInfo := {
  agt_Version : string;
  agt_OS : string;
  agt_Arch : string;
  agt_Hostname : string }.

(* @src hub/types.go 41-47 diskPayload *)
Record diskPayload := {
  dp_Mount : string;
  dp_Percent : option float64;
  dp_UsedBytes : option Z;
  dp_TotalBytes : option Z;
  dp_FSType : string }.

(* @src hub/types.go 49-52 netPayload *)
Record netPayload := {
  np_RxBps : option float64;
  np_TxBps : option float64 }.

(* @src hub/types.go 54-60 containerPayload *)
Record containerPayload := {
  cp_Name : string;
  cp_State : string;
  cp_ExitCode : option Z;
  cp_StartedAt : option string;
  cp_RestartCount : option Z }.

(* @src hub/types.go 67-71 nasDiskPayload *)
Record nasDiskPayload := {
  ndp_Dev : string;
  ndp_Smart : string;
  ndp_TempC : option float64 }.

(* @src hub/types.go 73-76 nasPoolPayload *)
Record nasPoolPayload := {
  npp_Name : string;
  npp_State : string }.

(* @src hub/types.go 62-65 nasPayload *)
Record nasPayload := {
  nas_disks : list nasDiskPayload;
  nas_pools : list nasPoolPayload }.

(* @src hub/types.go 26-39 samplePayload *)
(** [Containers] tells a nil slice ([None]) from an empty one. *)
Record samplePayload := {
  sp_TS : string;
  sp_CPUPercent : option float64;
  sp_MemPercent : option float64;
  sp_MemUsedBytes : option Z;
  sp_MemTotalBytes : option Z;
  sp_Load1 : option float64;
  sp_UptimeSeconds : option Z;
  sp_BootTime : option string;
  sp_Disks : list diskPayload;
  sp_Net : option netPayload;
  sp_Containers : option (list containerPayload);
  sp_NAS : option nasPayload }.

(* @src hub/types.go 10-17 ingestMetricsReq *)
Record ingestMetricsReq := {
  imr_Seq : Z;
  imr_SentAt : string;
  imr_Agent : option agentInfo;
  imr_Capabilities : option (gmap string string);
  imr_Sample : option samplePayload }.

(* @src hub/types.go 100-108 attachmentDesc *)
Record attachmentDesc := {
  ad_ID : string;
  ad_Kind : string;
  ad_Filename : string;
  ad_Mime : string;
  ad_ByteSize : Z;
  ad_SHA256 : string }.

(* @src hub/types.go 84-98 eventPayload *)
(** [ep_Ref] is the raw text, empty when the field is absent. *)
Record eventPayload := {
  ep_EventID : string;
  ep_Seq : Z;
  ep_Kind : string;
  ep_OccurredAt : string;
  ep_Severity : string;
  ep_FaultKey : option string;
  ep_IncidentAction : option string;
  ep_Title : string;
  ep_Body : option string;
  ep_Ref : string;
  ep_Attachments : list attachmentDesc }.

(* @src hub/types.go 78-82 ingestEventsReq *)
Record ingestEventsReq := {
  ier_SentAt : string;
  ier_Events : list eventPayload }.

(** ** Rules and settings *)

(* @src hub/types.go 112-127 rule *)
Record rule := {
  rl_ID : string;
  rl_Kind : string;
  rl_Metric : string;
  rl_Label : option string;
  rl_Op : string;
  rl_Value : option float64;
  rl_ForSeconds : Z;
  rl_RecoverValue : option float64;
  rl_RecoverForSeconds : Z;
  rl_Match : option string;
  rl_Severity : string;
  rl_Enabled : bool }.

(* @src hub/types.go 129-134 rulesDoc *)
Record rulesDoc := {
  rd_Version : Z;
  rd_HeartbeatSeconds : Z;
  rd_Rules : list rule }.

(* @src hub/types.go 136-142 dndConfig *)
Record dndConfig := {
  dnd_Enabled : bool;
  dnd_Start : string;
  dnd_End : string;
  dnd_Timezone : string }.

(* @src hub/types.go 144-149 settingsDoc *)
Record settingsDoc := {
  sd_Version : Z;
  sd_DND : dndConfig;
  sd_ReportIntervalSeconds : Z }.

(** ** Rows *)

(* @src hub/ingest.go 208-229 !buildSummary *)
(** The object [buildSummary] marshals. *)
Record summaryJSON := {
  sum_ts : string;
  sum_cpuPercent : option float64;
  sum_memPercent : option float64;
  sum_disks : list (string * float64);
  sum_uptimeSeconds : option Z }.

(* @src hub/types.go 153-178 sourceRow *)
Record sourceRow := {
  s_ID : string;
  s_Name : string;
  s_Kind : string;
  s_Enabled : bool;
  s_KeyHash : string;
  s_KeyPlain : string;
  s_KeyHint : string;
  s_MgmtKeyPlain : string;
  s_MgmtKeyHint : string;
  s_AttachmentBaseURL : option string;
  s_AgentVersion : option string;
  s_AgentOS : option string;
  s_AgentArch : option string;
  s_Hostname : option string;
  s_Capabilities : option (gmap string string);
  s_LastSeenAt : option string;
  s_LastMetricsSeq : Z;
  s_LastEventSeq : Z;
  s_LastBootTime : option string;
  s_LastSummary : option summaryJSON;
  s_PrevSample : option samplePayload;
  s_DeletedAt : option string;
  s_CreatedAt : string;
  s_UpdatedAt : string }.

Definition set_s_Name (v : string) (r : sourceRow) : sourceRow :=
  {| s_ID := s_ID r; s_Name := v; s_Kind := s_Kind r; s_Enabled := s_Enabled r;
     s_KeyHash := s_KeyHash r; s_KeyPlain := s_KeyPlain r; s_KeyHint := s_KeyHint r;
     s_MgmtKeyPlain := s_MgmtKeyPlain r; s_MgmtKeyHint := s_MgmtKeyHint r;
     s_AttachmentBaseURL := s_AttachmentBaseURL r; s_AgentVersion := s_AgentVersion r;
     s_AgentOS := s_AgentOS r; s_AgentArch := s_AgentArch r; s_Hostname := s_Hostname r;
     s_Capabilities := s_Capabilities r; s_LastSeenAt := s_LastSeenAt r;
     s_LastMetricsSeq := s_LastMetricsSeq r; s_LastEventSeq := s_LastEventSeq r;
     s_LastBootTime := s_LastBootTime r; s_LastSummary := s_LastSummary r;
     s_PrevSample := s_PrevSample r; s_DeletedAt := s_DeletedAt r;
     s_CreatedAt := s_CreatedAt r; s_UpdatedAt := s_UpdatedAt r |}.

Definition set_s_Enabled (v : bool) (r : sourceRow) : sourceRow :=
  {| s_ID := s_ID r; s_Name := s_Name r; s_Kind := s_Kind r; s_Enabled := v;
     s_KeyHash := s_KeyHash r; s_KeyPlain := s_KeyPlain r; s_KeyHint := s_KeyHint r;
     s_MgmtKeyPlain := s_MgmtKeyPlain r; s_MgmtKeyHint := s_MgmtKeyHint r;
     s_AttachmentBaseURL := s_AttachmentBaseURL r; s_AgentVersion := s_AgentVersion r;
     s_AgentOS := s_AgentOS r; s_AgentArch := s_AgentArch r; s_Hostname := s_Hostname r;
     s_Capabilities := s_Capabilities r; s_LastSeenAt := s_LastSeenAt r;
     s_LastMetricsSeq := s_LastMetricsSeq r; s_LastEventSeq := s_LastEventSeq r;
     s_LastBootTime := s_LastBootTime r; s_LastSummary := s_LastSummary r;
     s_PrevSample := s_PrevSample r; s_DeletedAt := s_DeletedAt r;
     s_CreatedAt := s_CreatedAt r; s_UpdatedAt := s_UpdatedAt r |}.

Definition set_s_KeyHash (v : string) (r : sourceRow) : sourceRow :=
  {| s_ID := s_ID r; s_Name := s_Name r; s_Kind := s_Kind r; s_Enabled := s_Enabled r;
     s_KeyHash := v; s_KeyPlain := s_KeyPlain r; s_KeyHint := s_KeyHint r;
     s_MgmtKeyPlain := s_MgmtKeyPlain r; s_MgmtKeyHint := s_MgmtKeyHint r;
     s_AttachmentBaseURL := s_AttachmentBaseURL r; s_AgentVersion := s_AgentVersion r;
     s_AgentOS := s_AgentOS r; s_AgentArch := s_AgentArch r; s_Hostname := s_Hostname r;
     s_Capabilities := s_Capabilities r; s_LastSeenAt := s_LastSeenAt r;
     s_LastMetricsSeq := s_LastMetricsSeq r; s_LastEventSeq := s_LastEventSeq r;
     s_LastBootTime := s_LastBootTime r; s_LastSummary := s_LastSummary r;
     s_PrevSample := s_PrevSample r; s_DeletedAt := s_DeletedAt r;
     s_CreatedAt := s_CreatedAt r; s_UpdatedAt := s_UpdatedAt r |}.

Definition set_s_KeyPlain (v : string) (r : sourceRow) : sourceRow :=
  {| s_ID := s_ID r; s_Name := s_Name r; s_Kind := s_Kind r; s_Enabled := s_Enabled r;
     s_KeyHash := s_KeyHash r; s_KeyPlain := v; s_KeyHint := s_KeyHint r;
     s_MgmtKeyPlain := s_MgmtKeyPlain r; s_MgmtKeyHint := s_MgmtKeyHint r;
     s_AttachmentBaseURL := s_AttachmentBaseURL r; s_AgentVersion := s_AgentVersion r;
     s_AgentOS := s_AgentOS r; s_AgentArch := s_AgentArch r; s_Hostname := s_Hostname r;
     s_Capabilities := s_Capabilities r; s_LastSeenAt := s_LastSeenAt r;
     s_LastMetricsSeq := s_LastMetricsSeq r; s_LastEventSeq := s_LastEventSeq r;
     s_LastBootTime := s_LastBootTime r; s_LastSummary := s_LastSummary r;
     s_PrevSample := s_PrevSample r; s_DeletedAt := s_DeletedAt r;
     s_CreatedAt := s_CreatedAt r; s_UpdatedAt := s_UpdatedAt r |}.

Definition set_s_KeyHint (v : string) (r : sourceRow) : sourceRow :=
  {| s_ID := s_ID r; s_Name := s_Name r; s_Kind := s_Kind r; s_Enabled := s_Enabled r;
     s_KeyHash := s_KeyHash r; s_KeyPlain := s_KeyPlain r; s_KeyHint := v;
     s_MgmtKeyPlain := s_MgmtKeyPlain r; s_MgmtKeyHint := s_MgmtKeyHint r;
     s_AttachmentBaseURL := s_AttachmentBaseURL r; s_AgentVersion := s_AgentVersion r;
     s_AgentOS := s_AgentOS r; s_AgentArch := s_AgentArch r; s_Hostname := s_Hostname r;
     s_Capabilities := s_Capabilities r; s_LastSeenAt := s_LastSeenAt r;
     s_LastMetricsSeq := s_LastMetricsSeq r; s_LastEventSeq := s_LastEventSeq r;
     s_LastBootTime := s_LastBootTime r; s_LastSummary := s_LastSummary r;
     s_PrevSample := s_PrevSample r; s_DeletedAt := s_DeletedAt r;
     s_CreatedAt := s_CreatedAt r; s_UpdatedAt := s_UpdatedAt r |}.

Definition set_s_MgmtKeyPlain (v : string) (r : sourceRow) : sourceRow :=
  {| s_ID := s_ID r; s_Name := s_Name r; s_Kind := s_Kind r; s_Enabled := s_Enabled r;
     s_KeyHash := s_KeyHash r; s_KeyPlain := s_KeyPlain r; s_KeyHint := s_KeyHint r;
     s_MgmtKeyPlain := v; s_MgmtKeyHint := s_MgmtKeyHint r;
     s_AttachmentBaseURL := s_AttachmentBaseURL r; s_AgentVersion := s_AgentVersion r;
     s_AgentOS := s_AgentOS r; s_AgentArch := s_AgentArch r; s_Hostname := s_Hostname r;
     s_Capabilities := s_Capabilities r; s_LastSeenAt := s_LastSeenAt r;
     s_LastMetricsSeq := s_LastMetricsSeq r; s_LastEventSeq := s_LastEventSeq r;
     s_LastBootTime := s_LastBootTime r; s_LastSummary := s_LastSummary r;
     s_PrevSample := s_PrevSample r; s_DeletedAt := s_DeletedAt r;
     s_CreatedAt := s_CreatedAt r; s_UpdatedAt := s_UpdatedAt r |}.

Definition set_s_MgmtKeyHint (v : string) (r : sourceRow) : sourceRow :=
  {| s_ID := s_ID r; s_Name := s_Name r; s_Kind := s_Kind r; s_Enabled := s_Enabled r;
     s_KeyHash := s_KeyHash r; s_KeyPlain := s_KeyPlain r; s_KeyHint := s_KeyHint r;
     s_MgmtKeyPlain := s_MgmtKeyPlain r; s_MgmtKeyHint := v;
     s_AttachmentBaseURL := s_AttachmentBaseURL r; s_AgentVersion := s_AgentVersion r;
     s_AgentOS := s_AgentOS r; s_AgentArch := s_AgentArch r; s_Hostname := s_Hostname r;
     s_Capabilities := s_Capabilities r; s_LastSeenAt := s_LastSeenAt r;
     s_LastMetricsSeq := s_LastMetricsSeq r; s_LastEventSeq := s_LastEventSeq r;
     s_LastBootTime := s_LastBootTime r; s_LastSummary := s_LastSummary r;
     s_PrevSample := s_PrevSample r; s_DeletedAt := s_DeletedAt r;
     s_CreatedAt := s_CreatedAt r; s_UpdatedAt := s_UpdatedAt r |}.

Definition set_s_AttachmentBaseURL (v : option string) (r : sourceRow) : sourceRow :=
  {| s_ID := s_ID r; s_Name := s_Name r; s_Kind := s_Kind r; s_Enabled := s_Enabled r;
     s_KeyHash := s_KeyHash r; s_KeyPlain := s_KeyPlain r; s_KeyHint := s_KeyHint r;
     s_MgmtKeyPlain := s_MgmtKeyPlain r; s_MgmtKeyHint := s_MgmtKeyHint r;
     s_AttachmentBaseURL := v; s_AgentVersion := s_AgentVersion r; s_AgentOS := s_AgentOS r;
     s_AgentArch := s_AgentArch r; s_Hostname := s_Hostname r;
     s_Capabilities := s_Capabilities r; s_LastSeenAt := s_LastSeenAt r;
     s_LastMetricsSeq := s_LastMetricsSeq r; s_LastEventSeq := s_LastEventSeq r;
     s_LastBootTime := s_LastBootTime r; s_LastSummary := s_LastSummary r;
     s_PrevSample := s_PrevSample r; s_DeletedAt := s_DeletedAt r;
     s_CreatedAt := s_CreatedAt r; s_UpdatedAt := s_UpdatedAt r |}.

Definition set_s_AgentVersion (v : option string) (r : sourceRow) : sourceRow :=
  {| s_ID := s_ID r; s_Name := s_Name r; s_Kind := s_Kind r; s_Enabled := s_Enabled r;
     s_KeyHash := s_KeyHash r; s_KeyPlain := s_KeyPlain r; s_KeyHint := s_KeyHint r;
     s_MgmtKeyPlain := s_MgmtKeyPlain r; s_MgmtKeyHint := s_MgmtKeyHint r;
     s_AttachmentBaseURL := s_AttachmentBaseURL r; s_AgentVersion := v;
     s_AgentOS := s_AgentOS r; s_AgentArch := s_AgentArch r; s_Hostname := s_Hostname r;
     s_Capabilities := s_Capabilities r; s_LastSeenAt := s_LastSeenAt r;
     s_LastMetricsSeq := s_LastMetricsSeq r; s_LastEventSeq := s_LastEventSeq r;
     s_LastBootTime := s_LastBootTime r; s_LastSummary := s_LastSummary r;
     s_PrevSample := s_PrevSample r; s_DeletedAt := s_DeletedAt r;
     s_CreatedAt := s_CreatedAt r; s_UpdatedAt := s_UpdatedAt r |}.

Definition set_s_AgentOS (v : option string) (r : sourceRow) : sourceRow :=
  {| s_ID := s_ID r; s_Name := s_Name r; s_Kind := s_Kind r; s_Enabled := s_Enabled r;
     s_KeyHash := s_KeyHash r; s_KeyPlain := s_KeyPlain r; s_KeyHint := s_KeyHint r;
     s_MgmtKeyPlain := s_MgmtKeyPlain r; s_MgmtKeyHint := s_MgmtKeyHint r;
     s_AttachmentBaseURL := s_AttachmentBaseURL r; s_AgentVersion := s_AgentVersion r;
     s_AgentOS := v; s_AgentArch := s_AgentArch r; s_Hostname := s_Hostname r;
     s_Capabilities := s_Capabilities r; s_LastSeenAt := s_LastSeenAt r;
     s_LastMetricsSeq := s_LastMetricsSeq r; s_LastEventSeq := s_LastEventSeq r;
     s_LastBootTime := s_LastBootTime r; s_LastSummary := s_LastSummary r;
     s_PrevSample := s_PrevSample r; s_DeletedAt := s_DeletedAt r;
     s_CreatedAt := s_CreatedAt r; s_UpdatedAt := s_UpdatedAt r |}.

Definition set_s_AgentArch (v : option string) (r : sourceRow) : sourceRow :=
  {| s_ID := s_ID r; s_Name := s_Name r; s_Kind := s_Kind r; s_Enabled := s_Enabled r;
     s_KeyHash := s_KeyHash r; s_KeyPlain := s_KeyPlain r; s_KeyHint := s_KeyHint r;
     s_MgmtKeyPlain := s_MgmtKeyPlain r; s_MgmtKeyHint := s_MgmtKeyHint r;
     s_AttachmentBaseURL := s_AttachmentBaseURL r; s_AgentVersion := s_AgentVersion r;
     s_AgentOS := s_AgentOS r; s_AgentArch := v; s_Hostname := s_Hostname r;
     s_Capabilities := s_Capabilities r; s_LastSeenAt := s_LastSeenAt r;
     s_LastMetricsSeq := s_LastMetricsSeq r; s_LastEventSeq := s_LastEventSeq r;
     s_LastBootTime := s_LastBootTime r; s_LastSummary := s_LastSummary r;
     s_PrevSample := s_PrevSample r; s_DeletedAt := s_DeletedAt r;
     s_CreatedAt := s_CreatedAt r; s_UpdatedAt := s_UpdatedAt r |}.

Definition set_s_Hostname (v : option string) (r : sourceRow) : sourceRow :=
  {| s_ID := s_ID r; s_Name := s_Name r; s_Kind := s_Kind r; s_Enabled := s_Enabled r;
     s_KeyHash := s_KeyHash r; s_KeyPlain := s_KeyPlain r; s_KeyHint := s_KeyHint r;
     s_MgmtKeyPlain := s_MgmtKeyPlain r; s_MgmtKeyHint := s_MgmtKeyHint r;
     s_AttachmentBaseURL := s_AttachmentBaseURL r; s_AgentVersion := s_AgentVersion r;
     s_AgentOS := s_AgentOS r; s_AgentArch := s_AgentArch r; s_Hostname := v;
     s_Capabilities := s_Capabilities r; s_LastSeenAt := s_LastSeenAt r;
     s_LastMetricsSeq := s_LastMetricsSeq r; s_LastEventSeq := s_LastEventSeq r;
     s_LastBootTime := s_LastBootTime r; s_LastSummary := s_LastSummary r;
     s_PrevSample := s_PrevSample r; s_DeletedAt := s_DeletedAt r;
     s_CreatedAt := s_CreatedAt r; s_UpdatedAt := s_UpdatedAt r |}.

Definition set_s_Capabilities (v : option (gmap string string)) (r : sourceRow) : sourceRow :=
  {| s_ID := s_ID r; s_Name := s_Name r; s_Kind := s_Kind r; s_Enabled := s_Enabled r;
     s_KeyHash := s_KeyHash r; s_KeyPlain := s_KeyPlain r; s_KeyHint := s_KeyHint r;
     s_MgmtKeyPlain := s_MgmtKeyPlain r; s_MgmtKeyHint := s_MgmtKeyHint r;
     s_AttachmentBaseURL := s_AttachmentBaseURL r; s_AgentVersion := s_AgentVersion r;
     s_AgentOS := s_AgentOS r; s_AgentArch := s_AgentArch r; s_Hostname := s_Hostname r;
     s_Capabilities := v; s_LastSeenAt := s_LastSeenAt r;
     s_LastMetricsSeq := s_LastMetricsSeq r; s_LastEventSeq := s_LastEventSeq r;
     s_LastBootTime := s_LastBootTime r; s_LastSummary := s_LastSummary r;
     s_PrevSample := s_PrevSample r; s_DeletedAt := s_DeletedAt r;
     s_CreatedAt := s_CreatedAt r; s_UpdatedAt := s_UpdatedAt r |}.

Definition set_s_LastSeenAt (v : option string) (r : sourceRow) : sourceRow :=
  {| s_ID := s_ID r; s_Name := s_Name r; s_Kind := s_Kind r; s_Enabled := s_Enabled r;
     s_KeyHash := s_KeyHash r; s_KeyPlain := s_KeyPlain r; s_KeyHint := s_KeyHint r;
     s_MgmtKeyPlain := s_MgmtKeyPlain r; s_MgmtKeyHint := s_MgmtKeyHint r;
     s_AttachmentBaseURL := s_AttachmentBaseURL r; s_AgentVersion := s_AgentVersion r;
     s_AgentOS := s_AgentOS r; s_AgentArch := s_AgentArch r; s_Hostname := s_Hostname r;
     s_Capabilities := s_Capabilities r; s_LastSeenAt := v;
     s_LastMetricsSeq := s_LastMetricsSeq r; s_LastEventSeq := s_LastEventSeq r;
     s_LastBootTime := s_LastBootTime r; s_LastSummary := s_LastSummary r;
     s_PrevSample := s_PrevSample r; s_DeletedAt := s_DeletedAt r;
     s_CreatedAt := s_CreatedAt r; s_UpdatedAt := s_UpdatedAt r |}.

Definition set_s_LastMetricsSeq (v : Z) (r : sourceRow) : sourceRow :=
  {| s_ID := s_ID r; s_Name := s_Name r; s_Kind := s_Kind r; s_Enabled := s_Enabled r;
     s_KeyHash := s_KeyHash r; s_KeyPlain := s_KeyPlain r; s_KeyHint := s_KeyHint r;
     s_MgmtKeyPlain := s_MgmtKeyPlain r; s_MgmtKeyHint := s_MgmtKeyHint r;
     s_AttachmentBaseURL := s_AttachmentBaseURL r; s_AgentVersion := s_AgentVersion r;
     s_AgentOS := s_AgentOS r; s_AgentArch := s_AgentArch r; s_Hostname := s_Hostname r;
     s_Capabilities := s_Capabilities r; s_LastSeenAt := s_LastSeenAt r;
     s_LastMetricsSeq := v; s_LastEventSeq := s_LastEventSeq r;
     s_LastBootTime := s_LastBootTime r; s_LastSummary := s_LastSummary r;
     s_PrevSample := s_PrevSample r; s_DeletedAt := s_DeletedAt r;
     s_CreatedAt := s_CreatedAt r; s_UpdatedAt := s_UpdatedAt r |}.

Definition set_s_LastEventSeq (v : Z) (r : sourceRow) : sourceRow :=
  {| s_ID := s_ID r; s_Name := s_Name r; s_Kind := s_Kind r; s_Enabled := s_Enabled r;
     s_KeyHash := s_KeyHash r; s_KeyPlain := s_KeyPlain r; s_KeyHint := s_KeyHint r;
     s_MgmtKeyPlain := s_MgmtKeyPlain r; s_MgmtKeyHint := s_MgmtKeyHint r;
     s_AttachmentBaseURL := s_AttachmentBaseURL r; s_AgentVersion := s_AgentVersion r;
     s_AgentOS := s_AgentOS r; s_AgentArch := s_AgentArch r; s_Hostname := s_Hostname r;
     s_Capabilities := s_Capabilities r; s_LastSeenAt := s_LastSeenAt r;
     s_LastMetricsSeq := s_LastMetricsSeq r; s_LastEventSeq := v;
     s_LastBootTime := s_LastBootTime r; s_LastSummary := s_LastSummary r;
     s_PrevSample := s_PrevSample r; s_DeletedAt := s_DeletedAt r;
     s_CreatedAt := s_CreatedAt r; s_UpdatedAt := s_UpdatedAt r |}.

Definition set_s_LastBootTime (v : option string) (r : sourceRow) : sourceRow :=
  {| s_ID := s_ID r; s_Name := s_Name r; s_Kind := s_Kind r; s_Enabled := s_Enabled r;
     s_KeyHash := s_KeyHash r; s_KeyPlain := s_KeyPlain r; s_KeyHint := s_KeyHint r;
     s_MgmtKeyPlain := s_MgmtKeyPlain r; s_MgmtKeyHint := s_MgmtKeyHint r;
     s_AttachmentBaseURL := s_AttachmentBaseURL r; s_AgentVersion := s_AgentVersion r;
     s_AgentOS := s_AgentOS r; s_AgentArch := s_AgentArch r; s_Hostname := s_Hostname r;
     s_Capabilities := s_Capabilities r; s_LastSeenAt := s_LastSeenAt r;
     s_LastMetricsSeq := s_LastMetricsSeq r; s_LastEventSeq := s_LastEventSeq r;
     s_LastBootTime := v; s_LastSummary := s_LastSummary r; s_PrevSample := s_PrevSample r;
     s_DeletedAt := s_DeletedAt r; s_CreatedAt := s_CreatedAt r;
     s_UpdatedAt := s_UpdatedAt r |}.

Definition set_s_LastSummary (v : option summaryJSON) (r : sourceRow) : sourceRow :=
  {| s_ID := s_ID r; s_Name := s_Name r; s_Kind := s_Kind r; s_Enabled := s_Enabled r;
     s_KeyHash := s_KeyHash r; s_KeyPlain := s_KeyPlain r; s_KeyHint := s_KeyHint r;
     s_MgmtKeyPlain := s_MgmtKeyPlain r; s_MgmtKeyHint := s_MgmtKeyHint r;
     s_AttachmentBaseURL := s_AttachmentBaseURL r; s_AgentVersion := s_AgentVersion r;
     s_AgentOS := s_AgentOS r; s_AgentArch := s_AgentArch r; s_Hostname := s_Hostname r;
     s_Capabilities := s_Capabilities r; s_LastSeenAt := s_LastSeenAt r;
     s_LastMetricsSeq := s_LastMetricsSeq r; s_LastEventSeq := s_LastEventSeq r;
     s_LastBootTime := s_LastBootTime r; s_LastSummary := v; s_PrevSample := s_PrevSample r;
     s_DeletedAt := s_DeletedAt r; s_CreatedAt := s_CreatedAt r;
     s_UpdatedAt := s_UpdatedAt r |}.

Definition set_s_PrevSample (v : option samplePayload) (r : sourceRow) : sourceRow :=
  {| s_ID := s_ID r; s_Name := s_Name r; s_Kind := s_Kind r; s_Enabled := s_Enabled r;
     s_KeyHash := s_KeyHash r; s_KeyPlain := s_KeyPlain r; s_KeyHint := s_KeyHint r;
     s_MgmtKeyPlain := s_MgmtKeyPlain r; s_MgmtKeyHint := s_MgmtKeyHint r;
     s_AttachmentBaseURL := s_AttachmentBaseURL r; s_AgentVersion := s_AgentVersion r;
     s_AgentOS := s_AgentOS r; s_AgentArch := s_AgentArch r; s_Hostname := s_Hostname r;
     s_Capabilities := s_Capabilities r; s_LastSeenAt := s_LastSeenAt r;
     s_LastMetricsSeq := s_LastMetricsSeq r; s_LastEventSeq := s_LastEventSeq r;
     s_LastBootTime := s_LastBootTime r; s_LastSummary := s_LastSummary r;
     s_PrevSample := v; s_DeletedAt := s_DeletedAt r; s_CreatedAt := s_CreatedAt r;
     s_UpdatedAt := s_UpdatedAt r |}.

Definition set_s_DeletedAt (v : option string) (r : sourceRow) : sourceRow :=
  {| s_ID := s_ID r; s_Name := s_Name r; s_Kind := s_Kind r; s_Enabled := s_Enabled r;
     s_KeyHash := s_KeyHash r; s_KeyPlain := s_KeyPlain r; s_KeyHint := s_KeyHint r;
     s_MgmtKeyPlain := s_MgmtKeyPlain r; s_MgmtKeyHint := s_MgmtKeyHint r;
     s_AttachmentBaseURL := s_AttachmentBaseURL r; s_AgentVersion := s_AgentVersion r;
     s_AgentOS := s_AgentOS r; s_AgentArch := s_AgentArch r; s_Hostname := s_Hostname r;
     s_Capabilities := s_Capabilities r; s_LastSeenAt := s_LastSeenAt r;
     s_LastMetricsSeq := s_LastMetricsSeq r; s_LastEventSeq := s_LastEventSeq r;
     s_LastBootTime := s_LastBootTime r; s_LastSummary := s_LastSummary r;
     s_PrevSample := s_PrevSample r; s_DeletedAt := v; s_CreatedAt := s_CreatedAt r;
     s_UpdatedAt := s_UpdatedAt r |}.

Definition set_s_UpdatedAt (v : string) (r : sourceRow) : sourceRow :=
  {| s_ID := s_ID r; s_Name := s_Name r; s_Kind := s_Kind r; s_Enabled := s_Enabled r;
     s_KeyHash := s_KeyHash r; s_KeyPlain := s_KeyPlain r; s_KeyHint := s_KeyHint r;
     s_MgmtKeyPlain := s_MgmtKeyPlain r; s_MgmtKeyHint := s_MgmtKeyHint r;
     s_AttachmentBaseURL := s_AttachmentBaseURL r; s_AgentVersion := s_AgentVersion r;
     s_AgentOS := s_AgentOS r; s_AgentArch := s_AgentArch r; s_Hostname := s_Hostname r;
     s_Capabilities := s_Capabilities r; s_LastSeenAt := s_LastSeenAt r;
     s_LastMetricsSeq := s_LastMetricsSeq r; s_LastEventSeq := s_LastEventSeq r;
     s_LastBootTime := s_LastBootTime r; s_LastSummary := s_LastSummary r;
     s_PrevSample := s_PrevSample r; s_DeletedAt := s_DeletedAt r;
     s_CreatedAt := s_CreatedAt r; s_UpdatedAt := v |}.

(* @src hub/types.go 180-199 messageRow *)
Record messageRow := {
  m_ID : string;
  m_SourceID : string;
  m_Kind : string;
  m_Severity : string;
  m_Title : string;
  m_Body : option string;
  m_OccurredAt : string;
  m_ReceivedAt : string;
  m_ReadAt : option string;
  m_FaultID : option string;
  m_Incident : option Z;
  m_Ref : option string;
  m_Attachments : list attachmentDesc;
  m_EventID : string;
  m_EventSeq : Z;
  m_FaultKey : option string;
  m_OutOfOrder : bool;
  m_ChangeSeq : Z }.

Definition set_m_ReadAt (v : option string) (r : messageRow) : messageRow :=
  {| m_ID := m_ID r; m_SourceID := m_SourceID r; m_Kind := m_Kind r;
     m_Severity := m_Severity r; m_Title := m_Title r; m_Body := m_Body r;
     m_OccurredAt := m_OccurredAt r; m_ReceivedAt := m_ReceivedAt r; m_ReadAt := v;
     m_FaultID := m_FaultID r; m_Incident := m_Incident r; m_Ref := m_Ref r;
     m_Attachments := m_Attachments r; m_EventID := m_EventID r; m_EventSeq := m_EventSeq r;
     m_FaultKey := m_FaultKey r; m_OutOfOrder := m_OutOfOrder r;
     m_ChangeSeq := m_ChangeSeq r |}.

Definition set_m_FaultID (v : option string) (r : messageRow) : messageRow :=
  {| m_ID := m_ID r; m_SourceID := m_SourceID r; m_Kind := m_Kind r;
     m_Severity := m_Severity r; m_Title := m_Title r; m_Body := m_Body r;
     m_OccurredAt := m_OccurredAt r; m_ReceivedAt := m_ReceivedAt r; m_ReadAt := m_ReadAt r;
     m_FaultID := v; m_Incident := m_Incident r; m_Ref := m_Ref r;
     m_Attachments := m_Attachments r; m_EventID := m_EventID r; m_EventSeq := m_EventSeq r;
     m_FaultKey := m_FaultKey r; m_OutOfOrder := m_OutOfOrder r;
     m_ChangeSeq := m_ChangeSeq r |}.

Definition set_m_Incident (v : option Z) (r : messageRow) : messageRow :=
  {| m_ID := m_ID r; m_SourceID := m_SourceID r; m_Kind := m_Kind r;
     m_Severity := m_Severity r; m_Title := m_Title r; m_Body := m_Body r;
     m_OccurredAt := m_OccurredAt r; m_ReceivedAt := m_ReceivedAt r; m_ReadAt := m_ReadAt r;
     m_FaultID := m_FaultID r; m_Incident := v; m_Ref := m_Ref r;
     m_Attachments := m_Attachments r; m_EventID := m_EventID r; m_EventSeq := m_EventSeq r;
     m_FaultKey := m_FaultKey r; m_OutOfOrder := m_OutOfOrder r;
     m_ChangeSeq := m_ChangeSeq r |}.

Definition set_m_ChangeSeq (v : Z) (r : messageRow) : messageRow :=
  {| m_ID := m_ID r; m_SourceID := m_SourceID r; m_Kind := m_Kind r;
     m_Severity := m_Severity r; m_Title := m_Title r; m_Body := m_Body r;
     m_OccurredAt := m_OccurredAt r; m_ReceivedAt := m_ReceivedAt r; m_ReadAt := m_ReadAt r;
     m_FaultID := m_FaultID r; m_Incident := m_Incident r; m_Ref := m_Ref r;
     m_Attachments := m_Attachments r; m_EventID := m_EventID r; m_EventSeq := m_EventSeq r;
     m_FaultKey := m_FaultKey r; m_OutOfOrder := m_OutOfOrder r; m_ChangeSeq := v |}.

(* @src hub/types.go 201-221 faultRow *)
Record faultRow := {
  f_ID : string;
  f_SourceID : string;
  f_FaultKey : string;
  f_Severity : string;
  f_Title : string;
  f_Summary : option string;
  f_State : string;
  f_Incident : Z;
  f_OpenedAt : string;
  f_OpenedBySeq : Z;
  f_LastEventAt : string;
  f_ResolvedAt : option string;
  f_ResolvedBySeq : option Z;
  f_ResolvedBy : option string;
  f_EventCount : Z;
  f_ReadAt : option string;
  f_MutedAt : option string;
  f_MutedUntil : option string;
  f_ChangeSeq : Z }.

Definition set_f_State (v : string) (r : faultRow) : faultRow :=
  {| f_ID := f_ID r; f_SourceID := f_SourceID r; f_FaultKey := f_FaultKey r;
     f_Severity := f_Severity r; f_Title := f_Title r; f_Summary := f_Summary r;
     f_State := v; f_Incident := f_Incident r; f_OpenedAt := f_OpenedAt r;
     f_OpenedBySeq := f_OpenedBySeq r; f_LastEventAt := f_LastEventAt r;
     f_ResolvedAt := f_ResolvedAt r; f_ResolvedBySeq := f_ResolvedBySeq r;
     f_ResolvedBy := f_ResolvedBy r; f_EventCount := f_EventCount r; f_ReadAt := f_ReadAt r;
     f_MutedAt := f_MutedAt r; f_MutedUntil := f_MutedUntil r; f_ChangeSeq := f_ChangeSeq r |}.

Definition set_f_ReadAt (v : option string) (r : faultRow) : faultRow :=
  {| f_ID := f_ID r; f_SourceID := f_SourceID r; f_FaultKey := f_FaultKey r;
     f_Severity := f_Severity r; f_Title := f_Title r; f_Summary := f_Summary r;
     f_State := f_State r; f_Incident := f_Incident r; f_OpenedAt := f_OpenedAt r;
     f_OpenedBySeq := f_OpenedBySeq r; f_LastEventAt := f_LastEventAt r;
     f_ResolvedAt := f_ResolvedAt r; f_ResolvedBySeq := f_ResolvedBySeq r;
     f_ResolvedBy := f_ResolvedBy r; f_EventCount := f_EventCount r; f_ReadAt := v;
     f_MutedAt := f_MutedAt r; f_MutedUntil := f_MutedUntil r; f_ChangeSeq := f_ChangeSeq r |}.

Definition set_f_MutedAt (v : option string) (r : faultRow) : faultRow :=
  {| f_ID := f_ID r; f_SourceID := f_SourceID r; f_FaultKey := f_FaultKey r;
     f_Severity := f_Severity r; f_Title := f_Title r; f_Summary := f_Summary r;
     f_State := f_State r; f_Incident := f_Incident r; f_OpenedAt := f_OpenedAt r;
     f_OpenedBySeq := f_OpenedBySeq r; f_LastEventAt := f_LastEventAt r;
     f_ResolvedAt := f_ResolvedAt r; f_ResolvedBySeq := f_ResolvedBySeq r;
     f_ResolvedBy := f_ResolvedBy r; f_EventCount := f_EventCount r; f_ReadAt := f_ReadAt r;
     f_MutedAt := v; f_MutedUntil := f_MutedUntil r; f_ChangeSeq := f_ChangeSeq r |}.

Definition set_f_MutedUntil (v : option string) (r : faultRow) : faultRow :=
  {| f_ID := f_ID r; f_SourceID := f_SourceID r; f_FaultKey := f_FaultKey r;
     f_Severity := f_Severity r; f_Title := f_Title r; f_Summary := f_Summary r;
     f_State := f_State r; f_Incident := f_Incident r; f_OpenedAt := f_OpenedAt r;
     f_OpenedBySeq := f_OpenedBySeq r; f_LastEventAt := f_LastEventAt r;
     f_ResolvedAt := f_ResolvedAt r; f_ResolvedBySeq := f_ResolvedBySeq r;
     f_ResolvedBy := f_ResolvedBy r; f_EventCount := f_EventCount r; f_ReadAt := f_ReadAt r;
     f_MutedAt := f_MutedAt r; f_MutedUntil := v; f_ChangeSeq := f_ChangeSeq r |}.

Definition set_f_ChangeSeq (v : Z) (r : faultRow) : faultRow :=
  {| f_ID := f_ID r; f_SourceID := f_SourceID r; f_FaultKey := f_FaultKey r;
     f_Severity := f_Severity r; f_Title := f_Title r; f_Summary := f_Summary r;
     f_State := f_State r; f_Incident := f_Incident r; f_OpenedAt := f_OpenedAt r;
     f_OpenedBySeq := f_OpenedBySeq r; f_LastEventAt := f_LastEventAt r;
     f_ResolvedAt := f_ResolvedAt r; f_ResolvedBySeq := f_ResolvedBySeq r;
     f_ResolvedBy := f_ResolvedBy r; f_EventCount := f_EventCount r; f_ReadAt := f_ReadAt r;
     f_MutedAt := f_MutedAt r; f_MutedUntil := f_MutedUntil r; f_ChangeSeq := v |}.

(* @src hub/db.go 74-91 !events *)
(** A row of [events]. *)
Record eventRow := {
  e_source_id : string;
  e_event_id : string;
  e_seq : Z;
  e_kind : string;
  e_occurred_at : string;
  e_severity : string;
  e_fault_key : option string;
  e_incident_action : option string;
  e_title : string;
  e_body : option string;
  e_ref_json : option string;
  e_attachments_json : list attachmentDesc;
  e_out_of_order : bool;
  e_internal : bool;
  e_received_at : string }.

(* @src hub/db.go 141-149 !pending_resolves *)
(** A row of [pending_resolves]. *)
Record pendingRow := {
  p_source_id : string;
  p_fault_key : string;
  p_seq : Z;
  p_occurred_at : string;
  p_title : string;
  p_event_id : string }.

(* @src hub/db.go 44-50 !metrics_samples *)
(** A row of [metrics_samples]. *)
Record sampleRow := {
  ms_source_id : string;
  ms_ts : string;
  ms_received_at : string;
  ms_sample_json : samplePayload }.

(* @src hub/db.go 52-59 !metrics_raw *)
(** A row of [metrics_raw]. *)
Record rawRow := {
  mr_source_id : string;
  mr_ts : string;
  mr_metric : string;
  mr_label : string;
  mr_value : float64 }.

(* @src hub/db.go 62-72 !metrics_5m *)
(** A row of [metrics_5m]. *)
Record rollRow := {
  m5_source_id : string;
  m5_bucket : string;
  m5_metric : string;
  m5_label : string;
  m5_avg : float64;
  m5_min : float64;
  m5_max : float64;
  m5_n : Z }.

(* @src hub/db.go 161-171 !sessions *)
(** A row of [sessions]. *)
Record sessionRow := {
  ss_id : string;
  ss_token_hash : string;
  ss_refresh_hash : string;
  ss_username : string;
  ss_device_label : option string;
  ss_created_at : string;
  ss_expires_at : string;
  ss_refresh_expires_at : string;
  ss_revoked : bool }.

Definition set_ss_token_hash (v : string) (r : sessionRow) : sessionRow :=
  {| ss_id := ss_id r; ss_token_hash := v; ss_refresh_hash := ss_refresh_hash r;
     ss_username := ss_username r; ss_device_label := ss_device_label r;
     ss_created_at := ss_created_at r; ss_expires_at := ss_expires_at r;
     ss_refresh_expires_at := ss_refresh_expires_at r; ss_revoked := ss_revoked r |}.

Definition set_ss_refresh_hash (v : string) (r : sessionRow) : sessionRow :=
  {| ss_id := ss_id r; ss_token_hash := ss_token_hash r; ss_refresh_hash := v;
     ss_username := ss_username r; ss_device_label := ss_device_label r;
     ss_created_at := ss_created_at r; ss_expires_at := ss_expires_at r;
     ss_refresh_expires_at := ss_refresh_expires_at r; ss_revoked := ss_revoked r |}.

Definition set_ss_expires_at (v : string) (r : sessionRow) : sessionRow :=
  {| ss_id := ss_id r; ss_token_hash := ss_token_hash r;
     ss_refresh_hash := ss_refresh_hash r; ss_username := ss_username r;
     ss_device_label := ss_device_label r; ss_created_at := ss_created_at r;
     ss_expires_at := v; ss_refresh_expires_at := ss_refresh_expires_at r;
     ss_revoked := ss_revoked r |}.

Definition set_ss_refresh_expires_at (v : string) (r : sessionRow) : sessionRow :=
  {| ss_id := ss_id r; ss_token_hash := ss_token_hash r;
     ss_refresh_hash := ss_refresh_hash r; ss_username := ss_username r;
     ss_device_label := ss_device_label r; ss_created_at := ss_created_at r;
     ss_expires_at := ss_expires_at r; ss_refresh_expires_at := v;
     ss_revoked := ss_revoked r |}.

Definition set_ss_revoked (v : bool) (r : sessionRow) : sessionRow :=
  {| ss_id := ss_id r; ss_token_hash := ss_token_hash r;
     ss_refresh_hash := ss_refresh_hash r; ss_username := ss_username r;
     ss_device_label := ss_device_label r; ss_created_at := ss_created_at r;
     ss_expires_at := ss_expires_at r; ss_refresh_expires_at := ss_refresh_expires_at r;
     ss_revoked := v |}.

(** ** Objects for the clients *)

(* @src hub/types.go 225-230 notifyBlock *)
Record notifyBlock := {
  nb_Kind : string;
  nb_FaultID : option string;
  nb_Muted : bool }.

(* @src hub/types.go 232-250 messageJSON *)
Record messageJSON := {
  mj_ID : string;
  mj_ChangeSeq : Z;
  mj_SourceID : string;
  mj_SourceName : string;
  mj_Kind : string;
  mj_Severity : string;
  mj_Title : string;
  mj_Body : option string;
  mj_OccurredAt : string;
  mj_ReceivedAt : string;
  mj_ReadAt : option string;
  mj_FaultID : option string;
  mj_Incident : option Z;
  mj_Ref : option string;
  mj_Attachments : list attachmentDesc;
  mj_Notify : option notifyBlock }.

Definition set_mj_ChangeSeq (v : Z) (r : messageJSON) : messageJSON :=
  {| mj_ID := mj_ID r; mj_ChangeSeq := v; mj_SourceID := mj_SourceID r;
     mj_SourceName := mj_SourceName r; mj_Kind := mj_Kind r; mj_Severity := mj_Severity r;
     mj_Title := mj_Title r; mj_Body := mj_Body r; mj_OccurredAt := mj_OccurredAt r;
     mj_ReceivedAt := mj_ReceivedAt r; mj_ReadAt := mj_ReadAt r; mj_FaultID := mj_FaultID r;
     mj_Incident := mj_Incident r; mj_Ref := mj_Ref r; mj_Attachments := mj_Attachments r;
     mj_Notify := mj_Notify r |}.

Definition set_mj_Notify (v : option notifyBlock) (r : messageJSON) : messageJSON :=
  {| mj_ID := mj_ID r; mj_ChangeSeq := mj_ChangeSeq r; mj_SourceID := mj_SourceID r;
     mj_SourceName := mj_SourceName r; mj_Kind := mj_Kind r; mj_Severity := mj_Severity r;
     mj_Title := mj_Title r; mj_Body := mj_Body r; mj_OccurredAt := mj_OccurredAt r;
     mj_ReceivedAt := mj_ReceivedAt r; mj_ReadAt := mj_ReadAt r; mj_FaultID := mj_FaultID r;
     mj_Incident := mj_Incident r; mj_Ref := mj_Ref r; mj_Attachments := mj_Attachments r;
     mj_Notify := v |}.

(* @src hub/types.go 252-272 faultJSON *)
Record faultJSON := {
  fj_ID : string;
  fj_ChangeSeq : Z;
  fj_SourceID : string;
  fj_SourceName : string;
  fj_FaultKey : string;
  fj_Severity : string;
  fj_Title : string;
  fj_Summary : option string;
  fj_State : string;
  fj_Incident : Z;
  fj_OpenedAt : string;
  fj_LastEventAt : string;
  fj_ResolvedAt : option string;
  fj_ResolvedBy : option string;
  fj_EventCount : Z;
  fj_ReadAt : option string;
  fj_MutedAt : option string;
  fj_MutedUntil : option string }.

Definition set_fj_ChangeSeq (v : Z) (r : faultJSON) : faultJSON :=
  {| fj_ID := fj_ID r; fj_ChangeSeq := v; fj_SourceID := fj_SourceID r;
     fj_SourceName := fj_SourceName r; fj_FaultKey := fj_FaultKey r;
     fj_Severity := fj_Severity r; fj_Title := fj_Title r; fj_Summary := fj_Summary r;
     fj_State := fj_State r; fj_Incident := fj_Incident r; fj_OpenedAt := fj_OpenedAt r;
     fj_LastEventAt := fj_LastEventAt r; fj_ResolvedAt := fj_ResolvedAt r;
     fj_ResolvedBy := fj_ResolvedBy r; fj_EventCount := fj_EventCount r;
     fj_ReadAt := fj_ReadAt r; fj_MutedAt := fj_MutedAt r; fj_MutedUntil := fj_MutedUntil r |}.

(* @src hub/types.go 274-293 sourceJSON *)
Record sourceJSON := {
  sj_ID : string;
  sj_Name : string;
  sj_Kind : string;
  sj_Enabled : bool;
  sj_Status : string;
  sj_LastSeenAt : option string;
  sj_KeyHint : string;
  sj_MgmtKeyHint : option string;
  sj_AttachmentBaseURL : option string;
  sj_AgentVersion : option string;
  sj_Hostname : option string;
  sj_Capabilities : gmap string string;
  sj_InstallHint : option string;
  sj_Summary : option summaryJSON;
  sj_CreatedAt : string;
  sj_UpdatedAt : string }.

(** The objects a change can carry. *)
Inductive change_data :=
| DMessage (m : messageJSON)
| DFault (f : faultJSON)
| DSource (s : sourceJSON)
| DRules (d : rulesDoc)
| DSettings (d : settingsDoc)
| DTombstone (typ id : string).

(* @src hub/types.go 295-302 changeEntry *)
Record changeEntry := {
  ce_Seq : Z;
  ce_Type : string;
  ce_Data : change_data;
  ce_Notify : option notifyBlock }.

(* @src hub/db.go 151-158 !changes *)
(** A row of [changes]. *)
Record changeRow := {
  ch_seq : Z;
  ch_type : string;
  ch_ref_id : string;
  ch_data : change_data;
  ch_notify : option notifyBlock;
  ch_created_at : string }.

(** ** The database *)

(* @src hub/db.go 10-188 !schema *)
(** The tables of the schema; [rules] and [settings] hold at most one row (id 1). *)
Record db := {
  d_meta : gmap string Z;
  d_sources : list sourceRow;
  d_samples : list sampleRow;
  d_raw : list rawRow;
  d_5m : list rollRow;
  d_events : list eventRow;
  d_messages : list messageRow;
  d_faults : list faultRow;
  d_pending : list pendingRow;
  d_changes : list changeRow;
  d_sessions : list sessionRow;
  d_rules : option rulesDoc;
  d_settings : option settingsDoc }.

Definition set_d_meta (v : gmap string Z) (r : db) : db :=
  {| d_meta := v; d_sources := d_sources r; d_samples := d_samples r; d_raw := d_raw r;
     d_5m := d_5m r; d_events := d_events r; d_messages := d_messages r;
     d_faults := d_faults r; d_pending := d_pending r; d_changes := d_changes r;
     d_sessions := d_sessions r; d_rules := d_rules r; d_settings := d_settings r |}.

Definition set_d_sources (v : list sourceRow) (r : db) : db :=
  {| d_meta := d_meta r; d_sources := v; d_samples := d_samples r; d_raw := d_raw r;
     d_5m := d_5m r; d_events := d_events r; d_messages := d_messages r;
     d_faults := d_faults r; d_pending := d_pending r; d_changes := d_changes r;
     d_sessions := d_sessions r; d_rules := d_rules r; d_settings := d_settings r |}.

Definition set_d_samples (v : list sampleRow) (r : db) : db :=
  {| d_meta := d_meta r; d_sources := d_sources r; d_samples := v; d_raw := d_raw r;
     d_5m := d_5m r; d_events := d_events r; d_messages := d_messages r;
     d_faults := d_faults r; d_pending := d_pending r; d_changes := d_changes r;
     d_sessions := d_sessions r; d_rules := d_rules r; d_settings := d_settings r |}.

Definition set_d_raw (v : list rawRow) (r : db) : db :=
  {| d_meta := d_meta r; d_sources := d_sources r; d_samples := d_samples r; d_raw := v;
     d_5m := d_5m r; d_events := d_events r; d_messages := d_messages r;
     d_faults := d_faults r; d_pending := d_pending r; d_changes := d_changes r;
     d_sessions := d_sessions r; d_rules := d_rules r; d_settings := d_settings r |}.

Definition set_d_5m (v : list rollRow) (r : db) : db :=
  {| d_meta := d_meta r; d_sources := d_sources r; d_samples := d_samples r;
     d_raw := d_raw r; d_5m := v; d_events := d_events r; d_messages := d_messages r;
     d_faults := d_faults r; d_pending := d_pending r; d_changes := d_changes r;
     d_sessions := d_sessions r; d_rules := d_rules r; d_settings := d_settings r |}.

Definition set_d_events (v : list eventRow) (r : db) : db :=
  {| d_meta := d_meta r; d_sources := d_sources r; d_samples := d_samples r;
     d_raw := d_raw r; d_5m := d_5m r; d_events := v; d_messages := d_messages r;
     d_faults := d_faults r; d_pending := d_pending r; d_changes := d_changes r;
     d_sessions := d_sessions r; d_rules := d_rules r; d_settings := d_settings r |}.

Definition set_d_messages (v : list messageRow) (r : db) : db :=
  {| d_meta := d_meta r; d_sources := d_sources r; d_samples := d_samples r;
     d_raw := d_raw r; d_5m := d_5m r; d_events := d_events r; d_messages := v;
     d_faults := d_faults r; d_pending := d_pending r; d_changes := d_changes r;
     d_sessions := d_sessions r; d_rules := d_rules r; d_settings := d_settings r |}.

Definition set_d_faults (v : list faultRow) (r : db) : db :=
  {| d_meta := d_meta r; d_sources := d_sources r; d_samples := d_samples r;
     d_raw := d_raw r; d_5m := d_5m r; d_events := d_events r; d_messages := d_messages r;
     d_faults := v; d_pending := d_pending r; d_changes := d_changes r;
     d_sessions := d_sessions r; d_rules := d_rules r; d_settings := d_settings r |}.

Definition set_d_pending (v : list pendingRow) (r : db) : db :=
  {| d_meta := d_meta r; d_sources := d_sources r; d_samples := d_samples r;
     d_raw := d_raw r; d_5m := d_5m r; d_events := d_events r; d_messages := d_messages r;
     d_faults := d_faults r; d_pending := v; d_changes := d_changes r;
     d_sessions := d_sessions r; d_rules := d_rules r; d_settings := d_settings r |}.

Definition set_d_changes (v : list changeRow) (r : db) : db :=
  {| d_meta := d_meta r; d_sources := d_sources r; d_samples := d_samples r;
     d_raw := d_raw r; d_5m := d_5m r; d_events := d_events r; d_messages := d_messages r;
     d_faults := d_faults r; d_pending := d_pending r; d_changes := v;
     d_sessions := d_sessions r; d_rules := d_rules r; d_settings := d_settings r |}.

Definition set_d_sessions (v : list sessionRow) (r : db) : db :=
  {| d_meta := d_meta r; d_sources := d_sources r; d_samples := d_samples r;
     d_raw := d_raw r; d_5m := d_5m r; d_events := d_events r; d_messages := d_messages r;
     d_faults := d_faults r; d_pending := d_pending r; d_changes := d_changes r;
     d_sessions := v; d_rules := d_rules r; d_settings := d_settings r |}.

Definition set_d_rules (v : option rulesDoc) (r : db) : db :=
  {| d_meta := d_meta r; d_sources := d_sources r; d_samples := d_samples r;
     d_raw := d_raw r; d_5m := d_5m r; d_events := d_events r; d_messages := d_messages r;
     d_faults := d_faults r; d_pending := d_pending r; d_changes := d_changes r;
     d_sessions := d_sessions r; d_rules := v; d_settings := d_settings r |}.

Definition set_d_settings (v : option settingsDoc) (r : db) : db :=
  {| d_meta := d_meta r; d_sources := d_sources r; d_samples := d_samples r;
     d_raw := d_raw r; d_5m := d_5m r; d_events := d_events r; d_messages := d_messages r;
     d_faults := d_faults r; d_pending := d_pending r; d_changes := d_changes r;
     d_sessions := d_sessions r; d_rules := d_rules r; d_settings := v |}.

Definition empty_db : db :=
  {| d_meta := ∅; d_sources := []; d_samples := []; d_raw := []; d_5m := []; d_events := [];
     d_messages := []; d_faults := []; d_pending := []; d_changes := []; d_sessions := [];
     d_rules := None; d_settings := None |}.

(** Primary keys and the one other uniqueness constraint. *)
#[export] Instance source_key : Keyed string sourceRow := s_ID.
#[export] Instance message_key : Keyed string messageRow := m_ID.
#[export] Instance fault_key : Keyed string faultRow := f_ID.
#[export] Instance event_key : Keyed (string * string) eventRow := λ e, (e_source_id e, e_event_id e).
#[export] Instance pending_key : Keyed (string * string * Z) pendingRow :=
  λ p, (p_source_id p, p_fault_key p, p_seq p).
#[export] Instance sample_key : Keyed (string * string) sampleRow := λ r, (ms_source_id r, ms_ts r).
#[export] Instance raw_key : Keyed (string * string * string * string) rawRow :=
  λ r, (mr_source_id r, mr_ts r, mr_metric r, mr_label r).
#[export] Instance roll_key : Keyed (string * string * string * string) rollRow :=
  λ r, (m5_source_id r, m5_bucket r, m5_metric r, m5_label r).
#[export] Instance change_key : Keyed Z changeRow := ch_seq.
#[export] Instance session_key : Keyed string sessionRow := ss_id.

(** [UNIQUE (source_id, fault_key)] *)
Definition fault_slot (f : faultRow) : string * string := (f_SourceID f, f_FaultKey f).
