(* ===== verification/HubStore.v ===== *)
(** The hub's store ([hub/store.go], [hub/util.go], the broker of [hub/sse.go]): the world a
    handler runs in, transactions, change sequence numbers and the change log, the objects
    built from rows, rules and settings, and the publication of committed changes.

    A transaction works on its own copy of the tables, which a commit makes the committed
    one; queries outside it ([st.db]) see the committed tables.  What is not in the database
    (the rule engine's timers, the subscribers' buffers) is not rolled back. *)

From S2P Require Import Prelude GoBase GoTime HubTypes.
From Stdlib Require Import Ascii.
Local Open Scope Z_scope.

(** What the hub cannot control: its clock, which database calls fail, after how many rows the
    iteration over the result of a query breaks off, the ULIDs ([ulid.Make().String()]) and
    the random bytes it is given. *)
Class HubEnv := {
  h_now : nat → Z;
  h_io : nat → bool;
  h_rows : nat → option nat;
  h_ulid : nat → string;
  h_rand : nat → list N }.

(** The rows an iteration delivers, and that every iteration delivers all of them. *)
Definition cut_rows {A} (n : option nat) (l : list A) : list A := match n with Some n => take n l | None => l end.
Definition whole_rows `{HE : HubEnv} : Prop := ∀ n, h_rows n = None.

(** Errors of a handler's body. *)
Inductive herr :=
| EIO            (* the database call failed *)
| EConstraint    (* a uniqueness constraint *)
| ENoRows        (* sql.ErrNoRows *)
| EBusy          (* a write outside the transaction that holds the lock *)
| EAction (a : string)   (* unknown incidentAction *)
| EConflict (version : Z)   (* an optimistic version check: the version on record *)
| EInvalid (msg : string)   (* an invalid request *)
| EDecode.       (* a column that does not scan or unmarshal *)

(* @src hub/rules.go 11-16 ruleKey *)
(** Source, rule and label selector. *)
Definition ruleKey : Type := string * string * string.

(* @src hub/rules.go 18-24 ruleState *)
Record ruleState := {
  rs_breach : bool;
  rs_breachSince : Z;
  rs_recovering : bool;
  rs_recoverSince : Z }.

(* @src hub/sse.go 12-16 broker *)
(** The subscribers' channels, each the entries buffered in it. *)
Record broker := { br_next : nat; br_subs : gmap nat (list changeEntry) }.

(* @src hub/store.go 13-19 store *)
(** [w_db]: the committed tables; [w_tx]: those of the transaction under way; [w_re]: the rule
    engine's [states]; the counters say how much of the environment was consumed. *)
Record World := {
  w_db : db;
  w_tx : option db;
  w_re : gmap ruleKey ruleState;
  w_broker : broker;
  w_ticks : nat;
  w_ids : nat;
  w_rands : nat;
  w_calls : nat }.

Definition wset_db (v : db) (w : World) : World :=
  {| w_db := v; w_tx := w_tx w; w_re := w_re w; w_broker := w_broker w; w_ticks := w_ticks w;
     w_ids := w_ids w; w_rands := w_rands w; w_calls := w_calls w |}.
Definition wset_tx (v : option db) (w : World) : World :=
  {| w_db := w_db w; w_tx := v; w_re := w_re w; w_broker := w_broker w; w_ticks := w_ticks w;
     w_ids := w_ids w; w_rands := w_rands w; w_calls := w_calls w |}.
Definition wset_re (v : gmap ruleKey ruleState) (w : World) : World :=
  {| w_db := w_db w; w_tx := w_tx w; w_re := v; w_broker := w_broker w; w_ticks := w_ticks w;
     w_ids := w_ids w; w_rands := w_rands w; w_calls := w_calls w |}.
Definition wset_broker (v : broker) (w : World) : World :=
  {| w_db := w_db w; w_tx := w_tx w; w_re := w_re w; w_broker := v; w_ticks := w_ticks w;
     w_ids := w_ids w; w_rands := w_rands w; w_calls := w_calls w |}.
Definition wset_ticks (v : nat) (w : World) : World :=
  {| w_db := w_db w; w_tx := w_tx w; w_re := w_re w; w_broker := w_broker w; w_ticks := v;
     w_ids := w_ids w; w_rands := w_rands w; w_calls := w_calls w |}.
Definition wset_ids (v : nat) (w : World) : World :=
  {| w_db := w_db w; w_tx := w_tx w; w_re := w_re w; w_broker := w_broker w; w_ticks := w_ticks w;
     w_ids := v; w_rands := w_rands w; w_calls := w_calls w |}.
Definition wset_rands (v : nat) (w : World) : World :=
  {| w_db := w_db w; w_tx := w_tx w; w_re := w_re w; w_broker := w_broker w; w_ticks := w_ticks w;
     w_ids := w_ids w; w_rands := v; w_calls := w_calls w |}.
Definition wset_calls (v : nat) (w : World) : World :=
  {| w_db := w_db w; w_tx := w_tx w; w_re := w_re w; w_broker := w_broker w; w_ticks := w_ticks w;
     w_ids := w_ids w; w_rands := w_rands w; w_calls := v |}.

(* @src hub/api.go 14-32 config *)
(** The hub's configuration; durations in nanoseconds. *)
Record config := {
  cfg_bind : string;
  cfg_dbPath : string;
  cfg_adminUser : string;
  cfg_adminPassword : string;
  cfg_baseURL : string;
  cfg_rawDays : Z;
  cfg_rollupDays : Z;
  cfg_messagesDays : Z;
  cfg_changesDays : Z;
  cfg_changesMinSeq : Z;
  cfg_heartbeatInterval : Z;
  cfg_rollupInterval : Z;
  cfg_retentionInterval : Z;
  cfg_agentVersion : string;
  cfg_agentCacheDir : string;
  cfg_agentCacheMaxBytes : Z }.

(* @src hub/sse.go 18-20 newBroker *)
Definition newBroker : broker := {| br_next := 0; br_subs := ∅ |}.

(** A world around given tables. *)
Definition world_of (d : db) : World :=
  {| w_db := d; w_tx := None; w_re := ∅; w_broker := newBroker; w_ticks := 0; w_ids := 0;
     w_rands := 0; w_calls := 0 |}.

(* @src hub/sse.go 22-33 Subscribe *)
Definition Subscribe (b : broker) : nat * broker :=
  (br_next b, {| br_next := S (br_next b); br_subs := <[br_next b := []]> (br_subs b) |}).

(** The function [Subscribe] returns. *)
Definition Unsubscribe (ch : nat) (b : broker) : broker :=
  {| br_next := br_next b; br_subs := delete ch (br_subs b) |}.

(** A non-blocking send into a buffer of 256. *)
Definition try_send (e : changeEntry) (buf : list changeEntry) : list changeEntry :=
  if decide (length buf < 256)%nat then buf ++ [e] else buf.

(* @src hub/sse.go 35-45 Publish *)
Definition Publish (e : changeEntry) (b : broker) : broker :=
  {| br_next := br_next b; br_subs := try_send e <$> br_subs b |}.

(* @src hub/util.go 178-190 sevRank *)
Definition sevRank (s : string) : Z :=
  if decide (s = "critical") then 3 else if decide (s = "warning") then 2
  else if decide (s = "info") then 1 else 0.

(* @src hub/util.go 192-198 maxSev *)
Definition maxSev (a b : string) : string := if decide (sevRank a < sevRank b) then b else a.

(* @src hub/util.go 75-82 hintTail *)
Definition hintTail (s : string) : string :=
  let rs := runes s in
  concat_str (if decide (4 < Z.of_nat (length rs)) then drop (length rs - 4) rs else rs).

(* @src hub/ingest.go 392-398 nullStr *)
Definition nullStr (s : string) : option string := if decide (s = EmptyString) then None else Some s.

(** ** Answers *)

(** What a handler writes: a status with a JSON body, or the error envelope. *)
Inductive reply (B : Type) :=
| Reply (status : Z) (body : B)
| Fail (status : Z) (code msg : string).
Arguments Reply {B} status body.
Arguments Fail {B} status code msg.

(** The status an answer has on the wire. *)
Definition status_of {B} (r : reply B) : Z := match r with Reply st _ | Fail st _ _ => st end.

(* @src hub/util.go 101-103 errInvalid *)
Definition errInvalid {B} (msg : string) : reply B := Fail 400 "invalid_request" msg.
(* @src hub/util.go 104-106 errUnauthorized *)
Definition errUnauthorized {B} (msg : string) : reply B := Fail 401 "unauthorized" msg.
(* @src hub/util.go 107-109 errForbidden *)
Definition errForbidden {B} (code msg : string) : reply B := Fail 403 code msg.
(* @src hub/util.go 110-112 errNotFound *)
Definition errNotFound {B} : reply B := Fail 404 "not_found" "对象不存在".
(* @src hub/util.go 113-115 errConflict *)
Definition errConflict {B} (code msg : string) : reply B := Fail 409 code msg.
(* @src hub/util.go 116-118 errInternal *)
Definition errInternal {B} : reply B := Fail 500 "internal" "内部错误".

Section store.
Context `{HE : HubEnv}.
Notation HM := (stM World herr).

(* @src hub/util.go 25-25 nowUTC *)
Definition nowUTC : HM Z := λ w, (Ok (h_now (w_ticks w)), wset_ticks (S (w_ticks w)) w).

(* @src hub/util.go 60-63 newID *)
Definition newID (prefix : string) : HM string := λ w,
  (Ok (prefix +:+ h_ulid (w_ids w))%string, wset_ids (S (w_ids w)) w).

(* @src hub/util.go 65-72 randToken *)
Definition randToken (prefix : string) : HM string := λ w,
  (Ok (prefix +:+ hex_string (h_rand (w_rands w)))%string, wset_rands (S (w_rands w)) w).

(** ** Database calls *)

(** A statement inside the transaction. *)
Definition tx_call {A} (f : db → outcome herr (A * db)) : HM A := λ w,
  let w' := wset_calls (S (w_calls w)) w in
  match w_tx w with
  | None => (Err EIO, w')
  | Some d =>
    if h_io (w_calls w) then (Err EIO, w')
    else match f d with
         | Ok (a, d') => (Ok a, wset_tx (Some d') w')
         | Err e => (Err e, w')
         end
  end.

Definition tx_query {A} (f : db → A) : HM A := tx_call (λ d, Ok (f d, d)).
Definition tx_exec (f : db → db) : HM () := tx_call (λ d, Ok ((), f d)).

(** [for rows.Next() { ... }] without asking [rows.Err()] after it: an iteration that breaks off
    is taken for the end of the rows. *)
Definition tx_rows {A} (f : db → list A) : HM (list A) := λ w, tx_query (λ d, cut_rows (h_rows (w_calls w)) (f d)) w.

(** An [INSERT] that a uniqueness constraint may refuse. *)
Definition tx_insert (f : db → option db) : HM () :=
  tx_call (λ d, match f d with Some d' => Ok ((), d') | None => Err EConstraint end).

(** [QueryRow(...).Scan(...)]: no row is an error. *)
Definition tx_row {A} (f : db → option A) : HM A :=
  tx_call (λ d, match f d with Some a => Ok (a, d) | None => Err ENoRows end).

(** A statement outside the transaction, on the committed tables. *)
Definition db_call {A} (f : db → outcome herr (A * db)) : HM A := λ w,
  let w' := wset_calls (S (w_calls w)) w in
  if h_io (w_calls w) then (Err EIO, w')
  else match f (w_db w) with
       | Ok (a, d') => (Ok a, wset_db d' w')
       | Err e => (Err e, w')
       end.

Definition db_query {A} (f : db → A) : HM A := db_call (λ d, Ok (f d, d)).
Definition db_rows {A} (f : db → list A) : HM (list A) := λ w, db_query (λ d, cut_rows (h_rows (w_calls w)) (f d)) w.
Definition db_row {A} (f : db → option A) : HM A :=
  db_call (λ d, match f d with Some a => Ok (a, d) | None => Err ENoRows end).

(** A write outside the transaction: refused while one holds the write lock. *)
Definition db_exec (f : db → db) : HM () := λ w,
  match w_tx w with
  | Some _ => (Err EBusy, wset_calls (S (w_calls w)) w)
  | None => db_call (λ d, Ok ((), f d)) w
  end.

(* @src hub/store.go 455-471 withTx *)
Definition withTx {A} (fn : HM A) : HM A := λ w,
  let w0 := wset_calls (S (w_calls w)) w in
  if h_io (w_calls w) then (Err EIO, w0)                       (* BeginTx *)
  else
    let '(r, w1) := fn (wset_tx (Some (w_db w)) w0) in
    match r with
    | Err e => (Err e, wset_tx None w1)                        (* Rollback *)
    | Ok a =>
      let w2 := wset_tx None (wset_calls (S (w_calls w1)) w1) in
      if h_io (w_calls w1) then (Err EIO, w2)                  (* Commit *)
      else match w_tx w1 with
           | Some d => (Ok a, wset_db d w2)
           | None => (Err EIO, w2)
           end
    end.

(* @src hub/store.go 445-453 publish *)
Definition publish (entries : list changeEntry) : HM () :=
  st_modify (λ w, wset_broker (foldl (λ b e, Publish e b) (w_broker w) entries) w).

(** ** Change sequence numbers and the change log *)

(* @src hub/store.go 25-40 nextChangeSeq *)
Definition nextChangeSeq : HM Z :=
  seq ← tx_call (λ d,
    match d_meta d !! "change_seq"%string with
    | Some v => Ok (Some (v + 1), set_d_meta (<["change_seq"%string := v + 1]> (d_meta d)) d)
    | None => Ok (None, d)
    end);
  match seq with
  | Some seq => mret seq
  | None => tx_call (λ d, Ok (1, set_d_meta (<["change_seq"%string := 1]> (d_meta d)) d))
  end.

(** [INSERT INTO changes]: [seq] is the primary key. *)
Definition insert_change_row (row : changeRow) : HM () :=
  tx_insert (λ d, (λ l, set_d_changes l d) <$> tbl_insert row (d_changes d)).

(* @src hub/store.go 42-63 insertChange *)
Definition insertChange (typ refID : string) (data : change_data) (notify : option notifyBlock)
    : HM changeEntry :=
  seq ← nextChangeSeq;
  now ← nowUTC;
  insert_change_row {| ch_seq := seq; ch_type := typ; ch_ref_id := refID; ch_data := data;
                       ch_notify := notify; ch_created_at := fmtTS now |} ;;
  mret {| ce_Seq := seq; ce_Type := typ; ce_Data := data; ce_Notify := notify |}.

(* @src hub/store.go 65-91 insertChangeObj *)
(** [obj seq] is the object after [setSeq(seq)]. *)
Definition insertChangeObj (typ refID : string) (obj : Z → change_data)
    (notify : option notifyBlock) : HM changeEntry :=
  seq ← nextChangeSeq;
  now ← nowUTC;
  insert_change_row {| ch_seq := seq; ch_type := typ; ch_ref_id := refID; ch_data := obj seq;
                       ch_notify := notify; ch_created_at := fmtTS now |} ;;
  mret {| ce_Seq := seq; ce_Type := typ; ce_Data := obj seq; ce_Notify := notify |}.

(** ** Rows to objects *)

(* @src hub/store.go 95-134 toMessageJSON *)
Definition toMessageJSON (m : messageRow) (sourceName : string) : messageJSON :=
  {| mj_ID := m_ID m; mj_ChangeSeq := m_ChangeSeq m; mj_SourceID := m_SourceID m;
     mj_SourceName := sourceName; mj_Kind := m_Kind m; mj_Severity := m_Severity m;
     mj_Title := m_Title m; mj_Body := m_Body m; mj_OccurredAt := m_OccurredAt m;
     mj_ReceivedAt := m_ReceivedAt m; mj_ReadAt := m_ReadAt m; mj_FaultID := m_FaultID m;
     mj_Incident := m_Incident m;
     mj_Ref := match m_Ref m with Some r => nullStr r | None => None end;
     mj_Attachments := m_Attachments m; mj_Notify := None |}.

(* @src hub/store.go 136-172 toFaultJSON *)
Definition toFaultJSON (f : faultRow) (sourceName : string) : faultJSON :=
  {| fj_ID := f_ID f; fj_ChangeSeq := f_ChangeSeq f; fj_SourceID := f_SourceID f;
     fj_SourceName := sourceName; fj_FaultKey := f_FaultKey f; fj_Severity := f_Severity f;
     fj_Title := f_Title f; fj_Summary := f_Summary f; fj_State := f_State f;
     fj_Incident := f_Incident f; fj_OpenedAt := f_OpenedAt f; fj_LastEventAt := f_LastEventAt f;
     fj_ResolvedAt := f_ResolvedAt f; fj_ResolvedBy := f_ResolvedBy f;
     fj_EventCount := f_EventCount f; fj_ReadAt := f_ReadAt f; fj_MutedAt := f_MutedAt f;
     fj_MutedUntil := f_MutedUntil f |}.

(* @src hub/store.go 174-226 toSourceJSON *)
(** [now] is the clock [time.Since] reads. *)
Definition toSourceJSON (s : sourceRow) (heartbeatSeconds now : Z) : sourceJSON :=
  {| sj_ID := s_ID s; sj_Name := s_Name s; sj_Kind := s_Kind s; sj_Enabled := s_Enabled s;
     sj_Status :=
       if s_Enabled s && bool_decide (s_Kind s = "feedback") then "online"
       else match s_LastSeenAt s with
            | Some seen =>
              if s_Enabled s && bool_decide (s_Kind s = "device") then
                match parseTS seen with
                | Some t => if decide (time_sub now t <= duration_mul heartbeatSeconds Second)
                            then "online" else "offline"
                | None => "offline"
                end
              else "offline"
            | None => "offline"
            end;
     sj_LastSeenAt := s_LastSeenAt s; sj_KeyHint := s_KeyHint s;
     sj_MgmtKeyHint := nullStr (s_MgmtKeyHint s); sj_AttachmentBaseURL := s_AttachmentBaseURL s;
     sj_AgentVersion := s_AgentVersion s; sj_Hostname := s_Hostname s;
     sj_Capabilities := default ∅ (s_Capabilities s); sj_InstallHint := None;
     sj_Summary := s_LastSummary s; sj_CreatedAt := s_CreatedAt s; sj_UpdatedAt := s_UpdatedAt s |}%string.

(** ** Loading rows *)

(* @src hub/store.go 255-258 loadSource *)
Definition loadSource (id : string) : HM sourceRow := db_row (λ d, tbl_lookup id (d_sources d)).

(* @src hub/store.go 260-263 loadSourceByKeyHash *)
Definition loadSourceByKeyHash (hash : string) : HM sourceRow :=
  db_row (λ d, head (filter (λ s, s_KeyHash s = hash ∧ s_DeletedAt s = None) (d_sources d))).

(** [ORDER BY created_at, id] *)
Definition source_order (a b : sourceRow) : Prop :=
  str_lt (s_CreatedAt a) (s_CreatedAt b) ∨ (s_CreatedAt a = s_CreatedAt b ∧ str_le (s_ID a) (s_ID b)).
#[export] Instance source_order_dec a b : Decision (source_order a b).
Proof. unfold source_order. apply _. Defined.

(* @src hub/store.go 265-281 listSources *)
Definition listSources : HM (list sourceRow) :=
  db_query (λ d, merge_sort source_order (filter (λ s, s_DeletedAt s = None) (d_sources d))).

(* @src hub/ingest.go 14-18 loadSourceTx *)
Definition loadSourceTx (id : string) : HM sourceRow := tx_row (λ d, tbl_lookup id (d_sources d)).

(* @src hub/store.go 299-302 loadMessage *)
Definition loadMessage (id : string) : HM messageRow := db_row (λ d, tbl_lookup id (d_messages d)).

(* @src hub/store.go 319-322 loadFault *)
Definition loadFault (id : string) : HM faultRow := db_row (λ d, tbl_lookup id (d_faults d)).

(** [SELECT ... FROM faults WHERE source_id=? AND fault_key=?] *)
Definition find_fault (sourceID faultKey : string) (d : db) : option faultRow :=
  head (filter (λ f, f_SourceID f = sourceID ∧ f_FaultKey f = faultKey) (d_faults d)).

(* @src hub/store.go 324-332 loadFaultTx *)
Definition loadFaultTx (sourceID faultKey : string) : HM (option faultRow) :=
  tx_query (find_fault sourceID faultKey).

(* @src hub/store.go 334-341 sourceName *)
Definition sourceName (id : string) : HM string :=
  r ← st_try (db_row (λ d, tbl_lookup id (d_sources d)));
  mret match r with Ok s => s_Name s | Err _ => EmptyString end.

(** ** Rules and settings *)

(* @src hub/store.go 345-365 defaultRules *)
Definition defaultRules : list rule :=
  let thr id metric label rv rfs fs :=
    {| rl_ID := id; rl_Kind := "threshold"; rl_Metric := metric; rl_Label := label; rl_Op := "gt";
       rl_Value := Some (f64_of_Z 90); rl_ForSeconds := fs; rl_RecoverValue := Some (f64_of_Z rv);
       rl_RecoverForSeconds := rfs; rl_Match := None; rl_Severity := "warning"; rl_Enabled := true |} in
  let other id kind match_ sev :=
    {| rl_ID := id; rl_Kind := kind; rl_Metric := ""; rl_Label := None; rl_Op := "";
       rl_Value := None; rl_ForSeconds := 0; rl_RecoverValue := None; rl_RecoverForSeconds := 0;
       rl_Match := match_; rl_Severity := sev; rl_Enabled := true |} in
  [thr "cpu_high" "cpu_percent" None 75 60 180;
   thr "mem_high" "mem_percent" None 80 60 180;
   thr "disk_high" "disk_percent" (Some "*") 85 60 60;
   other "container_exit" "container_exit" (Some "*") "warning";
   other "smart_failing" "smart" None "critical";
   other "pool_error" "pool" None "critical"]%string.

(* @src hub/store.go 367-395 loadRules *)
Definition loadRules : HM rulesDoc :=
  doc ← db_query d_rules;
  match doc with
  | Some doc => mret doc
  | None =>
    let doc := {| rd_Version := 1; rd_HeartbeatSeconds := 180; rd_Rules := defaultRules |} in
    db_exec (set_d_rules (Some doc)) ;; mret doc
  end.

(* @src hub/store.go 397-423 loadSettings *)
Definition loadSettings : HM settingsDoc :=
  doc ← db_query d_settings;
  match doc with
  | Some doc => mret doc
  | None =>
    let doc := {| sd_Version := 1;
                  sd_DND := {| dnd_Enabled := false; dnd_Start := "23:00"; dnd_End := "08:00";
                               dnd_Timezone := "Asia/Shanghai" |};
                  sd_ReportIntervalSeconds := 30 |}%string in
    db_exec (set_d_settings (Some doc)) ;; mret doc
  end.

(* @src hub/store.go 425-432 heartbeatSeconds *)
Definition heartbeatSeconds : HM Z :=
  r ← st_try (db_row (λ d, rd_HeartbeatSeconds <$> d_rules d));
  mret match r with Ok v => if decide (v <= 0) then 180 else v | Err _ => 180 end.

(* @src hub/store.go 434-441 reportInterval *)
Definition reportInterval : HM Z :=
  r ← st_try (db_row (λ d, sd_ReportIntervalSeconds <$> d_settings d));
  mret match r with Ok v => if decide (v <= 0) then 30 else v | Err _ => 30 end.

(** [SELECT MAX(seq)], [SELECT MIN(seq)]: NULL on an empty table. *)
Definition max_seq (l : list changeRow) : option Z :=
  match ch_seq <$> l with [] => None | x :: l' => Some (foldr Z.max x l') end.
Definition min_seq (l : list changeRow) : option Z :=
  match ch_seq <$> l with [] => None | x :: l' => Some (foldr Z.min x l') end.

(* @src hub/store.go 443-448 maxChangeSeq *)
(** A failed query leaves the zero value. *)
Definition maxChangeSeq : HM Z :=
  r ← st_try (db_query (λ d, max_seq (d_changes d)));
  mret match r with Ok (Some v) => v | _ => 0 end.

(* @src hub/store.go 450-455 minChangeSeq *)
Definition minChangeSeq : HM (option Z) :=
  r ← st_try (db_query (λ d, min_seq (d_changes d)));
  mret match r with Ok v => v | _ => None end.

(* @src hub/ingest.go 20-29 emitSourceChangeTx *)
(** Appends to [changes] by returning the entry. *)
Definition emitSourceChangeTx (src : sourceRow) (changes : list changeEntry)
    : HM (list changeEntry) :=
  hb ← heartbeatSeconds;
  now ← nowUTC;
  let sj := toSourceJSON src hb now in
  entry ← insertChangeObj "source" (s_ID src) (λ _, DSource sj) None;
  mret (changes ++ [entry]).
End store.

(** ** The change log, purely *)

(** The last change sequence number handed out. *)
Definition change_seq (d : db) : Z := default 0 (d_meta d !! "change_seq"%string).

Definition bump_seq (d : db) : db :=
  set_d_meta (<["change_seq"%string := change_seq d + 1]> (d_meta d)) d.

(** One more change, with the next number. *)
Definition log_change (typ refID : string) (data : change_data) (notify : option notifyBlock)
    (now : Z) (d : db) : db :=
  set_d_changes (d_changes d ++
    [{| ch_seq := change_seq d + 1; ch_type := typ; ch_ref_id := refID; ch_data := data;
        ch_notify := notify; ch_created_at := fmtTS now |}]) (bump_seq d).

(** A row of the log as it is sent. *)
Definition entry_of (r : changeRow) : changeEntry :=
  {| ce_Seq := ch_seq r; ce_Type := ch_type r; ce_Data := ch_data r; ce_Notify := ch_notify r |}.

(** The log is numbered upwards and never past the counter. *)
Definition log_ok (d : db) : Prop :=
  StronglySorted Z.lt (ch_seq <$> d_changes d) ∧ Forall (λ r, ch_seq r <= change_seq d) (d_changes d).

(** What a transaction added to the log: [rows], numbered from the counter on. *)
Definition log_grows (d d' : db) (rows : list changeRow) : Prop :=
  d_changes d' = d_changes d ++ rows ∧
  ch_seq <$> rows = seqZ (change_seq d + 1) (Z.of_nat (length rows)) ∧
  change_seq d' = change_seq d + Z.of_nat (length rows).

(** Inside a transaction over the committed tables [d0], with subscribers [b0]. *)
Definition inside (d0 : db) (b0 : broker) (w : World) : Prop :=
  is_Some (w_tx w) ∧ w_db w = d0 ∧ w_broker w = b0.

(** Everything of the world a transaction's body cannot undo is as it was, except that ULIDs
    may have been drawn. *)
Definition same_outside (w w' : World) : Prop :=
  w_db w' = w_db w ∧ w_re w' = w_re w ∧ w_broker w' = w_broker w ∧ (w_ids w <= w_ids w')%nat.

(** ** Lemmas *)

Section store_lemmas.
Context `{HE : HubEnv}.
Implicit Types (w : World) (d : db).

#[global] Instance same_outside_preorder : PreOrder same_outside.
Proof.
  split; unfold same_outside, Reflexive, Transitive; [by intros|].
  intros x y z (-> & -> & -> & ?) (-> & -> & -> & ?). split_and!; [done..|lia].
Qed.

Lemma tx_call_Ok {A} (f : db → outcome herr (A * db)) w a w' :
  tx_call f w = (Ok a, w') →
  ∃ d d', w_tx w = Some d ∧ f d = Ok (a, d') ∧ w_tx w' = Some d' ∧ same_outside w w'.
Proof.
  unfold tx_call. destruct (w_tx w) as [d|] eqn:E; [|done]. destruct (h_io _); [done|].
  destruct (f d) as [[a' d']|e] eqn:Ef; [|done]. intros [= -> <-]. exists d, d'.
  by repeat split.
Qed.

Lemma cut_rows_prefix {A} n (l : list A) : cut_rows n l `prefix_of` l.
Proof. destruct n; [apply prefix_take|done]. Qed.
Lemma cut_rows_sublist {A} n (l : list A) : cut_rows n l `sublist_of` l.
Proof. destruct n; [apply sublist_take|done]. Qed.

Lemma tx_query_Ok {A} (f : db → A) w d a w' :
  w_tx w = Some d → tx_query f w = (Ok a, w') →
  a = f d ∧ w_tx w' = Some d ∧ same_outside w w'.
Proof. intros Hd (d0 & d' & ? & ? & ? & ?)%tx_call_Ok. by simplify_eq. Qed.

Lemma tx_rows_Ok {A} (f : db → list A) w d l w' :
  w_tx w = Some d → tx_rows f w = (Ok l, w') →
  l `prefix_of` f d ∧ (whole_rows → l = f d) ∧ w_tx w' = Some d ∧ same_outside w w'.
Proof.
  intros Hd H. apply (tx_query_Ok _ _ _ _ _ Hd) in H as (-> & Hd' & Hs). split; [apply cut_rows_prefix|].
  split; [|done]. intros Hw. by rewrite Hw.
Qed.

Lemma tx_exec_Ok (f : db → db) w d u w' :
  w_tx w = Some d → tx_exec f w = (Ok u, w') → w_tx w' = Some (f d) ∧ same_outside w w'.
Proof. intros Hd (d0 & d' & ? & ? & ? & ?)%tx_call_Ok. by simplify_eq. Qed.

Lemma tx_row_Ok {A} (f : db → option A) w d a w' :
  w_tx w = Some d → tx_row f w = (Ok a, w') →
  f d = Some a ∧ w_tx w' = Some d ∧ same_outside w w'.
Proof.
  intros Hd (d0 & d' & ? & Hf & ? & ?)%tx_call_Ok. simplify_eq.
  destruct (f d) eqn:E; by simplify_eq.
Qed.

Lemma tx_insert_Ok (f : db → option db) w d u w' :
  w_tx w = Some d → tx_insert f w = (Ok u, w') →
  ∃ d', f d = Some d' ∧ w_tx w' = Some d' ∧ same_outside w w'.
Proof.
  intros Hd (d0 & d' & ? & Hf & ? & ?)%tx_call_Ok. simplify_eq.
  destruct (f d) eqn:E; simplify_eq; eauto.
Qed.

Lemma nowUTC_Ok w n w' : nowUTC w = (Ok n, w') → w_tx w' = w_tx w ∧ same_outside w w'.
Proof. by intros [= <- <-]. Qed.

Lemma newID_Ok p w n w' :
  newID p w = (Ok n, w') →
  n = (p +:+ h_ulid (w_ids w))%string ∧ w_ids w' = S (w_ids w) ∧ w_tx w' = w_tx w ∧ same_outside w w'.
Proof. intros [= <- <-]. split_and!; try done. split_and!; cbn; [done..|lia]. Qed.

Lemma nextChangeSeq_Ok w d s w' :
  w_tx w = Some d → nextChangeSeq w = (Ok s, w') →
  s = change_seq d + 1 ∧ w_tx w' = Some (bump_seq d) ∧ same_outside w w'.
Proof.
  intros Hd H. unfold nextChangeSeq in H. mrun H.
  apply tx_call_Ok in Hrun as (d0 & d1 & ? & Hf & Hd1 & Hs1). simplify_eq.
  destruct (d_meta d !! "change_seq"%string) as [v|] eqn:E; simplify_eq.
  - injection H as <- <-. unfold bump_seq, change_seq. by rewrite E.
  - apply tx_call_Ok in H as (d2 & d3 & ? & Hf & ? & Hs2). simplify_eq.
    unfold bump_seq, change_seq. rewrite E. split; [done|]. split; [done|]. by etransitivity.
Qed.

Lemma insertChangeObj_Ok typ ref obj n w d e w' :
  w_tx w = Some d → insertChangeObj typ ref obj n w = (Ok e, w') →
  ∃ now, w_tx w' = Some (log_change typ ref (obj (change_seq d + 1)) n now d) ∧ same_outside w w' ∧
    e = {| ce_Seq := change_seq d + 1; ce_Type := typ; ce_Data := obj (change_seq d + 1); ce_Notify := n |}.
Proof.
  intros Hd H. unfold insertChangeObj in H. mrun H.
  apply (nextChangeSeq_Ok _ _ _ _ Hd) in Hrun as (-> & Hd1 & Hs1). mrun H. pose proof Hrun as Hn.
  apply nowUTC_Ok in Hrun as [Hd2 Hs2]. rewrite Hd1 in Hd2. mrun H.
  apply (tx_insert_Ok _ _ _ _ _ Hd2) in Hrun as (d' & Hf & Hd3 & Hs3). injection H as <- <-.
  destruct (tbl_insert _ _) as [l|] eqn:E; [|done]. injection Hf as <-.
  apply tbl_insert_Some in E as [_ ->]. eexists. split; [exact Hd3|]. split; [|done].
  by rewrite Hs1, Hs2, Hs3.
Qed.

Lemma insertChange_Ok typ ref data n w d e w' :
  w_tx w = Some d → insertChange typ ref data n w = (Ok e, w') →
  ∃ now, w_tx w' = Some (log_change typ ref data n now d) ∧ same_outside w w' ∧
    e = {| ce_Seq := change_seq d + 1; ce_Type := typ; ce_Data := data; ce_Notify := n |}.
Proof. intros Hd H. by apply (insertChangeObj_Ok typ ref (λ _, data) n w d e w' Hd). Qed.

Lemma db_call_query_Ok {A} (f : db → A) w r w' :
  st_try (E:=herr) (db_query f) w = (Ok r, w') → w_tx w' = w_tx w ∧ same_outside w w'.
Proof.
  unfold st_try, db_query, db_call. destruct (h_io _); intros [= _ <-]; [done|]. by destruct w.
Qed.

Lemma db_row_try_Ok {A} (f : db → option A) w r w' :
  st_try (E:=herr) (db_row f) w = (Ok r, w') → w_tx w' = w_tx w ∧ same_outside w w'.
Proof.
  unfold st_try, db_row, db_call. destruct (h_io _); [by intros [= _ <-]|].
  destruct (f (w_db w)); intros [= _ <-]; [|done]. by destruct w.
Qed.

Lemma heartbeatSeconds_Ok w hb w' :
  heartbeatSeconds w = (Ok hb, w') → w_tx w' = w_tx w ∧ same_outside w w'.
Proof. unfold heartbeatSeconds. intros H. mrun H. apply db_row_try_Ok in Hrun. by injection H as _ <-. Qed.

Lemma emitSourceChangeTx_Ok src ch w d ch' w' :
  w_tx w = Some d → emitSourceChangeTx src ch w = (Ok ch', w') →
  ∃ sj now, w_tx w' = Some (log_change "source" (s_ID src) (DSource sj) None now d) ∧ same_outside w w' ∧
    ch' = ch ++ [{| ce_Seq := change_seq d + 1; ce_Type := "source"; ce_Data := DSource sj; ce_Notify := None |}].
Proof.
  intros Hd H. unfold emitSourceChangeTx in H. mrun H. apply heartbeatSeconds_Ok in Hrun as [Hd1 Hs1].
  mrun H. apply nowUTC_Ok in Hrun as [Hd2 Hs2]. mrun H. rewrite Hd1, Hd in Hd2.
  apply (insertChangeObj_Ok _ _ _ _ _ _ _ _ Hd2) in Hrun as (now & Hd3 & Hs3 & ->).
  injection H as <- <-. eexists _, now. split; [exact Hd3|]. split; [|done].
  by rewrite Hs1, Hs2, Hs3.
Qed.

(** A transaction commits its body's tables or changes nothing. *)
Lemma withTx_Ok {A} (fn : stM World herr A) w a w' :
  withTx fn w = (Ok a, w') →
  ∃ w0 w1 d', w_tx w0 = Some (w_db w) ∧ same_outside w w0 ∧ fn w0 = (Ok a, w1) ∧ w_tx w1 = Some d' ∧
    w_db w' = d' ∧ w_tx w' = None ∧ w_re w' = w_re w1 ∧ w_broker w' = w_broker w1.
Proof.
  unfold withTx. destruct (h_io (w_calls w)); [done|].
  set (w0 := wset_tx _ _). destruct (fn w0) as [[b|e] w1] eqn:E; [|done].
  destruct (h_io (w_calls w1)); [done|]. destruct (w_tx w1) as [d'|] eqn:Et; [|done].
  intros [= -> <-]. exists w0, w1, d'. by repeat split.
Qed.

Lemma inside_tx_call {A} (f : db → outcome herr (A * db)) d0 b0 : preserves (inside d0 b0) (tx_call f).
Proof.
  intros w ([d Hd] & H1 & H2). unfold tx_call. rewrite Hd. destruct (h_io _); [by repeat split; eauto|].
  destruct (f d) as [[a d']|e]; repeat split; cbn; eauto.
Qed.

Lemma inside_db_row {A} (f : db → option A) d0 b0 : preserves (inside d0 b0) (db_row f).
Proof.
  intros w ([d Hd] & H1 & H2). unfold db_row, db_call. destruct (h_io _); [by repeat split; eauto|].
  destruct (f (w_db w)); repeat split; cbn; eauto.
Qed.

Lemma inside_db_query {A} (f : db → A) d0 b0 : preserves (E:=herr) (inside d0 b0) (db_query f).
Proof.
  intros w ([d Hd] & H1 & H2). unfold db_query, db_call. destruct (h_io _); repeat split; cbn; eauto.
Qed.

Lemma inside_db_exec f d0 b0 : preserves (inside d0 b0) (db_exec f).
Proof. intros w ([d Hd] & H1 & H2). unfold db_exec. rewrite Hd. by repeat split; eauto. Qed.

Lemma inside_ext w w' d0 b0 :
  w_tx w' = w_tx w → w_db w' = w_db w → w_broker w' = w_broker w → inside d0 b0 w → inside d0 b0 w'.
Proof. unfold inside. by intros -> -> ->. Qed.

Lemma inside_now d0 b0 : preserves (E:=herr) (inside d0 b0) nowUTC.
Proof. intros w H. by eapply inside_ext, H. Qed.
Lemma inside_id p d0 b0 : preserves (E:=herr) (inside d0 b0) (newID p).
Proof. intros w H. by eapply inside_ext, H. Qed.
Lemma inside_token p d0 b0 : preserves (E:=herr) (inside d0 b0) (randToken p).
Proof. intros w H. by eapply inside_ext, H. Qed.

(** A transaction that fails leaves the tables and the subscribers alone. *)
Lemma withTx_Err {A} (fn : stM World herr A) w e w' :
  (∀ d0 b0, preserves (inside d0 b0) fn) →
  withTx fn w = (Err e, w') → w_db w' = w_db w ∧ w_broker w' = w_broker w.
Proof.
  intros Hfn. unfold withTx. destruct (h_io (w_calls w)); [by intros [= _ <-]|].
  set (w0 := wset_tx _ _).
  assert (inside (w_db w) (w_broker w) (fn w0).2) as (_ & H1 & H2) by (apply Hfn; repeat split; cbn; eauto).
  destruct (fn w0) as [[b|e'] w1] eqn:E; cbn in H1, H2.
  - destruct (h_io (w_calls w1)); [by intros [= _ <-]|].
    destruct (w_tx w1); [done|]. by intros [= _ <-].
  - by intros [= _ <-].
Qed.

(** ** The log *)

Lemma max_seq_in l mx : max_seq l = Some mx → ∃ r, r ∈ l ∧ ch_seq r = mx.
Proof.
  unfold max_seq. intros H. assert (mx ∈ ch_seq <$> l) as (r & -> & Hr)%list_elem_of_fmap; [|by exists r].
  destruct (ch_seq <$> l) as [|x l']; [done|]. injection H as <-.
  induction l' as [|y l' IH]; cbn; [left|]. destruct (Z.max_spec y (foldr Z.max x l')) as [[_ ->]|[_ ->]]; set_solver.
Qed.

Lemma change_seq_bump d : change_seq (bump_seq d) = change_seq d + 1.
Proof. unfold change_seq at 1. cbn. by rewrite lookup_insert_eq. Qed.

Lemma log_change_grows typ ref data n now d :
  log_grows d (log_change typ ref data n now d)
    [{| ch_seq := change_seq d + 1; ch_type := typ; ch_ref_id := ref; ch_data := data; ch_notify := n;
        ch_created_at := fmtTS now |}].
Proof. split; [done|]. split; [done|]. apply change_seq_bump. Qed.

Lemma log_grows_refl d : log_grows d d [].
Proof. split; [by rewrite app_nil_r|]. split; [done|]. cbn. lia. Qed.

Lemma log_grows_trans d1 d2 d3 r1 r2 :
  log_grows d1 d2 r1 → log_grows d2 d3 r2 → log_grows d1 d3 (r1 ++ r2).
Proof.
  intros (H1 & S1 & C1) (H2 & S2 & C2). split; [by rewrite H2, H1, app_assoc|]. split.
  - rewrite fmap_app, S1, S2, C1, length_app, Nat2Z.inj_add, seqZ_app by lia. f_equal. f_equal. lia.
  - rewrite C2, C1, length_app. lia.
Qed.

(** Steps that touch neither the log nor its counter. *)
Lemma log_grows_same d d' rows d'' :
  log_grows d d' rows → d_changes d'' = d_changes d' → change_seq d'' = change_seq d' →
  log_grows d d'' rows.
Proof. unfold log_grows. by intros ? -> ->. Qed.

Lemma log_grows_same_l d0 d d' rows :
  d_changes d = d_changes d0 → change_seq d = change_seq d0 → log_grows d d' rows → log_grows d0 d' rows.
Proof. unfold log_grows. by intros -> ->. Qed.

Lemma log_grows_ok d d' rows : log_ok d → log_grows d d' rows → log_ok d'.
Proof.
  intros [Hs Hb] (Hc & Hq & Hcs). unfold log_ok. rewrite Hc. split.
  - rewrite fmap_app, Hq. apply StronglySorted_app_2; [|done|].
    + intros x y (r & -> & Hr)%list_elem_of_fmap [Hy _]%elem_of_seqZ.
      rewrite Forall_forall in Hb. specialize (Hb r Hr). lia.
    + clear. generalize (Z.of_nat (length rows)). intros n. generalize (change_seq d + 1).
      intros m. destruct (decide (0 <= n)); [|rewrite seqZ_nil by lia; constructor].
      revert m. pattern n. apply natlike_ind; [| |done].
      * intros m. rewrite seqZ_nil by lia. constructor.
      * intros x Hx IH m. rewrite seqZ_cons by lia. rewrite Z.pred_succ. constructor; [apply IH|].
        rewrite Forall_forall. intros y Hy%elem_of_seqZ. lia.
  - rewrite Hcs. apply Forall_app. split.
    + eapply Forall_impl; [exact Hb|]. cbn. intros. lia.
    + rewrite Forall_forall. intros r Hr.
      assert (ch_seq r ∈ seqZ (change_seq d + 1) (Z.of_nat (length rows))) as Hin.
      { rewrite <-Hq. apply list_elem_of_fmap. eauto. }
      apply elem_of_seqZ in Hin. lia.
Qed.

Lemma entries_of_grows d d' rows : log_grows d d' rows → ce_Seq <$> (entry_of <$> rows) = ch_seq <$> rows.
Proof. intros _. by rewrite <-list_fmap_compose. Qed.
End store_lemmas.

#[export] Hint Resolve inside_tx_call inside_db_row inside_db_query inside_db_exec inside_now inside_id
  inside_token : presdb.

Section store_inside.
Context `{HE : HubEnv}.
Variables (d0 : db) (b0 : broker).
Notation ins := (preserves (E:=herr) (inside d0 b0)).

Lemma inside_query {A} (f : db → A) : ins (tx_query f).
Proof. apply inside_tx_call. Qed.
Lemma inside_rows {A} (f : db → list A) : ins (tx_rows f).
Proof. intros w. apply inside_query. Qed.
Lemma inside_db_rows {A} (f : db → list A) : ins (db_rows f).
Proof. intros w. apply inside_db_query. Qed.
Lemma inside_exec f : ins (tx_exec f).
Proof. apply inside_tx_call. Qed.
Lemma inside_insert f : ins (tx_insert f).
Proof. apply inside_tx_call. Qed.
Lemma inside_row {A} (f : db → option A) : ins (tx_row f).
Proof. apply inside_tx_call. Qed.
#[local] Hint Resolve inside_query inside_rows inside_db_rows inside_exec inside_insert inside_row : presdb.

Lemma inside_changeObj typ ref obj n : ins (insertChangeObj typ ref obj n).
Proof. unfold insertChangeObj, nextChangeSeq, insert_change_row. pres. Qed.
Lemma inside_change typ ref data n : ins (insertChange typ ref data n).
Proof. unfold insertChange, nextChangeSeq, insert_change_row. pres. Qed.
#[local] Hint Resolve inside_changeObj : presdb.
Lemma inside_heartbeat : ins heartbeatSeconds.
Proof. unfold heartbeatSeconds. pres. Qed.
#[local] Hint Resolve inside_heartbeat : presdb.
Lemma inside_sourceChange src ch : ins (emitSourceChangeTx src ch).
Proof. unfold emitSourceChangeTx. pres. Qed.
Lemma inside_loadRules : ins loadRules.
Proof. unfold loadRules. pres. Qed.
Lemma inside_loadSettings : ins loadSettings.
Proof. unfold loadSettings. pres. Qed.
Lemma inside_loadSourceTx id : ins (loadSourceTx id).
Proof. apply inside_row. Qed.
Lemma inside_loadFaultTx s k : ins (loadFaultTx s k).
Proof. apply inside_query. Qed.
End store_inside.

#[export] Hint Resolve inside_query inside_rows inside_db_rows inside_exec inside_insert inside_row inside_changeObj inside_change
  inside_heartbeat inside_sourceChange inside_loadRules inside_loadSettings inside_loadSourceTx
  inside_loadFaultTx : presdb.
