(* ===== verification/Schema.v ===== *)
(** Opening the hub's database ([hub/db.go]): the schema and the migration that adds the two
    columns of version 1.1 to a [sources] table of an older hub.

    Of the file only the columns of [sources] matter here ([None]: the table is not there yet);
    the statements after them are in [HubTypes], table by table.  Every call may fail, and the
    listing of the columns may break off. *)

From S2P Require Import Prelude GoBase.
Local Open Scope string_scope.
Local Open Scope list_scope.

(** The database file and the number of calls made so far. *)
Record dbFile := { df_columns : option (list string); df_calls : nat }.
Inductive open_err := OpenFailed | SchemaFailed | QueryFailed | RowsFailed | AlterFailed (column : string).

(** Whether a call succeeds, and how many columns a listing gives before it breaks off. *)
Class FileEnv := { fe_ok : nat → bool; fe_rows : option nat }.

Notation OM := (stM dbFile open_err).

(* @src hub/db.go 18-42 !schema *)
(** The columns of a new [sources] table. *)
Definition source_columns : list string :=
  ["id"; "name"; "kind"; "enabled"; "key_hash"; "key_plain"; "key_hint"; "mgmt_key_plain"; "mgmt_key_hint"; "attachment_base_url";
   "agent_version"; "agent_os"; "agent_arch"; "hostname"; "capabilities"; "last_seen_at"; "last_metrics_seq"; "last_event_seq";
   "last_boot_time"; "last_summary"; "prev_sample"; "deleted_at"; "created_at"; "updated_at"].

Section schema.
Context `{FE : FileEnv}.

(** A call on the database: [f] is what it does, [None] that SQLite refuses it. *)
Definition db_call {A} (e : open_err) (f : option (list string) → option (A * option (list string))) : OM A := λ d,
  let d' cols := {| df_columns := cols; df_calls := S (df_calls d) |} in
  if fe_ok (df_calls d) then
    match f (df_columns d) with
    | Some (a, cols) => (Ok a, d' cols)
    | None => (Err e, d' (df_columns d))
    end
  else (Err e, d' (df_columns d)).

(** The statements of the schema, one [Exec] that may stop in between: [CREATE TABLE IF NOT
    EXISTS sources], then the rest; [PRAGMA table_info]; [ALTER TABLE sources ADD COLUMN]. *)
Definition create_tables : OM () :=
  db_call SchemaFailed (λ cols, Some (tt, Some (default source_columns cols))) ;;
  db_call SchemaFailed (λ cols, Some (tt, cols)).
Definition table_info : OM (list string) :=
  db_call QueryFailed (λ cols, Some (match fe_rows with Some n => take n (default [] cols) | None => default [] cols end, cols)).
Definition add_column (name : string) : OM () :=
  db_call (AlterFailed name) (λ cols, match cols with
    | None => None
    | Some cs => if decide (name ∈ cs) then None else Some (tt, Some (cs ++ [name]))
    end).

(** The columns of version 1.1. *)
Definition v11_columns : list string := ["mgmt_key_plain"; "mgmt_key_hint"].

(* @src hub/db.go 210-244 migrateSourcesV11 *)
Definition migrateSourcesV11 : OM () :=
  cols ← table_info;
  db_call RowsFailed (λ s, Some (tt, s)) ;;                      (* rows.Close *)
  st_foldl (λ _ c, if decide (c ∈ cols) then mret tt else add_column c) tt v11_columns.

(* @src hub/db.go 190-208 openDB *)
Definition openDB : OM () :=
  db_call OpenFailed (λ s, Some (tt, s)) ;;                      (* sql.Open *)
  create_tables ;;
  migrateSourcesV11.
End schema.

(** ** Specification *)

(** The columns of version 1.1 that a table does not have, which opening adds, in order. *)
Definition missing (cs : list string) : list string := filter (λ c, c ∉ cs) v11_columns.
Definition columns_of (d : dbFile) : list string := default source_columns (df_columns d).

(** ** Lemmas *)

Section lemmas.
Context `{FE : FileEnv}.

(** A call that succeeds has done what it does; one that fails, nothing. *)
Lemma db_call_spec {A} e f d : match db_call (A := A) e f d with
  | (Ok a, d') => fe_ok (df_calls d) = true ∧ f (df_columns d) = Some (a, df_columns d')
  | (Err e', d') => e' = e ∧ df_columns d' = df_columns d ∧ (fe_ok (df_calls d) = true → f (df_columns d) = None)
  end.
Proof.
  unfold db_call. destruct (fe_ok _); [|by split_and!]. destruct (f (df_columns d)) as [[a cols]|] eqn:E; by split_and!.
Qed.

(** One column: already known, or added, or refused. *)
Lemma add_column_spec c d cs : df_columns d = Some cs →
  match add_column c d with
  | (Ok _, d') => c ∉ cs ∧ df_columns d' = Some (cs ++ [c])
  | (Err e, d') => e = AlterFailed c ∧ df_columns d' = Some cs
  end.
Proof.
  intros Hd. unfold add_column. pose proof (db_call_spec (AlterFailed c) (λ cols, match cols with
    | None => None | Some cs => if decide (c ∈ cs) then None else Some (tt, Some (cs ++ [c])) end) d) as H.
  destruct (db_call _ _ d) as [[a|e] d']; rewrite Hd in H.
  - destruct H as [_ H]. case_decide; [done|]. by injection H as <- <-.
  - by destruct H as (-> & H & _).
Qed.

(** The loop over some columns, none of which appears twice: what was not seen in the listing
    is added as far as the loop comes. *)
Lemma add_columns_spec (seen new : list string) : NoDup new → ∀ d cs, df_columns d = Some cs → (∀ c, c ∈ seen → c ∈ cs) →
  match st_foldl (λ _ c, if decide (c ∈ seen) then mret tt else add_column c) tt new d with
  | (Ok _, d') => df_columns d' = Some (cs ++ filter (λ c, c ∉ cs) new) ∧ (∀ c, c ∈ new → c ∉ seen → c ∉ cs)
  | (Err e, d') => ∃ k c, e = AlterFailed c ∧ df_columns d' = Some (cs ++ take k (filter (λ c, c ∉ cs) new))
  end.
Proof.
  induction 1 as [|c new Hc Hnd IH]; intros d cs Hd Hseen; cbn [st_foldl].
  { cbn. rewrite Hd, app_nil_r. split; [done|]. intros c Hin. by apply elem_of_nil in Hin. }
  unfold mbind, stM_bind. destruct (decide (c ∈ seen)) as [Hin|Hin].
  - unfold mret, stM_ret. cbv beta iota. specialize (IH d cs Hd Hseen). rewrite filter_cons_False by (intros Hn; by apply Hn, Hseen).
    destruct (st_foldl _ tt new d) as [[a|e] d']; [|done]. destruct IH as [-> Hnew]. split; [done|].
    intros c' [->|Hc']%elem_of_cons Hs; [done|by apply Hnew].
  - pose proof (add_column_spec c d cs Hd) as Ha. destruct (add_column c d) as [[[]|e] d1].
    + destruct Ha as [Hn Hd1]. rewrite filter_cons_True by done.
      assert (filter (λ c0, c0 ∉ cs ++ [c]) new = filter (λ c0, c0 ∉ cs) new) as Ef.
      { apply list_filter_ext_elem. intros x Hx. assert (x ≠ c) by (by intros ->). set_solver. }
      specialize (IH d1 (cs ++ [c]) Hd1 ltac:(intros; apply elem_of_app; left; by apply Hseen)). rewrite Ef in IH.
      destruct (st_foldl _ tt new d1) as [[[]|e] d'].
      * destruct IH as [-> Hnew]. split; [by rewrite <-app_assoc|]. intros c' [->|Hc']%elem_of_cons Hs; [done|].
        specialize (Hnew c' Hc' Hs). set_solver.
      * destruct IH as (k & c' & -> & ->). exists (S k), c'. by rewrite <-app_assoc.
    + destruct Ha as [-> ->]. exists 0%nat, c. by rewrite take_0, app_nil_r.
Qed.

(** The next call of a sequence: it succeeds and has done what it does, or the sequence ends
    here with the file unchanged. *)
Local Ltac step_call a d' := match goal with |- context [db_call ?e ?f ?d] =>
  let H := fresh "Hcall" in let E := fresh "E" in let L := fresh "L" in pose proof (db_call_spec e f d) as H;
  destruct (db_call e f d) as [[a|?] d']; [destruct H as [_ [= L E]]|destruct H as (_ & E & _)] end.

Lemma openDB_run d : match openDB d with
  | (Ok _, d') => df_columns d' = Some (columns_of d ++ missing (columns_of d))
  | (Err _, d') => df_columns d' = df_columns d ∨ ∃ k, df_columns d' = Some (columns_of d ++ take k (missing (columns_of d)))
  end.
Proof.
  unfold openDB, migrateSourcesV11, create_tables, table_info. unfold mbind, stM_bind.
  step_call u0 d0; [|by left]. step_call u1 d1; [|left; congruence].
  assert (∀ d', df_columns d' = Some (columns_of d) →
    ∃ k, df_columns d' = Some (columns_of d ++ take k (missing (columns_of d)))) as Hnone by (intros d' ->; exists 0%nat; by rewrite take_0, app_nil_r).
  assert (df_columns d1 = Some (columns_of d)) as Hc1 by (unfold columns_of; congruence).
  step_call u2 d2; [|right; apply Hnone; congruence].
  step_call cols d3; [|right; apply Hnone; congruence]. step_call u4 d4; [|right; apply Hnone; congruence].
  assert (df_columns d4 = Some (columns_of d)) as Hc3 by congruence.
  assert (∀ c, c ∈ cols → c ∈ columns_of d) as Hseen.
  { intros c. rewrite <-L2. replace (df_columns d2) with (Some (columns_of d)) by congruence. cbn. destruct (fe_rows); [|done]. apply subseteq_take. }
  pose proof (add_columns_spec cols v11_columns ltac:(repeat constructor; set_solver) d4 (columns_of d) Hc3 Hseen) as Hadd.
  destruct (st_foldl _ tt v11_columns d4) as [[a|e] d']; [by apply Hadd|].
  destruct Hadd as (k & c & _ & Hk). right. by exists k.
Qed.

End lemmas.

(** ** Properties *)

(** C34: opening the database.  When it succeeds, the [sources] table is the one it was, or a
    new one, followed by those columns of version 1.1 it did not have, so that opening again
    adds nothing; when it fails, the table is as it was or has been extended by some of them
    in order, so that a later opening completes it.  No column is lost, renamed or added twice. *)
Theorem openDB_spec `{FileEnv} d (Hd : NoDup (columns_of d)) :
  match openDB d with
  | (Ok _, d') => df_columns d' = Some (columns_of d ++ missing (columns_of d)) ∧ missing (columns_of d') = []
  | (Err e, d') => df_columns d' = df_columns d ∨ ∃ k, df_columns d' = Some (columns_of d ++ take k (missing (columns_of d)))
  end ∧ NoDup (columns_of (openDB d).2) ∧ columns_of d ⊆ columns_of (openDB d).2.
Proof.
  pose proof (openDB_run d) as Hrun.
  assert (NoDup v11_columns) as Hv by (repeat constructor; set_solver).
  assert (∀ k, NoDup (columns_of d ++ take k (missing (columns_of d)))) as Hnd.
  { intros k. apply NoDup_app. split_and!; [done| |].
    - intros c Hc Hk%(subseteq_take _ _). apply list_elem_of_filter in Hk as [Hn _]. done.
    - eapply sublist_NoDup; [|apply sublist_take]. by apply NoDup_filter. }
  destruct (openDB d) as [[[]|e] d'] eqn:E; cbn [snd].
  - assert (columns_of d' = columns_of d ++ missing (columns_of d)) as -> by (unfold columns_of at 1; by rewrite Hrun).
    split_and!; [done| | |set_solver].
    + apply list_filter_none. intros c Hc Hn. apply Hn. apply elem_of_app.
      destruct (decide (c ∈ columns_of d)); [by left|right]. by apply list_elem_of_filter.
    + specialize (Hnd (length (missing (columns_of d)))). by rewrite take_ge in Hnd by done.
  - split; [done|]. destruct Hrun as [Hr|[k Hr]].
    + unfold columns_of in *. by rewrite Hr.
    + assert (columns_of d' = columns_of d ++ take k (missing (columns_of d))) as -> by (unfold columns_of at 1; by rewrite Hr).
      split; [apply Hnd|set_solver].
Qed.

Definition old_columns : list string := filter (λ c, c ∉ v11_columns) source_columns.
Lemma openDB_spec_witness :
  let env : FileEnv := {| fe_ok := λ n, negb (n =? 6)%nat; fe_rows := None |} in
  let d := {| df_columns := Some old_columns; df_calls := 0 |} in
  df_columns (openDB d).2 = Some (old_columns ++ ["mgmt_key_plain"]) ∧ (openDB d).1 = Err (AlterFailed "mgmt_key_hint") ∧
  df_columns (openDB (openDB d).2).2 = Some (old_columns ++ v11_columns) ∧ NoDup (columns_of (openDB d).2).
Proof.
  intros env d. split_and!; [vm_compute; reflexivity..|].
  assert (NoDup (columns_of d)) as Hd by (apply (bool_decide_unpack _); vm_compute; exact I).
  exact (proj1 (proj2 (openDB_spec d Hd))).
Defined.

(** A listing that breaks off makes opening fail, and nothing worse. *)
Example broken_listing :
  let env : FileEnv := {| fe_ok := λ _, true; fe_rows := Some 7%nat |} in
  openDB {| df_columns := None; df_calls := 0 |} =
    (Err (AlterFailed "mgmt_key_plain"), {| df_columns := Some source_columns; df_calls := 6 |}).
Proof. vm_compute. reflexivity. Qed.
