(* ===== verification/Fault.v ===== *)
(** The fault state machine ([hub/fault.go]): an event applied inside a write transaction
    becomes an event row, a transition of its fault, a message and the changes that tell the
    clients.  A Go function that appends to [*changes] returns the longer list. *)

From S2P Require Import Prelude GoBase GoTime HubTypes HubStore.
From Stdlib Require Import Ascii.
Local Open Scope Z_scope.

(** The columns [ON CONFLICT(id) DO UPDATE] rewrites: all but the key columns. *)
(* @src hub/fault.go 294-300 !upsertFaultTx *)
Definition fault_excluded (f old : faultRow) : faultRow :=
  {| f_ID := f_ID old; f_SourceID := f_SourceID old; f_FaultKey := f_FaultKey old;
     f_Severity := f_Severity f; f_Title := f_Title f; f_Summary := f_Summary f;
     f_State := f_State f; f_Incident := f_Incident f; f_OpenedAt := f_OpenedAt f;
     f_OpenedBySeq := f_OpenedBySeq f; f_LastEventAt := f_LastEventAt f;
     f_ResolvedAt := f_ResolvedAt f; f_ResolvedBySeq := f_ResolvedBySeq f;
     f_ResolvedBy := f_ResolvedBy f; f_EventCount := f_EventCount f; f_ReadAt := f_ReadAt f;
     f_MutedAt := f_MutedAt f; f_MutedUntil := f_MutedUntil f; f_ChangeSeq := f_ChangeSeq f |}.

(** The upsert on the table: [None] is a violation of [UNIQUE (source_id, fault_key)]. *)
Definition upsert_fault (f : faultRow) (t : list faultRow) : option (list faultRow) :=
  match tbl_lookup (f_ID f) t with
  | Some _ => Some (tbl_update (f_ID f) (fault_excluded f) t)
  | None => if decide (fault_slot f ∈ fault_slot <$> t) then None else Some (t ++ [f])
  end.

(* @src hub/fault.go 312-318 pendingResolve *)
Record pendingResolve := {
  pr_seq : Z;
  pr_occurredAt : string;
  pr_title : string;
  pr_eventID : string }.

(** The earliest recorded resolve above [openSeq]. *)
Definition pending_order (a b : pendingRow) : Prop := p_seq a <= p_seq b.
#[export] Instance pending_order_dec a b : Decision (pending_order a b).
Proof. unfold pending_order. apply _. Defined.

(* @src hub/fault.go 318-331 !findPendingResolve *)
Definition find_pending (sourceID faultKey : string) (openSeq : Z) (d : db) : option pendingRow :=
  head (merge_sort pending_order
    (filter (λ p, p_source_id p = sourceID ∧ p_fault_key p = faultKey ∧ openSeq < p_seq p)
       (d_pending d))).

(* @src hub/fault.go 337-337 !hubSeqBase *)
Definition hubSeqBase : Z := Z.shiftl 1 62.

(* @src hub/fault.go 277-294 mergeFaultEvent *)
Definition mergeFaultEvent (f : faultRow) (ev : eventPayload) : faultRow :=
  {| f_ID := f_ID f; f_SourceID := f_SourceID f; f_FaultKey := f_FaultKey f;
     f_Severity := maxSev (f_Severity f) (ep_Severity ev); f_Title := ep_Title ev;
     f_Summary := ep_Body ev; f_State := f_State f; f_Incident := f_Incident f;
     f_OpenedAt := f_OpenedAt f; f_OpenedBySeq := f_OpenedBySeq f;
     f_LastEventAt := if decide (str_lt (f_LastEventAt f) (ep_OccurredAt ev))
                      then ep_OccurredAt ev else f_LastEventAt f;
     f_ResolvedAt := f_ResolvedAt f; f_ResolvedBySeq := f_ResolvedBySeq f;
     f_ResolvedBy := f_ResolvedBy f; f_EventCount := f_EventCount f + 1; f_ReadAt := f_ReadAt f;
     f_MutedAt := f_MutedAt f; f_MutedUntil := f_MutedUntil f; f_ChangeSeq := f_ChangeSeq f |}.

(** The resolved fields a late open takes from a recorded resolve. *)
(* @src hub/fault.go 89-94 !applyEventTx *)
Definition late_resolved (f : faultRow) (p : pendingRow) : faultRow :=
  {| f_ID := f_ID f; f_SourceID := f_SourceID f; f_FaultKey := f_FaultKey f;
     f_Severity := f_Severity f; f_Title := f_Title f; f_Summary := f_Summary f;
     f_State := "resolved"; f_Incident := f_Incident f; f_OpenedAt := f_OpenedAt f;
     f_OpenedBySeq := f_OpenedBySeq f; f_LastEventAt := f_LastEventAt f;
     f_ResolvedAt := Some (p_occurred_at p); f_ResolvedBySeq := Some (p_seq p);
     f_ResolvedBy := Some (p_event_id p); f_EventCount := f_EventCount f; f_ReadAt := f_ReadAt f;
     f_MutedAt := f_MutedAt f; f_MutedUntil := f_MutedUntil f; f_ChangeSeq := f_ChangeSeq f |}.

(** A new round of a resolved fault. *)
(* @src hub/fault.go 113-126 !applyEventTx *)
Definition reopen (f : faultRow) (ev : eventPayload) : faultRow :=
  {| f_ID := f_ID f; f_SourceID := f_SourceID f; f_FaultKey := f_FaultKey f;
     f_Severity := ep_Severity ev; f_Title := ep_Title ev; f_Summary := ep_Body ev;
     f_State := "open"; f_Incident := f_Incident f + 1; f_OpenedAt := ep_OccurredAt ev;
     f_OpenedBySeq := ep_Seq ev; f_LastEventAt := ep_OccurredAt ev; f_ResolvedAt := None;
     f_ResolvedBySeq := None; f_ResolvedBy := None; f_EventCount := 1; f_ReadAt := None;
     f_MutedAt := f_MutedAt f; f_MutedUntil := f_MutedUntil f; f_ChangeSeq := f_ChangeSeq f |}.

(** The end of the current round. *)
(* @src hub/fault.go 133-141 !applyEventTx *)
Definition resolve_fault (f : faultRow) (ev : eventPayload) : faultRow :=
  {| f_ID := f_ID f; f_SourceID := f_SourceID f; f_FaultKey := f_FaultKey f;
     f_Severity := f_Severity f; f_Title := ep_Title ev; f_Summary := ep_Body ev;
     f_State := "resolved"; f_Incident := f_Incident f; f_OpenedAt := f_OpenedAt f;
     f_OpenedBySeq := f_OpenedBySeq f; f_LastEventAt := ep_OccurredAt ev;
     f_ResolvedAt := Some (ep_OccurredAt ev); f_ResolvedBySeq := Some (ep_Seq ev);
     f_ResolvedBy := Some (ep_EventID ev); f_EventCount := f_EventCount f + 1;
     f_ReadAt := f_ReadAt f; f_MutedAt := f_MutedAt f; f_MutedUntil := f_MutedUntil f;
     f_ChangeSeq := f_ChangeSeq f |}.

(** [&&] of a pointer and a non-empty string. *)
(* @src hub/fault.go 26-33 !applyEventTx *)
Definition non_empty (s : option string) : option string :=
  match s with Some s => nullStr s | None => None end.

(* @src hub/fault.go 65-69 !applyEventTx *)
(** The variables the state machine sets: the fault, the incident the event belongs to, the
    notification, and whether the fault changed. *)
Record eventVars := {
  ao_fault : option faultRow;
  ao_incident : option Z;
  ao_notifyKind : string;
  ao_changed : bool }.

Section fault.
Context `{HE : HubEnv}.
Notation HM := (stM World herr).

(* @src hub/fault.go 296-315 upsertFaultTx *)
Definition upsertFaultTx (f : faultRow) : HM () :=
  tx_insert (λ d, (λ l, set_d_faults l d) <$> upsert_fault f (d_faults d)).

(* @src hub/fault.go 320-337 findPendingResolve *)
Definition findPendingResolve (sourceID faultKey : string) (openSeq : Z) : HM (option pendingRow) :=
  tx_query (find_pending sourceID faultKey openSeq).

(* @src hub/fault.go 253-275 newFaultRow *)
Definition newFaultRow (sourceID faultKey : string) (ev : eventPayload) : HM faultRow :=
  id ← newID "flt_";
  mret {| f_ID := id; f_SourceID := sourceID; f_FaultKey := faultKey; f_Severity := ep_Severity ev;
          f_Title := ep_Title ev; f_Summary := ep_Body ev; f_State := "open"; f_Incident := 1;
          f_OpenedAt := ep_OccurredAt ev; f_OpenedBySeq := ep_Seq ev;
          f_LastEventAt := ep_OccurredAt ev; f_ResolvedAt := None; f_ResolvedBySeq := None;
          f_ResolvedBy := None; f_EventCount := 1; f_ReadAt := None; f_MutedAt := None;
          f_MutedUntil := None; f_ChangeSeq := 0 |}.

(* @src hub/fault.go 71-159 !applyEventTx *)
(** The state machine: step 2 of [applyEventTx], for an event whose fault key is [fk]. *)
Definition fault_transition (src : sourceRow) (ev : eventPayload) (fk : string)
    : HM eventVars :=
  f ← loadFaultTx (s_ID src) fk;
  let action := default EmptyString (ep_IncidentAction ev) in
  if decide (action = "open" ∨ action = "update")%string then
    pending ← findPendingResolve (s_ID src) fk (ep_Seq ev);
    match f with
    | None =>
      f ← newFaultRow (s_ID src) fk ev;
      match pending with
      | Some p =>
        mret {| ao_fault := Some (late_resolved f p); ao_incident := Some (f_Incident f);
                ao_notifyKind := EmptyString; ao_changed := true |}
      | None =>
        mret {| ao_fault := Some f; ao_incident := Some (f_Incident f);
                ao_notifyKind := "incident_open"; ao_changed := true |}
      end
    | Some f =>
      if decide (f_State f = "open"%string) then
        mret {| ao_fault := Some (mergeFaultEvent f ev); ao_incident := Some (f_Incident f);
                ao_notifyKind := "incident_update"; ao_changed := true |}
      else
        match pending with
        | Some _ =>
          mret {| ao_fault := Some (mergeFaultEvent f ev); ao_incident := Some (f_Incident f);
                  ao_notifyKind := EmptyString; ao_changed := true |}
        | None =>
          mret {| ao_fault := Some (reopen f ev); ao_incident := Some (f_Incident f + 1);
                  ao_notifyKind := "incident_open"; ao_changed := true |}
        end
    end
  else if decide (action = "resolve"%string) then
    match f with
    | Some f' =>
      if decide (f_State f' = "open"%string ∧ f_OpenedBySeq f' < ep_Seq ev) then
        mret {| ao_fault := Some (resolve_fault f' ev); ao_incident := Some (f_Incident f');
                ao_notifyKind := "incident_resolved"; ao_changed := true |}
      else
        tx_exec (λ d, set_d_pending (tbl_insert_ignore
          {| p_source_id := s_ID src; p_fault_key := fk; p_seq := ep_Seq ev;
             p_occurred_at := ep_OccurredAt ev; p_title := ep_Title ev;
             p_event_id := ep_EventID ev |} (d_pending d)) d) ;;
        mret {| ao_fault := f; ao_incident := None; ao_notifyKind := EmptyString; ao_changed := false |}
    | None =>
      tx_exec (λ d, set_d_pending (tbl_insert_ignore
        {| p_source_id := s_ID src; p_fault_key := fk; p_seq := ep_Seq ev;
           p_occurred_at := ep_OccurredAt ev; p_title := ep_Title ev;
           p_event_id := ep_EventID ev |} (d_pending d)) d) ;;
      mret {| ao_fault := None; ao_incident := None; ao_notifyKind := EmptyString; ao_changed := false |}
    end
  else st_throw (EAction action).

(** [UPDATE messages SET fault_id, incident WHERE ... fault_id IS NULL AND event_seq BETWEEN] *)
(* @src hub/fault.go 208-218 !applyEventTx *)
Definition backfill (f : faultRow) (sourceID fk : string) (resolvedBySeq : Z) (m : messageRow)
    : messageRow :=
  if decide (m_SourceID m = sourceID ∧ m_FaultKey m = Some fk ∧ m_FaultID m = None ∧
             f_OpenedBySeq f <= m_EventSeq m <= resolvedBySeq)
  then set_m_Incident (Some (f_Incident f)) (set_m_FaultID (Some (f_ID f)) m) else m.

(* @src hub/fault.go 191-207 !applyEventTx *)
(** Step 4: the fault's change and row, if it changed. *)
Definition store_fault (src : sourceRow) (o : eventVars) (changes : list changeEntry) : HM (option faultRow * list changeEntry) :=
  match ao_fault o with
  | Some f =>
    if ao_changed o then
      entry ← insertChangeObj "fault" (f_ID f)
        (λ seq, DFault (set_fj_ChangeSeq seq (toFaultJSON f (s_Name src)))) None;
      let f := set_f_ChangeSeq (ce_Seq entry) f in
      upsertFaultTx f ;; mret (Some f, changes ++ [entry])
    else mret (Some f, changes)
  | None => mret (None, changes)
  end.

(* @src hub/fault.go 209-219 !applyEventTx *)
(** Step 5: messages received while their resolve was pending. *)
Definition attach_messages (src : sourceRow) (fk : option string) (o : eventVars) (f : option faultRow) : HM () :=
  match f, ao_incident o with
  | Some f, Some _ =>
    match f_ResolvedBySeq f with
    | Some r =>
      if decide (f_State f = "resolved"%string) then
        tx_exec (λ d, set_d_messages (backfill f (s_ID src) (default EmptyString fk) r <$> d_messages d) d)
      else mret ()
    | None => mret ()
    end
  | _, _ => mret ()
  end.

(* @src hub/fault.go 191-249 !applyEventTx *)
(** The end of [applyEventTx], from the message [m] on: steps 4 and 5, and the message itself. *)
Definition record_message (src : sourceRow) (fk : option string) (o : eventVars) (m : messageRow)
    (changes : list changeEntry) : HM (list changeEntry) :=
  fc ← store_fault src o changes;
  let '(f, changes) := fc in
  attach_messages src fk o f ;;
  let notifyKind := if decide (ao_notifyKind o = EmptyString) then "new_message"%string
                    else ao_notifyKind o in
  let notify := {| nb_Kind := notifyKind; nb_FaultID := f_ID <$> f;
                   nb_Muted := match f with Some f => bool_decide (is_Some (f_MutedAt f)) | None => false end |} in
  entry ← insertChangeObj "message" (m_ID m)
    (λ seq, DMessage (set_mj_ChangeSeq seq (toMessageJSON m (s_Name src)))) (Some notify);
  let m := set_m_ChangeSeq (ce_Seq entry) m in
  tx_insert (λ d, (λ l, set_d_messages l d) <$> tbl_insert m (d_messages d)) ;;
  mret (changes ++ [entry]).

(* @src hub/fault.go 22-190 !applyEventTx *)
Definition applyEventTx (src : sourceRow) (ev : eventPayload) (internal outOfOrder : bool)
    (changes : list changeEntry) : HM (list changeEntry) :=
  now ← nowUTC;
  let fk := non_empty (ep_FaultKey ev) in
  let act := non_empty (ep_IncidentAction ev) in
  let body := ep_Body ev in
  let ref := if decide (ep_Ref ev = EmptyString ∨ ep_Ref ev = "null"%string) then None
             else Some (ep_Ref ev) in
  (* 1) the event row *)
  tx_insert (λ d, (λ l, set_d_events l d) <$> tbl_insert
    {| e_source_id := s_ID src; e_event_id := ep_EventID ev; e_seq := ep_Seq ev;
       e_kind := ep_Kind ev; e_occurred_at := ep_OccurredAt ev; e_severity := ep_Severity ev;
       e_fault_key := fk; e_incident_action := act; e_title := ep_Title ev; e_body := body;
       e_ref_json := ref; e_attachments_json := ep_Attachments ev; e_out_of_order := outOfOrder;
       e_internal := internal; e_received_at := fmtTS now |} (d_events d)) ;;
  (* 2) the state machine *)
  o ← match fk with
      | Some k => fault_transition src ev k
      | None => mret {| ao_fault := None; ao_incident := None; ao_notifyKind := EmptyString;
                        ao_changed := false |}
      end;
  (* 3) the message *)
  let msgKind := if decide (internal = false ∧ act = Some "open"%string) then "fault_open"%string
                 else ep_Kind ev in
  mid ← newID "msg_";
  let m := {| m_ID := mid; m_SourceID := s_ID src; m_Kind := msgKind; m_Severity := ep_Severity ev;
              m_Title := ep_Title ev; m_Body := body; m_OccurredAt := ep_OccurredAt ev;
              m_ReceivedAt := fmtTS now; m_ReadAt := None; m_FaultID := f_ID <$> ao_fault o;
              m_Incident := ao_incident o; m_Ref := ref; m_Attachments := ep_Attachments ev;
              m_EventID := ep_EventID ev; m_EventSeq := ep_Seq ev; m_FaultKey := fk;
              m_OutOfOrder := outOfOrder; m_ChangeSeq := 0 |} in
  record_message src fk o m changes.

(* @src hub/fault.go 349-365 nextHubSeqTx *)
Definition nextHubSeqTx : HM Z :=
  tx_exec (λ d, match d_meta d !! "hub_event_seq"%string with
                | Some _ => d
                | None => set_d_meta (<["hub_event_seq"%string := hubSeqBase]> (d_meta d)) d
                end) ;;
  tx_exec (λ d, match d_meta d !! "hub_event_seq"%string with
                | Some v => set_d_meta (<["hub_event_seq"%string := v + 1]> (d_meta d)) d
                | None => d
                end) ;;
  tx_row (λ d, d_meta d !! "hub_event_seq"%string).

(* @src hub/fault.go 367-389 emitHubEventTx *)
Definition emitHubEventTx (src : sourceRow) (kind severity : string) (faultKey action : option string)
    (title : string) (body : option string) (occurredAt : Z) (changes : list changeEntry)
    : HM (list changeEntry) :=
  seq ← nextHubSeqTx;
  id ← newID "hub_";
  applyEventTx src
    {| ep_EventID := id; ep_Seq := seq; ep_Kind := kind; ep_OccurredAt := fmtTS occurredAt;
       ep_Severity := severity; ep_FaultKey := faultKey; ep_IncidentAction := action;
       ep_Title := title; ep_Body := body; ep_Ref := EmptyString; ep_Attachments := [] |}
    true false changes.

(* @src hub/fault.go 391-404 touchSourceSeenTx *)
(** The source row comes back with the [LastSeenAt] the Go code sets in place. *)
Definition touchSourceSeenTx (src : sourceRow) (at_ : Z) (changes : list changeEntry)
    : HM (sourceRow * list changeEntry) :=
  let src := set_s_LastSeenAt (Some (fmtTS at_)) src in
  tx_exec (λ d, set_d_sources (tbl_update (s_ID src) (set_s_LastSeenAt (Some (fmtTS at_))) (d_sources d)) d) ;;
  hb ← loadFaultTx (s_ID src) "heartbeat";
  match hb with
  | Some hb =>
    if decide (f_State hb = "open"%string) then
      changes ← emitHubEventTx src "heartbeat_back" "info" (Some "heartbeat") (Some "resolve")
        (s_Name src +:+ " 恢复接入") (Some ("来源恢复上报（" +:+ s_Kind src +:+ "）")) at_ changes;
      mret (src, changes)
    else mret (src, changes)
  | None => mret (src, changes)
  end%string.
End fault.

(** ** The state machine, purely *)

(** The row [newFaultRow] makes. *)
Definition fresh_fault (id sourceID faultKey : string) (ev : eventPayload) : faultRow :=
  {| f_ID := id; f_SourceID := sourceID; f_FaultKey := faultKey; f_Severity := ep_Severity ev;
     f_Title := ep_Title ev; f_Summary := ep_Body ev; f_State := "open"; f_Incident := 1;
     f_OpenedAt := ep_OccurredAt ev; f_OpenedBySeq := ep_Seq ev;
     f_LastEventAt := ep_OccurredAt ev; f_ResolvedAt := None; f_ResolvedBySeq := None;
     f_ResolvedBy := None; f_EventCount := 1; f_ReadAt := None; f_MutedAt := None;
     f_MutedUntil := None; f_ChangeSeq := 0 |}.

Definition pending_of (sourceID fk : string) (ev : eventPayload) : pendingRow :=
  {| p_source_id := sourceID; p_fault_key := fk; p_seq := ep_Seq ev;
     p_occurred_at := ep_OccurredAt ev; p_title := ep_Title ev; p_event_id := ep_EventID ev |}.

(** The outcome and the pending resolves after it, from the fault found (if any) and the
    pending resolves before; [None] for an action that is none of the three. *)
Definition transition (id sourceID fk : string) (ev : eventPayload) (f : option faultRow) (d : db)
    : option (eventVars * list pendingRow) :=
  let action := default EmptyString (ep_IncidentAction ev) in
  let out f i n := Some ({| ao_fault := Some f; ao_incident := Some i; ao_notifyKind := n;
                            ao_changed := true |}, d_pending d) in
  if decide (action = "open" ∨ action = "update")%string then
    match f, find_pending sourceID fk (ep_Seq ev) d with
    | None, Some p => out (late_resolved (fresh_fault id sourceID fk ev) p) 1 EmptyString
    | None, None => out (fresh_fault id sourceID fk ev) 1 "incident_open"%string
    | Some f, p =>
      if decide (f_State f = "open"%string) then out (mergeFaultEvent f ev) (f_Incident f) "incident_update"%string
      else match p with
           | Some _ => out (mergeFaultEvent f ev) (f_Incident f) EmptyString
           | None => out (reopen f ev) (f_Incident f + 1) "incident_open"%string
           end
    end
  else if decide (action = "resolve"%string) then
    let wait := Some ({| ao_fault := f; ao_incident := None; ao_notifyKind := EmptyString; ao_changed := false |},
                      tbl_insert_ignore (pending_of sourceID fk ev) (d_pending d)) in
    match f with
    | Some f => if decide (f_State f = "open"%string ∧ f_OpenedBySeq f < ep_Seq ev)
                then out (resolve_fault f ev) (f_Incident f) "incident_resolved"%string else wait
    | None => wait
    end
  else None.

(** The outcome of an event without a fault key. *)
Definition no_outcome : eventVars :=
  {| ao_fault := None; ao_incident := None; ao_notifyKind := EmptyString; ao_changed := false |}.

Definition outcome_of (id : string) (src : sourceRow) (ev : eventPayload) (d : db)
    : option (eventVars * list pendingRow) :=
  match non_empty (ep_FaultKey ev) with
  | Some k => transition id (s_ID src) k ev (find_fault (s_ID src) k d) d
  | None => Some (no_outcome, d_pending d)
  end.

(** The event row of an event. *)
Definition event_row (src : sourceRow) (ev : eventPayload) (internal outOfOrder : bool) (now : Z) : eventRow :=
  {| e_source_id := s_ID src; e_event_id := ep_EventID ev; e_seq := ep_Seq ev;
     e_kind := ep_Kind ev; e_occurred_at := ep_OccurredAt ev; e_severity := ep_Severity ev;
     e_fault_key := non_empty (ep_FaultKey ev); e_incident_action := non_empty (ep_IncidentAction ev);
     e_title := ep_Title ev; e_body := ep_Body ev;
     e_ref_json := if decide (ep_Ref ev = EmptyString ∨ ep_Ref ev = "null"%string) then None
                   else Some (ep_Ref ev);
     e_attachments_json := ep_Attachments ev; e_out_of_order := outOfOrder;
     e_internal := internal; e_received_at := fmtTS now |}.

(** The fault row that is stored: the outcome's, with its change number. *)
Definition stored_fault (o : eventVars) (d : db) : option faultRow :=
  match ao_fault o with
  | Some f => Some (if ao_changed o then set_f_ChangeSeq (change_seq d + 1) f else f)
  | None => None
  end.

(** The faults and messages tables after the event. *)
Definition faults_after (o : eventVars) (d : db) : option (list faultRow) :=
  match ao_fault o, ao_changed o with
  | Some f, true => upsert_fault (set_f_ChangeSeq (change_seq d + 1) f) (d_faults d)
  | _, _ => Some (d_faults d)
  end.

Definition backfilled (src : sourceRow) (ev : eventPayload) (o : eventVars) (d : db) : list messageRow :=
  match stored_fault o d, ao_incident o with
  | Some f, Some _ =>
    match f_ResolvedBySeq f with
    | Some r => if decide (f_State f = "resolved"%string)
                then backfill f (s_ID src) (default EmptyString (non_empty (ep_FaultKey ev))) r <$> d_messages d
                else d_messages d
    | None => d_messages d
    end
  | _, _ => d_messages d
  end.

(** The notification of the event's message. *)
Definition notify_of (o : eventVars) (d : db) : notifyBlock :=
  {| nb_Kind := if decide (ao_notifyKind o = EmptyString) then "new_message"%string else ao_notifyKind o;
     nb_FaultID := f_ID <$> stored_fault o d;
     nb_Muted := match stored_fault o d with Some f => bool_decide (is_Some (f_MutedAt f)) | None => false end |}.

(** A message of the event: everything but its identity, its time and its change number. *)
Definition message_of (src : sourceRow) (ev : eventPayload) (internal outOfOrder : bool)
    (o : eventVars) (id : string) (now seq : Z) : messageRow :=
  {| m_ID := id; m_SourceID := s_ID src;
     m_Kind := if decide (internal = false ∧ non_empty (ep_IncidentAction ev) = Some "open"%string)
               then "fault_open"%string else ep_Kind ev;
     m_Severity := ep_Severity ev; m_Title := ep_Title ev; m_Body := ep_Body ev;
     m_OccurredAt := ep_OccurredAt ev; m_ReceivedAt := fmtTS now; m_ReadAt := None;
     m_FaultID := f_ID <$> ao_fault o; m_Incident := ao_incident o;
     m_Ref := if decide (ep_Ref ev = EmptyString ∨ ep_Ref ev = "null"%string) then None else Some (ep_Ref ev);
     m_Attachments := ep_Attachments ev; m_EventID := ep_EventID ev; m_EventSeq := ep_Seq ev;
     m_FaultKey := non_empty (ep_FaultKey ev); m_OutOfOrder := outOfOrder; m_ChangeSeq := seq |}.

(** What a successful application did to the tables, drawing the ULIDs [lo] to [hi]. *)
Definition applied `{HE : HubEnv} (lo hi : nat) (src : sourceRow) (ev : eventPayload) (internal outOfOrder : bool) (d d' : db)
    (new : list changeEntry) : Prop :=
  ∃ n mid now o pend faults rows,
    (lo <= n < hi)%nat ∧
    outcome_of ("flt_" +:+ h_ulid n)%string src ev d = Some (o, pend) ∧
    (s_ID src, ep_EventID ev) ∉ (pkey <$> d_events d : list (string * string)) ∧
    d_events d' = d_events d ++ [event_row src ev internal outOfOrder now] ∧
    d_pending d' = pend ∧
    faults_after o d = Some faults ∧ d_faults d' = faults ∧
    mid ∉ m_ID <$> d_messages d ∧
    d_messages d' = backfilled src ev o d ++
      [message_of src ev internal outOfOrder o mid now (change_seq d')] ∧
    log_grows d d' rows ∧ new = entry_of <$> rows ∧
    (length rows = if ao_changed o then 2 else 1)%nat ∧
    ch_notify <$> last rows = Some (Some (notify_of o d)) ∧
    (d_sources d' = d_sources d ∧ d_samples d' = d_samples d ∧ d_raw d' = d_raw d ∧ d_5m d' = d_5m d ∧
     d_sessions d' = d_sessions d ∧ d_rules d' = d_rules d ∧ d_settings d' = d_settings d ∧
     d_meta d' !! "hub_event_seq"%string = d_meta d !! "hub_event_seq"%string) ∧
    ∃ k, (lo <= k < hi)%nat ∧ mid = ("msg_" +:+ h_ulid k)%string.

(** ** The invariant of the tables *)

(** An open round has no resolution; a resolved one has all of it, above its opening. *)
Definition fault_ok (f : faultRow) : Prop :=
  1 <= f_Incident f ∧ 1 <= f_EventCount f ∧
  ((f_State f = "open"%string ∧ f_ResolvedAt f = None ∧ f_ResolvedBySeq f = None ∧ f_ResolvedBy f = None) ∨
   (f_State f = "resolved"%string ∧ is_Some (f_ResolvedAt f) ∧ is_Some (f_ResolvedBy f) ∧
    ∃ r, f_ResolvedBySeq f = Some r ∧ f_OpenedBySeq f < r)).

(** Keys are unique, fault rows are well formed, a message that names a fault names one that
    exists (unless an iteration over rows may break off, which retention does not notice),
    and the change log is in order. *)
Record db_ok `{HE : HubEnv} (d : db) : Prop := {
  ok_fault_ids : NoDup (f_ID <$> d_faults d);
  ok_fault_slots : NoDup (fault_slot <$> d_faults d);
  ok_fault_rows : Forall fault_ok (d_faults d);
  ok_message_ids : NoDup (m_ID <$> d_messages d);
  ok_events : NoDup (pkey <$> d_events d : list (string * string));
  ok_refs : whole_rows → ∀ m id, m ∈ d_messages d → m_FaultID m = Some id → id ∈ f_ID <$> d_faults d;
  ok_log : log_ok d }.

(** ** The abstract fault: a counter of rounds and whether the current one is open *)

Definition abs_fault (s k : string) (d : db) : option (Z * bool) :=
  (λ f, (f_Incident f, bool_decide (f_State f = "open"%string))) <$> find_fault s k d.

(** What an incident action does to it. *)
Definition abs_step (a : option (Z * bool)) (action : string) : option (Z * bool) :=
  if decide (action = "open" ∨ action = "update")%string then
    match a with
    | None => Some (1, true)
    | Some (n, true) => Some (n, true)
    | Some (n, false) => Some (n + 1, true)
    end
  else if decide (action = "resolve"%string) then
    match a with Some (n, true) => Some (n, false) | _ => a end
  else a.

(** An event's effect on the fault of key [k]. *)
Definition abs_event (k : string) (a : option (Z * bool)) (ev : eventPayload) : option (Z * bool) :=
  if decide (non_empty (ep_FaultKey ev) = Some k)
  then abs_step a (default EmptyString (ep_IncidentAction ev)) else a.

(** Sequence number [q] is above everything on record for source [s] and key [k]. *)
Definition ahead (s k : string) (q : Z) (d : db) : Prop :=
  (∀ p, p ∈ d_pending d → p_source_id p = s → p_fault_key p = k → p_seq p < q) ∧
  (∀ f, find_fault s k d = Some f → f_OpenedBySeq f < q).

(** The ULIDs from the [lo]-th on are new to the faults table. *)
Definition fresh_ulids `{HE : HubEnv} (lo : nat) (d : db) : Prop :=
  ∀ n, (lo <= n)%nat → ("flt_" +:+ h_ulid n)%string ∉ f_ID <$> d_faults d.

(** A ULID is never drawn twice. *)
Definition ulids_unique `{HE : HubEnv} : Prop := ∀ n m, h_ulid n = h_ulid m → n = m.

(** ** Lemmas *)

Section fault_lemmas.
Context `{HE : HubEnv}.
Implicit Types (w : World) (d : db).

Lemma same_outside_ids w w' : same_outside w w' → (w_ids w <= w_ids w')%nat.
Proof. by intros (_ & _ & _ & ?). Qed.

Lemma fault_transition_Ok src ev fk w d o w' :
  w_tx w = Some d → fault_transition src ev fk w = (Ok o, w') →
  ∃ n pend, transition ("flt_" +:+ h_ulid n)%string (s_ID src) fk ev (find_fault (s_ID src) fk d) d = Some (o, pend) ∧
    (w_ids w <= n <= w_ids w')%nat ∧ w_tx w' = Some (set_d_pending pend d) ∧ same_outside w w'.
Proof.
  intros Hd H. unfold fault_transition in H. mrun H.
  apply (tx_query_Ok _ _ _ _ _ Hd) in Hrun as (-> & Hd1 & Hs1).
  assert (∀ w', w_tx w' = Some d → w_tx w' = Some (set_d_pending (d_pending d) d)) as Hid by (by destruct d).
  assert (∀ w', same_outside w w' → (w_ids w <= w_ids w <= w_ids w')%nat) as Hids.
  { intros w2 Hs%same_outside_ids. lia. }
  unfold transition. destruct (decide (_ ∨ _)) as [Ha|Ha].
  - mrun H. apply (tx_query_Ok _ _ _ _ _ Hd1) in Hrun as (-> & Hd2 & Hs2).
    assert (same_outside w s0) as Hs by (by rewrite Hs1).
    destruct (find_fault (s_ID src) fk d) as [f|].
    + exists (w_ids w). destruct (decide (f_State f = _)); [|destruct (find_pending _ _ _ _)];
        injection H as <- <-; eexists; (split; [reflexivity|]); auto.
    + mrun H. unfold newFaultRow in Hrun. mrun Hrun.
      apply newID_Ok in Hrun0 as (-> & Hn & Hd3 & Hs3). injection Hrun as <- <-.
      assert (same_outside w s2) as Hs' by (by rewrite Hs). rewrite Hd2 in Hd3.
      pose proof (same_outside_ids _ _ Hs). exists (w_ids s0).
      destruct (find_pending _ _ _ _); injection H as <- <-; eexists; (split; [reflexivity|]);
        (split; [lia|]); auto.
  - destruct (decide (_ = "resolve"%string)) as [Hr|Hr]; [|done]. exists (w_ids w).
    destruct (find_fault (s_ID src) fk d) as [f|].
    + destruct (decide (_ ∧ _)) as [Ho|Ho].
      * injection H as <- <-. eexists. split; [reflexivity|]. auto.
      * mrun H. apply (tx_exec_Ok _ _ _ _ _ Hd1) in Hrun as [Hd2 Hs2]. injection H as <- <-.
        assert (same_outside w s0) by (by rewrite Hs1).
        eexists. split; [reflexivity|]. auto.
    + mrun H. apply (tx_exec_Ok _ _ _ _ _ Hd1) in Hrun as [Hd2 Hs2]. injection H as <- <-.
      assert (same_outside w s0) by (by rewrite Hs1).
      eexists. split; [reflexivity|]. auto.
Qed.

Lemma tbl_insert_event (e : eventRow) l l' :
  tbl_insert e l = Some l' → pkey e ∉ (pkey <$> l : list (string * string)) ∧ l' = l ++ [e].
Proof. apply tbl_insert_Some. Qed.

Lemma outcome_unchanged fid src ev d o pend :
  outcome_of fid src ev d = Some (o, pend) → ao_fault o = None → ao_changed o = false.
Proof.
  unfold outcome_of, transition. repeat (case_match || case_decide); intros; by simplify_eq.
Qed.

Lemma backfill_id f s k r m : m_ID (backfill f s k r m) = m_ID m.
Proof. unfold backfill. by case_decide. Qed.

Lemma backfilled_ids src ev o d : m_ID <$> backfilled src ev o d = m_ID <$> d_messages d.
Proof.
  unfold backfilled. repeat case_match; try done.
  rewrite <-list_fmap_compose. apply list_fmap_ext. intros i m _. apply backfill_id.
Qed.

(** What the state machine decides, for an event with a key and for one without. *)
Lemma decided_Ok src ev w d d2 o w' :
  d_faults d2 = d_faults d → d_pending d2 = d_pending d → w_tx w = Some d2 →
  match non_empty (ep_FaultKey ev) with
  | Some k => fault_transition src ev k
  | None => mret no_outcome
  end w = (Ok o, w') →
  ∃ n pend, outcome_of ("flt_" +:+ h_ulid n)%string src ev d = Some (o, pend) ∧
    (w_ids w <= n <= w_ids w')%nat ∧ w_tx w' = Some (set_d_pending pend d2) ∧ same_outside w w'.
Proof.
  intros Hf Hp Hd H. unfold outcome_of. destruct (non_empty (ep_FaultKey ev)) as [k|].
  - apply (fault_transition_Ok _ _ _ _ _ _ _ Hd) in H as (n & pend & Ht & ? & ? & ?).
    exists n, pend. split; [|done]. rewrite <-Ht. unfold transition, find_fault, find_pending. by rewrite Hf, Hp.
  - injection H as <- <-. exists (w_ids w). eexists. split; [reflexivity|].
    split; [lia|]. split; [|done]. rewrite Hd, <-Hp. by destruct d2.
Qed.

(** Step 4. *)
Lemma store_fault_Ok src o ch w d r w' : (ao_fault o = None → ao_changed o = false) →
  w_tx w = Some d → store_fault src o ch w = (Ok r, w') →
  ∃ rows faults d', w_tx w' = Some d' ∧ same_outside w w' ∧ faults_after o d = Some faults ∧
    d' = set_d_faults faults (set_d_changes (d_changes d') (set_d_meta (d_meta d') d)) ∧
    log_grows d d' rows ∧ r = (stored_fault o d, ch ++ (entry_of <$> rows)) ∧
    (length rows = if ao_changed o then 1 else 0)%nat ∧
    d_meta d' !! "hub_event_seq"%string = d_meta d !! "hub_event_seq"%string.
Proof.
  intros Hnone Hd H. unfold store_fault in H. unfold faults_after, stored_fault.
  assert (∀ f : option faultRow, ∃ rows faults d', w_tx w = Some d' ∧ same_outside w w ∧ Some (d_faults d) = Some faults ∧
    d' = set_d_faults faults (set_d_changes (d_changes d') (set_d_meta (d_meta d') d)) ∧
    log_grows d d' rows ∧ (f, ch) = (f, ch ++ (entry_of <$> rows)) ∧ (length rows = 0)%nat ∧
    d_meta d' !! "hub_event_seq"%string = d_meta d !! "hub_event_seq"%string) as Hsame.
  { intros f. exists [], (d_faults d), d. rewrite app_nil_r.
    split_and!; try done; [by destruct d|apply log_grows_refl|apply log_grows_refl..]. }
  destruct (ao_fault o) as [f|].
  - destruct (ao_changed o); [|injection H as <- <-; apply Hsame].
    mrun H. apply (insertChangeObj_Ok _ _ _ _ _ _ _ _ Hd) in Hrun as (n & Hd1 & Hs1 & ->).
    mrun H. unfold upsertFaultTx in Hrun. apply (tx_insert_Ok _ _ _ _ _ Hd1) in Hrun as (d2 & Hup & Hd2 & Hs2).
    injection H as <- <-. cbn [ce_Seq] in *. change (d_faults (log_change _ _ _ _ _ _)) with (d_faults d) in Hup.
    destruct (upsert_fault _ _) as [faults|] eqn:Eup; [|done]. injection Hup as <-.
    eexists [_], faults, _. split; [exact Hd2|]. split; [by rewrite Hs1, Hs2|]. split; [done|].
    split; [reflexivity|]. split; [by eapply log_grows_same; [apply log_change_grows|..]|].
    split; [reflexivity|]. split; [done|]. cbn. by rewrite lookup_insert_ne by done.
  - rewrite (Hnone eq_refl) in *. injection H as <- <-. apply Hsame.
Qed.

(** Step 5. *)
Lemma attach_messages_Ok src ev o w d0 d w' : d_messages d = d_messages d0 → w_tx w = Some d →
  attach_messages src (non_empty (ep_FaultKey ev)) o (stored_fault o d0) w = (Ok tt, w') →
  w_tx w' = Some (set_d_messages (backfilled src ev o d0) d) ∧ same_outside w w'.
Proof.
  intros Hm Hd. assert (set_d_messages (d_messages d0) d = d) as Hid by (rewrite <-Hm; by destruct d).
  unfold attach_messages, backfilled. destruct (stored_fault o d0) as [f|];
    [destruct (ao_incident o); [destruct (f_ResolvedBySeq f); [destruct (decide (f_State f = "resolved"%string))|]|]|].
  1: { intros [Hd' Hs]%(tx_exec_Ok _ _ _ _ _ Hd). by rewrite <-Hm. }
  all: intros [= <-]; by rewrite Hid.
Qed.

(** The end of [applyEventTx]: from the tables [d1] the state machine left behind. *)
Lemma record_message_Ok src ev o m ch d0 d1 w ch' w' : (ao_fault o = None → ao_changed o = false) →
  d_faults d1 = d_faults d0 → d_messages d1 = d_messages d0 → d_changes d1 = d_changes d0 → d_meta d1 = d_meta d0 →
  w_tx w = Some d1 → record_message src (non_empty (ep_FaultKey ev)) o m ch w = (Ok ch', w') →
  ∃ faults rows d', w_tx w' = Some d' ∧ same_outside w w' ∧ ch' = ch ++ (entry_of <$> rows) ∧
    faults_after o d0 = Some faults ∧ m_ID m ∉ m_ID <$> d_messages d0 ∧
    d' = set_d_messages (backfilled src ev o d0 ++ [set_m_ChangeSeq (change_seq d') m])
      (set_d_faults faults (set_d_changes (d_changes d') (set_d_meta (d_meta d') d1))) ∧
    log_grows d0 d' rows ∧ (length rows = if ao_changed o then 2 else 1)%nat ∧
    ch_notify <$> last rows = Some (Some (notify_of o d0)) ∧
    d_meta d' !! "hub_event_seq"%string = d_meta d0 !! "hub_event_seq"%string.
Proof.
  intros Hnone Hf Hm Hc Hmeta Hd H. unfold record_message in H. mrun H. destruct a as [f changes].
  apply (store_fault_Ok _ _ _ _ _ _ _ Hnone Hd) in Hrun as (rows & faults & d2 & Hd2 & Hs2 & Hfa & E2 & Hlog & [= -> ->] & Hlen & Hhub).
  assert (change_seq d1 = change_seq d0) as Hcs by (unfold change_seq; by rewrite Hmeta).
  assert (stored_fault o d1 = stored_fault o d0) as Hst by (unfold stored_fault; by rewrite Hcs).
  assert (faults_after o d1 = faults_after o d0) as Hfs by (unfold faults_after; by rewrite Hcs, Hf).
  rewrite Hst in H. rewrite Hfs in Hfa.
  mrun H. destruct a. apply (attach_messages_Ok src ev o _ d0 d2) in Hrun as [Hd3 Hs3]; [|by rewrite E2|exact Hd2].
  mrun H. apply (insertChangeObj_Ok _ _ _ _ _ _ _ _ Hd3) in Hrun as (n3 & Hd4 & Hs4 & ->).
  mrun H. apply (tx_insert_Ok _ _ _ _ _ Hd4) in Hrun as (d5 & Hins & Hd5 & Hs5).
  injection H as <- <-. cbn [ce_Seq] in *.
  change (change_seq (set_d_messages _ d2)) with (change_seq d2) in *.
  change (d_messages (log_change _ _ _ _ _ _)) with (backfilled src ev o d0) in Hins.
  destruct (tbl_insert _ _) as [msgs|] eqn:Em; [|done]. injection Hins as <-.
  apply tbl_insert_Some in Em as [Hmid ->].
  change (pkey <$> backfilled src ev o d0) with (m_ID <$> backfilled src ev o d0) in Hmid. rewrite backfilled_ids in Hmid.
  apply (log_grows_same_l d0) in Hlog; [|done|done].
  set (row := {| ch_seq := change_seq d2 + 1; ch_type := "message"; ch_ref_id := m_ID m;
    ch_data := DMessage (set_mj_ChangeSeq (change_seq d2 + 1) (toMessageJSON m (s_Name src)));
    ch_notify := Some (notify_of o d0); ch_created_at := fmtTS n3 |}).
  assert (log_grows d2 (log_change "message" (m_ID m) (DMessage (set_mj_ChangeSeq (change_seq d2 + 1) (toMessageJSON m (s_Name src))))
      (Some (notify_of o d0)) n3 (set_d_messages (backfilled src ev o d0) d2)) [row]) as Hlog2.
  { eapply log_grows_same_l; [| |apply log_change_grows]; done. }
  pose proof (log_grows_trans _ _ _ _ _ Hlog Hlog2) as Hgrow.
  exists faults, (rows ++ [row]). eexists. split; [exact Hd5|]. split; [by rewrite Hs2, Hs3, Hs4, Hs5|].
  split; [by rewrite fmap_app, app_assoc|]. split; [exact Hfa|]. split; [exact Hmid|]. split.
  { replace (change_seq (set_d_messages _ _)) with (change_seq d2 + 1) by (symmetry; exact (proj2 (proj2 Hlog2))).
    clear -E2. destruct d2, d1. cbn in E2 |- *. injection E2 as ->. intros. by subst. }
  split; [exact Hgrow|]. split; [rewrite length_app, Hlen; by destruct (ao_changed o)|].
  split; [by rewrite last_snoc|]. cbn. rewrite lookup_insert_ne by done. by rewrite Hhub, Hmeta.
Qed.

(** The whole effect of a successful [applyEventTx]. *)
Lemma applyEventTx_Ok src ev internal ooo ch w d ch' w' :
  w_tx w = Some d → applyEventTx src ev internal ooo ch w = (Ok ch', w') →
  ∃ d' new, w_tx w' = Some d' ∧ same_outside w w' ∧ ch' = ch ++ new ∧
    applied (w_ids w) (w_ids w') src ev internal ooo d d' new.
Proof.
  intros Hd H. unfold applyEventTx in H. mrun H. rename a into now.
  apply nowUTC_Ok in Hrun as [Hd1 Hs1]. rewrite Hd in Hd1.
  mrun H. apply (tx_insert_Ok _ _ _ _ _ Hd1) in Hrun as (d2 & Hins & Hd2 & Hs2).
  destruct (tbl_insert _ (d_events d)) as [evs|] eqn:Eev; [|done]. injection Hins as <-.
  apply tbl_insert_event in Eev as [Hfresh ->]. set (d2 := set_d_events _ d) in *.
  mrun H. rename a0 into o.
  apply (decided_Ok src ev _ d d2 _ _ eq_refl eq_refl Hd2) in Hrun as (n & pend & Hout & Hn & Hd3 & Hs3).
  mrun H. apply newID_Ok in Hrun as (-> & Hnid & Hd4 & Hs4). rewrite Hd3 in Hd4.
  apply (record_message_Ok src ev o _ _ d (set_d_pending pend d2)) in H
    as (faults & rows & d' & Hd5 & Hs5 & -> & Hfa & Hmid & E & Hlog & Hlen & Hlast & Hhub);
    [|by eapply outcome_unchanged|done..].
  exists d', (entry_of <$> rows). split; [exact Hd5|]. split; [by rewrite Hs1, Hs2, Hs3, Hs4, Hs5|]. split; [done|].
  assert (same_outside w s0) as A1%same_outside_ids by (by rewrite Hs1). pose proof (same_outside_ids _ _ Hs5).
  eexists n, _, now, o, pend, faults, rows. split; [lia|].
  split_and!; try done; try (rewrite E at 1; done). exists (w_ids s1). split; [lia|done].
Qed.

Lemma find_fault_Some s k d f :
  find_fault s k d = Some f → f ∈ d_faults d ∧ f_SourceID f = s ∧ f_FaultKey f = k.
Proof.
  unfold find_fault. destruct (filter _ _) as [|x l] eqn:E; [done|]. intros [= ->].
  assert (f ∈ filter (λ f, f_SourceID f = s ∧ f_FaultKey f = k) (d_faults d)) as H by (rewrite E; left).
  apply list_elem_of_filter in H. naive_solver.
Qed.

Lemma find_pending_Some s k n d p :
  find_pending s k n d = Some p →
  p ∈ d_pending d ∧ p_source_id p = s ∧ p_fault_key p = k ∧ n < p_seq p.
Proof.
  unfold find_pending. intros H.
  assert (p ∈ merge_sort pending_order (filter (λ p, p_source_id p = s ∧ p_fault_key p = k ∧ n < p_seq p)
    (d_pending d))) as Hp by (by apply head_Some_elem_of).
  rewrite merge_sort_Permutation in Hp. apply list_elem_of_filter in Hp. naive_solver.
Qed.

Lemma fault_ok_fresh id s k ev : fault_ok (fresh_fault id s k ev).
Proof. split_and!; cbn; [lia..|]. left. done. Qed.

Lemma fault_ok_merge f ev : fault_ok f → fault_ok (mergeFaultEvent f ev).
Proof. unfold fault_ok. cbn. intros (? & ? & ?). split_and!; [lia..|done]. Qed.

Lemma fault_ok_reopen f ev : fault_ok f → fault_ok (reopen f ev).
Proof. unfold fault_ok. cbn. intros (? & ? & ?). split_and!; [lia..|]. by left. Qed.

Lemma fault_ok_resolve f ev : f_OpenedBySeq f < ep_Seq ev → fault_ok f → fault_ok (resolve_fault f ev).
Proof. unfold fault_ok. cbn. intros ? (? & ? & ?). split_and!; [lia..|]. right. split_and!; eauto. Qed.

Lemma fault_ok_late f p : f_OpenedBySeq f < p_seq p → fault_ok f → fault_ok (late_resolved f p).
Proof. unfold fault_ok. cbn. intros ? (? & ? & ?). split_and!; [lia..|]. right. split_and!; eauto. Qed.

(** The fault an outcome names: the one found, or a fresh one, in a well-formed row. *)
Lemma transition_fault id s k ev d o pend f :
  Forall fault_ok (d_faults d) →
  transition id s k ev (find_fault s k d) d = Some (o, pend) → ao_fault o = Some f →
  fault_ok f ∧ fault_slot f = (s, k) ∧
  match find_fault s k d with Some f0 => f_ID f = f_ID f0 | None => f_ID f = id ∧ ao_changed o = true end.
Proof.
  intros Hok Ht Hf. unfold transition in Ht.
  destruct (find_fault s k d) as [f0|] eqn:E.
  - apply find_fault_Some in E as (Hin & Hs & Hk). rewrite Forall_forall in Hok.
    specialize (Hok f0 Hin). assert (fault_slot f0 = (s, k)) as Hslot by (unfold fault_slot; congruence).
    destruct (decide (_ ∨ _)).
    + destruct (decide (f_State f0 = _)); [|destruct (find_pending _ _ _ _)]; simplify_eq; cbn in Hf;
        injection Hf as <-; (split; [|done]);
        [by apply fault_ok_merge|by apply fault_ok_merge|by apply fault_ok_reopen].
    + destruct (decide (_ = "resolve"%string)); [|done].
      destruct (decide (_ ∧ _)) as [[_ ?]|?]; simplify_eq; cbn in Hf; injection Hf as <-; [|done].
      split; [|done]. by apply fault_ok_resolve.
  - destruct (decide (_ ∨ _)).
    + destruct (find_pending _ _ _ _) as [p|] eqn:Ep; simplify_eq; cbn in Hf; injection Hf as <-;
        (split; [|done]); [|apply fault_ok_fresh].
      apply find_pending_Some in Ep as (_ & _ & _ & Hlt). apply fault_ok_late; [done|apply fault_ok_fresh].
    + destruct (decide (_ = "resolve"%string)); by simplify_eq.
Qed.

Lemma upsert_keys f l l' :
  upsert_fault f l = Some l' →
  (f_ID f ∈ f_ID <$> l ∧ f_ID <$> l' = f_ID <$> l ∧ fault_slot <$> l' = fault_slot <$> l) ∨
  (f_ID f ∉ f_ID <$> l ∧ fault_slot f ∉ fault_slot <$> l ∧ l' = l ++ [f]).
Proof.
  unfold upsert_fault. destruct (tbl_lookup (f_ID f) l) as [x|] eqn:E.
  - intros [= <-]. left. apply tbl_lookup_Some in E as [Hx Hk].
    split; [change (f_ID f) with (id (f_ID f)); rewrite <-Hk; apply list_elem_of_fmap; eauto|].
    unfold tbl_update. rewrite <-!list_fmap_compose.
    split; apply list_fmap_ext; intros i y _; cbn; by case_decide.
  - apply tbl_lookup_None in E. case_decide; [done|]. intros [= <-]. by right.
Qed.

Lemma upsert_rows (P : faultRow → Prop) f l l' :
  (∀ x, x ∈ l → P x → P (fault_excluded f x)) → P f →
  upsert_fault f l = Some l' → Forall P l → Forall P l'.
Proof.
  intros Hx Hf. unfold upsert_fault. destruct (tbl_lookup _ _).
  - intros [= <-] Hl. rewrite Forall_forall in *. intros y (x & -> & Hin)%list_elem_of_fmap.
    case_decide; auto.
  - case_decide; [done|]. intros [= <-] Hl. apply Forall_app. split; [done|]. by repeat constructor.
Qed.

Lemma outcome_fault id src ev d o pend f :
  Forall fault_ok (d_faults d) → outcome_of id src ev d = Some (o, pend) → ao_fault o = Some f →
  fault_ok f ∧ (ao_changed o = false → f_ID f ∈ f_ID <$> d_faults d).
Proof.
  unfold outcome_of. destruct (non_empty _) as [k|]; [|intros _ [= <- _]; done].
  intros Hok Ht Hf. destruct (transition_fault _ _ _ _ _ _ _ _ Hok Ht Hf) as (H1 & _ & H2).
  split; [done|]. intros Hc. destruct (find_fault (s_ID src) k d) as [f0|] eqn:E; [|destruct H2 as [_ H2]; congruence].
  rewrite H2. apply list_elem_of_fmap. apply find_fault_Some in E. naive_solver.
Qed.

(** The fault's row is in the table afterwards, and no row disappears. *)
Lemma faults_after_ids id src ev d o pend l :
  Forall fault_ok (d_faults d) → outcome_of id src ev d = Some (o, pend) →
  faults_after o d = Some l →
  f_ID <$> d_faults d ⊆ f_ID <$> l ∧ (∀ f, ao_fault o = Some f → f_ID f ∈ f_ID <$> l).
Proof.
  intros Hok Hout Hfa. unfold faults_after in Hfa. destruct (ao_fault o) as [f|] eqn:Ef.
  - destruct (ao_changed o) eqn:Ec.
    + apply upsert_keys in Hfa as [(Hin & Hid & _)|(_ & _ & ->)]; cbn in *.
      * rewrite Hid. split; [done|]. by intros ? [= <-].
      * rewrite fmap_app. split; [set_solver|]. intros ? [= <-]. set_solver.
    + injection Hfa as <-. split; [done|]. intros ? [= <-].
      by destruct (outcome_fault _ _ _ _ _ _ _ Hok Hout Ef) as [_ H]; apply H.
  - injection Hfa as <-. done.
Qed.

Lemma backfill_ref f s k r m id :
  m_FaultID (backfill f s k r m) = Some id → m_FaultID m = Some id ∨ id = f_ID f.
Proof. unfold backfill. case_decide; cbn; naive_solver. Qed.

Lemma applied_ok lo hi src ev internal ooo d d' new :
  applied lo hi src ev internal ooo d d' new → db_ok d → db_ok d'.
Proof.
  intros (fid & mid & now & o & pend & faults & rows & _ & Hout & Hfresh & Hev & _ & Hfa & Hf & Hmid & Hm & Hlog & _) [H1 H2 H3 H4 H5 H6 H7].
  destruct (faults_after_ids _ _ _ _ _ _ _ H3 Hout Hfa) as [Hsub Hthe].
  assert (NoDup (f_ID <$> faults) ∧ NoDup (fault_slot <$> faults) ∧ Forall fault_ok faults) as (F1 & F2 & F3).
  { unfold faults_after in Hfa. destruct (ao_fault o) as [f|] eqn:Ef; [|by injection Hfa as <-].
    destruct (outcome_fault _ _ _ _ _ _ _ H3 Hout Ef) as [Hfok _].
    destruct (ao_changed o); [|by injection Hfa as <-].
    pose proof (upsert_rows fault_ok (set_f_ChangeSeq (change_seq d + 1) f) _ _ ltac:(by intros) Hfok Hfa H3).
    apply upsert_keys in Hfa as [(_ & -> & ->)|(Hi & Hs & ->)]; [done|].
    rewrite !fmap_app. split_and!; [|..|done]; apply NoDup_app; (split_and!; [done| |apply NoDup_singleton]);
      intros x Hx ->%list_elem_of_singleton; done. }
  assert (Hst : ∀ f, stored_fault o d = Some f → f_ID f ∈ f_ID <$> faults).
  { unfold stored_fault. intros f Hf0. destruct (ao_fault o) as [f1|] eqn:Ef; [|done].
    destruct (ao_changed o); injection Hf0 as <-; exact (Hthe _ eq_refl). }
  split.
  - by rewrite Hf.
  - by rewrite Hf.
  - by rewrite Hf.
  - rewrite Hm, fmap_app, backfilled_ids. apply NoDup_app. split_and!; [done| |apply NoDup_singleton].
    intros x Hx ->%list_elem_of_singleton. done.
  - rewrite Hev, fmap_app. apply NoDup_app. split_and!; [done| |apply NoDup_singleton].
    intros x Hx ->%list_elem_of_singleton. done.
  - rewrite Hf, Hm. intros Hwr m id [Hin|Hin]%elem_of_app Hid.
    + unfold backfilled in Hin.
      assert (m ∈ d_messages d ∨ ∃ f r m0, stored_fault o d = Some f ∧ m0 ∈ d_messages d ∧
        m = backfill f (s_ID src) (default EmptyString (non_empty (ep_FaultKey ev))) r m0) as [Hin'|(f & r & m0 & Hsf & Hin' & ->)].
      { destruct (stored_fault o d) as [f|]; [|by left]. destruct (ao_incident o); [|by left].
        destruct (f_ResolvedBySeq f) as [r|]; [|by left]. destruct (decide _); [|by left].
        apply list_elem_of_fmap in Hin as (m0 & -> & ?). right. eauto 10. }
      * apply Hsub. eauto.
      * apply backfill_ref in Hid as [?| ->]; [apply Hsub; eauto|]. by apply Hst.
    + apply list_elem_of_singleton in Hin as ->. cbn in Hid.
      destruct (ao_fault o) as [f|] eqn:Ef; [|done]. injection Hid as <-. by apply Hthe.
  - by eapply log_grows_ok.
Qed.
End fault_lemmas.

(** ** Programs that change the tables soundly and report every change they log *)

Section produces.
Context `{HE : HubEnv}.
Implicit Types (ch : list changeEntry).

(** The step keeps the invariant, and [new] is what it added to the log. *)
Definition tx_effect (d d' : db) (new : list changeEntry) : Prop :=
  (db_ok d → db_ok d') ∧ ∃ rows, log_grows d d' rows ∧ new = entry_of <$> rows.

(** A program run inside a transaction that was handed the changes [ch] and whose result
    carries [chs a]: on success these are [ch] and everything it logged, and the step is sound. *)
Definition produces {A} (ch : list changeEntry) (m : stM World herr A) (chs : A → list changeEntry) : Prop :=
  ∀ w d a w', w_tx w = Some d → m w = (Ok a, w') →
  ∃ d' new, w_tx w' = Some d' ∧ chs a = ch ++ new ∧ tx_effect d d' new.

(** A write that touches neither the log nor what the invariant speaks of. *)
Definition harmless (f : db → db) : Prop := ∀ d,
  d_faults (f d) = d_faults d ∧ d_messages (f d) = d_messages d ∧ d_events (f d) = d_events d ∧
  d_changes (f d) = d_changes d ∧ change_seq (f d) = change_seq d.

Lemma harmless_effect f d : harmless f → tx_effect d (f d) [].
Proof.
  intros Hf. destruct (Hf d) as (H1 & H2 & H3 & H4 & H5). split.
  - intros [K1 K2 K3 K4 K5 K6 [K7 K8]]. split; rewrite ?H1, ?H2, ?H3; try done.
    split; rewrite ?H4, ?H5; done.
  - exists []. split; [|done]. eapply log_grows_same; [apply log_grows_refl|done|done].
Qed.

Lemma tx_effect_refl d : tx_effect d d [].
Proof. split; [done|]. exists []. split; [apply log_grows_refl|done]. Qed.

Lemma tx_effect_trans d1 d2 d3 n1 n2 : tx_effect d1 d2 n1 → tx_effect d2 d3 n2 → tx_effect d1 d3 (n1 ++ n2).
Proof.
  intros [H1 (r1 & L1 & ->)] [H2 (r2 & L2 & ->)]. split; [auto|].
  exists (r1 ++ r2). split; [by eapply log_grows_trans|by rewrite fmap_app].
Qed.

Lemma log_change_effect typ ref data n now d :
  tx_effect d (log_change typ ref data n now d)
    [{| ce_Seq := change_seq d + 1; ce_Type := typ; ce_Data := data; ce_Notify := n |}].
Proof.
  split.
  - intros [K1 K2 K3 K4 K5 K6 K7]. split; try done. eapply log_grows_ok; [done|apply log_change_grows].
  - eexists. split; [apply log_change_grows|done].
Qed.

Lemma produces_ret {A} ch (a : A) chs : chs a = ch → produces ch (mret a) chs.
Proof. intros Ha w d a' w' Hd [= <- <-]. exists d, []. rewrite app_nil_r. split_and!; [done..|apply tx_effect_refl]. Qed.

Lemma produces_bind {A B} ch (m : stM World herr A) (k : A → stM World herr B) mid chs :
  produces ch m mid → (∀ a, produces (mid a) (k a) chs) → produces ch (m ≫= k) chs.
Proof.
  intros Hm Hk w d b w' Hd H. apply st_bind_Ok in H as (a & w1 & H1 & H2).
  destruct (Hm _ _ _ _ Hd H1) as (d1 & n1 & Hd1 & E1 & T1).
  destruct (Hk a _ _ _ _ Hd1 H2) as (d2 & n2 & Hd2 & E2 & T2).
  exists d2, (n1 ++ n2). split; [done|]. split; [by rewrite E2, E1, app_assoc|].
  by eapply tx_effect_trans.
Qed.

(** A step that logs nothing hands the changes on. *)
Lemma produces_step {A B} ch (m : stM World herr A) (k : A → stM World herr B) chs :
  produces ch m (λ _, ch) → (∀ a, produces ch (k a) chs) → produces ch (m ≫= k) chs.
Proof. apply produces_bind. Qed.

Lemma produces_throw {A} ch e (chs : A → _) : produces ch (st_throw e) chs.
Proof. by intros w d a w' Hd [=]. Qed.

Lemma produces_quiet {A} ch (m : stM World herr A) :
  (∀ w, w_tx (m w).2 = w_tx w) → produces ch m (λ _, ch).
Proof.
  intros Hm w d a w' Hd H. specialize (Hm w). rewrite H in Hm. cbn in Hm. exists d, [].
  rewrite app_nil_r, Hm. split_and!; [done..|apply tx_effect_refl].
Qed.

Lemma produces_query {A} ch (f : db → A) : produces ch (tx_query f) (λ _, ch).
Proof.
  intros w d a w' Hd H. apply (tx_query_Ok _ _ _ _ _ Hd) in H as (_ & Hd' & _).
  exists d, []. rewrite app_nil_r. split_and!; [done..|apply tx_effect_refl].
Qed.

Lemma produces_rows {A} ch (f : db → list A) : produces ch (tx_rows f) (λ _, ch).
Proof. intros w d a w' Hd H. by eapply produces_query. Qed.

Lemma produces_row {A} ch (f : db → option A) : produces ch (tx_row f) (λ _, ch).
Proof.
  intros w d a w' Hd H. apply (tx_row_Ok _ _ _ _ _ Hd) in H as (_ & Hd' & _).
  exists d, []. rewrite app_nil_r. split_and!; [done..|apply tx_effect_refl].
Qed.

Lemma produces_exec ch f : harmless f → produces ch (tx_exec f) (λ _, ch).
Proof.
  intros Hf w d a w' Hd H. apply (tx_exec_Ok _ _ _ _ _ Hd) in H as [Hd' _].
  exists (f d), []. rewrite app_nil_r. split_and!; [done..|by apply harmless_effect].
Qed.

Lemma produces_now ch : produces ch nowUTC (λ _, ch).
Proof. by apply produces_quiet. Qed.
Lemma produces_id ch p : produces ch (newID p) (λ _, ch).
Proof. by apply produces_quiet. Qed.
Lemma produces_token ch p : produces ch (randToken p) (λ _, ch).
Proof. by apply produces_quiet. Qed.

Lemma quiet_db_row {A} (f : db → option A) w : w_tx (db_row f w).2 = w_tx w.
Proof. unfold db_row, db_call. destruct (h_io _); [done|]. by destruct (f (w_db w)). Qed.
Lemma quiet_db_query {A} (f : db → A) w : w_tx (db_query (HE := HE) f w).2 = w_tx w.
Proof. unfold db_query, db_call. by destruct (h_io _). Qed.
Lemma quiet_db_rows {A} (f : db → list A) w : w_tx (db_rows (HE := HE) f w).2 = w_tx w.
Proof. apply quiet_db_query. Qed.
Lemma quiet_db_exec f w : w_tx (db_exec f w).2 = w_tx w.
Proof. unfold db_exec, db_call. destruct (w_tx w) eqn:E; [done|]. by destruct (h_io _). Qed.
Lemma quiet_try {A} (m : stM World herr A) w : w_tx (m w).2 = w_tx w → w_tx (st_try (E:=herr) m w).2 = w_tx w.
Proof. unfold st_try. by destruct (m w). Qed.

Lemma produces_heartbeat ch : produces ch heartbeatSeconds (λ _, ch).
Proof.
  apply produces_step; [apply produces_quiet; intros w; apply quiet_try, quiet_db_row|].
  intros r. by apply produces_ret.
Qed.

Lemma produces_loadRules ch : produces ch loadRules (λ _, ch).
Proof.
  apply produces_step; [apply produces_quiet, quiet_db_query|]. intros [doc|]; [by apply produces_ret|].
  apply produces_step; [apply produces_quiet, quiet_db_exec|]. intros _. by apply produces_ret.
Qed.

Lemma produces_changeObj ch typ ref obj n :
  produces ch (insertChangeObj typ ref obj n) (λ e, ch ++ [e]).
Proof.
  intros w d e w' Hd H. apply (insertChangeObj_Ok _ _ _ _ _ _ _ _ Hd) in H as (now & Hd' & _ & ->).
  eexists _, _. split; [exact Hd'|]. split; [done|]. apply log_change_effect.
Qed.

Lemma produces_change ch typ ref data n :
  produces ch (insertChange typ ref data n) (λ e, ch ++ [e]).
Proof.
  intros w d e w' Hd H. apply (insertChange_Ok _ _ _ _ _ _ _ _ Hd) in H as (now & Hd' & _ & ->).
  eexists _, _. split; [exact Hd'|]. split; [done|]. apply log_change_effect.
Qed.

Lemma produces_sourceChange ch src : produces ch (emitSourceChangeTx src ch) (λ ch', ch').
Proof.
  apply produces_step; [apply produces_heartbeat|intros hb].
  apply produces_step; [apply produces_now|intros now].
  eapply produces_bind; [apply produces_changeObj|intros e]. by apply produces_ret.
Qed.

Lemma produces_apply ch src ev internal ooo : produces ch (applyEventTx src ev internal ooo ch) (λ ch', ch').
Proof.
  intros w d ch' w' Hd H. apply (applyEventTx_Ok _ _ _ _ _ _ _ _ _ Hd) in H as (d' & new & Hd' & _ & -> & Ha).
  exists d', new. split_and!; [done..|]. split; [by eapply applied_ok|].
  destruct Ha as (? & ? & ? & ? & ? & ? & rows & ? & ? & ? & ? & ? & ? & ? & ? & ? & Hlog & ? & _). eauto.
Qed.

Lemma produces_foldl {A} (body : list changeEntry → A → stM World herr (list changeEntry)) xs ch :
  (∀ ch x, produces ch (body ch x) (λ ch', ch')) → produces ch (st_foldl body ch xs) (λ ch', ch').
Proof.
  intros Hb. revert ch. induction xs as [|x xs IH]; intros ch; cbn; [by apply produces_ret|].
  eapply produces_bind; [apply Hb|intros ch'; apply IH].
Qed.

Lemma produces_hubSeq ch : produces ch nextHubSeqTx (λ _, ch).
Proof.
  apply produces_step; [apply produces_exec; intros d; by case_match; [|
    unfold change_seq; cbn; rewrite ?lookup_insert_ne]|intros _].
  apply produces_step; [apply produces_exec; intros d; by case_match; [
    unfold change_seq; cbn; rewrite ?lookup_insert_ne|]|intros _].
  apply produces_row.
Qed.

Lemma produces_emit ch src kind sev fk act title body at_ :
  produces ch (emitHubEventTx src kind sev fk act title body at_ ch) (λ ch', ch').
Proof.
  apply produces_step; [apply produces_hubSeq|intros seq].
  apply produces_step; [apply produces_id|intros id]. apply produces_apply.
Qed.

Lemma produces_touch ch src at_ : produces ch (touchSourceSeenTx src at_ ch) snd.
Proof.
  apply produces_step; [by apply produces_exec|intros _].
  apply produces_step; [apply produces_query|intros [hb|]]; [|by apply produces_ret].
  case_decide; [|by apply produces_ret].
  eapply produces_bind; [apply produces_emit|intros ch']. by apply produces_ret.
Qed.
End produces.

(** ** Commit and publication *)

(** A program that, inside a transaction, touches neither the committed tables nor the
    subscribers. *)
Notation sealed m := (∀ d0 b0, preserves (E:=herr) (inside d0 b0) m).

(** Nothing was committed and nothing was published. *)
Definition untouched (w w' : World) : Prop := w_db w' = w_db w ∧ w_broker w' = w_broker w.

(** The log grew, exactly the new rows were published, in their order and after they were
    committed, and the invariant of the tables was kept. *)
Definition delivered `{HE : HubEnv} (w w' : World) : Prop :=
  ∃ rows, log_grows (w_db w) (w_db w') rows ∧
    w_broker w' = foldl (λ b e, Publish e b) (w_broker w) (entry_of <$> rows) ∧
    (db_ok (w_db w) → db_ok (w_db w')).

Section commit.
Context `{HE : HubEnv}.
Notation HM := (stM World herr).

Lemma sealed_apply src ev internal ooo ch : sealed (applyEventTx src ev internal ooo ch).
Proof. intros d0 b0. unfold applyEventTx, record_message, store_fault, attach_messages, fault_transition, newFaultRow, findPendingResolve, upsertFaultTx. pres. Qed.

Lemma sealed_emit src kind sev fk act title body at_ ch : sealed (emitHubEventTx src kind sev fk act title body at_ ch).
Proof. intros d0 b0. unfold emitHubEventTx, nextHubSeqTx. pres. apply sealed_apply. Qed.

Lemma sealed_touch src at_ ch : sealed (touchSourceSeenTx src at_ ch).
Proof. intros d0 b0. unfold touchSourceSeenTx. pres. apply sealed_emit. Qed.

(** A transaction that returns [a] commits what its body logged. *)
Lemma commit_produces {A} (fn : HM A) chs w a w1 :
  produces [] fn chs → sealed fn → withTx fn w = (Ok a, w1) →
  ∃ rows, log_grows (w_db w) (w_db w1) rows ∧ chs a = entry_of <$> rows ∧
    (db_ok (w_db w) → db_ok (w_db w1)) ∧ w_broker w1 = w_broker w.
Proof.
  intros Hp Hs H. apply withTx_Ok in H as (w0 & w2 & d' & Ht & Ho & Hf & Ht2 & <- & _ & _ & Hb).
  destruct (Hp _ _ _ _ Ht Hf) as (d2 & new & E & Hch & Hok & rows & Hg & ->).
  rewrite Ht2 in E. injection E as <-. exists rows. split_and!; [done..|].
  rewrite Hb. assert (inside (w_db w) (w_broker w) w0) as Hin.
  { destruct Ho as (H1 & _ & H2 & _). by repeat split; eauto. }
  specialize (Hs _ _ _ Hin). rewrite Hf in Hs. apply Hs.
Qed.

(** The pattern of every writing handler: a transaction, then the publication of its changes. *)
Lemma commit_publish {A} (fn : HM A) chs w a w1 :
  produces [] fn chs → sealed fn → withTx fn w = (Ok a, w1) → delivered w (publish (chs a) w1).2.
Proof.
  intros Hp Hs H. destruct (commit_produces _ _ _ _ _ Hp Hs H) as (rows & Hg & -> & Hok & Hb).
  exists rows. cbn. by rewrite Hb.
Qed.

Lemma untouched_delivered w w' : untouched w w' → delivered w w'.
Proof. intros [Hd Hb]. exists []. rewrite Hd, Hb. split; [apply log_grows_refl|done]. Qed.

Lemma delivered_ext w w1 w2 : delivered w w1 → untouched w1 w2 → delivered w w2.
Proof. intros (rows & ?) [Hd Hb]. exists rows. by rewrite Hd, Hb. Qed.

Lemma delivered_ext_l w w1 w2 : untouched w w1 → delivered w1 w2 → delivered w w2.
Proof. intros [Hd Hb] (rows & ?). exists rows. by rewrite <-Hd, <-Hb. Qed.

#[global] Instance untouched_preorder : PreOrder untouched.
Proof. split; [by split|]. intros x y z [??] [??]. split; congruence. Qed.

Lemma untouched_now w : untouched w (nowUTC w).2.
Proof. done. Qed.

Lemma untouched_query {A} (f : db → A) w : untouched w (db_query (HE := HE) f w).2.
Proof. unfold db_query, db_call. by destruct (h_io _). Qed.

Lemma untouched_rows {A} (f : db → list A) w : untouched w (db_rows (HE := HE) f w).2.
Proof. apply untouched_query. Qed.

Lemma untouched_row {A} (f : db → option A) w : untouched w (db_row (HE := HE) f w).2.
Proof. unfold db_row, db_call. destruct (h_io _); [done|]. by destruct (f (w_db w)). Qed.

Lemma untouched_try {A} (m : HM A) w : untouched w (m w).2 → untouched w (st_try (E:=herr) m w).2.
Proof. unfold st_try. by destruct (m w). Qed.

Lemma withTx_failed {A} (fn : HM A) w e w1 : sealed fn → withTx fn w = (Err e, w1) → untouched w w1.
Proof. intros Hs H. exact (withTx_Err fn w e w1 Hs H). Qed.

(** A call that cannot fail and writes nothing. *)
Definition reads {A} (m : HM A) : Prop := ∀ w, untouched w (m w).2 ∧ ∃ a, (m w).1 = Ok a.

Lemma reads_ret {A} (a : A) : reads (mret a).
Proof. intros w. split; [done|]. by exists a. Qed.

Lemma reads_bind {A B} (m : HM A) (k : A → HM B) : reads m → (∀ a, reads (k a)) → reads (m ≫= k).
Proof.
  intros Hm Hk w. destruct (Hm w) as [Hu [a Ha]]. unfold mbind, stM_bind. destruct (m w) as [r w1]. cbn in *. subst r.
  destruct (Hk a w1) as [Hu2 Ha2]. split; [by etransitivity|done].
Qed.

Lemma reads_now : reads nowUTC.
Proof. intros w. split; [done|]. by eexists. Qed.
Lemma reads_try {A} (m : HM A) : (∀ w, untouched w (m w).2) → reads (st_try m).
Proof. intros Hm w. split; [apply untouched_try, Hm|]. unfold st_try. destruct (m w) as [r w1]. by exists r. Qed.
Lemma reads_heartbeat : reads heartbeatSeconds.
Proof. apply reads_bind; [apply reads_try, untouched_row|intros r]. apply reads_ret. Qed.
Lemma reads_interval : reads reportInterval.
Proof. apply reads_bind; [apply reads_try, untouched_row|intros r]. apply reads_ret. Qed.

(** A handler that commits and publishes all of its work, or none of it and answers with an
    error. *)
Definition all_or_nothing {B} (m : HM (reply B)) : Prop := ∀ w,
  match m w with
  | (Ok (Reply _ _), w') => delivered w w'
  | (Ok (Fail _ _ _), w') => untouched w w'
  | (Err _, _) => False
  end.

Lemma aon_fail {B} st code msg : all_or_nothing (B := B) (mret (Fail st code msg)).
Proof. by intros w. Qed.

Lemma aon_reply {B} (m : HM (reply B)) : reads m → all_or_nothing m.
Proof.
  intros Hm w. destruct (Hm w) as [Hu [a Ha]]. destruct (m w) as [r w1]. cbn in *. subst r.
  destruct a; [by apply untouched_delivered|done].
Qed.

Lemma aon_reads {A B} (m : HM A) (k : A → HM (reply B)) :
  reads m → (∀ a, all_or_nothing (k a)) → all_or_nothing (m ≫= k).
Proof.
  intros Hm Hk w. destruct (Hm w) as [Hu [a Ha]]. unfold mbind, stM_bind. destruct (m w) as [r w1]. cbn in *. subst r.
  specialize (Hk a w1). destruct (k a w1) as [[[]|] w2]; [by eapply delivered_ext_l|by etransitivity|done].
Qed.

(** The pattern of the writing handlers: a transaction, an error answer if it failed, and if
    not the publication of its changes before an answer that only reads. *)
Lemma aon_commit {A B} (fn : HM A) chs (k : outcome herr A → HM (reply B)) :
  produces [] fn chs → sealed fn →
  (∀ e, reads (k (Err e)) ∧ ∀ w, ∃ st c m, (k (Err e) w).1 = Ok (Fail st c m)) →
  (∀ a, ∃ rest, k (Ok a) = (publish (chs a) ;; rest) ∧ reads rest ∧ ∀ w, ∃ st b, (rest w).1 = Ok (Reply st b)) →
  all_or_nothing (r ← st_try (withTx fn); k r).
Proof.
  intros Hp Hs Herr Hok w. unfold mbind, stM_bind, st_try. destruct (withTx fn w) as [[a|e] w1] eqn:E.
  - destruct (Hok a) as (rest & -> & Hr & Hrep).
    pose proof (commit_publish fn chs w a w1 Hp Hs E) as Hdel.
    change ((publish (chs a) ;; rest) w1) with (rest (publish (chs a) w1).2).
    destruct (Hr (publish (chs a) w1).2) as [Hu _]. destruct (Hrep (publish (chs a) w1).2) as (st & b & Hb).
    destruct (rest _) as [r w2]. cbn in Hb, Hu. subst r. by eapply delivered_ext.
  - destruct (Herr e) as [Hr Hrep]. destruct (Hr w1) as [Hu _]. destruct (Hrep w1) as (st & c & m & Hb).
    destruct (k (Err e) w1) as [r w2]. cbn in Hb, Hu. subst r.
    etransitivity; [by eapply withTx_failed|done].
Qed.
End commit.

#[export] Hint Resolve sealed_apply sealed_emit sealed_touch : presdb.

(** ** What a transaction leaves alone *)

(** The tables that recording and judging events never writes. *)
Definition kept (d d' : db) : Prop :=
  d_sources d' = d_sources d ∧ d_samples d' = d_samples d ∧ d_raw d' = d_raw d ∧ d_5m d' = d_5m d ∧
  d_sessions d' = d_sessions d ∧ d_rules d' = d_rules d ∧ d_settings d' = d_settings d.

#[export] Instance kept_preorder : PreOrder kept.
Proof.
  split; [intros d; by repeat split|]. intros x y z (?&?&?&?&?&?&?) (?&?&?&?&?&?&?).
  unfold kept. split_and!; congruence.
Qed.

(** [m], when it returns, relates the transaction's tables before and after by [R]. *)
Definition moves `{HE : HubEnv} {A} (R : db → db → Prop) (m : stM World herr A) : Prop :=
  ∀ w d a w', w_tx w = Some d → m w = (Ok a, w') → ∃ d', w_tx w' = Some d' ∧ R d d'.

Section moves.
Context `{HE : HubEnv} (R : db → db → Prop) `{!PreOrder R}.

Lemma moves_bind {A B} (m : stM World herr A) (k : A → stM World herr B) :
  moves R m → (∀ a, moves R (k a)) → moves R (m ≫= k).
Proof.
  intros Hm Hk w d b w' Hd H. apply st_bind_Ok in H as (a & w1 & H1 & H2).
  destruct (Hm _ _ _ _ Hd H1) as (d1 & Hd1 & R1). destruct (Hk _ _ _ _ _ Hd1 H2) as (d2 & Hd2 & R2).
  exists d2. split; [done|by etransitivity].
Qed.

Lemma moves_quiet {A} (m : stM World herr A) : (∀ w, w_tx (m w).2 = w_tx w) → moves R m.
Proof. intros Hm w d a w' Hd H. specialize (Hm w). rewrite H in Hm. exists d. cbn in Hm. by rewrite Hm. Qed.

Lemma moves_ret {A} (a : A) : moves R (mret a).
Proof. by apply moves_quiet. Qed.

Lemma moves_foldl {A B} (body : A → B → stM World herr A) xs a :
  (∀ a x, moves R (body a x)) → moves R (st_foldl body a xs).
Proof.
  intros Hb. revert a. induction xs as [|x xs IH]; intros a; cbn; [apply moves_ret|].
  apply moves_bind; [apply Hb|intros; apply IH].
Qed.

Lemma moves_exec f : (∀ d, R d (f d)) → moves R (tx_exec f).
Proof. intros Hf w d a w' Hd H. apply (tx_exec_Ok _ _ _ _ _ Hd) in H as [Hd' _]. eauto. Qed.

Lemma moves_query {A} (f : db → A) : moves R (tx_query f).
Proof. intros w d a w' Hd H. apply (tx_query_Ok _ _ _ _ _ Hd) in H as (_ & Hd' & _). exists d. done. Qed.

Lemma moves_rows {A} (f : db → list A) : moves R (tx_rows f).
Proof. intros w d a w' Hd H. by eapply moves_query. Qed.

Lemma moves_row {A} (f : db → option A) : moves R (tx_row f).
Proof. intros w d a w' Hd H. apply (tx_row_Ok _ _ _ _ _ Hd) in H as (_ & Hd' & _). exists d. done. Qed.

Lemma moves_loadRules : moves R loadRules.
Proof.
  apply moves_bind; [apply moves_quiet, quiet_db_query|intros [doc|]; [apply moves_ret|]].
  apply moves_bind; [apply moves_quiet, quiet_db_exec|intros; apply moves_ret].
Qed.
End moves.

(** [moves_steps] proves how a program moves the tables from how its steps do. *)
Ltac moves_steps := repeat match goal with
  | |- moves _ (mbind _ _) => apply moves_bind; [apply _| |intros ?]
  | |- moves _ (mret _) => apply moves_ret, _
  | |- moves _ (tx_query _) => apply moves_query, _
  | |- moves _ (tx_rows _) => apply moves_rows, _
  | |- moves _ (tx_row _) => apply moves_row, _
  | |- moves _ loadRules => apply moves_loadRules, _
  | |- moves _ (loadSourceTx _) => apply moves_row, _
  | |- moves _ (loadFaultTx _ _) => apply moves_query, _
  | |- moves _ nowUTC => apply moves_quiet; [apply _|done]
  | |- moves _ (newID _) => apply moves_quiet; [apply _|done]
  | |- moves _ (st_foldl _ _ _) => apply moves_foldl; [apply _|intros ??]
  | |- moves _ (if ?b then _ else _) => destruct b
  | |- moves _ (match ?x with _ => _ end) => destruct x
  | |- _ => solve [auto]
  end.

Section kept.
Context `{HE : HubEnv}.

Lemma kept_apply src ev internal ooo ch : moves kept (applyEventTx src ev internal ooo ch).
Proof.
  intros w d a w' Hd H. apply (applyEventTx_Ok _ _ _ _ _ _ _ _ _ Hd) in H as (d' & new & Hd' & _ & _ & Ha).
  exists d'. split; [done|]. destruct Ha as (? & ? & ? & ? & ? & ? & rows & ? & ? & ? & ? & ? & ? & ? & ? & ? & ? & ? & ? & ? & Hk).
  unfold kept. tauto.
Qed.

Lemma kept_emit src kind sev fk act title body at_ ch : moves kept (emitHubEventTx src kind sev fk act title body at_ ch).
Proof.
  unfold emitHubEventTx, nextHubSeqTx. moves_steps; [| |apply kept_apply];
    apply moves_exec; intros d; by case_match.
Qed.

Lemma kept_sourceChange src ch : moves kept (emitSourceChangeTx src ch).
Proof.
  intros w d a w' Hd H. apply (emitSourceChangeTx_Ok _ _ _ _ _ _ Hd) in H as (sj & now & Hd' & _).
  eexists. split; [exact Hd'|done].
Qed.
End kept.

Create HintDb readsdb.
#[export] Hint Resolve reads_ret reads_now reads_heartbeat reads_interval reads_try untouched_query
  untouched_rows untouched_row : readsdb.

(** ** Lemmas: the abstract fault *)

Section abstract_fault.
Context `{HE : HubEnv}.
Implicit Types (d : db) (l : list faultRow).

Definition slot_find (s k : string) l : option faultRow :=
  head (filter (λ f, f_SourceID f = s ∧ f_FaultKey f = k) l).

Lemma slot_find_map (g : faultRow → faultRow) s k l :
  (∀ f, fault_slot (g f) = fault_slot f) → slot_find s k (g <$> l) = g <$> slot_find s k l.
Proof.
  intros Hg. unfold slot_find. induction l as [|f l IH]; [done|].
  assert (f_SourceID (g f) = f_SourceID f ∧ f_FaultKey (g f) = f_FaultKey f) as [E1 E2].
  { specialize (Hg f). unfold fault_slot in Hg. by injection Hg. }
  rewrite fmap_cons, !filter_cons, E1, E2. by case_decide.
Qed.

Lemma slot_find_app s k l f :
  slot_find s k (l ++ [f]) =
    match slot_find s k l with
    | Some x => Some x
    | None => if decide (fault_slot f = (s, k)) then Some f else None
    end.
Proof.
  unfold slot_find. rewrite filter_app. destruct (filter _ l) as [|x l']; [|done].
  rewrite filter_cons. unfold fault_slot.
  destruct (decide (f_SourceID f = s ∧ f_FaultKey f = k)) as [[<- <-]|Hn].
  - by rewrite decide_True.
  - rewrite decide_False; [done|]. intros [= ??]. naive_solver.
Qed.

Lemma slot_find_Some s k l f : slot_find s k l = Some f → f ∈ l ∧ fault_slot f = (s, k).
Proof.
  unfold slot_find. destruct (filter _ l) as [|x l'] eqn:E; [done|]. intros [= ->].
  assert (f ∈ filter (λ f, f_SourceID f = s ∧ f_FaultKey f = k) l) as H by (rewrite E; left).
  apply list_elem_of_filter in H as [[<- <-] ?]. done.
Qed.

Lemma NoDup_fmap_inj {A B} (g : A → B) (l : list A) x y :
  NoDup (g <$> l) → x ∈ l → y ∈ l → g x = g y → x = y.
Proof.
  induction l as [|z l IH]; [by intros _ ?%elem_of_nil|].
  rewrite fmap_cons, NoDup_cons. intros [Hz Hn] [->|Hx]%elem_of_cons [->|Hy]%elem_of_cons Hg; auto.
  - destruct Hz. rewrite Hg. apply list_elem_of_fmap. eauto.
  - destruct Hz. rewrite <-Hg. apply list_elem_of_fmap. eauto.
Qed.

(** Storing a fault that is its slot's row, or a new one, changes that slot only. *)
Lemma upsert_find f s k l l' :
  NoDup (f_ID <$> l) → fault_slot f = (s, k) →
  match slot_find s k l with Some f0 => f_ID f = f_ID f0 | None => f_ID f ∉ f_ID <$> l end →
  upsert_fault f l = Some l' →
  ∀ s' k', slot_find s' k' l' = if decide ((s', k') = (s, k)) then Some f else slot_find s' k' l.
Proof.
  intros Hnd Hslot Hid Hup s' k'. unfold upsert_fault in Hup.
  destruct (slot_find s k l) as [f0|] eqn:E0.
  - pose proof (slot_find_Some _ _ _ _ E0) as [Hin Hs0].
    rewrite (tbl_lookup_unique (f_ID f) l f0 Hnd Hin) in Hup by (by symmetry in Hid).
    injection Hup as <-. unfold tbl_update.
    rewrite slot_find_map by (intros x; by case_decide).
    destruct (decide ((s', k') = (s, k))) as [[= -> ->]|Hne].
    + rewrite E0. cbn. rewrite decide_True by (by symmetry in Hid). f_equal.
      unfold fault_slot in *. destruct f, f0; cbn in *. unfold fault_excluded. cbn. congruence.
    + destruct (slot_find s' k' l) as [x|] eqn:Ex; [|done]. cbn. f_equal.
      pose proof (slot_find_Some _ _ _ _ Ex) as [Hx Hsx].
      rewrite decide_False; [done|]. intros Heq. apply Hne. rewrite <-Hsx, <-Hs0. f_equal.
      eapply (NoDup_fmap_inj f_ID); [exact Hnd|done|done|]. change (f_ID x) with (pkey x : string).
      congruence.
  - destruct (tbl_lookup (f_ID f) l) as [x|] eqn:Ex.
    { apply tbl_lookup_Some in Ex as [Hx Hk]. destruct Hid. rewrite <-Hk. apply list_elem_of_fmap. eauto. }
    case_decide; [done|]. injection Hup as <-. rewrite slot_find_app, Hslot.
    destruct (decide ((s', k') = (s, k))) as [[= -> ->]|Hne].
    + by rewrite E0, decide_True.
    + destruct (slot_find s' k' l); [done|]. by rewrite decide_False.
Qed.

(** The outcome of an event in order, seen abstractly. *)
Lemma transition_abs s k ev d o pend f :
  Forall fault_ok (d_faults d) → ahead s k (ep_Seq ev) d →
  transition f s k ev (find_fault s k d) d = Some (o, pend) →
  match ao_fault o with
  | Some g => Some (f_Incident g, bool_decide (f_State g = "open"%string))
  | None => None
  end = abs_step (abs_fault s k d) (default EmptyString (ep_IncidentAction ev)) ∧
  (∀ g, ao_fault o = Some g → ao_changed o = false → find_fault s k d = Some g).
Proof.
  intros Hok [Hpw Hfw] Ht. unfold transition in Ht. unfold abs_fault, abs_step.
  assert (find_pending s k (ep_Seq ev) d = None) as Hnp.
  { destruct (find_pending _ _ _ _) as [p|] eqn:E; [|done].
    apply find_pending_Some in E as (Hp & Hs & Hk & Hlt). specialize (Hpw p Hp Hs Hk). lia. }
  rewrite Hnp in Ht. destruct (find_fault s k d) as [f0|] eqn:E0; cbn [fmap option_fmap option_map].
  - specialize (Hfw f0 eq_refl). destruct (decide (_ ∨ _)).
    + destruct (decide (f_State f0 = _)) as [Ho|Ho]; simplify_eq; cbn.
      * rewrite !bool_decide_true by done. done.
      * rewrite (bool_decide_false (f_State f0 = _)) by done. done.
    + destruct (decide (_ = "resolve"%string)); [|done].
      destruct (decide (_ ∧ _)) as [[Ho _]|Ho]; simplify_eq; cbn.
      * rewrite (bool_decide_true (f_State f0 = _)) by done. done.
      * rewrite (bool_decide_false (f_State f0 = _)); [done|]. intros ?. apply Ho. split; [done|lia].
  - destruct (decide (_ ∨ _)); [by simplify_eq|].
    destruct (decide (_ = "resolve"%string)); [|done]. by simplify_eq.
Qed.

Lemma transition_opened s k ev d o pend f g :
  ahead s k (ep_Seq ev) d →
  transition f s k ev (find_fault s k d) d = Some (o, pend) → ao_fault o = Some g →
  f_OpenedBySeq g <= ep_Seq ev.
Proof.
  intros [_ Hfw] Ht Hg. unfold transition in Ht.
  destruct (find_fault s k d) as [f0|] eqn:E0.
  - specialize (Hfw f0 eq_refl).
    destruct (decide (_ ∨ _)).
    + destruct (decide (f_State f0 = _)); [|destruct (find_pending _ _ _ _)]; simplify_eq; cbn in Hg;
        injection Hg as <-; cbn; lia.
    + destruct (decide (_ = "resolve"%string)); [|done].
      destruct (decide (_ ∧ _)); simplify_eq; cbn in Hg; injection Hg as <-; cbn; lia.
  - destruct (decide (_ ∨ _)).
    + destruct (find_pending _ _ _ _); simplify_eq; cbn in Hg; injection Hg as <-; cbn; lia.
    + destruct (decide (_ = "resolve"%string)); by simplify_eq.
Qed.

Lemma transition_pending s k ev d o pend f :
  transition f s k ev (find_fault s k d) d = Some (o, pend) →
  ∀ p, p ∈ pend → p ∈ d_pending d ∨ p_seq p = ep_Seq ev.
Proof.
  intros Ht p Hp. assert (pend = d_pending d ∨ pend = tbl_insert_ignore (pending_of s k ev) (d_pending d)) as [->| ->].
  { unfold transition in Ht. repeat (case_match || case_decide); simplify_eq; auto. }
  - by left.
  - unfold tbl_insert_ignore in Hp. case_decide; [by left|].
    apply elem_of_app in Hp as [?| ->%list_elem_of_singleton]; [by left|by right].
Qed.

(** What is found in the faults table after an event with a key: its fault, if it changed, and
    what was there before. *)
Lemma faults_after_find id s k ev d o pend faults :
  NoDup (f_ID <$> d_faults d) → Forall fault_ok (d_faults d) → id ∉ f_ID <$> d_faults d →
  transition id s k ev (find_fault s k d) d = Some (o, pend) → faults_after o d = Some faults →
  ∀ s' k', slot_find s' k' faults =
    match ao_fault o, ao_changed o with
    | Some f, true => if decide ((s', k') = (s, k)) then Some (set_f_ChangeSeq (change_seq d + 1) f) else find_fault s' k' d
    | _, _ => find_fault s' k' d
    end.
Proof.
  intros Hids Hrows Hnew Hout Hfa s' k'. unfold faults_after in Hfa.
  destruct (ao_fault o) as [f|] eqn:Hfo; [|by injection Hfa as <-]. destruct (ao_changed o); [|by injection Hfa as <-].
  destruct (transition_fault _ _ _ _ _ _ _ _ Hrows Hout Hfo) as (_ & Hslot & Hid).
  eapply (upsert_find (set_f_ChangeSeq (change_seq d + 1) f) s k); [exact Hids|exact Hslot| |exact Hfa].
  change (slot_find s k (d_faults d)) with (find_fault s k d).
  destruct (find_fault s k d); [exact Hid|]. destruct Hid as [Hid _].
  change (f_ID (set_f_ChangeSeq _ f)) with (f_ID f). by rewrite Hid.
Qed.

(** It draws at most the ULID it was given. *)
Lemma faults_after_new id s k ev d o pend faults : Forall fault_ok (d_faults d) →
  transition id s k ev (find_fault s k d) d = Some (o, pend) → faults_after o d = Some faults →
  ∀ i, i ∈ f_ID <$> faults → i ∈ f_ID <$> d_faults d ∨ i = id.
Proof.
  intros Hrows Hout Hfa i. unfold faults_after in Hfa.
  destruct (ao_fault o) as [f|] eqn:Hfo; [|injection Hfa as <-; auto]. destruct (ao_changed o); [|injection Hfa as <-; auto].
  destruct (transition_fault _ _ _ _ _ _ _ _ Hrows Hout Hfo) as (_ & _ & Hid).
  apply upsert_keys in Hfa as [(_ & -> & _)|(_ & _ & ->)]; [auto|].
  rewrite fmap_app. intros [Hin|Hin]%elem_of_app; [auto|].
  apply list_elem_of_singleton in Hin. change (f_ID (set_f_ChangeSeq _ f)) with (f_ID f) in Hin. subst i.
  destruct (find_fault s k d) as [f0|] eqn:E0; [left|right; by destruct Hid].
  rewrite Hid. apply list_elem_of_fmap. apply find_fault_Some in E0. naive_solver.
Qed.

(** An event leaves the faults of other keys alone. *)
Lemma applied_elsewhere lo hi src ev internal ooo d d' new s k :
  applied lo hi src ev internal ooo d d' new → db_ok d → fresh_ulids lo d →
  (s, Some k) ≠ (s_ID src, non_empty (ep_FaultKey ev)) → find_fault s k d' = find_fault s k d.
Proof.
  intros (u & mid & now & o & pend & faults & rows & Hu & Hout & _ & _ & _ & Hfa & Hf & _) Hok Hfresh Hne.
  assert (find_fault s k d' = slot_find s k faults) as -> by (unfold find_fault; by rewrite Hf).
  unfold outcome_of in Hout. destruct (non_empty (ep_FaultKey ev)) as [k0|]; cycle 1.
  { injection Hout as <- _. by injection Hfa as <-. }
  rewrite (faults_after_find _ _ _ _ _ _ _ _ (ok_fault_ids _ Hok) (ok_fault_rows _ Hok) (Hfresh u ltac:(lia)) Hout Hfa).
  destruct (ao_fault o), (ao_changed o); try done. rewrite decide_False; [done|]. congruence.
Qed.

(** An event in order moves its fault as the abstract machine does, and no other. *)
Lemma applied_abs lo hi src ev internal ooo d d' new :
  ulids_unique → applied lo hi src ev internal ooo d d' new → db_ok d → fresh_ulids lo d →
  (∀ k, non_empty (ep_FaultKey ev) = Some k → ahead (s_ID src) k (ep_Seq ev) d) →
  (∀ k, abs_fault (s_ID src) k d' = abs_event k (abs_fault (s_ID src) k d) ev) ∧
  (∀ s k, s ≠ s_ID src → abs_fault s k d' = abs_fault s k d) ∧
  (∀ k q, ahead (s_ID src) k q d → ep_Seq ev < q → ahead (s_ID src) k q d') ∧ fresh_ulids hi d'.
Proof.
  intros Hinj Ha Hok Hfresh Hseq.
  assert (∀ s k, (s, Some k) ≠ (s_ID src, non_empty (ep_FaultKey ev)) → find_fault s k d' = find_fault s k d) as Hother
    by (intros; by eapply applied_elsewhere).
  destruct Ha as (u & mid & now & o & pend & faults & rows & Hu & Hout & _ & _ & Hpend & Hfa & Hf & _).
  pose proof Hok as [Hids _ Hrows _ _ _ _].
  assert (Hfd : ∀ s k, find_fault s k d' = slot_find s k faults) by (intros; unfold find_fault; by rewrite Hf).
  assert (fresh_ulids hi d) as Hfresh' by (intros i Hi; apply Hfresh; lia).
  unfold outcome_of in Hout. unfold abs_event.
  destruct (non_empty (ep_FaultKey ev)) as [k0|] eqn:Hk0; cycle 1.
  { injection Hout as <- <-. injection Hfa as <-. unfold abs_fault, ahead, fresh_ulids.
    rewrite Hpend, Hf. split_and!; [|by intros; rewrite Hfd|by intros; rewrite Hfd|done].
    intros k. rewrite Hfd. by rewrite decide_False. }
  specialize (Hseq k0 eq_refl).
  destruct (transition_abs _ _ _ _ _ _ _ Hrows Hseq Hout) as [Habs Hsame].
  pose proof (faults_after_find _ _ _ _ _ _ _ _ Hids Hrows (Hfresh u ltac:(lia)) Hout Hfa) as Hfind.
  assert (abs_fault (s_ID src) k0 d' = abs_step (abs_fault (s_ID src) k0 d) (default EmptyString (ep_IncidentAction ev))) as Hthis.
  { rewrite <-Habs. unfold abs_fault. rewrite Hfd, Hfind. destruct (ao_fault o) as [f|] eqn:Ef.
    - destruct (ao_changed o) eqn:Ec; [by rewrite decide_True|]. by rewrite (Hsame f).
    - unfold transition in Hout. destruct (find_fault (s_ID src) k0 d); [|done].
      repeat (case_match || case_decide); by simplify_eq. }
  split_and!.
  - intros k. case_decide as Hk; [injection Hk as ->; exact Hthis|].
    unfold abs_fault. rewrite Hother; [done|]. congruence.
  - intros s' k Hne. unfold abs_fault. rewrite Hother; [done|]. congruence.
  - intros k q [Hpq Hfq] Hlt. split.
    + rewrite Hpend. intros p Hp Hs Hk.
      destruct (transition_pending _ _ _ _ _ _ _ Hout p Hp) as [Hp'|Hp']; [by apply Hpq|lia].
    + intros g. destruct (decide (k = k0)) as [->|Hne]; [|rewrite Hother by congruence; apply Hfq].
      rewrite Hfd, Hfind. destruct (ao_fault o) as [f|] eqn:Ef; [|apply Hfq]. destruct (ao_changed o); [|apply Hfq].
      rewrite decide_True by done. intros [= <-].
      pose proof (transition_opened _ _ _ _ _ _ _ _ Hseq Hout Ef). cbn. lia.
  - intros i Hi. rewrite Hf. intros [Hin|Hin]%(faults_after_new _ _ _ _ _ _ _ _ Hrows Hout Hfa); [by apply (Hfresh' i)|].
    apply (inj (String.append "flt_")) in Hin. apply Hinj in Hin. lia.
Qed.
End abstract_fault.

(** ** A small world for the examples *)

Definition demo_ulid (n : nat) : string := Nat.iter n (String "x"%char) EmptyString.

Definition demo_env : HubEnv :=
  {| h_now := λ n, date_utc 2026 9 18 6 0 0 0 + Z.of_nat n * Millisecond; h_io := λ _, false; h_rows := λ _, None;
     h_ulid := demo_ulid; h_rand := λ n, [N.of_nat n] |}.

Lemma demo_ulids_unique : ulids_unique (HE := demo_env).
Proof.
  assert (∀ n, String.length (demo_ulid n) = n) as Hl 
    by (induction n as [|n IH]; [done|exact (f_equal S IH)]).
  intros n m H. apply (f_equal String.length) in H. cbn in H. by rewrite !Hl in H.
Defined.

Definition demo_source : sourceRow :=
  {| s_ID := "src_1"; s_Name := "nas"; s_Kind := "device"; s_Enabled := true; s_KeyHash := "h";
     s_KeyPlain := "k"; s_KeyHint := "k"; s_MgmtKeyPlain := ""; s_MgmtKeyHint := "";
     s_AttachmentBaseURL := None; s_AgentVersion := None; s_AgentOS := None; s_AgentArch := None;
     s_Hostname := None; s_Capabilities := None; s_LastSeenAt := None; s_LastMetricsSeq := 0;
     s_LastEventSeq := 0; s_LastBootTime := None; s_LastSummary := None; s_PrevSample := None;
     s_DeletedAt := None; s_CreatedAt := "2026-09-01T00:00:00.000Z"; s_UpdatedAt := "" |}%string.

Definition demo_db : db := set_d_sources [demo_source] empty_db.

Definition demo_event (id : string) (seq : Z) (action : string) : eventPayload :=
  {| ep_EventID := id; ep_Seq := seq; ep_Kind := "custom"; ep_OccurredAt := "2026-09-18T05:00:00.000Z";
     ep_Severity := "warning"; ep_FaultKey := Some "disk"; ep_IncidentAction := Some action;
     ep_Title := "t"; ep_Body := None; ep_Ref := ""; ep_Attachments := [] |}%string.

Definition demo_world : World := wset_tx (Some demo_db) (world_of demo_db).

(** Events applied one after the other, in the same transaction. *)
Definition demo_apply (evs : list eventPayload) : outcome herr (list changeEntry) * World :=
  st_foldl (λ ch ev, applyEventTx (HE := demo_env) demo_source ev false false ch) [] evs demo_world.

Definition demo_tx (evs : list eventPayload) : db := default empty_db (w_tx (demo_apply evs).2).

Lemma demo_db_ok `{HE : HubEnv} : db_ok demo_db.
Proof.
  split; cbn; try (by constructor).
  - intros _ m id Hm. by apply elem_of_nil in Hm.
  - split; constructor.
Defined.

Lemma demo_ok evs ch : (demo_apply evs).1 = Ok ch → db_ok (HE := demo_env) (demo_tx evs).
Proof.
  intros H. assert (produces (HE := demo_env) [] (st_foldl (λ ch ev, applyEventTx (HE := demo_env) demo_source ev false false ch)
    [] evs) (λ ch', ch')) as Hp.
  { apply produces_foldl. intros. apply produces_apply. }
  unfold demo_tx. destruct (demo_apply evs) as [r w'] eqn:E. cbn in H. subst r.
  destruct (Hp demo_world demo_db ch w' eq_refl E) as (d' & new & Hd & _ & Hok & _).
  cbn. rewrite Hd. apply Hok, demo_db_ok.
Qed.

(** ** Properties *)

(** C4: the fault state machine refines the counter of rounds.  An event whose sequence
    number is above everything on record for its source and key moves the fault of its key exactly
    as [abs_step] says (a first open makes round 1, an open or update of an open round keeps
    it, a resolve closes it, an open after a resolve starts the next round) and moves no
    other fault. *)
Theorem event_refines_rounds `{HE : HubEnv} src ev internal ooo ch w d ch' w' d'
    (Hulid : ulids_unique) (Htx : w_tx w = Some d)
    (Hrun : applyEventTx src ev internal ooo ch w = (Ok ch', w')) (Htx' : w_tx w' = Some d')
    (Hok : db_ok d) (Hfresh : fresh_ulids (w_ids w) d)
    (Hseq : ∀ k, non_empty (ep_FaultKey ev) = Some k → ahead (s_ID src) k (ep_Seq ev) d) :
  (∀ k, abs_fault (s_ID src) k d' = abs_event k (abs_fault (s_ID src) k d) ev) ∧
  (∀ s k, s ≠ s_ID src → abs_fault s k d' = abs_fault s k d).
Proof.
  apply (applyEventTx_Ok _ _ _ _ _ _ _ _ _ Htx) in Hrun as (d2 & new & E & _ & _ & Ha).
  rewrite Htx' in E. injection E as <-.
  by destruct (applied_abs _ _ _ _ _ _ _ _ _ Hulid Ha Hok Hfresh Hseq) as (H1 & H2 & _).
Qed.

Lemma event_refines_rounds_witness :
  let ev := demo_event "e2" 7 "resolve" in
  abs_fault "src_1" "disk" (demo_tx [demo_event "e1" 3 "open"]) = Some (1, true) ∧
  abs_fault "src_1" "disk" (demo_tx [demo_event "e1" 3 "open"; ev]) = Some (1, false).
Proof.
  intros ev. split; [vm_compute; reflexivity|].
  set (w := (demo_apply [demo_event "e1" 3 "open"]).2).
  set (d := demo_tx [demo_event "e1" 3 "open"]).
  destruct (event_refines_rounds (HE := demo_env) demo_source ev false false [] w d
    (match (applyEventTx (HE := demo_env) demo_source ev false false [] w).1 with Ok c => c | Err _ => [] end)
    (applyEventTx (HE := demo_env) demo_source ev false false [] w).2
    (demo_tx [demo_event "e1" 3 "open"; ev])) as [H _].
  - apply demo_ulids_unique.
  - vm_compute. reflexivity.
  - vm_compute. reflexivity.
  - vm_compute. reflexivity.
  - eapply demo_ok. vm_compute. reflexivity.
  - intros i Hi. vm_compute in Hi. vm_compute. intros [Heq|H]%elem_of_cons; [|by apply elem_of_nil in H].
    destruct i as [|i]; [lia|discriminate Heq].
  - intros k [= <-]. split; [by intros p Hp%elem_of_nil|]. intros f Hf. vm_compute in Hf. injection Hf as <-. reflexivity.
  - change (abs_fault "src_1" "disk" (demo_tx [demo_event "e1" 3 "open"; ev])) with
      (abs_fault (s_ID demo_source) "disk" (demo_tx [demo_event "e1" 3 "open"; ev])).
    rewrite H. vm_compute. reflexivity.
Defined.

(** An outcome that changes no fault names the one found, if any. *)
Lemma transition_same id s k ev d o pend :
  transition id s k ev (find_fault s k d) d = Some (o, pend) →
  ao_changed o = true ∨ ao_fault o = find_fault s k d.
Proof.
  unfold transition. destruct (find_fault s k d) as [f0|].
  - destruct (decide (_ ∨ _)).
    + destruct (decide (f_State f0 = _)); [|destruct (find_pending _ _ _ _)]; intros; simplify_eq; by left.
    + destruct (decide (_ = "resolve"%string)); [|done].
      destruct (decide (_ ∧ _)); intros; simplify_eq; [by left|by right].
  - destruct (decide (_ ∨ _)).
    + destruct (find_pending _ _ _ _); intros; simplify_eq; by left.
    + destruct (decide (_ = "resolve"%string)); intros; simplify_eq; by right.
Qed.

(** C12: an open notification is exactly the start of a round.  Whatever the order of
    arrival, the message of an event is announced as [incident_open] if and only if the event
    made its fault open that was not open before. *)
Theorem open_notified_iff `{HE : HubEnv} src ev internal ooo ch w d ch' w' d' k
    (Hulid : ulids_unique) (Htx : w_tx w = Some d)
    (Hrun : applyEventTx src ev internal ooo ch w = (Ok ch', w')) (Htx' : w_tx w' = Some d')
    (Hok : db_ok d) (Hfresh : fresh_ulids (w_ids w) d) (Hkey : non_empty (ep_FaultKey ev) = Some k) :
  let open_in d := (snd <$> abs_fault (s_ID src) k d) = Some true in
  (∃ e, last ch' = Some e ∧ (nb_Kind <$> ce_Notify e) = Some "incident_open"%string) ↔
  (¬ open_in d ∧ open_in d').
Proof.
  intros open_in. apply (applyEventTx_Ok _ _ _ _ _ _ _ _ _ Htx) in Hrun as (d2 & new & E & _ & -> & Ha).
  rewrite Htx' in E. injection E as <-.
  destruct Ha as (u & mid & now & o & pend & faults & rows & Hu & Hout & _ & _ & Hpend & Hfa & Hf & _ & _ &
    Hlog & -> & Hlen & Hnot & _).
  unfold outcome_of in Hout. rewrite Hkey in Hout. pose proof Hok as [Hids _ Hrows _ _ _ _].
  destruct (last rows) as [row|] eqn:El; [|done]. cbn in Hnot. injection Hnot as Hrow.
  assert (last (ch ++ (entry_of <$> rows)) = Some (entry_of row)) as Hlast.
  { rewrite last_app, fmap_last, El. done. }
  assert (abs_fault (s_ID src) k d' = match ao_fault o with
    | Some g => Some (f_Incident g, bool_decide (f_State g = "open"%string)) | None => None end) as Habs.
  { unfold abs_fault, find_fault. rewrite Hf. unfold faults_after in Hfa.
    change (head (filter _ faults)) with (slot_find (s_ID src) k faults).
    destruct (ao_fault o) as [f|] eqn:Ef.
    - destruct (transition_fault _ _ _ _ _ _ _ _ Hrows Hout Ef) as (_ & Hslot & Hid).
      destruct (ao_changed o) eqn:Ec.
      + rewrite (upsert_find (set_f_ChangeSeq (change_seq d + 1) f) (s_ID src) k (d_faults d) faults Hids Hslot);
          [by rewrite decide_True| |exact Hfa].
        change (slot_find (s_ID src) k (d_faults d)) with (find_fault (s_ID src) k d).
        destruct (find_fault (s_ID src) k d); [exact Hid|]. destruct Hid as [Hid _].
        change (f_ID (set_f_ChangeSeq _ f)) with (f_ID f). rewrite Hid. apply Hfresh. lia.
      + injection Hfa as <-. change (slot_find (s_ID src) k (d_faults d)) with (find_fault (s_ID src) k d).
        destruct (transition_same _ _ _ _ _ _ _ Hout) as [?|<-]; [congruence|]. by rewrite Ef.
    - injection Hfa as <-. change (slot_find (s_ID src) k (d_faults d)) with (find_fault (s_ID src) k d).
      destruct (transition_same _ _ _ _ _ _ _ Hout) as [Hc|<-]; [|by rewrite Ef].
      by rewrite (outcome_unchanged ("flt_" +:+ h_ulid u)%string src ev d o pend) in Hc
        by (unfold outcome_of; rewrite ?Hkey; done). }
  assert ((∃ e, last (ch ++ (entry_of <$> rows)) = Some e ∧ (nb_Kind <$> ce_Notify e) = Some "incident_open"%string) ↔
    ao_notifyKind o = "incident_open"%string) as ->.
  { rewrite Hlast. unfold entry_of. cbn. setoid_rewrite Hrow. split.
    - intros (e & [= <-] & Hk). cbn in Hk. unfold notify_of in Hk. cbn in Hk. case_decide; by injection Hk.
    - intros Hk. eexists. split; [done|]. cbn. unfold notify_of. cbn. by rewrite Hk. }
  unfold open_in. rewrite Habs. unfold abs_fault. clear - Hout.
  unfold transition in Hout. destruct (find_fault (s_ID src) k d) as [f0|]; cbn.
  - destruct (decide (_ ∨ _)).
    + destruct (decide (f_State f0 = _)) as [Ho|Ho]; [|destruct (find_pending _ _ _ _)]; simplify_eq; cbn;
        rewrite ?(bool_decide_true (f_State f0 = _)), ?(bool_decide_false (f_State f0 = _)) by done; naive_solver.
    + destruct (decide (_ = "resolve"%string)); [|done].
      destruct (decide (_ ∧ _)); simplify_eq; cbn; naive_solver.
  - destruct (decide (_ ∨ _)).
    + destruct (find_pending _ _ _ _); simplify_eq; cbn; naive_solver.
    + destruct (decide (_ = "resolve"%string)); simplify_eq; cbn; naive_solver.
Qed.

Lemma open_notified_iff_witness :
  let ev := demo_event "e3" 9 "open" in
  let before := [demo_event "e1" 3 "open"; demo_event "e2" 7 "resolve"] in
  ∃ e, last (match (applyEventTx (HE := demo_env) demo_source ev false false [] (demo_apply before).2).1 with
             | Ok c => c | Err _ => [] end) = Some e ∧
       (nb_Kind <$> ce_Notify e) = Some "incident_open"%string.
Proof.
  intros ev before. set (w := (demo_apply before).2).
  apply (open_notified_iff (HE := demo_env) demo_source ev false false [] w (demo_tx before)
    (match (applyEventTx (HE := demo_env) demo_source ev false false [] w).1 with Ok c => c | Err _ => [] end)
    (applyEventTx (HE := demo_env) demo_source ev false false [] w).2
    (demo_tx (before ++ [ev])) "disk").
  - apply demo_ulids_unique.
  - vm_compute. reflexivity.
  - vm_compute. reflexivity.
  - vm_compute. reflexivity.
  - eapply demo_ok. vm_compute. reflexivity.
  - intros i Hi. vm_compute in Hi. vm_compute. intros [Heq|H]%elem_of_cons; [|by apply elem_of_nil in H].
    destruct i as [|i]; [lia|discriminate Heq].
  - reflexivity.
  - vm_compute. split; [discriminate|reflexivity].
Defined.

(** A late open lands resolved.  When a resolve of a higher sequence number is on record
    for a key that has no fault yet, an open (or update) makes a fault that is resolved from
    the start, by the earliest such resolve, without an open notification, and the messages
    that were waiting between the two become part of it. *)
Theorem late_open_resolved `{HE : HubEnv} src ev internal ooo ch w d ch' w' d' k p
    (Htx : w_tx w = Some d) (Hrun : applyEventTx src ev internal ooo ch w = (Ok ch', w'))
    (Htx' : w_tx w' = Some d') (Hok : db_ok d) (Hfresh : fresh_ulids (w_ids w) d)
    (Hkey : non_empty (ep_FaultKey ev) = Some k)
    (Hact : ep_IncidentAction ev = Some "open"%string ∨ ep_IncidentAction ev = Some "update"%string)
    (Hnone : find_fault (s_ID src) k d = None)
    (Hpend : find_pending (s_ID src) k (ep_Seq ev) d = Some p) :
  (∃ f, find_fault (s_ID src) k d' = Some f ∧ f_State f = "resolved"%string ∧ f_Incident f = 1 ∧
    f_OpenedBySeq f = ep_Seq ev ∧ f_ResolvedBySeq f = Some (p_seq p) ∧
    f_ResolvedBy f = Some (p_event_id p) ∧
    ∀ m, m ∈ d_messages d → m_SourceID m = s_ID src → m_FaultKey m = Some k → m_FaultID m = None →
      ep_Seq ev <= m_EventSeq m <= p_seq p →
      set_m_Incident (Some 1) (set_m_FaultID (Some (f_ID f)) m) ∈ d_messages d') ∧
  ∃ e, last ch' = Some e ∧ (nb_Kind <$> ce_Notify e) = Some "new_message"%string.
Proof.
  apply (applyEventTx_Ok _ _ _ _ _ _ _ _ _ Htx) in Hrun as (d2 & new & E & _ & -> & Ha).
  rewrite Htx' in E. injection E as <-.
  destruct Ha as (u & mid & now & o & pend & faults & rows & Hu & Hout & _ & _ & _ & Hfa & Hf & _ & Hm &
    Hlog & -> & Hlen & Hnot & _).
  unfold outcome_of in Hout. rewrite Hkey in Hout. pose proof Hok as [Hids _ Hrows _ _ _ _].
  unfold transition in Hout. rewrite Hnone, Hpend in Hout.
  rewrite decide_True in Hout by (destruct Hact as [-> | ->]; cbn; auto).
  injection Hout as <- <-. split.
  - unfold faults_after in Hfa. cbn [ao_fault ao_changed] in Hfa.
    set (f := set_f_ChangeSeq _ _) in Hfa. exists f. split; [|split_and!; [done..|]].
    + unfold find_fault. rewrite Hf. change (head (filter _ faults)) with (slot_find (s_ID src) k faults).
      rewrite (upsert_find f (s_ID src) k (d_faults d) faults Hids eq_refl); [by rewrite decide_True| |exact Hfa].
      change (slot_find (s_ID src) k (d_faults d)) with (find_fault (s_ID src) k d). rewrite Hnone.
      apply Hfresh. lia.
    + intros m Hin H1 H2 H3 H4. rewrite Hm. apply elem_of_app. left.
      unfold backfilled, stored_fault. cbn [ao_fault ao_incident ao_changed]. fold f.
      cbn [f_ResolvedBySeq f set_f_ChangeSeq late_resolved f_State]. rewrite decide_True by done.
      apply list_elem_of_fmap. exists m. split; [|done]. unfold backfill. rewrite Hkey. cbn [default].
      by rewrite decide_True.
  - destruct (last rows) as [row|] eqn:El; [|done]. cbn in Hnot. injection Hnot as Hrow.
    exists (entry_of row). split; [by rewrite last_app, fmap_last, El|].
    unfold entry_of. cbn. rewrite Hrow. done.
Qed.

Lemma late_open_resolved_witness :
  let before := [demo_event "e2" 7 "resolve"] in
  abs_fault "src_1" "disk" (demo_tx (before ++ [demo_event "e1" 3 "open"])) = Some (1, false).
Proof.
  intros before. set (ev := demo_event "e1" 3 "open"). set (w := (demo_apply before).2).
  destruct (late_open_resolved (HE := demo_env) demo_source ev false false [] w (demo_tx before)
    (match (applyEventTx (HE := demo_env) demo_source ev false false [] w).1 with Ok c => c | Err _ => [] end)
    (applyEventTx (HE := demo_env) demo_source ev false false [] w).2
    (demo_tx (before ++ [ev])) "disk" (pending_of "src_1" "disk" (demo_event "e2" 7 "resolve")))
    as [(f & Hf & Hs & Hi & _) _].
  - vm_compute. reflexivity.
  - vm_compute. reflexivity.
  - vm_compute. reflexivity.
  - eapply demo_ok. vm_compute. reflexivity.
  - intros i Hi. vm_compute. intros H. by apply elem_of_nil in H.
  - reflexivity.
  - by left.
  - vm_compute. reflexivity.
  - vm_compute. reflexivity.
  - unfold abs_fault. change (find_fault (s_ID demo_source) "disk" (demo_tx (before ++ [ev]))) with
      (find_fault "src_1" "disk" (demo_tx (before ++ [ev]))) in Hf. rewrite Hf. cbn. by rewrite Hs, Hi.
Defined.

(** An open that arrives after its resolve was applied opens a round nobody will close: the
    open of round one (seq 3) and the resolve of the second round (seq 10) arrive before the
    open of the second round (seq 7), which the resolve has already answered; the resolve was
    applied directly and is not on record, so the fault reopens. *)
Example late_open_of_closed_round_reopens :
  abs_fault "src_1" "disk" (demo_tx [demo_event "e1" 5 "open"; demo_event "e3" 10 "resolve";
    demo_event "e2" 7 "open"]) = Some (2, true) ∧
  abs_fault "src_1" "disk" (demo_tx [demo_event "e1" 5 "open"; demo_event "e2" 7 "open";
    demo_event "e3" 10 "resolve"]) = Some (1, false).
Proof. vm_compute. split; reflexivity. Qed.
