(* ===== verification/Rules.v ===== *)
(** The rule engine ([hub/rules.go]): thresholds with a duration and a hysteresis, container,
    SMART and pool transitions, and the heartbeat monitor.  Its timers live in memory
    ([w_re]): a failed transaction does not take them back. *)

From S2P Require Import Prelude GoBase GoTime HubTypes HubStore Fault.
Local Open Scope Z_scope.

(** The zero [ruleState]. *)
Definition ruleState0 : ruleState :=
  {| rs_breach := false; rs_breachSince := zero_time; rs_recovering := false;
     rs_recoverSince := zero_time |}.

(* @src hub/rules.go 80-118 extractMetric *)
(** Label selector and value of every reading the rule applies to. *)
Definition extractMetric (r : rule) (s : samplePayload) : list (string * float64) :=
  let one (v : option float64) := match v with Some v => [("-"%string, v)] | None => [] end in
  if decide (rl_Metric r = "cpu_percent")%string then one (sp_CPUPercent s)
  else if decide (rl_Metric r = "mem_percent")%string then one (sp_MemPercent s)
  else if decide (rl_Metric r = "disk_percent")%string then
    omap (λ d, match dp_Percent d with
               | None => None
               | Some p =>
                 let sel := ("mount=" +:+ dp_Mount d)%string in
                 match rl_Label r with
                 | Some l => if decide (l ≠ "*"%string ∧ l ≠ sel) then None else Some (sel, p)
                 | None => Some (sel, p)
                 end
               end) (sp_Disks s)
  else if decide (rl_Metric r = "net_rx_bps")%string then
    match sp_Net s with Some n => one (np_RxBps n) | None => [] end
  else if decide (rl_Metric r = "net_tx_bps")%string then
    match sp_Net s with Some n => one (np_TxBps n) | None => [] end
  else [].

(* @src hub/rules.go 120-132 violates *)
Definition violates (op : string) (v limit : float64) : bool :=
  if decide (op = "gte")%string then f64_le limit v
  else if decide (op = "lt")%string then f64_lt v limit
  else if decide (op = "lte")%string then f64_le v limit
  else f64_lt limit v.

(* @src hub/rules.go 134-142 recovers *)
Definition recovers (op : string) (v limit : float64) : bool :=
  if decide (op = "lt" ∨ op = "lte")%string then f64_lt limit v else f64_lt v limit.

(* @src hub/rules.go 217-223 thresholdTitle *)
Definition thresholdTitle (r : rule) (sel : string) : string :=
  if decide (sel ≠ "-"%string ∧ sel ≠ EmptyString) then (rl_Metric r +:+ "(" +:+ sel +:+ ")")%string
  else rl_Metric r.

(** [COUNT(1) ... state='open'] > 0 *)
(* @src hub/rules.go 231-238 !isFaultOpen *)
Definition fault_open (s k : string) (d : db) : bool :=
  bool_decide (filter (λ f, f_SourceID f = s ∧ f_FaultKey f = k ∧ f_State f = "open"%string) (d_faults d) ≠ []).

(** The severity a rule without one stands for. *)
(* @src hub/rules.go 359-362 !evalSmart *)
Definition sev_or (r : rule) (dflt : string) : string :=
  if decide (rl_Severity r = EmptyString) then dflt else rl_Severity r.

(** [Match]: absent, [*] or the name itself. *)
(* @src hub/rules.go 252-254 !evalContainers *)
Definition rule_match (r : rule) (name : string) : bool :=
  match rl_Match r with
  | None => true
  | Some m => bool_decide (m = "*"%string ∨ m = name)
  end.

(** What a threshold rule's timer decides about one reading: the timer after it, and the
    event it asks for when the fault is not ([Open]) or is ([Resolve]) open. *)
Inductive verdict := VNone | VOpen | VResolve.

(** The timer once the reading is known to violate the limit. *)
(* @src hub/rules.go 169-175 !evalThreshold *)
Definition on_breach (r : rule) (now : Z) (st : ruleState) : ruleState * bool :=
  let since := if rs_breach st then rs_breachSince st else now in
  ({| rs_breach := true; rs_breachSince := since; rs_recovering := false;
      rs_recoverSince := rs_recoverSince st |},
   bool_decide (duration_mul (rl_ForSeconds r) Second <= time_sub now since)).

(** The timer of an open fault whose reading is within the limit; [true] asks for a resolve. *)
(* @src hub/rules.go 198-216 !evalThreshold *)
Definition on_recover (r : rule) (v recoverLimit : float64) (now : Z) (st : ruleState)
    : ruleState * bool :=
  if recovers (rl_Op r) v recoverLimit then
    let since := if rs_recovering st then rs_recoverSince st else now in
    ({| rs_breach := rs_breach st; rs_breachSince := rs_breachSince st; rs_recovering := true;
        rs_recoverSince := since |},
     bool_decide (duration_mul (rl_RecoverForSeconds r) Second <= time_sub now since))
  else
    ({| rs_breach := rs_breach st; rs_breachSince := rs_breachSince st; rs_recovering := false;
        rs_recoverSince := rs_recoverSince st |}, false).

Section rules.
Context `{HE : HubEnv}.
Notation HM := (stM World herr).

(** [re.states[key]], made on first use. *)
(* @src hub/rules.go 161-166 !evalThreshold *)
Definition re_get (key : ruleKey) : HM ruleState := λ w,
  let st := default ruleState0 (w_re w !! key) in (Ok st, wset_re (<[key := st]> (w_re w)) w).
Definition re_put (key : ruleKey) (st : ruleState) : HM () :=
  st_modify (λ w, wset_re (<[key := st]> (w_re w)) w).

(* @src hub/rules.go 225-232 isFaultOpen *)
Definition isFaultOpen (sourceID faultKey : string) : HM bool := tx_query (fault_open sourceID faultKey).

(* @src hub/ingest.go 400-408 faultOpen *)
Definition faultOpen (sourceID faultKey : string) : HM bool := db_query (fault_open sourceID faultKey).

(* @src hub/rules.go 234-238 emit *)
Definition emit (src : sourceRow) (kind severity fk act title body : string) (at_ : Z)
    (changes : list changeEntry) : HM (list changeEntry) :=
  emitHubEventTx src kind severity (Some fk) (Some act) title (Some body) at_ changes.

(** The loop body of [evalThreshold], for one reading. *)
(* @src hub/rules.go 160-218 !evalThreshold *)
Definition threshold_reading (src : sourceRow) (r : rule) (limit recoverLimit : float64) (evalNow : Z)
    (changes : list changeEntry) (lv : string * float64) : HM (list changeEntry) :=
  let '(sel, v) := lv in
  let key := (s_ID src, rl_ID r, sel) in
  st ← re_get key;
  let fk := ("rule:" +:+ rl_ID r +:+ ":" +:+ sel)%string in
  if violates (rl_Op r) v limit then
    let '(st, due) := on_breach r evalNow st in
    re_put key st ;;
    if due : bool then
      open ← isFaultOpen (s_ID src) fk;
      if negb open then
        emit src "threshold" (rl_Severity r) fk "open"
          (s_Name src +:+ "：" +:+ thresholdTitle r sel +:+ " 持续超限")
          (sel +:+ "=" +:+ fmt_f 2 v +:+ " 超过 " +:+ fmt_f 0 limit +:+ " 已 " +:+ fmt_d (rl_ForSeconds r) +:+ " 秒")
          evalNow changes
      else mret changes
    else mret changes
  else
    let st := {| rs_breach := false; rs_breachSince := rs_breachSince st;
                 rs_recovering := rs_recovering st; rs_recoverSince := rs_recoverSince st |} in
    re_put key st ;;
    open ← isFaultOpen (s_ID src) fk;
    if open : bool then
      let '(st, due) := on_recover r v recoverLimit evalNow st in
      re_put key st ;;
      if due : bool then
        changes ← emit src "threshold_recovered" "info" fk "resolve"
          (s_Name src +:+ "：" +:+ thresholdTitle r sel +:+ " 恢复正常")
          (sel +:+ "=" +:+ fmt_f 2 v +:+ " 回落至 " +:+ fmt_f 0 recoverLimit +:+ " 以下持续 " +:+
           fmt_d (rl_RecoverForSeconds r) +:+ " 秒")
          evalNow changes;
        re_put key ruleState0 ;; mret changes
      else mret changes
    else mret changes%string.

(* @src hub/rules.go 144-215 evalThreshold *)
Definition evalThreshold (src : sourceRow) (r : rule) (s : samplePayload) (evalNow : Z)
    (changes : list changeEntry) : HM (list changeEntry) :=
  match rl_Value r with
  | None => mret changes
  | Some limit =>
    let recoverLimit := default limit (rl_RecoverValue r) in
    st_foldl (threshold_reading src r limit recoverLimit evalNow) changes (extractMetric r s)
  end.

(** The loop body of [evalContainers], for a container of the current sample. *)
(* @src hub/rules.go 263-326 !evalContainers *)
Definition container_now (src : sourceRow) (r : rule) (prevByName : gmap string containerPayload)
    (evalNow : Z) (changes : list changeEntry) (c : containerPayload) : HM (list changeEntry) :=
  if negb (rule_match r (cp_Name c)) then mret changes else
  match prevByName !! cp_Name c with
  | None => mret changes
  | Some p =>
    let fk := ("container:" +:+ cp_Name c)%string in
    if decide (cp_State p = "running" ∧ cp_State c ≠ "running")%string then
      open ← isFaultOpen (s_ID src) fk;
      if negb open then
        emit src "container_exit" (sev_or r "warning") fk "open"
          ("容器 " +:+ cp_Name c +:+ " 退出")
          (match cp_ExitCode c with
           | Some code => "state=" +:+ cp_State c +:+ " exitCode=" +:+ fmt_d code
           | None => "state=" +:+ cp_State c
           end) evalNow changes
      else mret changes
    else if decide (cp_State p ≠ "running" ∧ cp_State c = "running")%string then
      open ← isFaultOpen (s_ID src) fk;
      if open : bool then
        emit src "container_back" "info" fk "resolve" ("容器 " +:+ cp_Name c +:+ " 恢复运行")
          "state=running" evalNow changes
      else mret changes
    else if decide (cp_State p = "running" ∧ cp_State c = "running")%string then
      match cp_RestartCount c, cp_RestartCount p with
      | Some n, Some n0 =>
        if decide (n0 < n) then
          open ← isFaultOpen (s_ID src) fk;
          if open : bool then
            emit src "container_exit" "warning" fk "update" ("容器 " +:+ cp_Name c +:+ " 重启计数增加")
              ("restartCount=" +:+ fmt_d n) evalNow changes
          else mret changes
        else mret changes
      | _, _ => mret changes
      end
    else mret changes
  end%string.

(** ... and for a container of the previous one. *)
(* @src hub/rules.go 329-347 !evalContainers *)
Definition container_gone (src : sourceRow) (r : rule) (curNames : list string) (evalNow : Z)
    (changes : list changeEntry) (p : containerPayload) : HM (list changeEntry) :=
  if bool_decide (cp_Name p ∈ curNames) || negb (rule_match r (cp_Name p)) then mret changes
  else
    let fk := ("container:" +:+ cp_Name p)%string in
    open ← isFaultOpen (s_ID src) fk;
    if open : bool then
      emit src "container_back" "info" fk "resolve" ("容器 " +:+ cp_Name p +:+ " 已移除") "容器已移除"
        evalNow changes
    else mret changes%string.

(* @src hub/rules.go 242-345 evalContainers *)
(** Of several containers with one name the map keeps the last. *)
Definition evalContainers (src : sourceRow) (r : rule) (prev : option samplePayload)
    (cur : samplePayload) (evalNow : Z) (changes : list changeEntry) : HM (list changeEntry) :=
  match sp_Containers cur with
  | None => mret changes
  | Some cs =>
    let before := match prev with Some p => default [] (sp_Containers p) | None => [] end in
    let prevByName := foldl (λ m c, <[cp_Name c := c]> m) ∅ before in
    changes ← st_foldl (container_now src r prevByName evalNow) changes cs;
    st_foldl (container_gone src r (cp_Name <$> cs) evalNow) changes before
  end.

(** The loop body of [evalSmart] and [evalPool]: a condition that is bad, good, or neither. *)
(* @src hub/rules.go 363-395 !evalSmart *)
Definition condition_step (src : sourceRow) (fk kindBad kindGood sev titleBad titleGood bodyBad bodyGood : string)
    (bad good : bool) (evalNow : Z) (changes : list changeEntry) : HM (list changeEntry) :=
  if bad then
    open ← isFaultOpen (s_ID src) fk;
    if negb open then emit src kindBad sev fk "open" titleBad bodyBad evalNow changes else mret changes
  else if good then
    open ← isFaultOpen (s_ID src) fk;
    if open : bool then emit src kindGood "info" fk "resolve" titleGood bodyGood evalNow changes
    else mret changes
  else mret changes.

(* @src hub/rules.go 349-399 evalSmart *)
Definition evalSmart (src : sourceRow) (r : rule) (cur : samplePayload) (evalNow : Z)
    (changes : list changeEntry) : HM (list changeEntry) :=
  match sp_NAS cur with
  | None => mret changes
  | Some nas =>
    st_foldl (λ changes d,
      condition_step src ("smart:" +:+ ndp_Dev d) "smart_failing" "smart_back" (sev_or r "critical")
        ("磁盘 " +:+ ndp_Dev d +:+ " SMART 异常") ("磁盘 " +:+ ndp_Dev d +:+ " SMART 恢复")
        "smart=failing" "smart=ok"
        (bool_decide (ndp_Smart d = "failing")) (bool_decide (ndp_Smart d = "ok")) evalNow changes)
      changes (nas_disks nas)
  end%string.

(* @src hub/rules.go 403-450 evalPool *)
Definition evalPool (src : sourceRow) (r : rule) (cur : samplePayload) (evalNow : Z)
    (changes : list changeEntry) : HM (list changeEntry) :=
  match sp_NAS cur with
  | None => mret changes
  | Some nas =>
    st_foldl (λ changes p,
      condition_step src ("pool:" +:+ npp_Name p) "pool_error" "pool_back" (sev_or r "critical")
        ("存储池 " +:+ npp_Name p +:+ " 异常") ("存储池 " +:+ npp_Name p +:+ " 恢复")
        ("state=" +:+ npp_State p) "state=ok"
        (bool_decide (npp_State p = "degraded" ∨ npp_State p = "error"))
        (bool_decide (npp_State p = "ok")) evalNow changes)
      changes (nas_pools nas)
  end%string.

(* @src hub/rules.go 37-78 evalSample *)
Definition evalSample (src : sourceRow) (doc : rulesDoc) (sample : samplePayload) (arrival : Z)
    (changes : list changeEntry) : HM (list changeEntry) :=
  let sampleTS := default zero_time (parseTS (sp_TS sample)) in
  let evalNow := if decide (arrival < sampleTS) then sampleTS else arrival in
  let prev := s_PrevSample src in
  st_foldl (λ changes r,
    if negb (rl_Enabled r) then mret changes
    else if decide (rl_Kind r = "threshold") then evalThreshold src r sample evalNow changes
    else if decide (rl_Kind r = "container_exit") then evalContainers src r prev sample evalNow changes
    else if decide (rl_Kind r = "smart") then evalSmart src r sample evalNow changes
    else if decide (rl_Kind r = "pool") then evalPool src r sample evalNow changes
    else mret changes) changes (rd_Rules doc)%string.

(* @src hub/rules.go 454-465 pauseSource *)
Definition pauseSource (sourceID : string) : HM () :=
  st_modify (λ w, wset_re (filter (λ kv, kv.1.1.1 ≠ sourceID) (w_re w)) w).

(** The transaction of [checkHeartbeats] for one source: everything is checked again. *)
(* @src hub/rules.go 485-517 !checkHeartbeats *)
Definition heartbeat_tx (src : sourceRow) (now hbSec : Z) : HM (list changeEntry) :=
  fresh ← loadSourceTx (s_ID src);
  match s_LastSeenAt fresh with
  | Some seen =>
    if negb (s_Enabled fresh) || bool_decide (s_Kind fresh ≠ "device"%string) ||
       bool_decide (is_Some (s_DeletedAt fresh)) then mret []
    else match parseTS seen with
         | None => mret []
         | Some freshSeen =>
           if decide (time_sub now freshSeen <= duration_mul hbSec Second) then mret []
           else
             f ← loadFaultTx (s_ID fresh) "heartbeat";
             match f with
             | Some f =>
               if decide (f_State f = "open"%string) then mret []
               else
                 ch ← emitHubEventTx fresh "heartbeat_lost" "critical" (Some "heartbeat") (Some "open")
                   (s_Name fresh +:+ " 失联") (Some ("已连续 " +:+ fmt_d hbSec +:+ " 秒无心跳上报")) now [];
                 emitSourceChangeTx fresh ch
             | None =>
               ch ← emitHubEventTx fresh "heartbeat_lost" "critical" (Some "heartbeat") (Some "open")
                 (s_Name fresh +:+ " 失联") (Some ("已连续 " +:+ fmt_d hbSec +:+ " 秒无心跳上报")) now [];
               emitSourceChangeTx fresh ch
             end
         end
  | None => mret []
  end%string.

(** One source of the loop: errors are skipped. *)
(* @src hub/rules.go 469-522 !checkHeartbeats *)
Definition check_source (now hbSec : Z) (src : sourceRow) : HM () :=
  match s_LastSeenAt src with
  | Some seen =>
    if negb (s_Enabled src) || bool_decide (s_Kind src ≠ "device"%string) then mret ()
    else match parseTS seen with
         | None => mret ()
         | Some lastSeen =>
           if decide (time_sub now lastSeen <= duration_mul hbSec Second) then mret ()
           else
             open ← st_try (faultOpen (s_ID src) "heartbeat");
             match open with
             | Ok false =>
               r ← st_try (withTx (heartbeat_tx src now hbSec));
               match r with
               | Ok changes => pauseSource (s_ID src) ;; publish changes
               | Err _ => mret ()
               end
             | _ => mret ()
             end
         end
  | None => mret ()
  end.

(* @src hub/rules.go 467-537 checkHeartbeats *)
Definition checkHeartbeats (now : Z) : HM () :=
  hbSec ← heartbeatSeconds;
  sources ← st_try listSources;
  match sources with
  | Ok sources => st_foldl (λ _ src, check_source now hbSec src) () sources
  | Err _ => mret ()
  end.
End rules.

(** ** Specification of the timers *)

(** A timer's history: when each reading was taken and whether it violated the limit, oldest
    first.  The reference for [rs_breachSince] is the first reading of the longest run of
    violations that ends the history. *)
Fixpoint violation_start (hist : list (Z * bool)) (start : option Z) : option Z :=
  match hist with
  | [] => start
  | (t, true) :: hist => violation_start hist (match start with Some s => Some s | None => Some t end)
  | (_, false) :: hist => violation_start hist None
  end.

(** The timer [st] of a key after the readings [hist], as the engine's loop body leaves it,
    whatever else happens in between and whether or not a reading's transaction succeeds; the
    source and the rule's other settings may change meanwhile.  A key without a timer has no
    history: the program starts, or a lost heartbeat has thrown the source's timers away. *)
Inductive observed `{HE : HubEnv} (sid rid sel : string) : list (Z * bool) → option ruleState → Prop :=
| obs_start : observed sid rid sel [] None
| obs_reading hist st src r limit recoverLimit now changes v w res w' :
    observed sid rid sel hist st → w_re w !! (sid, rid, sel) = st → s_ID src = sid → rl_ID r = rid →
    threshold_reading src r limit recoverLimit now changes (sel, v) w = (res, w') →
    observed sid rid sel (hist ++ [(now, violates (rl_Op r) v limit)]) (w_re w' !! (sid, rid, sel)).

(** Instants within the range of a [time.Duration] of each other. *)
Definition near (a b : Z) : Prop := int64_min <= a - b <= int64_max.

(** ** Lemmas *)

Section rules_lemmas.
Context `{HE : HubEnv}.
Implicit Types (ch : list changeEntry).

Lemma produces_re_get ch key : produces ch (re_get key) (λ _, ch).
Proof. by apply produces_quiet. Qed.
Lemma produces_re_put ch key st : produces ch (re_put key st) (λ _, ch).
Proof. by apply produces_quiet. Qed.
Lemma produces_isOpen ch s k : produces ch (isFaultOpen s k) (λ _, ch).
Proof. apply produces_query. Qed.

Lemma produces_if {A} ch (b : bool) (m1 m2 : stM World herr A) chs :
  produces ch m1 chs → produces ch m2 chs → produces ch (if b then m1 else m2) chs.
Proof. by destruct b. Qed.

Lemma produces_threshold_reading ch src r l rl now lv :
  produces ch (threshold_reading src r l rl now ch lv) (λ ch', ch').
Proof.
  unfold threshold_reading. destruct lv as [sel v].
  apply produces_step; [apply produces_re_get|intros st]. destruct (violates _ _ _).
  - destruct (on_breach _ _ _) as [st' due].
    apply produces_step; [apply produces_re_put|intros _]. destruct due; [|by apply produces_ret].
    apply produces_step; [apply produces_isOpen|intros []]; [by apply produces_ret|apply produces_emit].
  - apply produces_step; [apply produces_re_put|intros _].
    apply produces_step; [apply produces_isOpen|intros []]; [|by apply produces_ret].
    destruct (on_recover _ _ _ _ _) as [st' due].
    apply produces_step; [apply produces_re_put|intros _]. destruct due; [|by apply produces_ret].
    eapply produces_bind; [apply produces_emit|intros ch'].
    apply produces_step; [apply produces_re_put|intros _]. by apply produces_ret.
Qed.

Lemma produces_guarded ch s k (b : bool) (m : stM World herr (list changeEntry)) :
  produces ch m (λ ch', ch') →
  produces ch (open ← isFaultOpen s k; if xorb b open then m else mret ch) (λ ch', ch').
Proof.
  intros Hm. apply produces_step; [apply produces_isOpen|intros open].
  apply produces_if; [done|by apply produces_ret].
Qed.

Lemma produces_container_now ch src r m now c : produces ch (container_now src r m now ch c) (λ ch', ch').
Proof.
  unfold container_now. destruct (negb _); [by apply produces_ret|].
  destruct (m !! _) as [p|]; [|by apply produces_ret].
  case_decide; [apply (produces_guarded _ _ _ true), produces_emit|].
  case_decide; [apply (produces_guarded _ _ _ false), produces_emit|].
  case_decide; [|by apply produces_ret].
  destruct (cp_RestartCount c), (cp_RestartCount p); try by apply produces_ret.
  case_decide; [|by apply produces_ret]. apply (produces_guarded _ _ _ false), produces_emit.
Qed.

Lemma produces_container_gone ch src r names now p : produces ch (container_gone src r names now ch p) (λ ch', ch').
Proof.
  unfold container_gone. destruct (_ || _); [by apply produces_ret|].
  apply (produces_guarded _ _ _ false), produces_emit.
Qed.

Lemma produces_condition ch src fk kb kg sev tb tg bb bg bad good now :
  produces ch (condition_step src fk kb kg sev tb tg bb bg bad good now ch) (λ ch', ch').
Proof.
  unfold condition_step. destruct bad; [apply (produces_guarded _ _ _ true), produces_emit|].
  destruct good; [apply (produces_guarded _ _ _ false), produces_emit|]. by apply produces_ret.
Qed.

Lemma produces_evalSample ch src doc s at_ : produces ch (evalSample src doc s at_ ch) (λ ch', ch').
Proof.
  apply produces_foldl. clear ch. intros ch r. destruct (negb _); [by apply produces_ret|].
  case_decide; [|case_decide; [|case_decide; [|case_decide; [|by apply produces_ret]]]].
  - unfold evalThreshold. destruct (rl_Value r); [|by apply produces_ret].
    apply produces_foldl. intros. apply produces_threshold_reading.
  - unfold evalContainers. destruct (sp_Containers s); [|by apply produces_ret].
    eapply produces_bind; [apply produces_foldl; intros; apply produces_container_now|intros ch'].
    apply produces_foldl. intros. apply produces_container_gone.
  - unfold evalSmart. destruct (sp_NAS s); [|by apply produces_ret].
    apply produces_foldl. intros. apply produces_condition.
  - unfold evalPool. destruct (sp_NAS s); [|by apply produces_ret].
    apply produces_foldl. intros. apply produces_condition.
Qed.

Lemma produces_heartbeat_tx src now hb : produces [] (heartbeat_tx src now hb) (λ ch', ch').
Proof.
  apply produces_step; [apply produces_row|intros fresh].
  destruct (s_LastSeenAt fresh); [|by apply produces_ret]. destruct (_ || _); [by apply produces_ret|].
  destruct (parseTS _); [|by apply produces_ret]. case_decide; [by apply produces_ret|].
  apply produces_step; [apply produces_query|intros [f|]].
  - case_decide; [by apply produces_ret|].
    eapply produces_bind; [apply produces_emit|intros ch; apply produces_sourceChange].
  - eapply produces_bind; [apply produces_emit|intros ch; apply produces_sourceChange].
Qed.

Lemma inside_re_get d0 b0 key : preserves (E:=herr) (inside d0 b0) (re_get key).
Proof. intros w H. by eapply inside_ext, H. Qed.
Lemma inside_re_put d0 b0 key st : preserves (E:=herr) (inside d0 b0) (re_put key st).
Proof. intros w H. by eapply inside_ext, H. Qed.
#[local] Hint Resolve inside_re_get inside_re_put : presdb.

Lemma sealed_evalSample src doc s at_ ch : sealed (evalSample src doc s at_ ch).
Proof.
  intros d0 b0. unfold evalSample, evalThreshold, evalContainers, evalSmart, evalPool, threshold_reading,
    container_now, container_gone, condition_step, isFaultOpen, emit. pres.
Qed.

Lemma sealed_heartbeat_tx src now hb : sealed (heartbeat_tx src now hb).
Proof. intros d0 b0. unfold heartbeat_tx. pres. Qed.

(** The evaluation moves the tables only by the events it emits. *)
Lemma moves_evalSample (R : db → db → Prop) `{!PreOrder R} src doc s at_ ch :
  (∀ src k sev fk act t b at_ ch, moves R (emitHubEventTx src k sev fk act t b at_ ch)) →
  moves R (evalSample src doc s at_ ch).
Proof.
  intros Hemit.
  assert (∀ src k sev fk act t b at_ ch, moves R (emit src k sev fk act t b at_ ch)) as He by (intros; apply Hemit).
  assert (∀ key, moves R (re_get key)) as Hg by (intros; apply moves_quiet; [apply _|done]).
  assert (∀ key st, moves R (re_put key st)) as Hp by (intros; apply moves_quiet; [apply _|done]).
  unfold evalSample, evalThreshold, evalContainers, evalSmart, evalPool, threshold_reading,
    container_now, container_gone, condition_step, isFaultOpen. cbv zeta.
  moves_steps.
Qed.

Lemma kept_evalSample src doc s at_ ch : moves kept (evalSample src doc s at_ ch).
Proof. apply moves_evalSample; [apply _|intros; apply kept_emit]. Qed.

Lemma violation_start_app h t b start :
  violation_start (h ++ [(t, b)]) start =
    if b then Some (default t (violation_start h start)) else None.
Proof.
  revert start. induction h as [|[t0 b0] h IH]; intros start; cbn; [by destruct b, start|].
  destruct b0; apply IH.
Qed.

Lemma violation_start_in h start s : violation_start h start = Some s → start = Some s ∨ ∃ b, (s, b) ∈ h.
Proof.
  revert start. induction h as [|[t b] h IH]; intros start; cbn; [by left|]. destruct b; intros H; apply IH in H as [H|(b' & H)].
  - destruct start; [by left|]. injection H as <-. right. exists true. left.
  - right. exists b'. by right.
  - done.
  - right. exists b'. by right.
Qed.

(** When the timer is due, given what its history says of it. *)
Lemma breach_due r hist now st st' due :
  0 <= rl_ForSeconds r <= int64_max / Second → (∀ t b, (t, b) ∈ hist → near now t) →
  (rs_breach st = true ↔ violation_start hist None ≠ None) →
  (∀ s, violation_start hist None = Some s → rs_breachSince st = s) →
  on_breach r now st = (st', due) →
  (due = true ↔ ∃ start, violation_start (hist ++ [(now, true)]) None = Some start ∧ rl_ForSeconds r * Second <= now - start).
Proof.
  intros Hfor Hnear Hb Hs [= _ <-]. rewrite violation_start_app, bool_decide_eq_true.
  assert (duration_mul (rl_ForSeconds r) Second = rl_ForSeconds r * Second) as ->.
  { apply wrap64_small. unfold int64_min. assert (rl_ForSeconds r * Second <= int64_max); [|unfold Second in *; lia].
    transitivity (int64_max / Second * Second); [unfold Second in *; nia|].
    rewrite Z.mul_comm. apply Z.mul_div_le. done. }
  destruct (violation_start hist None) as [s|] eqn:Ev; cbn.
  - rewrite (proj2 Hb), (Hs s) by done.
    assert (near now s) as Hn by (destruct (violation_start_in _ _ _ Ev) as [?|[b Hin]]; [done|by apply Hnear in Hin]).
    rewrite time_sub_small by exact Hn.
    split; [intros H; eexists; split; [done|exact H]|by intros (? & [= <-] & H)].
  - destruct (rs_breach _) eqn:Er; [by destruct (proj1 Hb eq_refl)|].
    rewrite time_sub_small by (rewrite Z.sub_diag; done).
    split; [intros H; eexists; split; [done|exact H]|by intros (? & [= <-] & H)].
Qed.

(** ** The timers of the engine *)

Notation timer w key := (default ruleState0 (w_re w !! key)).

Lemma timers_tx_call {A} (f : db → outcome herr (A * db)) (I : gmap ruleKey ruleState → Prop) :
  preserves (λ w, I (w_re w)) (tx_call f).
Proof. intros w H. unfold tx_call. destruct (w_tx w); [|exact H]. destruct (h_io _); [exact H|]. by destruct (f _) as [[]|]. Qed.

(** An emitted event leaves them alone, whatever happens. *)
Lemma timers_emit (I : gmap ruleKey ruleState → Prop) src kind sev fk act t b at_ ch :
  preserves (E := herr) (λ w, I (w_re w)) (emit src kind sev fk act t b at_ ch).
Proof.
  assert (∀ A (f : db → outcome herr (A * db)), preserves (λ w, I (w_re w)) (tx_call f)) as Hcall by (intros; apply timers_tx_call).
  assert (preserves (E := herr) (λ w, I (w_re w)) nowUTC) as Hnow by (by intros w H).
  assert (∀ p, preserves (E := herr) (λ w, I (w_re w)) (newID p)) as Hid by (by intros p w H).
  unfold emit, emitHubEventTx, nextHubSeqTx, applyEventTx, record_message, store_fault, attach_messages, fault_transition,
    newFaultRow, loadFaultTx, findPendingResolve, upsertFaultTx, insertChangeObj, nextChangeSeq, insert_change_row, tx_query,
    tx_exec, tx_insert, tx_row. pres.
Qed.

(** A reading keeps what its writes keep. *)
Lemma timers_reading (I : gmap ruleKey ruleState → Prop) s k (m : bool → stM World herr (list changeEntry)) :
  (∀ b, preserves (λ w, I (w_re w)) (m b)) → preserves (λ w, I (w_re w)) (isFaultOpen s k ≫= m).
Proof. intros Hm. apply preserves_bind; [apply timers_tx_call|exact Hm]. Qed.
Lemma timers_put (I : gmap ruleKey ruleState → Prop) key st {A} (m : stM World herr A) :
  (∀ re, I re → I (<[key := st]> re)) → preserves (λ w, I (w_re w)) m → preserves (λ w, I (w_re w)) (re_put key st ;; m).
Proof. intros Hk Hm. apply preserves_bind; [intros w; apply Hk|intros _; exact Hm]. Qed.

(** What a reading does to its timer: it starts or goes on while the limit is violated, and is
    reset when it is not. *)
Lemma reading_timer src r limit rl now ch sel v w :
  let key := (s_ID src, rl_ID r, sel) in
  let st := timer w key in let st' := timer (threshold_reading src r limit rl now ch (sel, v) w).2 key in
  if violates (rl_Op r) v limit then
    rs_breach st' = true ∧ rs_breachSince st' = if rs_breach st then rs_breachSince st else now
  else rs_breach st' = false.
Proof.
  intros key st st'. subst st'. unfold threshold_reading. fold key.
  rewrite (st_bind_Ok_step (re_get key) _ w st _ eq_refl). set (w1 := wset_re _ w).
  destruct (violates _ _ _); cbn [on_breach].
  - set (I := λ re : gmap ruleKey ruleState, rs_breach (default ruleState0 (re !! key)) = true ∧
      rs_breachSince (default ruleState0 (re !! key)) = if rs_breach st then rs_breachSince st else now).
    match goal with |- context [(re_put key ?t ;; ?m) w1] => change ((re_put key t ;; m) w1) with (m (re_put key t w1).2);
      assert (preserves (λ w, I (w_re w)) m) as Hm end.
    { destruct (bool_decide _); [|apply preserves_ret]. apply timers_reading. intros [|]; [apply preserves_ret|apply timers_emit]. }
    apply Hm. unfold I. cbn. by rewrite lookup_insert_eq.
  - set (I := λ re : gmap ruleKey ruleState, rs_breach (default ruleState0 (re !! key)) = false).
    match goal with |- context [(re_put key ?t ;; ?m) w1] => change ((re_put key t ;; m) w1) with (m (re_put key t w1).2);
      assert (preserves (λ w, I (w_re w)) m) as Hm end.
    { apply timers_reading. intros [|]; [|apply preserves_ret]. destruct (on_recover r v rl now _) as [st1 due] eqn:Er.
      apply timers_put.
      { intros re _. unfold I. rewrite lookup_insert_eq. unfold on_recover in Er. cbn.
        destruct (recovers _ _ _); by injection Er as <- _. }
      destruct due; [|apply preserves_ret]. apply preserves_bind; [apply timers_emit|intros ch1].
      apply timers_put; [|apply preserves_ret]. intros re _. unfold I. by rewrite lookup_insert_eq. }
    apply Hm. unfold I. cbn. by rewrite lookup_insert_eq.
Qed.

(** It leaves the timers of other keys alone. *)
Lemma reading_others src r limit rl now ch sel v w key :
  key ≠ (s_ID src, rl_ID r, sel) → w_re (threshold_reading src r limit rl now ch (sel, v) w).2 !! key = w_re w !! key.
Proof.
  intros Hne. set (I := λ re : gmap ruleKey ruleState, re !! key = w_re w !! key).
  assert (∀ st re, I re → I (<[(s_ID src, rl_ID r, sel) := st]> re)) as Hput
    by (intros st re H; unfold I; by rewrite lookup_insert_ne).
  assert (preserves (λ w, I (w_re w)) (threshold_reading src r limit rl now ch (sel, v))) as Hm; [|by apply Hm].
  unfold threshold_reading. apply preserves_bind; [by intros w0; apply Hput|intros st]. destruct (violates _ _ _).
  - cbn [on_breach]. apply timers_put; [apply Hput|]. destruct (bool_decide _); [|apply preserves_ret].
    apply timers_reading. intros [|]; [apply preserves_ret|apply timers_emit].
  - apply timers_put; [apply Hput|]. apply timers_reading. intros [|]; [|apply preserves_ret].
    destruct (on_recover _ _ _ _ _) as [st1 due]. apply timers_put; [apply Hput|]. destruct due; [|apply preserves_ret].
    apply preserves_bind; [apply timers_emit|intros ch1]. apply timers_put; [apply Hput|apply preserves_ret].
Qed.

(** The timer is the reference: breached exactly when the history ends in violations, since
    the first of them. *)
Lemma observed_timer sid rid sel hist st :
  observed sid rid sel hist st →
  (rs_breach (default ruleState0 st) = true ↔ violation_start hist None ≠ None) ∧
  (∀ s, violation_start hist None = Some s → rs_breachSince (default ruleState0 st) = s).
Proof.
  induction 1 as [|hist st src r limit rl now ch v w res w' _ [IH1 IH2] Hst <- <- Hrun]; [done|].
  pose proof (reading_timer src r limit rl now ch sel v w) as H. cbv zeta in H. rewrite Hrun in H. cbn [snd] in H.
  rewrite Hst in H. rewrite violation_start_app. destruct (violates _ _ _); [|by rewrite H].
  destruct H as [-> Hs]. split; [done|]. intros s [= <-]. rewrite Hs.
  destruct (violation_start hist None) as [s0|]; cbn.
  - rewrite (proj2 IH1) by done. by apply IH2.
  - destruct (rs_breach _); [|done]. by destruct (proj1 IH1 eq_refl).
Qed.

(** ** The events of a reading *)

Lemma nextHubSeq_meta w d s w' :
  w_tx w = Some d → nextHubSeqTx w = (Ok s, w') →
  ∃ m, w_tx w' = Some (set_d_meta m d) ∧ same_outside w w'.
Proof.
  intros Hd H. assert (∀ d, ∃ m, d = set_d_meta m d) as Hid by (intros d0; exists (d_meta d0); by destruct d0).
  unfold nextHubSeqTx in H. mrun H. apply (tx_exec_Ok _ _ _ _ _ Hd) in Hrun as [Hd1 Hs1].
  assert (∃ m1, w_tx s0 = Some (set_d_meta m1 d)) as [m1 Hm1].
  { rewrite Hd1. destruct (d_meta d !! _); [|by eexists]. destruct (Hid d) as [m Hm]. exists m. by rewrite <-Hm. }
  mrun H. apply (tx_exec_Ok _ _ _ _ _ Hm1) in Hrun as [Hd2 Hs2].
  apply (tx_row_Ok _ _ _ _ _ Hd2) in H as (_ & Hd3 & Hs3).
  assert (same_outside w w') by (etransitivity; [exact Hs1|etransitivity; [exact Hs2|exact Hs3]]).
  rewrite Hd3. destruct (d_meta (set_d_meta m1 d) !! "hub_event_seq"%string); eexists; (split; [reflexivity|done]).
Qed.

(** What an emitted event writes. *)
Lemma emit_row src kind sev fk act t b at_ ch w d ch' w' :
  w_tx w = Some d → emit src kind sev fk act t b at_ ch w = (Ok ch', w') → fk ≠ EmptyString → act ≠ EmptyString →
  ∃ d' row, w_tx w' = Some d' ∧ d_events d' = d_events d ++ [row] ∧ e_source_id row = s_ID src ∧ e_severity row = sev ∧
    e_fault_key row = Some fk ∧ e_incident_action row = Some act ∧ e_internal row = true.
Proof.
  intros Hd H Hfk Hact. unfold emit, emitHubEventTx in H. mrun H. apply (nextHubSeq_meta _ _ _ _ Hd) in Hrun as (m & Hd1 & _).
  mrun H. apply newID_Ok in Hrun as (_ & _ & Hd2 & _). rewrite Hd1 in Hd2.
  apply (applyEventTx_Ok _ _ _ _ _ _ _ _ _ Hd2) in H as (d' & new & Hd3 & _ & _ & Ha).
  destruct Ha as (_ & _ & now & _ & _ & _ & _ & _ & _ & _ & Hev & _).
  exists d'. eexists. split; [exact Hd3|]. split; [exact Hev|]. cbn -[nullStr]. unfold nullStr. by rewrite !decide_False.
Qed.
End rules_lemmas.

#[export] Hint Resolve sealed_evalSample sealed_heartbeat_tx : presdb.

(** ** Properties *)


Definition demo_rule (forSeconds : Z) : rule :=
  {| rl_ID := "cpu_high"; rl_Kind := "threshold"; rl_Metric := "cpu_percent"; rl_Label := None; rl_Op := "gt";
     rl_Value := Some (f64_of_Z 90); rl_ForSeconds := forSeconds; rl_RecoverValue := Some (f64_of_Z 75);
     rl_RecoverForSeconds := 60; rl_Match := None; rl_Severity := "warning"; rl_Enabled := true |}%string.

(** Readings one after the other. *)
Fixpoint readings `{HE : HubEnv} (src : sourceRow) (r : rule) (limit recoverLimit : float64) (sel : string)
    (l : list (Z * float64)) (w : World) : World :=
  match l with
  | [] => w
  | (now, v) :: l => readings src r limit recoverLimit sel l (threshold_reading src r limit recoverLimit now [] (sel, v) w).2
  end.

Lemma readings_observed `{HE : HubEnv} src r limit rl sel l hist w :
  observed (s_ID src) (rl_ID r) sel hist (w_re w !! (s_ID src, rl_ID r, sel)) →
  observed (s_ID src) (rl_ID r) sel (hist ++ ((λ x, (x.1, violates (rl_Op r) x.2 limit)) <$> l))
    (w_re (readings src r limit rl sel l w) !! (s_ID src, rl_ID r, sel)).
Proof.
  revert hist w. induction l as [|[now v] l IH]; intros hist w H; cbn [readings]; [by rewrite app_nil_r|].
  rewrite fmap_cons, cons_middle, app_assoc. apply IH. cbn [fst snd].
  eapply (obs_reading _ _ _ _ _ src r limit rl now [] v w _ _ H eq_refl eq_refl eq_refl). apply surjective_pairing.
Defined.

(** Four readings, of which the second is within the limit. *)
Definition demo_readings : list (Z * float64) :=
  [(0, f64_of_Z 95); (30 * Second, f64_of_Z 50); (60 * Second, f64_of_Z 95); (120 * Second, f64_of_Z 95)].
Definition demo_window : World :=
  readings (HE := demo_env) demo_source (demo_rule 180) (f64_of_Z 90) (f64_of_Z 75) "-" demo_readings
    (wset_tx (Some demo_db) (world_of demo_db)).


(** The duration of a rule is multiplied in 64 bits: from [forSeconds] = 9223372037 on it
    wraps to a negative one, and the first violating reading is already due. *)
Example for_seconds_overflow :
  duration_mul 9223372037 Second < 0 ∧
  (on_breach (demo_rule 9223372037) 0 ruleState0).2 = true.
Proof. vm_compute. done. Qed.

(** The heartbeat monitor, whatever fails.  A transaction of the monitor that changes anything does so
    for a source that, as committed, is an enabled device, is not deleted, was last seen more
    than the heartbeat before [now], and has no open heartbeat fault; otherwise it leaves the
    tables as they are. *)
Theorem heartbeat_guarded `{HE : HubEnv} src now hb w d ch w' d'
    (Htx : w_tx w = Some d) (Hrun : heartbeat_tx src now hb w = (Ok ch, w')) (Htx' : w_tx w' = Some d') :
  (ch = [] ∧ d' = d) ∨
  ∃ s seen t, tbl_lookup (s_ID src) (d_sources d) = Some s ∧ s_Enabled s = true ∧
    s_Kind s = "device"%string ∧ s_DeletedAt s = None ∧ s_LastSeenAt s = Some seen ∧
    parseTS seen = Some t ∧ duration_mul hb Second < time_sub now t ∧
    (snd <$> abs_fault (s_ID s) "heartbeat" d) ≠ Some true.
Proof.
  unfold heartbeat_tx in Hrun. mrun Hrun. rename a into sr.
  apply (tx_row_Ok _ _ _ _ _ Htx) in Hrun0 as (Hs & Hd1 & _).
  assert (∀ w2, w_tx w2 = Some d → (Ok ch, w') = (Ok [] : outcome herr (list changeEntry), w2) → ch = [] ∧ d' = d) as Hquiet.
  { intros w2 Hw2 [= -> ->]. rewrite Hw2 in Htx'. by injection Htx'. }
  destruct (s_LastSeenAt sr) as [seen|] eqn:Eseen; [|left; by apply (Hquiet s)].
  destruct (negb (s_Enabled sr) || _ || _) eqn:Eb; [left; by apply (Hquiet s)|].
  apply orb_false_iff in Eb as [[E1 E2]%orb_false_iff E3].
  apply negb_false_iff in E1. apply bool_decide_eq_false in E2, E3.
  destruct (parseTS seen) as [t|] eqn:Et; [|left; by apply (Hquiet s)].
  destruct (decide (_ <= _)) as [Hle|Hgt]; [left; by apply (Hquiet s)|].
  mrun Hrun. apply (tx_query_Ok _ _ _ _ _ Hd1) in Hrun0 as (-> & Hd2 & _).
  assert (snd <$> abs_fault (s_ID sr) "heartbeat" d ≠ Some true → ∃ s seen t, tbl_lookup (s_ID src) (d_sources d) = Some s ∧ s_Enabled s = true ∧
    s_Kind s = "device"%string ∧ s_DeletedAt s = None ∧ s_LastSeenAt s = Some seen ∧
    parseTS seen = Some t ∧ duration_mul hb Second < time_sub now t ∧
    snd <$> abs_fault (s_ID s) "heartbeat" d ≠ Some true) as Hres.
  { intros Hnot. exists sr, seen, t. split_and!; try done; [by apply dec_stable| |lia].
    destruct (s_DeletedAt sr); [by destruct E3|done]. }
  destruct (find_fault (s_ID sr) "heartbeat" d) as [f|] eqn:Ef.
  - destruct (decide (f_State f = _)) as [Ho|Ho]; [left; by apply (Hquiet s0)|]. right. apply Hres.
    unfold abs_fault. rewrite Ef. cbn. by rewrite bool_decide_false.
  - right. apply Hres. unfold abs_fault. by rewrite Ef.
Qed.

Lemma heartbeat_guarded_witness :
  let s := set_s_LastSeenAt (Some "2026-09-18T05:00:00.000Z"%string) demo_source in
  let d := set_d_sources [s] empty_db in
  let w := wset_tx (Some d) (world_of d) in
  let r := heartbeat_tx (HE := demo_env) s (date_utc 2026 9 18 6 0 0 0) 180 w in
  r.1 ≠ Ok [] ∧ s_Enabled s = true.
Proof.
  intros s d w r. assert (∃ e es, r.1 = Ok (e :: es)) as (e & es & E) by (vm_compute; eauto).
  split; [rewrite E; discriminate|].
  assert (∃ d', w_tx r.2 = Some d') as [d' Hd'] by (vm_compute; eauto).
  destruct r as [o w'] eqn:Er. cbn in E, Hd'. subst o.
  destruct (heartbeat_guarded (HE := demo_env) s (date_utc 2026 9 18 6 0 0 0) 180 w d (e :: es) w' d' eq_refl Er Hd')
    as [[? _]|(s1 & _ & _ & Hs1 & He & _)]; [discriminate|].
  vm_compute in Hs1. injection Hs1 as <-. exact He.
Defined.
