(* ===== verification/Ingest.v ===== *)
(** Ingest ([hub/ingest.go]): a metrics sample or a batch of events from a source, validated,
    deduplicated and applied in one transaction, with the changes published after it.

    A handler is given the body [decodeBody] made of the request and the source the key of
    the request names. *)

From S2P Require Import Prelude GoBase GoTime HubTypes HubStore Fault Rules.
From Stdlib Require Import Ascii.
Local Open Scope Z_scope.

(** ** Validation *)

(* @src hub/ingest.go 235-235 !eventIDRe *)
Definition event_id_char (c : ascii) : bool :=
  byte_in 65 90 c || byte_in 97 122 c || byte_in 48 57 c ||
  bool_decide (c ∈ ["."%char; "_"%char; ":"%char; "-"%char]).

Fixpoint str_all (p : ascii → bool) (s : string) : bool :=
  match s with EmptyString => true | String c s => p c && str_all p s end.

(* @src hub/ingest.go 235-235 eventIDRe *)
Definition eventIDRe (s : string) : bool :=
  bool_decide (1 <= str_len s <= 128) && str_all event_id_char s.

(* @src hub/ingest.go 237-237 maxBackfillAge *)
Definition maxBackfillAge : Z := 90 * 24 * Hour.

(** The checks after the two on [occurredAt]. *)
(* @src hub/ingest.go 253-279 !validateEvent *)
Definition validate_rest (ev : eventPayload) : string := (
  if negb (bool_decide (ep_Severity ev ∈ ["info"; "warning"; "critical"])) then "severity 非法"
  else if bool_decide (ep_Title ev = "") || bool_decide (200 < rune_count (ep_Title ev))
    then "title 缺失或超过 200 字符"
  else if match ep_Body ev with Some b => bool_decide (20000 < rune_count b) | None => false end
    then "body 超过 20000 字符"
  else
    let hasFK := bool_decide (is_Some (non_empty (ep_FaultKey ev))) in
    let hasAct := bool_decide (is_Some (non_empty (ep_IncidentAction ev))) in
    if hasAct && negb (bool_decide (default "" (ep_IncidentAction ev) ∈ ["open"; "update"; "resolve"]))
      then "incidentAction 非法"
    else if hasFK && negb hasAct then "faultKey 非空时 incidentAction 必填"
    else if negb hasFK && hasAct then "incidentAction 需要非空 faultKey"
    else "")%string.

(** The rejected entries of the answer: event id, code and message. *)
(* @src hub/ingest.go 301-305 !handleIngestEvents *)
Definition rej : Type := string * string * string.

(** The sources row [cur] with what a sample says of it. *)
(* @src hub/ingest.go 125-129 !handleIngestMetrics *)
Definition with_sample (req : ingestMetricsReq) (sum : summaryJSON) (cur : sourceRow) : sourceRow :=
  let cur := set_s_LastSummary (Some sum) (set_s_LastMetricsSeq (imr_Seq req) cur) in
  match imr_Capabilities req with Some c => set_s_Capabilities (Some c) cur | None => cur end.

(** [UPDATE sources SET ... WHERE id=?] *)
Definition upd_source (id : string) (f : sourceRow → sourceRow) (d : db) : db :=
  set_d_sources (tbl_update id f (d_sources d)) d.

(* @src hub/ingest.go 212-240 buildSummary *)
Definition buildSummary (s : samplePayload) : summaryJSON :=
  {| sum_ts := sp_TS s; sum_cpuPercent := sp_CPUPercent s; sum_memPercent := sp_MemPercent s;
     sum_disks := omap (λ d, match dp_Percent d with Some p => Some (dp_Mount d, p) | None => None end)
                       (sp_Disks s);
     sum_uptimeSeconds := sp_UptimeSeconds s |}.

(** The rows of [insertRawMetrics], in the order they are written. *)
(* @src hub/ingest.go 167-205 !insertRawMetrics *)
Definition raw_rows (sourceID : string) (s : samplePayload) : list rawRow :=
  let ins metric label v :=
    {| mr_source_id := sourceID; mr_ts := sp_TS s; mr_metric := metric; mr_label := label; mr_value := v |} in
  let one metric v := match v with Some v => [ins metric ""%string v] | None => [] end in
  one "cpu_percent"%string (sp_CPUPercent s) ++ one "mem_percent"%string (sp_MemPercent s) ++
  omap (λ d, ins "disk_percent"%string ("mount=" +:+ dp_Mount d)%string <$> dp_Percent d) (sp_Disks s) ++
  match sp_Net s with
  | Some n => one "net_rx_bps"%string (np_RxBps n) ++ one "net_tx_bps"%string (np_TxBps n)
  | None => []
  end.

(** The body of the answer to a metrics post. *)
(* @src hub/ingest.go 158-163 !handleIngestMetrics *)
Record metricsReply := {
  mp_accepted : bool;
  mp_duplicate : bool;
  mp_serverTime : string;
  mp_reportIntervalSeconds : Z }.

(** The body of the answer to an events post. *)
(* @src hub/ingest.go 384-390 !handleIngestEvents *)
Record eventsReply := {
  vp_accepted : list string;
  vp_duplicates : list string;
  vp_rejected : list rej;
  vp_lastSeq : Z;
  vp_serverTime : string }.

(** Where an event of a batch goes before the batch is applied. *)
(* @src hub/ingest.go 296-320 !handleIngestEvents *)
Record triage := {
  tr_valid : list (nat * eventPayload);
  tr_rejected : list rej;
  tr_dups : gset nat;
  tr_seen : gset string }.

Definition triage0 : triage := {| tr_valid := []; tr_rejected := []; tr_dups := ∅; tr_seen := ∅ |}.

(** [sort.Slice] by sequence number: some sorted rearrangement, not a stable one. *)
Class SliceSort := {
  sort_items : list (nat * eventPayload) → list (nat * eventPayload);
  sort_items_perm l : sort_items l ≡ₚ l;
  sort_items_sorted l : StronglySorted Z.le (ep_Seq ∘ snd <$> sort_items l) }.

(** What the loop over the sorted events carries: [cur.LastEventSeq], [acceptedIDs], [changes]. *)
Definition apply_acc : Type := Z * gset nat * list changeEntry.

(** ** Handlers *)

Section ingest.
Context `{HE : HubEnv} `{SS : SliceSort}.
Notation HM := (stM World herr).

(* @src hub/ingest.go 248-290 validateEvent *)
(** The empty message: the event is valid. *)
Definition validateEvent (ev : eventPayload) : HM string :=
  if negb (eventIDRe (ep_EventID ev)) then mret "eventId 缺失或非法（[A-Za-z0-9._:-]{1,128}）"
  else if decide (ep_Kind ev = "") then mret "kind 必填"
  else match parseTS (ep_OccurredAt ev) with
       | None => mret "occurredAt 缺失或非法"
       | Some t =>
         now ← nowUTC;
         mret (if decide (maxBackfillAge < time_sub now t) then "occurredAt 超出 90 天补传窗口"
               else validate_rest ev)
       end%string.

(* @src hub/ingest.go 170-210 insertRawMetrics *)
Definition insertRawMetrics (sourceID : string) (s : samplePayload) : HM () :=
  st_foldl (λ _ row, tx_exec (λ d, set_d_raw (tbl_replace row (d_raw d)) d)) () (raw_rows sourceID s).

(** The check of [bootTime], which announces a reboot. *)
(* @src hub/ingest.go 83-98 !handleIngestMetrics *)
Definition note_boot (cur : sourceRow) (sample : samplePayload) (arrival : Z)
    (changes : list changeEntry) : HM (list changeEntry) :=
  match sp_BootTime sample with
  | Some boot =>
    if decide (boot = "" ∨ s_LastBootTime cur = Some boot) then mret changes
    else
      changes ← match s_LastBootTime cur with
                | Some old =>
                  emitHubEventTx cur "host_reboot" "info" None None (s_Name cur +:+ " 已重启")
                    (Some ("bootTime " +:+ old +:+ " → " +:+ boot)) arrival changes
                | None => mret changes
                end;
      tx_exec (upd_source (s_ID cur) (set_s_LastBootTime (Some boot))) ;;
      mret changes
  | None => mret changes
  end%string.

(* @src hub/ingest.go 52-150 !handleIngestMetrics *)
(** The transaction of [handleIngestMetrics]: whether the post was a duplicate, and the changes. *)
Definition metrics_tx (srcID : string) (req : ingestMetricsReq) (sample : samplePayload) (arrival : Z)
    : HM (bool * list changeEntry) :=
  cur ← loadSourceTx srcID;
  touched ← touchSourceSeenTx cur arrival [];
  let '(cur, changes) := touched in
  if decide (imr_Seq req <= s_LastMetricsSeq cur) then
    fresh ← loadSourceTx (s_ID cur);
    changes ← emitSourceChangeTx fresh changes;
    mret (true, changes)
  else
    tx_exec (λ d, set_d_samples (tbl_replace
      {| ms_source_id := s_ID cur; ms_ts := sp_TS sample; ms_received_at := fmtTS arrival;
         ms_sample_json := sample |} (d_samples d)) d) ;;
    insertRawMetrics (s_ID cur) sample ;;
    changes ← note_boot cur sample arrival changes;
    let summary := buildSummary sample in
    tx_exec (upd_source (s_ID cur) (λ s, set_s_UpdatedAt (fmtTS arrival)
      (set_s_LastSummary (Some summary) (set_s_LastMetricsSeq (imr_Seq req) s)))) ;;
    match imr_Agent req with
    | Some ag => tx_exec (upd_source (s_ID cur) (λ s,
        set_s_Hostname (nullStr (agt_Hostname ag)) (set_s_AgentArch (nullStr (agt_Arch ag))
        (set_s_AgentOS (nullStr (agt_OS ag)) (set_s_AgentVersion (nullStr (agt_Version ag)) s)))))
    | None => mret ()
    end ;;
    match imr_Capabilities req with
    | Some c => tx_exec (upd_source (s_ID cur) (set_s_Capabilities (Some c)))
    | None => mret ()
    end ;;
    let cur := with_sample req summary cur in
    rules ← loadRules;
    changes ← evalSample cur rules sample arrival changes;
    tx_exec (upd_source (s_ID cur) (set_s_PrevSample (Some sample))) ;;
    fresh ← loadSourceTx (s_ID cur);
    changes ← emitSourceChangeTx fresh changes;
    mret (false, changes).

(* @src hub/ingest.go 33-167 handleIngestMetrics *)
Definition handleIngestMetrics (src : sourceRow) (req : ingestMetricsReq) : HM (reply metricsReply) :=
  match imr_Sample req with
  | None => mret (errInvalid "sample.ts 必填")
  | Some sample =>
    if decide (sp_TS sample = "") then mret (errInvalid "sample.ts 必填")
    else match parseTS (sp_TS sample) with
    | None => mret (errInvalid "sample.ts 非法")
    | Some _ =>
      arrival ← nowUTC;
      r ← st_try (withTx (metrics_tx (s_ID src) req sample arrival));
      match r with
      | Err _ => mret errInternal
      | Ok (duplicate, changes) =>
        publish changes ;;
        now ← nowUTC;
        interval ← reportInterval;
        mret (Reply 202 {| mp_accepted := negb duplicate; mp_duplicate := duplicate;
                           mp_serverTime := fmtTS now; mp_reportIntervalSeconds := interval |})
      end
    end
  end%string.

(** One event of the loop that validates and removes duplicates. *)
(* @src hub/ingest.go 321-343 !handleIngestEvents *)
Definition triage_step (sourceID : string) (tr : triage) (iev : nat * eventPayload) : HM triage :=
  let '(i, ev) := iev in
  msg ← validateEvent ev;
  if decide (msg ≠ ""%string) then
    mret {| tr_valid := tr_valid tr; tr_rejected := tr_rejected tr ++ [(ep_EventID ev, "invalid_request", msg)];
            tr_dups := tr_dups tr; tr_seen := tr_seen tr |}%string
  else
    let dup := {| tr_valid := tr_valid tr; tr_rejected := tr_rejected tr;
                  tr_dups := {[i]} ∪ tr_dups tr; tr_seen := tr_seen tr |} in
    if decide (ep_EventID ev ∈ tr_seen tr) then mret dup
    else
      exists_ ← tx_query (λ d, bool_decide ((sourceID, ep_EventID ev) ∈ (pkey <$> d_events d : list (string * string))));
      if exists_ : bool then mret dup
      else mret {| tr_valid := tr_valid tr ++ [(i, ev)]; tr_rejected := tr_rejected tr;
                   tr_dups := tr_dups tr; tr_seen := {[ep_EventID ev]} ∪ tr_seen tr |}.

(** One event of the loop that applies the sorted events. *)
(* @src hub/ingest.go 346-355 !handleIngestEvents *)
Definition apply_item (cur : sourceRow) (acc : apply_acc) (it : nat * eventPayload) : HM apply_acc :=
  let '(last, accepted, changes) := acc in
  let '(i, ev) := it in
  changes ← applyEventTx (set_s_LastEventSeq last cur) ev false (bool_decide (ep_Seq ev <= last)) changes;
  mret (Z.max last (ep_Seq ev), {[i]} ∪ accepted, changes).

(* @src hub/ingest.go 311-366 !handleIngestEvents *)
(** The transaction of [handleIngestEvents]. *)
Definition events_tx (srcID : string) (events : list eventPayload) (arrival : Z)
    : HM (triage * apply_acc) :=
  cur ← loadSourceTx srcID;
  touched ← touchSourceSeenTx cur arrival [];
  let '(cur, changes) := touched in
  tr ← st_foldl (triage_step (s_ID cur)) triage0 (imap pair events);
  acc ← st_foldl (apply_item cur) (s_LastEventSeq cur, ∅, changes) (sort_items (tr_valid tr));
  let '(last, accepted, changes) := acc in
  tx_exec (upd_source (s_ID cur) (set_s_LastEventSeq last)) ;;
  fresh ← loadSourceTx (s_ID cur);
  changes ← emitSourceChangeTx fresh changes;
  mret (tr, (last, accepted, changes)).

(** The ids of the events of a batch at the given indices, in the order of the batch. *)
(* @src hub/ingest.go 374-383 !handleIngestEvents *)
Definition ids_at (P : nat → bool) (events : list eventPayload) : list string :=
  omap (λ iev : nat * eventPayload, if P iev.1 then Some (ep_EventID iev.2) else None) (imap pair events).

(* @src hub/ingest.go 292-390 handleIngestEvents *)
Definition handleIngestEvents (src : sourceRow) (req : ingestEventsReq) : HM (reply eventsReply) :=
  if decide (100 < Z.of_nat (length (ier_Events req))) then mret (errInvalid "单批 events 超过 100 条")
  else
    arrival ← nowUTC;
    r ← st_try (withTx (events_tx (s_ID src) (ier_Events req) arrival));
    match r with
    | Err _ => mret errInternal
    | Ok (tr, (last, accepted, changes)) =>
      publish changes ;;
      now ← nowUTC;
      let acc i := bool_decide (i ∈ accepted) in
      mret (Reply 200 {|
        vp_accepted := ids_at acc (ier_Events req);
        vp_duplicates := ids_at (λ i, negb (acc i) && bool_decide (i ∈ tr_dups tr)) (ier_Events req);
        vp_rejected := tr_rejected tr; vp_lastSeq := last; vp_serverTime := fmtTS now |})
    end.
End ingest.

(** ** Lemmas *)

Section ingest_lemmas.
Context `{HE : HubEnv} `{SS : SliceSort}.
Implicit Types (ch : list changeEntry).

Lemma harmless_sources g : harmless (λ d, set_d_sources (g (d_sources d)) d).
Proof. by intros d. Qed.

Lemma produces_upd ch id f : produces ch (tx_exec (upd_source id f)) (λ _, ch).
Proof. by apply produces_exec. Qed.

Lemma produces_raw ch id s : produces ch (insertRawMetrics id s) (λ _, ch).
Proof.
  unfold insertRawMetrics. generalize (raw_rows id s). intros l. generalize tt.
  induction l as [|r l IH]; intros u; cbn; [by apply produces_ret|].
  apply produces_step; [by apply produces_exec|intros u']. apply IH.
Qed.

Lemma produces_boot ch cur s at_ : produces ch (note_boot cur s at_ ch) (λ ch', ch').
Proof.
  unfold note_boot. destruct (sp_BootTime s); [|by apply produces_ret]. case_decide; [by apply produces_ret|].
  eapply (produces_bind _ _ _ (λ ch', ch')).
  - destruct (s_LastBootTime cur); [apply produces_emit|by apply produces_ret].
  - intros ch'. apply produces_step; [apply produces_upd|intros _]. by apply produces_ret.
Qed.

Lemma produces_metrics_tx id req s at_ : produces [] (metrics_tx id req s at_) snd.
Proof.
  unfold metrics_tx. apply produces_step; [apply produces_row|intros cur].
  eapply produces_bind; [apply produces_touch|intros [cur' ch]]. cbn [snd]. case_decide.
  - apply produces_step; [apply produces_row|intros fresh].
    eapply produces_bind; [apply produces_sourceChange|intros ch']. by apply produces_ret.
  - apply produces_step; [by apply produces_exec|intros _].
    apply produces_step; [apply produces_raw|intros _].
    eapply produces_bind; [apply produces_boot|intros ch1].
    apply produces_step; [apply produces_upd|intros _].
    apply produces_step; [destruct (imr_Agent req); [apply produces_upd|by apply produces_ret]|intros _].
    apply produces_step; [destruct (imr_Capabilities req); [apply produces_upd|by apply produces_ret]|intros _].
    apply produces_step; [apply produces_loadRules|intros rules].
    eapply produces_bind; [apply produces_evalSample|intros ch2].
    apply produces_step; [apply produces_upd|intros _].
    apply produces_step; [apply produces_row|intros fresh].
    eapply produces_bind; [apply produces_sourceChange|intros ch3]. by apply produces_ret.
Qed.

Lemma produces_validate ch ev : produces ch (validateEvent ev) (λ _, ch).
Proof.
  unfold validateEvent. destruct (negb _); [by apply produces_ret|]. case_decide; [by apply produces_ret|].
  destruct (parseTS _); [|by apply produces_ret].
  apply produces_step; [apply produces_now|intros now]. by apply produces_ret.
Qed.

Lemma produces_triage ch id l tr : produces ch (st_foldl (triage_step id) tr l) (λ _, ch).
Proof.
  revert tr. induction l as [|[i ev] l IH]; intros tr; cbn; [by apply produces_ret|].
  apply produces_step; [|intros tr'; apply IH].
  apply produces_step; [apply produces_validate|intros msg]. case_decide; [by apply produces_ret|].
  case_decide; [by apply produces_ret|].
  apply produces_step; [apply produces_query|intros []]; by apply produces_ret.
Qed.

Lemma produces_items cur l (acc : apply_acc) : produces acc.2 (st_foldl (apply_item cur) acc l) snd.
Proof.
  revert acc. induction l as [|[i ev] l IH]; intros [[last acc] ch]; cbn; [by apply produces_ret|].
  eapply (produces_bind _ _ _ snd); [|intros acc'; apply IH].
  eapply produces_bind; [apply produces_apply|intros ch']. by apply produces_ret.
Qed.

Lemma produces_events_tx id evs at_ : produces [] (events_tx id evs at_) (λ r, r.2.2).
Proof.
  unfold events_tx. apply produces_step; [apply produces_row|intros cur].
  eapply produces_bind; [apply produces_touch|intros [cur' ch]]. cbn [snd].
  apply produces_step; [apply produces_triage|intros tr].
  eapply produces_bind; [apply (produces_items _ _ (_, _, ch))|intros [[last acc] ch']]. cbn [snd].
  apply produces_step; [apply produces_upd|intros _].
  apply produces_step; [apply produces_row|intros fresh].
  eapply produces_bind; [apply produces_sourceChange|intros ch2]. by apply produces_ret.
Qed.

Lemma sealed_metrics_tx id req s at_ : sealed (metrics_tx id req s at_).
Proof. intros d0 b0. unfold metrics_tx, insertRawMetrics, note_boot. pres. Qed.

Lemma sealed_events_tx id evs at_ : sealed (events_tx id evs at_).
Proof. intros d0 b0. unfold events_tx, triage_step, validateEvent, apply_item. pres. Qed.
End ingest_lemmas.

(** ** What a batch does, purely *)

(** The events applied one after the other, drawing the ULIDs [lo] to [hi]; [last] is the
    largest sequence number seen from the source. *)
Inductive batch `{HE : HubEnv} (cur : sourceRow) : nat → nat → Z → list eventPayload → db → db → Prop :=
| batch_nil lo last d : batch cur lo lo last [] d d
| batch_cons lo mid hi last ev evs d d1 d2 new :
    applied lo mid (set_s_LastEventSeq last cur) ev false (bool_decide (ep_Seq ev <= last)) d d1 new →
    batch cur mid hi (Z.max last (ep_Seq ev)) evs d1 d2 →
    batch cur lo hi last (ev :: evs) d d2.

(** The ids of some events. *)
Notation eids l := (ep_EventID ∘ snd <$> l : list string).

(** An event [validateEvent] refuses at every clock. *)
Definition invalid `{HE : HubEnv} (ev : eventPayload) : Prop := ∀ w, (validateEvent ev w).1 ≠ Ok EmptyString.

(** What the triage of the events [l] of source [s] is, against the tables [d]. *)
Record triaged `{HE : HubEnv} (s : string) (l : list (nat * eventPayload)) (d : db) (tr : triage) : Prop := {
  tg_split : ∃ rejl, l ≡ₚ tr_valid tr ++ filter (λ it, it.1 ∈ tr_dups tr) l ++ rejl ∧
    eids rejl = (λ r : rej, r.1.1) <$> tr_rejected tr ∧
    Forall (λ it, ∃ w, (validateEvent it.2 w).1 ≠ Ok EmptyString) rejl;
  tg_dups : ∀ i, i ∈ tr_dups tr → i ∈ l.*1;
  tg_valid : ∀ it, it ∈ tr_valid tr → ¬ invalid it.2;
  tg_nodup : NoDup (eids (tr_valid tr));
  tg_seen : ∀ x, x ∈ tr_seen tr ↔ x ∈ eids (tr_valid tr);
  tg_new : ∀ x, x ∈ eids (tr_valid tr) → (s, x) ∉ (pkey <$> d_events d : list (string * string));
  tg_old : ∀ it, it ∈ l → it.1 ∈ tr_dups tr →
    (s, ep_EventID it.2) ∈ (pkey <$> d_events d : list (string * string)) ∨ ep_EventID it.2 ∈ eids (tr_valid tr) }.

Section batch_lemmas.
Context `{HE : HubEnv} `{SS : SliceSort}.

Lemma validate_Ok ev w d msg w' :
  w_tx w = Some d → validateEvent ev w = (Ok msg, w') → w_tx w' = Some d ∧ same_outside w w'.
Proof.
  intros Hd. unfold validateEvent. destruct (negb _); [by intros [= <- <-]|].
  case_decide; [by intros [= <- <-]|]. destruct (parseTS _); [|by intros [= <- <-]].
  intros Hv. mrun Hv. apply nowUTC_Ok in Hrun as [E ?]. injection Hv as <- <-. by rewrite E.
Qed.

Lemma filter_dups_extend (D : gset nat) i it (l : list (nat * eventPayload)) :
  i ∉ l.*1 → it.1 = i →
  filter (λ it, it.1 ∈ D) (l ++ [it]) =
    filter (λ it, it.1 ∈ D) l ++ (if decide (i ∈ D) then [it] else []).
Proof. intros _ <-. by rewrite filter_app. Qed.

Lemma filter_dups_add (D : gset nat) i (l : list (nat * eventPayload)) :
  i ∉ l.*1 → filter (λ it, it.1 ∈ {[i]} ∪ D) l = filter (λ it, it.1 ∈ D) l.
Proof.
  intros Hi. apply list_filter_ext_elem. intros it Hit.
  assert (it.1 ≠ i); [|set_solver]. intros <-. apply Hi, list_elem_of_fmap. eauto.
Qed.

Lemma triage_step_Ok s l d tr i ev w tr' w' :
  w_tx w = Some d → i ∉ l.*1 → triaged s l d tr → triage_step s tr (i, ev) w = (Ok tr', w') →
  w_tx w' = Some d ∧ same_outside w w' ∧ triaged s (l ++ [(i, ev)]) d tr'.
Proof.
  intros Hd Hi [(rejl & Hp & Hr & Hrej) Hdup Hval Hnd Hseen Hnew Hold] H. unfold triage_step in H. mrun H.
  pose proof (f_equal fst Hrun) as Hmsg1. cbn in Hmsg1.
  apply (validate_Ok _ _ _ _ _ Hd) in Hrun as [Hd1 Hs1].
  assert (i ∉ tr_dups tr) as Hni by (intros Hin; by apply Hi, Hdup).
  assert (∀ it, it ∈ l ++ [(i, ev)] → it ∈ l ∨ it = (i, ev)) as Hsplit by set_solver.
  assert (∀ tr2, tr2 = {| tr_valid := tr_valid tr; tr_rejected := tr_rejected tr;
      tr_dups := {[i]} ∪ tr_dups tr; tr_seen := tr_seen tr |} →
    ((s, ep_EventID ev) ∈ (pkey <$> d_events d : list (string * string)) ∨ ep_EventID ev ∈ eids (tr_valid tr)) →
    triaged s (l ++ [(i, ev)]) d tr2) as Hdupcase.
  { intros ? -> Hwhy. split; cbn; [| |done|done|done|done|].
    - exists rejl. split; [|done].
      rewrite (filter_dups_extend _ i), filter_dups_add, decide_True by (done || set_solver).
      rewrite Hp at 1. solve_Permutation.
    - intros j [->%elem_of_singleton|Hj]%elem_of_union; rewrite fmap_app; set_solver.
    - intros it Hit Hin. apply Hsplit in Hit as [Hit| ->]; [|done].
      apply Hold; [done|]. assert (it.1 ≠ i); [|set_solver]. intros <-. apply Hi, list_elem_of_fmap. eauto. }
  case_decide as Hmsg.
  - injection H as <- <-. split; [done|]. split; [done|]. split; cbn; [| |done|done|done|done|].
    + exists (rejl ++ [(i, ev)]). split; [|split; [by rewrite !fmap_app, Hr|]].
      2:{ apply Forall_app. split; [done|]. constructor; [|done]. exists w. cbn. rewrite Hmsg1. by intros [= ->]. }
      rewrite (filter_dups_extend _ i), decide_False by done. rewrite Hp at 1. solve_Permutation.
    + intros j Hj. rewrite fmap_app. set_solver.
    + intros it Hit Hin. apply Hsplit in Hit as [Hit| ->]; [by apply Hold|done].
  - case_decide as Hin; [injection H as <- <-; split; [done|]; split; [done|]; apply Hdupcase;
      [done|right; by apply Hseen]|].
    mrun H. apply (tx_query_Ok _ _ _ _ _ Hd1) in Hrun as (-> & Hd2 & Hs2).
    case_bool_decide as Hex.
    + injection H as <- <-. split; [done|]. split; [by etransitivity|]. apply Hdupcase; auto.
    + injection H as <- <-. split; [done|]. split; [by etransitivity|]. split; cbn.
      * exists rejl. split; [|done]. rewrite (filter_dups_extend _ i), decide_False by done.
        rewrite Hp at 1. solve_Permutation.
      * intros j Hj. rewrite fmap_app. set_solver.
      * intros it [Hit|Hit]%elem_of_app; [by apply Hval|]. apply list_elem_of_singleton in Hit as ->.
        intros Hinv. apply (Hinv w). cbn. rewrite Hmsg1. by destruct (decide (a = EmptyString)) as [->|].
      * rewrite fmap_app. apply NoDup_app. split_and!; [done| |apply NoDup_singleton].
        intros x Hx ->%list_elem_of_singleton. by apply Hin, Hseen.
      * intros x. rewrite fmap_app, elem_of_app, <-Hseen. set_solver.
      * intros x. rewrite fmap_app, elem_of_app. intros [?|Hx]; [by apply Hnew|].
        apply list_elem_of_singleton in Hx as ->. done.
      * intros it Hit Hdi. rewrite fmap_app. apply Hsplit in Hit as [Hit| ->]; [|done].
        destruct (Hold it Hit Hdi); [by left|right]. apply elem_of_app. by left.
Qed.

Lemma triage_Ok s l2 l1 d tr w tr' w' :
  w_tx w = Some d → NoDup (l1 ++ l2).*1 → triaged s l1 d tr →
  st_foldl (triage_step s) tr l2 w = (Ok tr', w') →
  w_tx w' = Some d ∧ same_outside w w' ∧ triaged s (l1 ++ l2) d tr'.
Proof.
  revert l1 tr w. induction l2 as [|[i ev] l2 IH]; intros l1 tr w Hd Hnd Ht H; cbn in H.
  - injection H as <- <-. by rewrite app_nil_r.
  - mrun H. assert (i ∉ l1.*1) as Hi.
    { rewrite fmap_app in Hnd. apply NoDup_app in Hnd as (_ & Hnd & _). intros Hin. apply (Hnd i Hin). left. }
    destruct (triage_step_Ok _ _ _ _ _ _ _ _ _ Hd Hi Ht Hrun) as (Hd1 & Hs1 & Ht1).
    replace (l1 ++ (i, ev) :: l2) with ((l1 ++ [(i, ev)]) ++ l2) in * by (by rewrite <-app_assoc).
    destruct (IH _ _ _ Hd1 Hnd Ht1 H) as (Hd2 & Hs2 & Ht2). split; [done|]. split; [by etransitivity|done].
Qed.

Lemma batch_Ok cur its last acc ch w d last' acc' ch' w' :
  w_tx w = Some d → st_foldl (apply_item cur) (last, acc, ch) its w = (Ok (last', acc', ch'), w') →
  ∃ d', w_tx w' = Some d' ∧ same_outside w w' ∧ batch cur (w_ids w) (w_ids w') last its.*2 d d' ∧
    acc' = acc ∪ list_to_set its.*1.
Proof.
  revert last acc ch w d. induction its as [|[i ev] its IH]; intros last acc ch w d Hd H; cbn in H.
  - injection H as <- <- <- <-. exists d. split_and!; [done..|constructor|cbn; by rewrite union_empty_r_L].
  - mrun H. unfold apply_item in Hrun. mrun Hrun. injection Hrun as <- <-.
    apply (applyEventTx_Ok _ _ _ _ _ _ _ _ _ Hd) in Hrun0 as (d1 & new & Hd1 & Hs1 & -> & Ha).
    destruct (IH _ _ _ _ _ Hd1 H) as (d2 & Hd2 & Hs2 & Hb & ->).
    exists d2. split_and!; [done|by etransitivity|by econstructor|]. cbn. set_solver.
Qed.

Lemma batch_events cur lo hi last evs d d' :
  batch cur lo hi last evs d d' →
  ∃ rows, d_events d' = d_events d ++ rows ∧ Forall (λ r, e_internal r = false) rows ∧
    (pkey <$> rows : list (string * string)) = (λ ev, (s_ID cur, ep_EventID ev)) <$> evs.
Proof.
  induction 1 as [|lo mid hi last ev evs d d1 d2 new Ha Hb (rows & E & Hi & Hk)].
  - exists []. by rewrite app_nil_r.
  - destruct Ha as (_ & _ & now & _ & _ & _ & _ & _ & _ & _ & Hev & _).
    eexists (_ :: rows). rewrite E, Hev, <-app_assoc. split; [done|]. split; [by constructor|]. by cbn; f_equal.
Qed.

(** A batch in order moves every fault of its source as its events do, and no other. *)
Lemma batch_abs cur lo hi last evs d d' :
  ulids_unique → batch cur lo hi last evs d d' → db_ok d → fresh_ulids lo d →
  StronglySorted Z.lt (ep_Seq <$> evs) →
  (∀ ev k, ev ∈ evs → non_empty (ep_FaultKey ev) = Some k → ahead (s_ID cur) k (ep_Seq ev) d) →
  (∀ k, abs_fault (s_ID cur) k d' = foldl (abs_event k) (abs_fault (s_ID cur) k d) evs) ∧
  (∀ s k, s ≠ s_ID cur → abs_fault s k d' = abs_fault s k d).
Proof.
  intros Hu. induction 1 as [|lo mid hi last ev evs d d1 d2 new Ha Hb IH]; intros Hok Hf Hs Hah; [done|].
  cbn in Hs. apply StronglySorted_inv in Hs as [Hs Hlt]. rewrite Forall_forall in Hlt.
  assert (∀ k, non_empty (ep_FaultKey ev) = Some k → ahead (s_ID cur) k (ep_Seq ev) d) as Hah0
    by (intros k Hk; apply Hah; [left|done]).
  destruct (applied_abs _ _ _ _ _ _ _ _ _ Hu Ha Hok Hf Hah0) as (H1 & H2 & H3 & H4).
  cbn [s_ID set_s_LastEventSeq] in *.
  destruct IH as [I1 I2]; [by eapply applied_ok|done|done| |].
  - intros ev' k Hin Hk. apply H3; [apply Hah; [by right|done]|]. apply Hlt. apply list_elem_of_fmap. eauto.
  - split; [intros k; by rewrite I1, H1|]. intros s k Hne. by rewrite I2, H2.
Qed.
End batch_lemmas.

(** ** The transactions, end to end *)

Section ingest_tx.
Context `{HE : HubEnv} `{SS : SliceSort}.
Implicit Types (ch : list changeEntry).

(** The heartbeat fault of a source is open. *)
Definition heartbeat_open (s : string) (d : db) : Prop := (snd <$> abs_fault s "heartbeat" d) = Some true.

Lemma upd_source_facts id f d :
  d_events (upd_source id f d) = d_events d ∧ d_messages (upd_source id f d) = d_messages d ∧
  d_faults (upd_source id f d) = d_faults d ∧ d_pending (upd_source id f d) = d_pending d.
Proof. done. Qed.

Lemma tbl_lookup_id id d cur : tbl_lookup id (d_sources d) = Some cur → s_ID cur = id.
Proof. intros H. by apply tbl_lookup_Some in H as [_ H]. Qed.

(** [touchSourceSeenTx]: at most one event, the hub's own. *)
Lemma touch_events cur at_ ch w d cur' ch' w' :
  w_tx w = Some d → touchSourceSeenTx cur at_ ch w = (Ok (cur', ch'), w') →
  ∃ d' rows, w_tx w' = Some d' ∧ same_outside w w' ∧ s_ID cur' = s_ID cur ∧
    d_events d' = d_events d ++ rows ∧ Forall (λ r, e_internal r = true) rows.
Proof.
  intros Hd H. unfold touchSourceSeenTx in H. mrun H.
  apply (tx_exec_Ok _ _ _ _ _ Hd) in Hrun as [Hd1 Hs1]. mrun H.
  apply (tx_query_Ok _ _ _ _ _ Hd1) in Hrun as (-> & Hd2 & Hs2).
  destruct (find_fault _ _ _) as [hb|]; [destruct (decide _)|].
  - mrun H. unfold emitHubEventTx in Hrun. mrun Hrun.
    apply (nextHubSeq_meta _ _ _ _ Hd2) in Hrun0 as (m & Hd5 & Hs5).
    mrun Hrun. apply newID_Ok in Hrun0 as (_ & _ & Hd6 & Hs6). rewrite Hd5 in Hd6.
    apply (applyEventTx_Ok _ _ _ _ _ _ _ _ _ Hd6) in Hrun as (d' & new & Hd7 & Hs7 & _ & Ha).
    injection H as <- _ <-. destruct Ha as (_ & _ & now & _ & _ & _ & _ & _ & _ & _ & Hev & _).
    exists d'. eexists. split_and!; [done| |done| |].
    + by rewrite Hs1, Hs2, Hs5, Hs6, Hs7.
    + exact Hev.
    + by constructor.
  - injection H as <- _ <-. eexists _, []. rewrite app_nil_r. split_and!; [exact Hd2|by etransitivity|done..].
  - injection H as <- _ <-. eexists _, []. rewrite app_nil_r. split_and!; [exact Hd2|by etransitivity|done..].
Qed.

(** Without an open heartbeat fault it only notes the time. *)
Lemma touch_quiet cur at_ ch w d cur' ch' w' :
  w_tx w = Some d → ¬ heartbeat_open (s_ID cur) d →
  touchSourceSeenTx cur at_ ch w = (Ok (cur', ch'), w') →
  w_tx w' = Some (upd_source (s_ID cur) (set_s_LastSeenAt (Some (fmtTS at_))) d) ∧ same_outside w w'.
Proof.
  intros Hd Hq H. unfold touchSourceSeenTx in H. mrun H.
  apply (tx_exec_Ok _ _ _ _ _ Hd) in Hrun as [Hd1 Hs1]. mrun H.
  apply (tx_query_Ok _ _ _ _ _ Hd1) in Hrun as (-> & Hd2 & Hs2).
  change (find_fault _ _ _) with (find_fault (s_ID cur) "heartbeat" d) in H.
  unfold heartbeat_open, abs_fault in Hq.
  destruct (find_fault (s_ID cur) "heartbeat" d) as [hb|] eqn:E.
  - rewrite decide_False in H; [|intros Ho; apply Hq; cbn; by rewrite bool_decide_true].
    injection H as _ _ <-. split; [exact Hd2|by etransitivity].
  - injection H as _ _ <-. split; [exact Hd2|by etransitivity].
Qed.

Lemma indices_nodup (evs : list eventPayload) : NoDup ([] ++ imap pair evs).*1.
Proof.
  cbn. rewrite fmap_imap. change (λ n, fst ∘ pair n) with (λ (n : nat) (_ : eventPayload), n).
  rewrite (imap_seq_0 evs (λ n, n)), list_fmap_id. apply NoDup_seq.
Qed.

Lemma triaged_none s d : triaged s [] d triage0.
Proof. split; [by exists []|cbn; set_solver|cbn; set_solver|constructor|cbn; set_solver..]. Qed.

(** What a committed batch is made of: the triage, and the sorted events applied. *)
Lemma events_tx_Ok id evs at_ w d tr last accepted ch w' d' :
  w_tx w = Some d → events_tx id evs at_ w = (Ok (tr, (last, accepted, ch)), w') → w_tx w' = Some d' →
  ∃ cur d1 d2 lo hi last0 hub, s_ID cur = id ∧ (w_ids w <= lo)%nat ∧
    d_events d1 = d_events d ++ hub ∧ Forall (λ r, e_internal r = true) hub ∧
    (¬ heartbeat_open id d → hub = [] ∧ d_events d1 = d_events d ∧ d_messages d1 = d_messages d ∧
      d_faults d1 = d_faults d ∧ d_pending d1 = d_pending d) ∧
    triaged id (imap pair evs) d1 tr ∧
    batch cur lo hi last0 (sort_items (tr_valid tr)).*2 d1 d2 ∧
    accepted = list_to_set (sort_items (tr_valid tr)).*1 ∧
    d_events d' = d_events d2 ∧ d_messages d' = d_messages d2 ∧ d_faults d' = d_faults d2 ∧
    d_pending d' = d_pending d2 ∧ (db_ok d → db_ok d1).
Proof.
  intros Hd H Hd'. unfold events_tx in H. mrun H. rename a into cur.
  apply (tx_row_Ok _ _ _ _ _ Hd) in Hrun as (Hl & Hd1 & Hs1). apply tbl_lookup_id in Hl.
  mrun H. destruct a as [cur' ch0].
  destruct (touch_events _ _ _ _ _ _ _ _ Hd1 Hrun) as (d2 & hub & Hd2 & Hs2 & Hid & Hev & Hhub).
  destruct (produces_touch [] cur at_ _ _ _ _ Hd1 Hrun) as (d2' & new & E & _ & Hok & _).
  rewrite Hd2 in E. injection E as <-.
  assert (¬ heartbeat_open id d → d2 = upd_source (s_ID cur) (set_s_LastSeenAt (Some (fmtTS at_))) d) as Hquiet.
  { intros Hq. rewrite <-Hl in Hq. destruct (touch_quiet _ _ _ _ _ _ _ _ Hd1 Hq Hrun) as [E _]. congruence. }
  assert (triaged (s_ID cur') [] d2 triage0) as Ht0 by apply triaged_none.
  mrun H. rename a into tr'.
  destruct (triage_Ok _ _ [] _ _ _ _ _ Hd2 (indices_nodup evs) Ht0 Hrun0) as (Hd3 & Hs3 & Ht).
  mrun H. destruct a as [[last' acc'] ch1].
  destruct (batch_Ok _ _ _ _ _ _ _ _ _ _ _ Hd3 Hrun1) as (d4 & Hd4 & Hs4 & Hb & ->).
  mrun H. apply (tx_exec_Ok _ _ _ _ _ Hd4) in Hrun2 as [Hd5 _].
  mrun H. apply (tx_row_Ok _ _ _ _ _ Hd5) in Hrun2 as (_ & Hd6 & _).
  mrun H. apply (emitSourceChangeTx_Ok _ _ _ _ _ _ Hd6) in Hrun2 as (sj & now & Hd7 & _ & ->).
  injection H as <- <- <- _ <-. rewrite Hd' in Hd7. injection Hd7 as ->.
  exists cur', d2, d4, (w_ids s1), (w_ids s2), (s_LastEventSeq cur'), hub. rewrite Hid, Hl in *.
  split_and!; [done| |done|done| |done|done|set_solver|done..].
  - destruct Hs1 as (_ & _ & _ & ?), Hs2 as (_ & _ & _ & ?), Hs3 as (_ & _ & _ & ?). lia.
  - intros Hq. specialize (Hquiet Hq). subst d2. split; [|done].
    apply (app_inv_head (d_events d)). by rewrite <-Hev, app_nil_r.
Qed.
End ingest_tx.

Section ingest_answers.
Context `{HE : HubEnv} `{SS : SliceSort}.

(** The answer 200 of [handleIngestEvents] comes from a committed transaction. *)
Lemma events_reply_Ok src req w st b w' :
  handleIngestEvents src req w = (Ok (Reply st b), w') →
  ∃ at_ w0 tr last acc ch w1, w_tx w0 = Some (w_db w) ∧ (w_ids w <= w_ids w0)%nat ∧
    events_tx (s_ID src) (ier_Events req) at_ w0 = (Ok (tr, (last, acc, ch)), w1) ∧
    w_tx w1 = Some (w_db w') ∧ delivered w w' ∧
    vp_accepted b = ids_at (λ i, bool_decide (i ∈ acc)) (ier_Events req) ∧
    vp_duplicates b = ids_at (λ i, negb (bool_decide (i ∈ acc)) && bool_decide (i ∈ tr_dups tr)) (ier_Events req) ∧
    vp_rejected b = tr_rejected tr ∧ vp_lastSeq b = last.
Proof.
  unfold handleIngestEvents. destruct (decide _); [done|]. intros H. mrun H. rename a into at_.
  mrun H. unfold st_try in Hrun0. destruct (withTx _ _) as [r w1] eqn:Etx. injection Hrun0 as -> ->.
  destruct a as [[tr [[last acc] ch]]|]; [|done].
  pose proof (commit_publish _ _ _ _ _ (produces_events_tx _ _ _) (sealed_events_tx _ _ _) Etx) as Hdel.
  apply withTx_Ok in Etx as (w0 & w2 & d' & Ht & Ho & Hf & Ht2 & Hd & _).
  mrun H. injection Hrun0 as <- <-. mrun H. injection Hrun0 as <- <-. injection H as <- <- <-.
  injection Hrun as <- <-. exists (h_now (w_ticks w)), w0, tr, last, acc, ch, w2.
  split; [exact Ht|]. split; [apply Ho|]. split; [exact Hf|]. split; [cbn; congruence|]. split; [exact Hdel|done].
Qed.

(** The ids of the events at a set of indices, against the parts of a triage. *)
Lemma ids_at_filter (P : nat → bool) evs :
  ids_at P evs = eids (filter (λ it : nat * eventPayload, P it.1) (imap pair evs)).
Proof.
  unfold ids_at. generalize (imap pair evs). intros l. induction l as [|[i ev] l IH]; [done|].
  rewrite filter_cons. cbn [fst]. change (omap ?f (?x :: ?l)) with (match f x with Some y => y :: omap f l | None => omap f l end).
  cbn [fst snd]. rewrite IH. by destruct (P i).
Qed.

(** The three answers share out the batch. *)
Lemma triage_answers s evs d tr (acc : gset nat) :
  triaged s (imap pair evs) d tr → acc = list_to_set (sort_items (tr_valid tr)).*1 →
  ids_at (λ i, bool_decide (i ∈ acc)) evs ≡ₚ eids (tr_valid tr) ∧
  ids_at (λ i, negb (bool_decide (i ∈ acc)) && bool_decide (i ∈ tr_dups tr)) evs =
    eids (filter (λ it, it.1 ∈ tr_dups tr) (imap pair evs)) ∧
  ep_EventID <$> evs ≡ₚ eids (tr_valid tr) ++ eids (filter (λ it, it.1 ∈ tr_dups tr) (imap pair evs)) ++
    ((λ r : rej, r.1.1) <$> tr_rejected tr).
Proof.
  intros [(rejl & Hp & Hr & _) Hdup _ Hnd Hseen Hnew Hold] ->. pose proof (indices_nodup evs) as Hi. cbn in Hi.
  set (dups := filter _ (imap pair evs)) in *.
  assert (∀ i, i ∈ (list_to_set (sort_items (tr_valid tr)).*1 : gset nat) ↔ i ∈ (tr_valid tr).*1) as Hacc.
  { intros i. rewrite elem_of_list_to_set. by rewrite sort_items_perm. }
  pose proof Hi as Hi2. rewrite Hp, !fmap_app in Hi2. apply NoDup_app in Hi2 as (_ & Hd1 & Hi2).
  assert (∀ it, it ∈ tr_valid tr → it.1 ∉ tr_dups tr) as Hvd.
  { intros it Hit Hin. apply (Hd1 it.1); [apply list_elem_of_fmap; eauto|]. apply elem_of_app. left.
    apply list_elem_of_fmap. exists it. split; [done|]. apply list_elem_of_filter. split; [done|].
    rewrite Hp. apply elem_of_app. by left. }
  split_and!.
  - rewrite ids_at_filter. apply fmap_Permutation. rewrite Hp, !filter_app.
    rewrite list_filter_all; [|intros it Hit; apply bool_decide_spec, Hacc, list_elem_of_fmap; eauto].
    rewrite (list_filter_none _ dups), (list_filter_none _ rejl); [by rewrite !app_nil_r| |];
      intros it Hit Hb%bool_decide_spec%Hacc; apply (Hd1 _ Hb), elem_of_app; [right|left];
      apply list_elem_of_fmap; eauto.
  - rewrite ids_at_filter. f_equal. apply list_filter_iff. intros it.
    rewrite andb_True, negb_True, !bool_decide_spec, Hacc. split; [tauto|]. intros Hin. split; [|done].
    intros (it' & E & Hit')%list_elem_of_fmap. apply (Hvd it' Hit'). by rewrite <-E.
  - transitivity (eids (imap pair evs)).
    + by rewrite <-(imap_const ep_EventID evs), fmap_imap.
    + rewrite Hp at 1. by rewrite !fmap_app, Hr.
Qed.
End ingest_answers.

Section ingest_commit.
Context `{HE : HubEnv} `{SS : SliceSort}.

Lemma metrics_all_or_nothing src req : all_or_nothing (handleIngestMetrics src req).
Proof.
  unfold handleIngestMetrics. destruct (imr_Sample req) as [s|]; [|apply aon_fail].
  case_decide; [apply aon_fail|]. destruct (parseTS _); [|apply aon_fail].
  apply aon_reads; [apply reads_now|intros at_].
  eapply aon_commit; [apply produces_metrics_tx|apply sealed_metrics_tx| |].
  - intros e. split; [apply reads_ret|]. intros w'. by eexists _, _, _.
  - intros [dup ch]. eexists. split; [reflexivity|]. split.
    + apply reads_bind; [apply reads_now|intros now]. apply reads_bind; [apply reads_interval|intros i]. apply reads_ret.
    + intros w'. destruct (reads_interval (wset_ticks (S (w_ticks w')) w')) as [_ [i Hi]].
      eexists _, _. rewrite (st_bind_Ok_step nowUTC _ _ _ _ eq_refl).
      destruct (reportInterval _) as [r w2] eqn:E. cbn in Hi. subst r.
      by rewrite (st_bind_Ok_step _ _ _ _ _ E).
Qed.

Lemma events_all_or_nothing src req : all_or_nothing (handleIngestEvents src req).
Proof.
  unfold handleIngestEvents. case_decide; [apply aon_fail|].
  apply aon_reads; [apply reads_now|intros at_].
  eapply (aon_commit _ (λ r, r.2.2)); [apply produces_events_tx|apply sealed_events_tx| |].
  - intros e. split; [apply reads_ret|]. intros w'. by eexists _, _, _.
  - intros [tr [[last acc] ch]]. eexists. split; [reflexivity|]. split.
    + apply reads_bind; [apply reads_now|intros now]. apply reads_ret.
    + intros w'. by eexists _, _.
Qed.
End ingest_commit.

(** ** A sort, for the examples *)

Definition seq_order (a b : nat * eventPayload) : Prop := ep_Seq a.2 <= ep_Seq b.2.
#[export] Instance seq_order_dec a b : Decision (seq_order a b).
Proof. unfold seq_order. apply _. Defined.

Lemma seq_order_sorted l : StronglySorted Z.le (ep_Seq ∘ snd <$> merge_sort seq_order l).
Proof.
  assert (StronglySorted seq_order (merge_sort seq_order l)) as H.
  { apply StronglySorted_merge_sort; [intros x y z; unfold seq_order; lia|intros x y; unfold seq_order; lia]. }
  induction H as [|x l' _ IH Hx]; cbn; constructor; [exact IH|]. by apply Forall_fmap.
Qed.

Definition merge_slice_sort : SliceSort :=
  {| sort_items := merge_sort seq_order;
     sort_items_perm l := merge_sort_Permutation seq_order l;
     sort_items_sorted := seq_order_sorted |}.

Definition demo_batch (evs : list eventPayload) : ingestEventsReq :=
  {| ier_SentAt := "2026-09-18T06:00:00.000Z"%string; ier_Events := evs |}.

Notation demo_ingest evs w :=
  (handleIngestEvents (HE := demo_env) (SS := merge_slice_sort) demo_source (demo_batch evs) w).

(** ** Properties *)

(** C7: ingest is all or nothing.  A post of metrics or of events that is answered with
    success has committed everything it logged, published exactly that, in order, and kept
    the invariant of the tables; with any other answer (invalid, or any database call or the
    commit failed) the tables are as before and nothing was published. *)
Theorem ingest_atomic `{HE : HubEnv} `{SS : SliceSort} src mreq ereq w :
  match handleIngestMetrics src mreq w with
  | (Ok (Reply _ _), w') => delivered w w'
  | (Ok (Fail _ _ _), w') => untouched w w'
  | (Err _, _) => False
  end ∧
  match handleIngestEvents src ereq w with
  | (Ok (Reply _ _), w') => delivered w w'
  | (Ok (Fail _ _ _), w') => untouched w w'
  | (Err _, _) => False
  end.
Proof. split; [apply metrics_all_or_nothing|apply events_all_or_nothing]. Qed.

(** C9: every event of a batch is answered exactly once and stored at most once.  The ids
    accepted, reported as duplicates and rejected are together those of the batch; the
    accepted ones are distinct, were not on record before and are exactly the events the
    source added to the record; a duplicate is on record. *)
Theorem batch_accounted `{HE : HubEnv} `{SS : SliceSort} src req w st b w'
    (Hrun : handleIngestEvents src req w = (Ok (Reply st b), w')) :
  let keys d := (pkey <$> d_events d : list (string * string)) in
  ep_EventID <$> ier_Events req ≡ₚ
    vp_accepted b ++ vp_duplicates b ++ ((λ r, r.1.1) <$> vp_rejected b) ∧
  NoDup (vp_accepted b) ∧
  (∀ x, x ∈ vp_accepted b → (s_ID src, x) ∉ keys (w_db w)) ∧
  (∀ x, x ∈ vp_duplicates b → (s_ID src, x) ∈ keys (w_db w')) ∧
  ∃ rows, d_events (w_db w') = d_events (w_db w) ++ rows ∧
    pkey <$> filter (λ r, e_internal r = false) rows ≡ₚ pair (s_ID src) <$> vp_accepted b.
Proof.
  intros keys. apply events_reply_Ok in Hrun as
    (at_ & w0 & tr & last & acc & ch & w1 & Ht & _ & Htx & Ht1 & _ & -> & -> & -> & _).
  destruct (events_tx_Ok _ _ _ _ _ _ _ _ _ _ _ Ht Htx Ht1) as
    (cur & d1 & d2 & lo & hi & last0 & hub & Hid & _ & Hev1 & Hhub & _ & Htri & Hb & -> & Hev & _).
  destruct (triage_answers _ _ _ _ _ Htri eq_refl) as (Hacc & -> & Hall).
  destruct (batch_events _ _ _ _ _ _ _ Hb) as (rows & Hev2 & Hint & Hkeys).
  destruct Htri as [_ Hdup _ Hnd _ Hnew Hold].
  assert (keys (w_db w') = keys (w_db w) ++ (pkey <$> hub) ++ (pkey <$> rows)) as Hk.
  { unfold keys. by rewrite Hev, Hev2, Hev1, !fmap_app, app_assoc. }
  assert ((pkey <$> rows : list (string * string)) ≡ₚ pair (s_ID src) <$> eids (tr_valid tr)) as Hrows.
  { rewrite Hkeys, Hid, <-!list_fmap_compose. change (λ ev, (s_ID src, ep_EventID ev)) with (pair (s_ID src) ∘ ep_EventID).
    apply fmap_Permutation, sort_items_perm. }
  split_and!.
  - by rewrite Hall, Hacc.
  - by rewrite Hacc.
  - intros x Hx. rewrite Hacc in Hx. intros Hin. apply (Hnew x Hx). unfold keys in Hin.
    rewrite Hev1, fmap_app. apply elem_of_app. by left.
  - intros x (it & -> & [Hin Hit]%list_elem_of_filter)%list_elem_of_fmap.
    rewrite Hk. destruct (Hold it Hit Hin) as [H|H].
    + rewrite Hev1, fmap_app in H. rewrite app_assoc. apply elem_of_app. by left.
    + rewrite !elem_of_app. right. right. rewrite Hrows. by apply list_elem_of_fmap_2.
  - exists (hub ++ rows). split; [by rewrite Hev, Hev2, Hev1, app_assoc|].
    rewrite filter_app, (list_filter_none _ hub), (list_filter_all _ rows).
    + cbn. by rewrite Hrows, Hacc.
    + by apply Forall_forall.
    + intros r Hr. rewrite Forall_forall in Hhub. by rewrite (Hhub r Hr).
Qed.

Lemma batch_accounted_witness :
  let w := (demo_ingest [demo_event "e1" 3 "open"] (world_of demo_db)).2 in
  let evs := [demo_event "e3" 9 "open"; demo_event "e1" 3 "open"; demo_event "e2" 7 "resolve";
              demo_event "e2" 7 "resolve"; demo_event "" 11 "open"] in
  ∃ st b, (demo_ingest evs w).1 = Ok (Reply st b) ∧ vp_accepted b = ["e3"; "e2"]%string ∧
    vp_duplicates b = ["e1"; "e2"]%string ∧ NoDup (vp_accepted b).
Proof.
  intros w evs. destruct (demo_ingest evs w) as [r w'] eqn:E.
  assert (∃ st b, (demo_ingest evs w).1 = Ok (Reply st b) ∧ vp_accepted b = ["e3"; "e2"]%string ∧
    vp_duplicates b = ["e1"; "e2"]%string) as (st & b & Er & H1 & H2).
  { vm_compute. eexists _, _. split; [reflexivity|]. split; reflexivity. }
  rewrite E in Er. cbn in Er. subst r. exists st, b. split_and!; [done..|].
  destruct (batch_accounted (HE := demo_env) (SS := merge_slice_sort) demo_source (demo_batch evs) w st b w' E)
    as (_ & H & _). exact H.
Defined.

(** Replay is idempotent.  A batch of which every event is on record already (because
    the answer to its first delivery was lost), or is invalid, changes no event, message,
    fault or pending resolve, whatever else it lists; nothing of it is accepted. *)
Theorem batch_replay `{HE : HubEnv} `{SS : SliceSort} src req w st b w'
    (Hrun : handleIngestEvents src req w = (Ok (Reply st b), w'))
    (Hhb : ¬ heartbeat_open (s_ID src) (w_db w))
    (Hknown : ∀ ev, ev ∈ ier_Events req →
      (s_ID src, ep_EventID ev) ∈ (pkey <$> d_events (w_db w) : list (string * string)) ∨ invalid ev) :
  vp_accepted b = [] ∧ d_events (w_db w') = d_events (w_db w) ∧
  d_messages (w_db w') = d_messages (w_db w) ∧ d_faults (w_db w') = d_faults (w_db w) ∧
  d_pending (w_db w') = d_pending (w_db w).
Proof.
  apply events_reply_Ok in Hrun as
    (at_ & w0 & tr & last & acc & ch & w1 & Ht & _ & Htx & Ht1 & _ & -> & _).
  destruct (events_tx_Ok _ _ _ _ _ _ _ _ _ _ _ Ht Htx Ht1) as
    (cur & d1 & d2 & lo & hi & last0 & hub & _ & _ & _ & _ & Hq & Htri & Hb & -> & He & Hm & Hf & Hp & _).
  destruct (Hq Hhb) as (_ & He1 & Hm1 & Hf1 & Hp1).
  destruct (triage_answers _ _ _ _ _ Htri eq_refl) as (Hacc & _ & _).
  set (answered := ids_at _ _) in *. destruct Htri as [(rejl & Hsplit & _) _ Hval _ _ Hnew _].
  assert (tr_valid tr = []) as Hnil.
  { destruct (tr_valid tr) as [|it l] eqn:E; [done|]. exfalso.
    assert (it ∈ imap pair (ier_Events req)) as Hin by (rewrite Hsplit; left).
    assert (it.2 ∈ ier_Events req) as Hev.
    { apply elem_of_lookup_imap_1 in Hin as (i & ev & -> & Hl). by eapply list_elem_of_lookup_2. }
    destruct (Hknown _ Hev) as [Hk|Hinv].
    - apply (Hnew (ep_EventID it.2)); [left|]. by rewrite He1.
    - apply (Hval it); [left|done]. }
  assert ((sort_items (tr_valid tr)).*2 = []) as Hs.
  { rewrite Hnil. pose proof (sort_items_perm []) as Hperm. by apply Permutation_nil_r in Hperm as ->. }
  rewrite Hs in Hb. inversion Hb; subst. rewrite Hnil in Hacc. apply Permutation_nil_r in Hacc as ->.
  split_and!; [done|congruence..].
Qed.

Lemma batch_replay_witness :
  let evs := [demo_event "e3" 9 "open"; demo_event "e2" 7 "resolve"; demo_event "" 11 "open"] in
  let w := (demo_ingest evs (world_of demo_db)).2 in
  d_messages (w_db (demo_ingest evs w).2) = d_messages (w_db w).
Proof.
  intros evs w. destruct (demo_ingest evs w) as [r w'] eqn:E.
  assert (∃ st b, (demo_ingest evs w).1 = Ok (Reply st b)) as (st & b & Er) by (vm_compute; eauto).
  rewrite E in Er. cbn in Er. subst r.
  destruct (batch_replay (HE := demo_env) (SS := merge_slice_sort) demo_source (demo_batch evs) w st b w' E)
    as (_ & _ & H & _).
  - vm_compute. discriminate.
  - intros ev Hev. change (ier_Events _) with evs in Hev. unfold evs in Hev. rewrite !elem_of_cons, elem_of_nil in Hev.
    destruct Hev as [->|[->|[->|[]]]]; [left|left|right].
    + vm_compute. repeat constructor.
    + vm_compute. repeat constructor.
    + by intros w0.
  - exact H.
Defined.

(** C5: in-order delivery refines the counters of rounds.  Whatever order a batch lists its
    events in, if their sequence numbers are distinct and above everything on record for
    their keys (a late one may reopen: [Fault.late_open_of_closed_round_reopens]), and no
    heartbeat fault of the source is open (the post would resolve it, too), then every fault of
    the source ends where the accepted events, taken in sequence order, lead its counter of
    rounds; no other source's fault moves. *)
Theorem batch_refines `{HE : HubEnv} `{SS : SliceSort} src req w st b w'
    (Hulid : ulids_unique) (Hrun : handleIngestEvents src req w = (Ok (Reply st b), w'))
    (Hok : db_ok (w_db w)) (Hfresh : fresh_ulids (w_ids w) (w_db w))
    (Hhb : ¬ heartbeat_open (s_ID src) (w_db w)) (Hseq : NoDup (ep_Seq <$> ier_Events req))
    (Hord : ∀ ev k, ev ∈ ier_Events req → non_empty (ep_FaultKey ev) = Some k →
      ahead (s_ID src) k (ep_Seq ev) (w_db w)) :
  ∃ evs, evs ⊆+ ier_Events req ∧ ep_EventID <$> evs ≡ₚ vp_accepted b ∧
    StronglySorted Z.lt (ep_Seq <$> evs) ∧
    (∀ k, abs_fault (s_ID src) k (w_db w') =
      foldl (abs_event k) (abs_fault (s_ID src) k (w_db w)) evs) ∧
    (∀ s k, s ≠ s_ID src → abs_fault s k (w_db w') = abs_fault s k (w_db w)).
Proof.
  apply events_reply_Ok in Hrun as
    (at_ & w0 & tr & last & acc & ch & w1 & Ht & Hids & Htx & Ht1 & _ & -> & _).
  destruct (events_tx_Ok _ _ _ _ _ _ _ _ _ _ _ Ht Htx Ht1) as
    (cur & d1 & d2 & lo & hi & last0 & hub & Hid & Hlo & _ & _ & Hq & Htri & Hb & -> & _ & _ & Hf & _ & Hok1).
  destruct (Hq Hhb) as (_ & _ & _ & Hf1 & Hp1).
  destruct (triage_answers _ _ _ _ _ Htri eq_refl) as (Hacc & _ & _).
  destruct Htri as [(rejl & Hsplit & _) _ _ _ _ _ _].
  set (evs := (sort_items (tr_valid tr)).*2) in *.
  assert (evs ⊆+ ier_Events req) as Hsub.
  { transitivity ((imap pair (ier_Events req)).*2).
    - unfold evs. rewrite sort_items_perm. rewrite Hsplit, fmap_app. apply submseteq_inserts_r. done.
    - rewrite fmap_imap. rewrite <-(list_fmap_id (ier_Events req)) at 2. by rewrite <-(imap_const id). }
  assert (∀ s k, abs_fault s k d1 = abs_fault s k (w_db w)) as Habs1 by (intros; unfold abs_fault, find_fault; by rewrite Hf1).
  assert (∀ s k, abs_fault s k (w_db w') = abs_fault s k d2) as Habs2 by (intros; unfold abs_fault, find_fault; by rewrite Hf).
  assert (StronglySorted Z.lt (ep_Seq <$> evs)) as Hsorted.
  { apply StronglySorted_lt_NoDup.
    - unfold evs. rewrite <-list_fmap_compose. apply sort_items_sorted.
    - pose proof (fmap_submseteq ep_Seq _ _ Hsub) as Hss. apply submseteq_Permutation in Hss as [rest Hss].
      rewrite Hss in Hseq. apply NoDup_app in Hseq as [Hnd _]. exact Hnd. }
  destruct (batch_abs cur lo hi last0 evs d1 d2) as [Hthis Hother]; [done|exact Hb|auto| |done| |].
  { intros i Hi. rewrite Hf1. apply Hfresh. lia. }
  { intros ev k' Hev Hk. destruct (Hord ev k') as [H1 H2]; [by eapply elem_of_submseteq|done|].
    rewrite Hid. split; [by rewrite Hp1|]. unfold find_fault in *. by rewrite Hf1. }
  exists evs. split_and!; [done| |done|..].
  - unfold evs. rewrite <-list_fmap_compose, Hacc. apply fmap_Permutation, sort_items_perm.
  - intros k. by rewrite Habs2, <-Habs1, <-Hid, Hthis.
  - intros s k Hne. rewrite Habs2, <-Habs1. apply Hother. by rewrite Hid.
Qed.

Lemma batch_refines_witness :
  let evs := [demo_event "e2" 7 "resolve"; demo_event "e1" 3 "open"] in
  abs_fault "src_1" "disk" (w_db (demo_ingest evs (world_of demo_db)).2) = Some (1, false).
Proof.
  intros evs. set (w := world_of demo_db). destruct (demo_ingest evs w) as [r w'] eqn:E.
  assert (∃ st b, (demo_ingest evs w).1 = Ok (Reply st b) ∧ vp_accepted b = ["e2"; "e1"]%string)
    as (st & b & Er & Hb) by (vm_compute; eauto).
  rewrite E in Er. cbn in Er. subst r.
  destruct (batch_refines (HE := demo_env) (SS := merge_slice_sort) demo_source (demo_batch evs) w st b w')
    as (l & Hsub & Hacc & Hs & Habs & _); [apply demo_ulids_unique|exact E|exact demo_db_ok| | | | |].
  - intros i _ Hi. by apply elem_of_nil in Hi.
  - vm_compute. discriminate.
  - apply (bool_decide_unpack (NoDup _)). vm_compute. exact I.
  - clear E. intros ev k _ _. split; [by intros p Hp%elem_of_nil|done].
  - clear E. cbn [snd]. change "src_1"%string with (s_ID demo_source). rewrite Habs.
    assert (l ≡ₚ evs) as Hl.
    { apply submseteq_length_Permutation; [exact Hsub|].
      rewrite <-(length_fmap ep_EventID l), (Permutation_length Hacc), Hb. done. }
    symmetry in Hl. apply Permutation_length_2_inv in Hl as [->| ->]; [|vm_compute; reflexivity].
    exfalso. apply StronglySorted_inv in Hs as [_ Hs]. apply Forall_cons in Hs as [Hs _]. vm_compute in Hs. discriminate.
Defined.

(** ** Metrics *)

Section metrics.
Context `{HE : HubEnv} `{SS : SliceSort}.

(** A run on the transaction's tables, and how they move. *)
Lemma moves_Ok {A} R (m : stM World herr A) w d a w' :
  moves R m → w_tx w = Some d → m w = (Ok a, w') → ∃ d', w_tx w' = Some d' ∧ R d d'.
Proof. intros Hm Hd H. exact (Hm _ _ _ _ Hd H). Qed.

(** Writes that leave the key and the highest metrics number of every source alone. *)
Definition same_seqs (d d' : db) : Prop :=
  (λ s, (s_ID s, s_LastMetricsSeq s)) <$> d_sources d' = (λ s, (s_ID s, s_LastMetricsSeq s)) <$> d_sources d.

#[local] Instance same_seqs_preorder : PreOrder same_seqs.
Proof. split; unfold same_seqs; [by intros d|]. intros x y z ??. congruence. Qed.

Lemma same_seqs_upd id f d :
  (∀ s, s_ID (f s) = s_ID s ∧ s_LastMetricsSeq (f s) = s_LastMetricsSeq s) → same_seqs d (upd_source id f d).
Proof.
  intros Hf. unfold same_seqs. cbn. unfold tbl_update. rewrite <-list_fmap_compose.
  apply list_fmap_ext. intros i s _. cbn. destruct (decide _); [|done]. destruct (Hf s) as [-> ->]. done.
Qed.

Lemma kept_seqs d d' : kept d d' → same_seqs d d'.
Proof. unfold same_seqs. by intros [-> _]. Qed.

Lemma moves_weaken {A} (R R' : db → db → Prop) (m : stM World herr A) :
  (∀ d d', R d d' → R' d d') → moves R m → moves R' m.
Proof. intros HR Hm w d a w' Hd H. destruct (Hm _ _ _ _ Hd H) as (d' & ? & ?). eauto. Qed.

Lemma lookup_seqs id d d' s :
  same_seqs d d' → tbl_lookup id (d_sources d) = Some s →
  ∃ s', tbl_lookup id (d_sources d') = Some s' ∧ s_LastMetricsSeq s' = s_LastMetricsSeq s.
Proof.
  unfold same_seqs. generalize (d_sources d'), (d_sources d). intros l' l. revert l'.
  induction l as [|x l IH]; intros [|x' l'] H Hl; try done. injection H as Hid Hsq H.
  unfold tbl_lookup in *. rewrite filter_cons in Hl |- *. unfold pkey, source_key in *.
  rewrite Hid. destruct (decide _); [|by apply IH]. cbn in *. injection Hl as ->. eauto.
Qed.

Definition stored_sample (src : string) (s : samplePayload) (d : db) : Prop :=
  ∃ r, r ∈ d_samples d ∧ ms_source_id r = src ∧ ms_ts r = sp_TS s ∧ ms_sample_json r = s.

(** The sources' numbers and the samples are as they were; with [raw], the raw series too. *)
Definition still (raw : bool) (d d' : db) : Prop :=
  same_seqs d d' ∧ d_samples d' = d_samples d ∧ (raw = true → d_raw d' = d_raw d).

#[local] Instance still_preorder raw : PreOrder (still raw).
Proof.
  split; unfold still; [by intros d|]. intros x y z (H1 & H2 & H3) (G1 & G2 & G3).
  split; [by etransitivity|]. split; [congruence|]. intros Hr. rewrite G3, H3; done.
Qed.

Lemma kept_still raw d d' : kept d d' → still raw d d'.
Proof. intros H. split; [by apply kept_seqs|]. by destruct H as (_ & -> & -> & _). Qed.

Lemma still_upd raw id f :
  (∀ s, s_ID (f s) = s_ID s ∧ s_LastMetricsSeq (f s) = s_LastMetricsSeq s) → moves (still raw) (tx_exec (upd_source id f)).
Proof. intros Hf. apply moves_exec. intros d. split; [by apply same_seqs_upd|done]. Qed.

Lemma still_emit raw src kind sev fk act title body at_ ch :
  moves (still raw) (emitHubEventTx src kind sev fk act title body at_ ch).
Proof. eapply moves_weaken; [apply kept_still|apply kept_emit]. Qed.

Lemma still_touch raw cur at_ ch : moves (still raw) (touchSourceSeenTx cur at_ ch).
Proof.
  unfold touchSourceSeenTx. moves_steps; first [apply still_emit|by apply still_upd].
Qed.

Lemma still_boot raw cur s at_ ch : moves (still raw) (note_boot cur s at_ ch).
Proof.
  unfold note_boot. moves_steps; first [apply still_emit|by apply still_upd].
Qed.

Lemma still_raw id s : moves (still false) (insertRawMetrics id s).
Proof. apply moves_foldl; [apply _|]. intros _ r. apply moves_exec. intros d. split; [done|]. split; [done|]. intros [=]. Qed.

Lemma touch_src cur at_ ch w c ch' w' :
  touchSourceSeenTx cur at_ ch w = (Ok (c, ch'), w') → c = set_s_LastSeenAt (Some (fmtTS at_)) cur.
Proof.
  unfold touchSourceSeenTx. intros H. mrun H. mrun H. destruct a0 as [hb|]; [|by injection H].
  destruct (decide _); [|by injection H]. mrun H. by injection H.
Qed.

(** The steps of the transaction up to the new number, and after it. *)
Lemma metrics_prefix cur s at_ ch arrival w d ch' w' :
  w_tx w = Some d →
  (tx_exec (λ d, set_d_samples (tbl_replace
      {| ms_source_id := s_ID cur; ms_ts := sp_TS s; ms_received_at := fmtTS at_;
         ms_sample_json := s |} (d_samples d)) d) ;;
   insertRawMetrics (s_ID cur) s ;; note_boot cur s arrival ch) w = (Ok ch', w') →
  ∃ d', w_tx w' = Some d' ∧ same_seqs d d' ∧ stored_sample (s_ID cur) s d'.
Proof.
  intros Hd H. mrun H. apply (tx_exec_Ok _ _ _ _ _ Hd) in Hrun as [Hd1 _].
  assert (moves (still false) (insertRawMetrics (s_ID cur) s ;; note_boot cur s arrival ch)) as Hm.
  { apply moves_bind; [apply _|apply still_raw|intros; apply still_boot]. }
  destruct (moves_Ok _ _ _ _ _ _ Hm Hd1 H) as (d' & Hd' & Hs & Hsm & _).
  exists d'. split; [done|]. split; [exact Hs|]. eexists.
  split; [rewrite Hsm; apply elem_of_app; right; by left|done].
Qed.

Lemma with_sample_id req sum cur : s_ID (with_sample req sum cur) = s_ID cur.
Proof. unfold with_sample. by destruct (imr_Capabilities req). Qed.

Lemma metrics_suffix id req sample at_ ch cur w d dup ch' w' d' :
  w_tx w = Some d → w_tx w' = Some d' →
  (match imr_Agent req with
   | Some ag => tx_exec (upd_source id (λ s,
       set_s_Hostname (nullStr (agt_Hostname ag)) (set_s_AgentArch (nullStr (agt_Arch ag))
       (set_s_AgentOS (nullStr (agt_OS ag)) (set_s_AgentVersion (nullStr (agt_Version ag)) s)))))
   | None => mret ()
   end ;;
   match imr_Capabilities req with
   | Some c => tx_exec (upd_source id (set_s_Capabilities (Some c)))
   | None => mret ()
   end ;;
   rules ← loadRules;
   changes ← evalSample cur rules sample at_ ch;
   tx_exec (upd_source id (set_s_PrevSample (Some sample))) ;;
   fresh ← loadSourceTx id;
   changes ← emitSourceChangeTx fresh changes;
   mret (false, changes)) w = (Ok (dup, ch'), w') →
  dup = false ∧ same_seqs d d' ∧ d_samples d' = d_samples d.
Proof.
  intros Hd Hd' H. split.
  - do 7 mrun H. by injection H as <-.
  - match type of H with ?m w = _ => assert (moves (still false) m) as Hm end.
    { moves_steps; try by apply still_upd.
      - eapply moves_weaken; [apply kept_still|apply kept_evalSample].
      - eapply moves_weaken; [apply kept_still|apply kept_sourceChange]. }
    destruct (moves_Ok _ _ _ _ _ _ Hm Hd H) as (d2 & E & Hs & Hsm & _).
    rewrite Hd' in E. injection E as <-. done.
Qed.

(** What the transaction of a metrics post does to its source and to the samples. *)
Lemma metrics_tx_Ok id req sample at_ w d dup ch w' d' :
  w_tx w = Some d → metrics_tx id req sample at_ w = (Ok (dup, ch), w') → w_tx w' = Some d' →
  ∃ cur cur', tbl_lookup id (d_sources d) = Some cur ∧ tbl_lookup id (d_sources d') = Some cur' ∧
    dup = bool_decide (imr_Seq req <= s_LastMetricsSeq cur) ∧
    s_LastMetricsSeq cur' = Z.max (s_LastMetricsSeq cur) (imr_Seq req) ∧
    (if dup then d_samples d' = d_samples d ∧ d_raw d' = d_raw d else stored_sample id sample d').
Proof.
  intros Hd H Hd'. unfold metrics_tx in H. mrun H. rename a into cur.
  apply (tx_row_Ok _ _ _ _ _ Hd) in Hrun as (Hl & Hd1 & _). pose proof (tbl_lookup_id _ _ _ Hl) as Hid.
  mrun H. destruct a as [cur1 ch1]. pose proof (touch_src _ _ _ _ _ _ _ Hrun) as ->.
  destruct (moves_Ok _ _ _ _ _ _ (still_touch true _ _ _) Hd1 Hrun) as (d2 & Hd2 & Hs2 & Hsm2 & Hraw2).
  destruct (lookup_seqs id _ _ _ Hs2 Hl) as (cur2 & Hl2 & Hq2).
  exists cur. cbn [s_ID s_LastMetricsSeq set_s_LastSeenAt] in H. rewrite Hid in H.
  destruct (decide (imr_Seq req <= s_LastMetricsSeq cur)) as [Hle|Hgt].
  - mrun H. apply (tx_row_Ok _ _ _ _ _ Hd2) in Hrun0 as (_ & Hd3 & _). mrun H. injection H as <- _ <-.
    apply (emitSourceChangeTx_Ok _ _ _ _ _ _ Hd3) in Hrun0 as (sj & now & Hd4 & _).
    rewrite Hd' in Hd4. injection Hd4 as ->. exists cur2. rewrite bool_decide_true by done.
    split_and!; [done..|lia|done|]. by apply Hraw2.
  - mrun H. mrun H. mrun H.
    destruct (metrics_prefix (set_s_LastSeenAt (Some (fmtTS at_)) cur) sample at_ ch1 at_ s0 d2 a1 s3 Hd2) as (d3 & Hd3 & Hs3 & Hst).
    { cbn [s_ID set_s_LastSeenAt]. rewrite Hid. rewrite (st_bind_Ok_step _ _ _ _ _ Hrun0).
      rewrite (st_bind_Ok_step _ _ _ _ _ Hrun1). exact Hrun2. }
    mrun H. apply (tx_exec_Ok _ _ _ _ _ Hd3) in Hrun3 as [Hd4 _].
    rewrite !with_sample_id in H. cbn [s_ID set_s_LastSeenAt] in H. rewrite Hid in H.
    destruct (metrics_suffix _ _ _ _ _ _ _ _ _ _ _ _ Hd4 Hd' H) as (-> & Hs5 & Hsm5).
    destruct (lookup_seqs id _ _ _ Hs3 Hl2) as (cur3 & Hl3 & Hq3).
    assert (∃ cur4, tbl_lookup id (d_sources (upd_source id (λ s, set_s_UpdatedAt (fmtTS at_)
      (set_s_LastSummary (Some (buildSummary sample)) (set_s_LastMetricsSeq (imr_Seq req) s))) d3)) = Some cur4 ∧
      s_LastMetricsSeq cur4 = imr_Seq req) as (cur4 & Hl4 & Hq4).
    { cbn. rewrite tbl_lookup_update, decide_True by done. rewrite Hl3. by eexists. }
    destruct (lookup_seqs id _ _ _ Hs5 Hl4) as (cur5 & Hl5 & Hq5).
    exists cur5. rewrite bool_decide_false by done. split_and!; [done..|lia|].
    destruct Hst as (r & Hr & Hr2). exists r. rewrite Hsm5. cbn in Hr2. rewrite Hid in Hr2. done.
Qed.
End metrics.

(** C13: metrics are applied once.  A post is answered as accepted exactly when its sequence
    number is above the highest one applied for its source, which is then its own number;
    the sample of an accepted post is on record, and a duplicate (a lost answer, a post sent
    again or overtaken) changes no sample and no point of a series.  So the same post
    repeated is a duplicate. *)
Theorem metrics_once `{HE : HubEnv} src req w st b w'
    (Hrun : handleIngestMetrics src req w = (Ok (Reply st b), w')) :
  ∃ cur cur', tbl_lookup (s_ID src) (d_sources (w_db w)) = Some cur ∧
    tbl_lookup (s_ID src) (d_sources (w_db w')) = Some cur' ∧
    mp_duplicate b = negb (mp_accepted b) ∧
    (mp_accepted b = true ↔ s_LastMetricsSeq cur < imr_Seq req) ∧
    s_LastMetricsSeq cur' = Z.max (s_LastMetricsSeq cur) (imr_Seq req) ∧
    (mp_accepted b = true → ∃ s, imr_Sample req = Some s ∧ stored_sample (s_ID src) s (w_db w')) ∧
    (mp_accepted b = false → d_samples (w_db w') = d_samples (w_db w) ∧ d_raw (w_db w') = d_raw (w_db w)).
Proof.
  unfold handleIngestMetrics in Hrun. destruct (imr_Sample req) as [s|] eqn:Es; [|done].
  destruct (decide _); [done|]. destruct (parseTS _); [|done].
  mrun Hrun. rename a into at_. injection Hrun0 as <- <-. mrun Hrun. unfold st_try in Hrun0.
  destruct (withTx _ _) as [r w1] eqn:Etx. injection Hrun0 as -> ->.
  destruct a as [[dup ch]|]; [|done].
  apply withTx_Ok in Etx as (w0 & w2 & d' & Ht & _ & Hf & Ht2 & Hd & _).
  destruct (metrics_tx_Ok _ _ _ _ _ _ _ _ _ _ Ht Hf Ht2) as (cur & cur' & H1 & H2 & Hdup & Hmax & Hst).
  mrun Hrun. injection Hrun0 as <- <-. mrun Hrun. injection Hrun0 as <- <-. mrun Hrun.
  destruct (reads_interval (wset_ticks (S (w_ticks s0)) (wset_broker
    (foldl (λ b e, Publish e b) (w_broker s0) ch) s0))) as [[Hdb _] _].
  rewrite Hrun0 in Hdb. cbn in Hdb. injection Hrun as <- <- <-. cbn [mp_accepted mp_duplicate].
  rewrite Hdb, Hd. exists cur, cur'. split_and!; [exact H1|exact H2|by rewrite negb_involutive| |exact Hmax| |].
  - rewrite Hdup, negb_true_iff, bool_decide_eq_false. lia.
  - intros ->%negb_true_iff. eauto.
  - intros ->%negb_false_iff. exact Hst.
Qed.

Lemma metrics_once_witness :
  let sample := {| sp_TS := "2026-09-18T05:59:00.000Z"; sp_CPUPercent := Some (f64_of_Z 50); sp_MemPercent := None;
    sp_MemUsedBytes := None; sp_MemTotalBytes := None; sp_Load1 := None; sp_UptimeSeconds := None;
    sp_BootTime := None; sp_Disks := []; sp_Net := None; sp_Containers := None; sp_NAS := None |}%string in
  let req := {| imr_Seq := 4; imr_SentAt := ""%string; imr_Agent := None; imr_Capabilities := None;
    imr_Sample := Some sample |} in
  let d := set_d_rules (Some {| rd_Version := 1; rd_HeartbeatSeconds := 180; rd_Rules := defaultRules |}) demo_db in
  let post := handleIngestMetrics (HE := demo_env) demo_source req in
  stored_sample "src_1" sample (w_db (post (world_of d)).2) ∧
  ∃ st b, (post (post (world_of d)).2).1 = Ok (Reply st b) ∧ mp_duplicate b = true.
Proof.
  intros sample req d post. split; [|vm_compute; eauto].
  assert (∃ st b, (post (world_of d)).1 = Ok (Reply st b) ∧ mp_accepted b = true) as (st & b & Er & Hb)
    by (vm_compute; eauto).
  destruct (post (world_of d)) as [r w'] eqn:E. cbn in Er. subst r.
  destruct (metrics_once (HE := demo_env) demo_source req (world_of d) st b w' E)
    as (cur & cur' & _ & _ & _ & _ & _ & H & _). clear E.
  destruct (H Hb) as (s & [= <-] & Hs). exact Hs.
Defined.
