(* ===== verification/Working.v ===== *)
(** A hub whose database works answers.  The other files say what holds whichever calls fail;
    here none does, and then nothing else makes a post of the agent fail: no uniqueness
    constraint, no action the state machine does not know, no row that is not there.

    What this takes is [good]: the tables' invariant, that the ULIDs still to be drawn name
    nothing yet, the source, and the rules that start-up writes. *)

From S2P Require Import Prelude GoBase GoTime HubTypes HubStore Fault Rules Ingest.
Local Open Scope Z_scope.

(** ** Specification *)

(** No database call fails. *)
Definition works `{HE : HubEnv} : Prop := ∀ n, h_io n = false.

(** The ULIDs from the [lo]-th on name no fault, no message and no event of the hub's. *)
Definition unnamed `{HE : HubEnv} (lo : nat) (d : db) : Prop := ∀ n, (lo <= n)%nat →
  ("flt_" +:+ h_ulid n)%string ∉ f_ID <$> d_faults d ∧ ("msg_" +:+ h_ulid n)%string ∉ m_ID <$> d_messages d ∧
  ∀ s, (s, "hub_" +:+ h_ulid n)%string ∉ (pkey <$> d_events d : list (string * string)).

(** A transaction on the tables [d] for the source [sid] in the world [w]. *)
Record good `{HE : HubEnv} (sid : string) (w : World) (d : db) : Prop := {
  gd_ok : db_ok d;
  gd_unnamed : unnamed (w_ids w) d;
  gd_source : is_Some (tbl_lookup sid (d_sources d));
  gd_rules : is_Some (d_rules (w_db w));
  gd_rules_tx : is_Some (d_rules d) }.

(** The number of the next event of the hub's. *)
Definition hub_next (d : db) : Z := default hubSeqBase (d_meta d !! "hub_event_seq"%string) + 1.

(** An event's action is one the state machine knows, if it names a fault. *)
Definition known_action (ev : eventPayload) : Prop :=
  is_Some (non_empty (ep_FaultKey ev)) → default EmptyString (ep_IncidentAction ev) ∈ ["open"; "update"; "resolve"]%string.

(** An id that no ULID still to be drawn will be used for. *)
Definition unreserved `{HE : HubEnv} (lo : nat) (id : string) : Prop := ∀ n, (lo <= n)%nat → id ≠ ("hub_" +:+ h_ulid n)%string.

(** The checks on a metrics post before its transaction. *)
Definition has_sample (req : ingestMetricsReq) : bool :=
  match imr_Sample req with
  | Some s => negb (bool_decide (sp_TS s = "")) && bool_decide (is_Some (parseTS (sp_TS s)))
  | None => false
  end%string.

Section working.
Context `{HE : HubEnv} (Hworks : works) (Hulid : ulids_unique).
Notation HM := (stM World herr).

(** ** Calls that return *)

Definition runs {A} (m : HM A) (w : World) : Prop := ∃ a w', m w = (Ok a, w').

Lemma runs_done {A} (a : A) w : runs (mret a) w.
Proof. by eexists _, _. Qed.
Lemma runs_then {A B} (m : HM A) (k : A → HM B) w :
  runs m w → (∀ a w', m w = (Ok a, w') → runs (k a) w') → runs (m ≫= k) w.
Proof. intros (a & w' & E) H. unfold runs. rewrite (st_bind_Ok_step _ _ _ _ _ E). by apply H. Qed.

Lemma runs_call {A} (f : db → outcome herr (A * db)) w d : w_tx w = Some d → (∃ r, f d = Ok r) → runs (tx_call f) w.
Proof. intros Hd [[a d'] Hf]. unfold runs, tx_call. rewrite Hd, Hworks, Hf. by eexists _, _. Qed.
Lemma runs_query {A} (f : db → A) w d : w_tx w = Some d → runs (tx_query f) w.
Proof. intros Hd. eapply runs_call; eauto. Qed.
Lemma runs_exec f w d : w_tx w = Some d → runs (tx_exec f) w.
Proof. intros Hd. eapply runs_call; eauto. Qed.
Lemma runs_insert f w d : w_tx w = Some d → is_Some (f d) → runs (tx_insert f) w.
Proof. intros Hd [d' Hf]. eapply runs_call; [done|]. rewrite Hf. eauto. Qed.
Lemma runs_row {A} (f : db → option A) w d : w_tx w = Some d → is_Some (f d) → runs (tx_row f) w.
Proof. intros Hd [a Hf]. eapply runs_call; [done|]. rewrite Hf. eauto. Qed.
Lemma runs_now w : runs nowUTC w.
Proof. by eexists _, _. Qed.
Lemma runs_id p w : runs (newID p) w.
Proof. by eexists _, _. Qed.

(** The next change number is new. *)
Lemma tbl_insert_new {K R} `{EqDecision K, Keyed K R} (r : R) t : pkey r ∉ (pkey <$> t : list K) → is_Some (tbl_insert r t).
Proof. intros Hr. unfold tbl_insert. rewrite decide_False by done. by eexists. Qed.

Lemma runs_changeObj typ ref obj n w d : w_tx w = Some d → log_ok d → runs (insertChangeObj typ ref obj n) w.
Proof.
  intros Hd [_ Hlog]. unfold insertChangeObj. apply runs_then.
  { unfold nextChangeSeq. apply runs_then; [eapply runs_call; [done|]|].
    - destruct (d_meta d !! _); eauto.
    - intros a w' H. apply tx_call_Ok in H as (d0 & d1 & _ & _ & Hd' & _). destruct a; [apply runs_done|]. eapply runs_call; eauto. }
  intros s w1 H1. apply (nextChangeSeq_Ok _ _ _ _ Hd) in H1 as (-> & Hd1 & _). apply runs_then; [apply runs_now|].
  intros t w2 H2. apply nowUTC_Ok in H2 as [Hd2 _]. rewrite Hd1 in Hd2. apply runs_then; [|intros; apply runs_done].
  eapply runs_insert; [exact Hd2|]. apply fmap_is_Some, tbl_insert_new. intros Hin. apply list_elem_of_fmap in Hin as (r & Er & Hr).
  rewrite Forall_forall in Hlog. specialize (Hlog r Hr). change (change_seq d + 1 = ch_seq r) in Er. lia.
Qed.

(** ** applyEventTx returns *)

Lemma runs_transition src ev fk w d : w_tx w = Some d → default EmptyString (ep_IncidentAction ev) ∈ ["open"; "update"; "resolve"]%string →
  runs (fault_transition src ev fk) w.
Proof.
  intros Hd Hact. unfold fault_transition. apply runs_then; [by eapply runs_query|].
  intros f w1 H1. apply (tx_query_Ok _ _ _ _ _ Hd) in H1 as (_ & Hd1 & _). case_decide as Ho.
  - apply runs_then; [by eapply runs_query|]. intros p w2 _. destruct f as [f|].
    + case_decide; [apply runs_done|]. destruct p; apply runs_done.
    + apply runs_then; [|intros g w3 _; destruct p; apply runs_done]. unfold newFaultRow.
      apply runs_then; [apply runs_id|intros; apply runs_done].
  - rewrite decide_True by set_solver. destruct f as [f|]; [case_decide; [apply runs_done|]|];
      (apply runs_then; [by eapply runs_exec|intros; apply runs_done]).
Qed.

(** The fault the state machine decided on finds its place in the table. *)
Lemma upsert_decided id src ev d o pend f : Forall fault_ok (d_faults d) → outcome_of id src ev d = Some (o, pend) →
  ao_fault o = Some f → ∀ seq, is_Some (upsert_fault (set_f_ChangeSeq seq f) (d_faults d)).
Proof.
  intros Hok Hout Hf seq. unfold outcome_of in Hout. destruct (non_empty (ep_FaultKey ev)) as [k|]; [|by injection Hout as <-].
  destruct (transition_fault _ _ _ _ _ _ _ _ Hok Hout Hf) as (_ & Hslot & Hid). unfold upsert_fault.
  change (f_ID (set_f_ChangeSeq seq f)) with (f_ID f). change (fault_slot (set_f_ChangeSeq seq f)) with (fault_slot f).
  destruct (tbl_lookup (f_ID f) (d_faults d)) eqn:El; [by eexists|]. apply tbl_lookup_None in El.
  destruct (find_fault (s_ID src) k d) as [f0|] eqn:E0.
  - destruct El. rewrite Hid. apply find_fault_Some in E0 as (Hin & _). by apply (list_elem_of_fmap_2 f_ID).
  - rewrite decide_False; [by eexists|]. rewrite Hslot. intros Hin. apply list_elem_of_fmap in Hin as (g & Eg & Hg).
    unfold find_fault in E0. injection Eg as Es Ek.
    assert (g ∈ filter (λ f, f_SourceID f = s_ID src ∧ f_FaultKey f = k) (d_faults d)) as Hg' by (by apply list_elem_of_filter).
    destruct (filter _ _); [by apply elem_of_nil in Hg'|done].
Qed.

Lemma runs_record id src ev o m ch d0 d1 w pend : outcome_of id src ev d0 = Some (o, pend) → db_ok d0 →
  d_faults d1 = d_faults d0 → d_messages d1 = d_messages d0 → d_changes d1 = d_changes d0 → d_meta d1 = d_meta d0 →
  m_ID m ∉ m_ID <$> d_messages d0 → w_tx w = Some d1 →
  runs (record_message src (non_empty (ep_FaultKey ev)) o m ch) w.
Proof.
  intros Hout Hok Hf Hm Hc Hmeta Hid Hd. pose proof (outcome_unchanged _ _ _ _ _ _ Hout) as Hnone.
  assert (log_ok d1) as Hlog.
  { destruct (ok_log _ Hok) as [Hs Hb]. split; [by rewrite Hc|]. unfold change_seq in *. by rewrite Hc, Hmeta. }
  unfold record_message. apply runs_then.
  { unfold store_fault. destruct (ao_fault o) as [f|] eqn:Ef; [|apply runs_done]. destruct (ao_changed o); [|apply runs_done].
    apply runs_then; [by eapply runs_changeObj|]. intros e w1 H1. apply (insertChangeObj_Ok _ _ _ _ _ _ _ _ Hd) in H1 as (n & Hd1 & _ & ->).
    apply runs_then; [|intros; apply runs_done]. eapply runs_insert; [exact Hd1|]. apply fmap_is_Some.
    change (d_faults (log_change _ _ _ _ _ _)) with (d_faults d1). rewrite Hf. by eapply upsert_decided; [apply Hok| |]. }
  intros [f changes] w1 H1. apply (store_fault_Ok _ _ _ _ _ _ _ Hnone Hd) in H1 as (rows & faults & d2 & Hd2 & _ & _ & E2 & Hgrow & [= -> ->] & _).
  apply runs_then.
  { unfold attach_messages. repeat case_match; try apply runs_done. by eapply runs_exec. }
  assert (stored_fault o d1 = stored_fault o d0) as Hst by (unfold stored_fault, change_seq; by rewrite Hmeta).
  intros [] w2 H2. rewrite Hst in H2. apply (attach_messages_Ok src ev o _ d0 d2) in H2 as [Hd3 _]; [|by rewrite E2|done].
  pose proof (log_grows_ok _ _ _ Hlog Hgrow) as Hlog2.
  apply runs_then; [by eapply runs_changeObj|]. intros e w3 H3. apply (insertChangeObj_Ok _ _ _ _ _ _ _ _ Hd3) in H3 as (n & Hd4 & _ & ->).
  apply runs_then; [|intros; apply runs_done]. eapply runs_insert; [exact Hd4|]. apply fmap_is_Some, tbl_insert_new.
  change (m_ID m ∉ m_ID <$> backfilled src ev o d0). by rewrite backfilled_ids.
Qed.

Lemma runs_apply src ev internal ooo ch w d : w_tx w = Some d → db_ok d → unnamed (w_ids w) d →
  (s_ID src, ep_EventID ev) ∉ (pkey <$> d_events d : list (string * string)) → known_action ev →
  runs (applyEventTx src ev internal ooo ch) w.
Proof.
  intros Hd Hok Hnew Hkey Hact. unfold applyEventTx. apply runs_then; [apply runs_now|].
  intros now w1 H1. apply nowUTC_Ok in H1 as [Hd1 Hs1]. rewrite Hd in Hd1.
  apply runs_then; [eapply runs_insert; [exact Hd1|]; by apply fmap_is_Some, tbl_insert_new|].
  intros u w2 H2. apply (tx_insert_Ok _ _ _ _ _ Hd1) in H2 as (d2 & Hins & Hd2 & Hs2).
  destruct (tbl_insert _ (d_events d)) as [evs|]; [|done]. injection Hins as <-. set (d2 := set_d_events _ d) in *.
  apply runs_then.
  { destruct (non_empty (ep_FaultKey ev)) as [k|] eqn:Ek; [|apply runs_done]. eapply runs_transition; [exact Hd2|].
    apply Hact. rewrite Ek. by eexists. }
  intros o w3 H3. apply (decided_Ok src ev _ d d2 _ _ eq_refl eq_refl Hd2) in H3 as (n & pend & Hout & Hn & Hd3 & Hs3).
  apply runs_then; [apply runs_id|]. intros mid w4 H4. apply newID_Ok in H4 as (-> & _ & Hd4 & _). rewrite Hd3 in Hd4.
  eapply (runs_record _ src ev o _ _ d (set_d_pending pend d2)); try done.
  apply (Hnew (w_ids w3)). pose proof (same_outside_ids _ _ Hs1). pose proof (same_outside_ids _ _ Hs2). pose proof (same_outside_ids _ _ Hs3). lia.
Qed.

(** ** What is good stays good *)

Lemma unnamed_mono lo hi d : (lo <= hi)%nat → unnamed lo d → unnamed hi d.
Proof. intros Hle H n Hn. apply H. lia. Qed.

Lemma ulid_below p lo n k : (k < lo)%nat → (lo <= n)%nat → (p +:+ h_ulid n)%string ≠ (p +:+ h_ulid k)%string.
Proof. intros Hk Hn E. apply (inj (String.append p)) in E. apply Hulid in E. lia. Qed.

Lemma applied_unnamed lo hi src ev internal ooo d d' new : applied lo hi src ev internal ooo d d' new → db_ok d →
  (lo <= hi)%nat → unnamed lo d → unreserved lo (ep_EventID ev) → unnamed hi d'.
Proof.
  intros (n & mid & now & o & pend & faults & rows & Hn & Hout & _ & Hev & _ & Hfa & Hf & _ & Hm & _ & _ & _ & _ & _ & k & Hk & ->)
    Hok Hle Hnew Hid i Hi. destruct (Hnew i ltac:(lia)) as (N1 & N2 & N3). split_and!.
  - rewrite Hf. unfold outcome_of in Hout. destruct (non_empty (ep_FaultKey ev)) as [key|].
    + intros [?| E]%(faults_after_new _ _ _ _ _ _ _ _ (ok_fault_rows _ Hok) Hout Hfa); [done|].
      by apply (ulid_below "flt_" hi i n) in E; [|lia..].
    + injection Hout as <- _. by injection Hfa as <-.
  - rewrite Hm, fmap_app, backfilled_ids. intros [?|E%list_elem_of_singleton]%elem_of_app; [done|]. 
    by apply (ulid_below "msg_" hi i k) in E; [|lia..].
  - intros s. rewrite Hev, fmap_app. intros [?|E%list_elem_of_singleton]%elem_of_app; [by eapply N3|]. injection E as _ E.
    by apply (Hid i); [lia|].
Qed.

(** An event whose key and id are new is applied, and leaves everything good. *)
Lemma apply_good sid src ev internal ooo ch w d : w_tx w = Some d → good sid w d →
  (s_ID src, ep_EventID ev) ∉ (pkey <$> d_events d : list (string * string)) → known_action ev →
  unreserved (w_ids w) (ep_EventID ev) →
  ∃ ch' w' d', applyEventTx src ev internal ooo ch w = (Ok ch', w') ∧ w_tx w' = Some d' ∧ good sid w' d' ∧
    (pkey <$> d_events d' : list (string * string)) = (pkey <$> d_events d) ++ [(s_ID src, ep_EventID ev)] ∧ (w_ids w <= w_ids w')%nat.
Proof.
  intros Hd [Hok Hnew Hsrc Hrules Htx] Hkey Hact Hid.
  destruct (runs_apply src ev internal ooo ch w d Hd Hok Hnew Hkey Hact) as (ch' & w' & E).
  exists ch', w'. destruct (applyEventTx_Ok _ _ _ _ _ _ _ _ _ Hd E) as (d' & new & Hd' & Hs & _ & Ha).
  pose proof (same_outside_ids _ _ Hs) as Hle. exists d'. split_and!; try done.
  - split; [by eapply applied_ok|by eapply applied_unnamed| | |].
    + destruct Ha as (n & mid & now & o & pend & faults & rows & _ & _ & _ & _ & _ & _ & _ & _ & _ & _ & _ & _ & _ & (-> & _) & _). done.
    + destruct Hs as (-> & _). done.
    + destruct Ha as (n & mid & now & o & pend & faults & rows & _ & _ & _ & _ & _ & _ & _ & _ & _ & _ & _ & _ & _ & (_ & _ & _ & _ & _ & -> & _) & _). done.
  - destruct Ha as (n & mid & now & o & pend & faults & rows & _ & _ & _ & -> & _). by rewrite fmap_app.
Qed.

(** [m] returns a value in [Q] and keeps a transaction good. *)
Definition total {A} (sid : string) (Q : A → Prop) (m : HM A) : Prop := ∀ w d, w_tx w = Some d → good sid w d →
  ∃ a w' d', m w = (Ok a, w') ∧ w_tx w' = Some d' ∧ good sid w' d' ∧ Q a.

Section total.
Variable sid : string.
Notation total := (total sid).

Lemma total_ret {A} (Q : A → Prop) a : Q a → total Q (mret a).
Proof. intros HQ w d Hd Hg. by eexists _, _, _. Qed.
Lemma total_bind {A B} (Q : A → Prop) (R : B → Prop) (m : HM A) (k : A → HM B) :
  total Q m → (∀ a, Q a → total R (k a)) → total R (m ≫= k).
Proof.
  intros Hm Hk w d Hd Hg. destruct (Hm w d Hd Hg) as (a & w1 & d1 & E & Hd1 & Hg1 & HQ).
  rewrite (st_bind_Ok_step _ _ _ _ _ E). by apply (Hk a HQ w1 d1).
Qed.
Lemma total_foldl {A B} (Q : A → Prop) (body : A → B → HM A) xs a :
  Q a → (∀ a x, Q a → total Q (body a x)) → total Q (st_foldl body a xs).
Proof.
  intros Ha Hb. revert a Ha. induction xs as [|x xs IH]; intros a Ha; cbn [st_foldl]; [by apply total_ret|].
  eapply total_bind; [by apply Hb|]. intros. by apply IH.
Qed.

(** A call that leaves tables, ULIDs and the committed database alone. *)
Lemma total_quiet {A} (Q : A → Prop) (m : HM A) :
  (∀ w, w_tx (m w).2 = w_tx w ∧ w_ids (m w).2 = w_ids w ∧ w_db (m w).2 = w_db w ∧ ∃ a, (m w).1 = Ok a ∧ Q a) → total Q m.
Proof.
  intros Hm w d Hd [H1 H2 H3 H4 H5]. destruct (Hm w) as (E1 & E2 & E3 & a & Ea & HQ). destruct (m w) as [r w']. cbn in *. subst r.
  exists a, w', d. split_and!; [done|congruence| |done]. split; [done|by rewrite E2|done|by rewrite E3|done].
Qed.
Lemma total_query {A} (f : db → A) : total (λ _, True) (tx_query f).
Proof.
  intros w d Hd [H1 H2 H3 H4 H5]. unfold tx_query, tx_call. rewrite Hd, Hworks. eexists _, _, d. split_and!; [reflexivity|done| |done].
  by split.
Qed.
Lemma total_exec f : harmless f → (∀ d, is_Some (tbl_lookup sid (d_sources d)) → is_Some (tbl_lookup sid (d_sources (f d)))) →
  (∀ d, d_rules (f d) = d_rules d) →
  total (λ _, True) (tx_exec f).
Proof.
  intros Hf Hs Hr w d Hd [H1 H2 H3 H4 H5]. unfold tx_exec, tx_call. rewrite Hd, Hworks. eexists _, _, (f d). split_and!; [reflexivity|done| |done].
  split; [by apply (harmless_effect f d Hf)| |by apply Hs|done|by rewrite Hr]. cbn. destruct (Hf d) as (E1 & E2 & E3 & _).
  unfold unnamed. by rewrite E1, E2, E3.
Qed.
Lemma total_now : total (λ _, True) nowUTC.
Proof. apply total_quiet. intros w. split_and!; try done. by eexists. Qed.
Lemma total_load : total (λ s, s_ID s = sid) (loadSourceTx sid).
Proof.
  intros w d Hd Hg. destruct (gd_source _ _ _ Hg) as [s Hs]. unfold loadSourceTx, tx_row, tx_call. rewrite Hd, Hworks, Hs.
  eexists _, _, d. split_and!; [reflexivity|done|by destruct Hg|]. by apply tbl_lookup_Some in Hs as [_ ?].
Qed.
Lemma total_loadRules : total (λ _, True) loadRules.
Proof.
  intros w d Hd Hg. destruct (gd_rules _ _ _ Hg) as [doc Hdoc]. unfold loadRules.
  assert (db_query d_rules w = (Ok (Some doc) : outcome herr _, wset_calls (S (w_calls w)) w)) as E.
  { unfold db_query, db_call. rewrite Hworks, Hdoc. by destruct w. }
  rewrite (st_bind_Ok_step _ _ _ _ _ E). eexists _, _, d. split_and!; [reflexivity|done|by destruct Hg|done].
Qed.
Lemma total_heartbeat : total (λ _, True) heartbeatSeconds.
Proof.
  apply total_quiet. intros w. unfold heartbeatSeconds, db_row, db_call, st_try. unfold mbind, stM_bind, mret, stM_ret. cbv beta.
  rewrite Hworks. destruct (rd_HeartbeatSeconds <$> d_rules (w_db w)); cbn; (split_and!; [by destruct w..|by eexists]).
Qed.

(** A change is logged. *)
Lemma total_changeObj typ ref obj n : total (λ _, True) (insertChangeObj typ ref obj n).
Proof.
  intros w d Hd [H1 H2 H3 H4 H5]. destruct (runs_changeObj typ ref obj n w d Hd (ok_log _ H1)) as (e & w' & E).
  destruct (insertChangeObj_Ok _ _ _ _ _ _ _ _ Hd E) as (now & Hd' & Hs & _). exists e, w'. eexists. split_and!; [done|exact Hd'| |done].
  split; [by apply (log_change_effect typ ref (obj (change_seq d + 1)) n now d)| |done|by destruct Hs as (-> & _)|done].
  eapply unnamed_mono; [|exact H2]. by apply same_outside_ids.
Qed.
Lemma total_sourceChange src ch : total (λ _, True) (emitSourceChangeTx src ch).
Proof.
  unfold emitSourceChangeTx. eapply total_bind; [apply total_heartbeat|intros hb _]. eapply total_bind; [apply total_now|intros now _].
  eapply total_bind; [apply total_changeObj|intros e _]. by apply total_ret.
Qed.

(** ** Events of the hub's *)

Lemma hubSeq_next w d : w_tx w = Some d →
  ∃ w', nextHubSeqTx w = (Ok (hub_next d), w') ∧ w_ids w' = w_ids w ∧ w_db w' = w_db w ∧
    w_tx w' = Some (set_d_meta (<["hub_event_seq"%string := hub_next d]> (d_meta d)) d).
Proof.
  intros Hd. unfold nextHubSeqTx, tx_exec, tx_row, tx_call, hub_next. unfold mbind, stM_bind. rewrite Hd, Hworks. cbn. rewrite Hworks.
  destruct (d_meta d !! "hub_event_seq"%string) as [v|] eqn:E.
  - cbn. rewrite E. cbn. rewrite Hworks, lookup_insert_eq. by eexists.
  - cbn. rewrite lookup_insert_eq. cbn. rewrite Hworks, lookup_insert_eq. eexists. split_and!; try done. cbn. by rewrite insert_insert_eq.
Qed.

Lemma total_hubSeq : total (λ _, True) nextHubSeqTx.
Proof.
  intros w d Hd [H1 H2 H3 H4 H5]. destruct (hubSeq_next w d Hd) as (w' & E & Ei & Eb & Hd'). eexists _, w', _.
  split_and!; [exact E|exact Hd'| |done]. split; [|by rewrite Ei|done|by rewrite Eb|done].
  apply (harmless_effect (λ d, set_d_meta (<["hub_event_seq"%string := hub_next d]> (d_meta d)) d) d); [|done].
  intros d0. split_and!; try done. unfold change_seq. cbn. by rewrite lookup_insert_ne.
Qed.

Lemma total_emit src kind sev fk act title body at_ ch :
  (is_Some (non_empty fk) → default EmptyString act ∈ ["open"; "update"; "resolve"]%string) →
  total (λ _, True) (emitHubEventTx src kind sev fk act title body at_ ch).
Proof.
  intros Hact. unfold emitHubEventTx. eapply total_bind; [apply total_hubSeq|]. intros seq _ w d Hd Hg.
  rewrite (st_bind_Ok_step (newID "hub_") _ w _ _ eq_refl). destruct Hg as [H1 H2 H3 H4 H5].
  match goal with |- context [applyEventTx src ?ev true false ch ?w1] =>
    destruct (apply_good sid src ev true false ch w1 d) as (ch' & w' & d' & E & Hd' & Hg' & _ & _); [exact Hd| | | | |] end.
  - split; [exact H1| |exact H3|exact H4|exact H5]. eapply unnamed_mono; [|exact H2]. cbn. lia.
  - apply (H2 (w_ids w)); lia.
  - exact Hact.
  - intros n Hn. cbn in Hn |- *. intros E%eq_sym. by apply (ulid_below "hub_" (S (w_ids w)) n (w_ids w)) in E; [|lia..].
  - rewrite E. by exists ch', w', d'.
Qed.

Lemma total_upd f : (∀ s, s_ID (f s) = s_ID s) → ∀ id, total (λ _, True) (tx_exec (upd_source id f)).
Proof.
  intros Hf id. apply total_exec; [done| |done]. intros d Hs. unfold upd_source. cbn [d_sources set_d_sources].
  rewrite tbl_lookup_update by apply Hf. case_decide; [by apply fmap_is_Some|done].
Qed.

Lemma total_touch src at_ ch : s_ID src = sid → total (λ r, s_ID r.1 = sid) (touchSourceSeenTx src at_ ch).
Proof.
  intros Hs. unfold touchSourceSeenTx. eapply total_bind; [by apply (total_upd (set_s_LastSeenAt (Some (fmtTS at_))))|intros u _].
  eapply total_bind; [apply total_query|intros hb _]. destruct hb as [hb|]; [|by apply total_ret]. case_decide; [|by apply total_ret].
  eapply total_bind; [by apply total_emit; set_solver|intros c _]. by apply total_ret.
Qed.

Lemma total_then {A B} (R : B → Prop) (m : HM A) (k : A → HM B) :
  total (λ _, True) m → (∀ a, total R (k a)) → total R (m ≫= k).
Proof. intros Hm Hk. eapply total_bind; [exact Hm|]. intros a _. apply Hk. Qed.
Lemma total_get key : total (λ _, True) (re_get key).
Proof. apply total_quiet. intros w. split_and!; try done. by eexists. Qed.
Lemma total_put key st : total (λ _, True) (re_put key st).
Proof. apply total_quiet. intros w. split_and!; try done. by eexists. Qed.
Lemma total_rule_emit src k sev fk act t b at_ ch : act ∈ ["open"; "update"; "resolve"]%string →
  total (λ _, True) (emit src k sev fk act t b at_ ch).
Proof. intros Hact. apply total_emit. by intros _. Qed.

(** [total_steps] shows that a program returns from that its steps do. *)
Local Ltac total_steps := repeat match goal with
  | |- total _ (mbind _ _) => apply total_then; [|intros ?]
  | |- total _ (mret _) => by apply total_ret
  | |- total _ (tx_query _) => apply total_query
  | |- total _ (isFaultOpen _ _) => apply total_query
  | |- total _ (re_get _) => apply total_get
  | |- total _ (re_put _ _) => apply total_put
  | |- total _ (emit _ _ _ _ _ _ _ _ _) => apply total_rule_emit; set_solver
  | |- total _ (emitSourceChangeTx _ _) => apply total_sourceChange
  | |- total _ (st_foldl _ _ _) => apply total_foldl; [done|intros ?? _]
  | |- total _ (if ?b then _ else _) => destruct b
  | |- total _ (match ?x with _ => _ end) => destruct x
  | |- _ => solve [auto]
  end.

Lemma total_threshold src r limit rec now ch lv : total (λ _, True) (threshold_reading src r limit rec now ch lv).
Proof. unfold threshold_reading. total_steps. Qed.
Lemma total_container_now src r prev now ch c : total (λ _, True) (container_now src r prev now ch c).
Proof. unfold container_now. total_steps. Qed.
Lemma total_container_gone src r names now ch c : total (λ _, True) (container_gone src r names now ch c).
Proof. unfold container_gone. total_steps. Qed.
Lemma total_condition src fk kb kg sev tb tg bb bg bad good now ch :
  total (λ _, True) (condition_step src fk kb kg sev tb tg bb bg bad good now ch).
Proof. unfold condition_step. total_steps. Qed.

Lemma total_evalSample src doc s at_ ch : total (λ _, True) (evalSample src doc s at_ ch).
Proof.
  unfold evalSample. cbv zeta. apply total_foldl; [done|intros ch' r _]. destruct (negb _); [by apply total_ret|].
  repeat case_decide; unfold evalThreshold, evalContainers, evalSmart, evalPool; total_steps;
    auto using total_threshold, total_container_now, total_container_gone, total_condition.
Qed.

Lemma total_metrics req sample arrival : total (λ _, True) (metrics_tx sid req sample arrival).
Proof.
  unfold metrics_tx. eapply total_bind; [apply total_load|intros cur Hcur].
  eapply total_bind; [by apply total_touch|intros [cur' ch] Hid]. cbn [fst] in Hid.
  assert (∀ f, (∀ s, s_ID (f s) = s_ID s) → total (λ _, True) (tx_exec (upd_source (s_ID cur') f))) as Hupd by (intros; by apply total_upd).
  assert (total (λ _, True) (loadSourceTx (s_ID cur'))) as Hload.
  { rewrite Hid. intros w d Hd Hg. destruct (total_load w d Hd Hg) as (a & w' & d' & ? & ? & ? & _). by exists a, w', d'. }
  case_decide; [total_steps|].
  apply total_then; [by apply total_exec|intros _].
  apply total_then; [unfold insertRawMetrics; apply total_foldl; [done|intros; by apply total_exec]|intros _].
  apply total_then.
  { unfold note_boot. destruct (sp_BootTime sample) as [boot|]; [|by apply total_ret]. case_decide; [by apply total_ret|].
    apply total_then; [destruct (s_LastBootTime cur'); [|by apply total_ret]; apply total_emit; by intros [? ?]|intros ?].
    apply total_then; [by apply Hupd|intros _]. by apply total_ret. }
  intros ch'. cbv zeta. apply total_then; [by apply Hupd|intros _].
  apply total_then; [destruct (imr_Agent req); [by apply Hupd|by apply total_ret]|intros _].
  apply total_then; [destruct (imr_Capabilities req); [by apply Hupd|by apply total_ret]|intros _].
  apply total_then; [apply total_loadRules|intros rules]. apply total_then; [apply total_evalSample|intros ?].
  rewrite with_sample_id. apply total_then; [by apply Hupd|intros _]. total_steps.
Qed.

(** ** A batch of events *)

Context `{SS : SliceSort}.

Lemma valid_known ev : ¬ invalid ev → known_action ev.
Proof.
  intros Hv Hk. destruct (decide (default EmptyString (ep_IncidentAction ev) ∈ ["open"; "update"; "resolve"]%string)) as [|Hn]; [done|].
  destruct Hv. intros w. unfold validateEvent. destruct (negb _); [done|]. case_decide; [done|]. destruct (parseTS _); [|done].
  unfold mbind, stM_bind, nowUTC. cbn [fst]. destruct (decide (maxBackfillAge < _)); [done|]. intros [= E]. revert E. unfold validate_rest. rewrite (bool_decide_true _ Hk), (bool_decide_false _ Hn).
  destruct (bool_decide (is_Some (non_empty (ep_IncidentAction ev)))); repeat case_match; done.
Qed.

Lemma total_triage s tr iev : total (λ _, True) (triage_step s tr iev).
Proof.
  destruct iev as [i ev]. unfold triage_step. apply total_then; [|intros msg; total_steps].
  unfold validateEvent. total_steps; apply total_now.
Qed.

(** The events of a batch that are new, named twice by nothing and known, are all applied. *)
Lemma apply_all cur l acc w d : w_tx w = Some d → good sid w d → NoDup (eids l) →
  (∀ it, it ∈ l → (s_ID cur, ep_EventID it.2) ∉ (pkey <$> d_events d : list (string * string)) ∧ known_action it.2 ∧
    unreserved 0 (ep_EventID it.2)) →
  ∃ acc' w' d', st_foldl (apply_item cur) acc l w = (Ok acc', w') ∧ w_tx w' = Some d' ∧ good sid w' d'.
Proof.
  revert acc w d. induction l as [|[i ev] l IH]; intros [[last accepted] ch] w d Hd Hg Hnd Hl; cbn [st_foldl]; [by eexists _, w, d|].
  apply NoDup_cons in Hnd as [Hev Hnd]. destruct (Hl (i, ev)) as (Hkey & Hact & Hid); [by left|]. cbn in Hkey, Hact, Hid.
  unfold apply_item at 1.
  destruct (apply_good sid (set_s_LastEventSeq last cur) ev false (bool_decide (ep_Seq ev <= last)) ch w d)
    as (ch' & w1 & d1 & E & Hd1 & Hg1 & Hks & _); [done..| |].
  { intros n _. apply Hid. lia. }
  assert (∃ acc', apply_item cur (last, accepted, ch) (i, ev) w = (Ok acc', w1)) as [acc' Ea].
  { unfold apply_item. rewrite (st_bind_Ok_step _ _ _ _ _ E). by eexists. }
  rewrite (st_bind_Ok_step _ _ _ _ _ Ea). apply (IH _ _ d1 Hd1 Hg1 Hnd). intros it Hit. destruct (Hl it) as (H1 & H2 & H3); [by right|].
  split; [|done]. rewrite Hks. intros [?|Ek%list_elem_of_singleton]%elem_of_app; [done|]. injection Ek as Ek. apply Hev.
  apply list_elem_of_fmap. eauto.
Qed.

Lemma total_events events arrival : Forall (λ ev, unreserved 0 (ep_EventID ev)) events →
  total (λ _, True) (events_tx sid events arrival).
Proof.
  intros Hids. unfold events_tx. eapply total_bind; [apply total_load|intros cur Hcur].
  eapply total_bind; [by apply total_touch|intros [cur' ch] Hid]. cbn [fst] in Hid. intros w d Hd Hg.
  destruct (total_foldl (λ _, True) (triage_step (s_ID cur')) (imap pair events) triage0 I (λ tr iev _, total_triage _ tr iev) w d Hd Hg)
    as (tr & w1 & d1 & E & Hd1 & Hg1 & _). rewrite (st_bind_Ok_step _ _ _ _ _ E).
  destruct (triage_Ok (s_ID cur') (imap pair events) [] d triage0 w tr w1 Hd (indices_nodup events)) as (Hd1' & _ & Ht); [by apply triaged_none|done|].
  rewrite Hd1' in Hd1. injection Hd1 as <-.
  destruct (apply_all cur' (sort_items (tr_valid tr)) (s_LastEventSeq cur', ∅, ch) w1 d Hd1' Hg1) as (acc & w2 & d2 & E2 & Hd2 & Hg2).
  { rewrite sort_items_perm. apply Ht. }
  { intros it Hit. rewrite sort_items_perm in Hit. split_and!.
    - apply Ht, list_elem_of_fmap. eauto.
    - by apply valid_known, Ht.
    - destruct (tg_split _ _ _ _ Ht) as (rejl & Hp & _).
      assert (it ∈ imap pair events) as Hin by (rewrite Hp; apply elem_of_app; by left).
      apply elem_of_lookup_imap in Hin as (i & ev & -> & Hev). eapply Forall_lookup_1 in Hids; [exact Hids|exact Hev]. }
  rewrite (st_bind_Ok_step _ _ _ _ _ E2). destruct acc as [[last accepted] ch'].
  assert (total (λ _, True) (tx_exec (upd_source (s_ID cur') (set_s_LastEventSeq last)) ;; fresh ← loadSourceTx (s_ID cur');
    changes ← emitSourceChangeTx fresh ch'; mret (tr, (last, accepted, changes)))) as Hrest; [|exact (Hrest w2 d2 Hd2 Hg2)].
  apply total_then; [by apply total_upd|intros _]. rewrite Hid. eapply total_bind; [apply total_load|intros fresh _]. total_steps.
Qed.

(** ** Posts *)

(** A hub between two requests, ready for the next. *)
Definition ready (w : World) : Prop := good sid w (w_db w).

Lemma ready_ext w w' : w_db w' = w_db w → w_ids w' = w_ids w → ready w → ready w'.
Proof. intros E1 E2 [H1 H2 H3 H4 H5]. unfold ready. rewrite E1. split; [done|by rewrite E2|done|by rewrite E1|done]. Qed.

Lemma ready_tx {A} (Q : A → Prop) (fn : HM A) w : total Q fn → ready w → ∃ a w', withTx fn w = (Ok a, w') ∧ ready w'.
Proof.
  intros Hfn Hr. unfold withTx. rewrite Hworks. set (w0 := wset_tx _ _).
  destruct (Hfn w0 (w_db w) eq_refl) as (a & w1 & d & E & Hd & [H1 H2 H3 H4 H5] & _); [by destruct Hr|].
  rewrite E, Hworks, Hd. eexists _, _. split; [done|]. by split.
Qed.

Lemma ready_interval w : ready w → ∃ v w', reportInterval w = (Ok v, w') ∧ ready w'.
Proof.
  intros Hr. unfold reportInterval, db_row, db_call, st_try. unfold mbind, stM_bind. rewrite Hworks.
  destruct (sd_ReportIntervalSeconds <$> d_settings (w_db w)) as [v|]; (eexists _, _; split; [reflexivity|]);
    by apply (ready_ext w).
Qed.

Lemma ready_metrics src req w : s_ID src = sid → ready w →
  ∃ r w', handleIngestMetrics src req w = (Ok r, w') ∧ ready w' ∧
    status_of r = if has_sample req then 202 else 400.
Proof.
  intros Hs Hr. unfold handleIngestMetrics, has_sample. destruct (imr_Sample req) as [s|]; [|by eexists _, w].
  destruct (decide (sp_TS s = "")%string) as [->|Hne]; [by eexists _, w|]. rewrite (bool_decide_false _ Hne).
  destruct (parseTS (sp_TS s)) as [t|]; [|by eexists _, w]. cbn [negb andb].
  rewrite (st_bind_Ok_step nowUTC _ w _ _ eq_refl), Hs.
  edestruct (ready_tx (λ _, True) (metrics_tx sid req s (h_now (w_ticks w))) (wset_ticks (S (w_ticks w)) w))
    as ([dup ch] & w1 & E & Hr1); [apply total_metrics|by eapply ready_ext, Hr|].
  assert (st_try (withTx (metrics_tx sid req s (h_now (w_ticks w)))) (wset_ticks (S (w_ticks w)) w) = (Ok (Ok (dup, ch)), w1)) as Et
    by (unfold st_try; by rewrite E).
  rewrite (st_bind_Ok_step _ _ _ _ _ Et). rewrite (st_bind_Ok_step (publish ch) _ w1 _ _ eq_refl).
  rewrite (st_bind_Ok_step nowUTC _ _ _ _ eq_refl).
  match goal with |- context [mbind _ reportInterval ?w2] => destruct (ready_interval w2) as (v & w3 & Ev & Hr3) end.
  { by eapply ready_ext, Hr1. }
  rewrite (st_bind_Ok_step _ _ _ _ _ Ev). by eexists _, w3.
Qed.

Lemma ready_events src req w : s_ID src = sid → ready w → Forall (λ ev, unreserved 0 (ep_EventID ev)) (ier_Events req) →
  ∃ r w', handleIngestEvents src req w = (Ok r, w') ∧ ready w' ∧
    status_of r = if decide (100 < Z.of_nat (length (ier_Events req))) then 400 else 200.
Proof.
  intros Hs Hr Hids. unfold handleIngestEvents. case_decide; [by eexists _, w|].
  rewrite (st_bind_Ok_step nowUTC _ w _ _ eq_refl), Hs.
  edestruct (ready_tx (λ _, True) (events_tx sid (ier_Events req) (h_now (w_ticks w))) (wset_ticks (S (w_ticks w)) w))
    as ([tr [[last accepted] ch]] & w1 & E & Hr1); [by apply total_events|by eapply ready_ext, Hr|].
  assert (st_try (withTx (events_tx sid (ier_Events req) (h_now (w_ticks w)))) (wset_ticks (S (w_ticks w)) w)
    = (Ok (Ok (tr, (last, accepted, ch))), w1)) as Et by (unfold st_try; by rewrite E).
  rewrite (st_bind_Ok_step _ _ _ _ _ Et). rewrite (st_bind_Ok_step (publish ch) _ w1 _ _ eq_refl).
  rewrite (st_bind_Ok_step nowUTC _ _ _ _ eq_refl). eexists _, _. split; [reflexivity|]. split; [by eapply ready_ext, Hr1|done].
Qed.
End total.
End working.

(** ** The agent's posts *)

(** A post of the agent of a source. *)
Inductive post := Sample (req : ingestMetricsReq) | Batch (req : ingestEventsReq).

Definition serve `{HE : HubEnv} `{SS : SliceSort} (src : sourceRow) (p : post) : stM World herr Z :=
  match p with
  | Sample req => r ← handleIngestMetrics src req; mret (status_of r)
  | Batch req => r ← handleIngestEvents src req; mret (status_of r)
  end.

(** The status a post is due, from its body alone. *)
Definition due (p : post) : Z :=
  match p with
  | Sample req => if has_sample req then 202 else 400
  | Batch req => if decide (100 < Z.of_nat (length (ier_Events req))) then 400 else 200
  end.

(** The events of a post have none of the ids the hub gives its own. *)
Definition agents_own `{HE : HubEnv} (p : post) : Prop :=
  match p with Sample _ => True | Batch req => Forall (λ ev, unreserved 0 (ep_EventID ev)) (ier_Events req) end.

Lemma serve_due `{HE : HubEnv} `{SS : SliceSort} src p w : works → ulids_unique → ready (s_ID src) w → agents_own p →
  ∃ w', serve src p w = (Ok (due p), w') ∧ ready (s_ID src) w'.
Proof.
  intros Hw Hu Hr Hp. destruct p as [req|req]; cbn [serve due agents_own] in *.
  - destruct (ready_metrics Hw Hu (s_ID src) src req w eq_refl Hr) as (r & w' & E & Hr' & Es).
    rewrite (st_bind_Ok_step _ _ _ _ _ E). exists w'. by rewrite <-Es.
  - destruct (ready_events Hw Hu (s_ID src) src req w eq_refl Hr Hp) as (r & w' & E & Hr' & Es).
    rewrite (st_bind_Ok_step _ _ _ _ _ E). exists w'. by rewrite <-Es.
Qed.

(** C6: the posts of an agent are answered.  While the database works, every post of a series
    gets the answer its body is due: 202 for a sample with a time, 200 for a batch of at most
    a hundred events, whatever events they are (invalid, repeated, out of order, of faults
    open or resolved), 400 otherwise, and never the 500 a failed transaction gives.  No row
    the transaction writes breaks a uniqueness constraint, and no row it reads is missing. *)
Theorem posts_answered `{HE : HubEnv} `{SS : SliceSort} src ps w
    (Hworks : works) (Hulid : ulids_unique) (Hready : ready (s_ID src) w) (Hown : Forall agents_own ps) :
  ∃ w', st_foldl (λ codes p, code ← serve src p; mret (codes ++ [code])) [] ps w = (Ok (due <$> ps), w') ∧
    ready (s_ID src) w'.
Proof.
  assert (∀ codes, ∃ w', st_foldl (λ codes p, code ← serve src p; mret (codes ++ [code])) codes ps w = (Ok (codes ++ (due <$> ps)), w')
    ∧ ready (s_ID src) w') as H; [|exact (H [])].
  revert w Hready Hown. induction ps as [|p ps IH]; intros w Hr Hown codes; cbn [st_foldl fmap list_fmap].
  { rewrite app_nil_r. by exists w. }
  apply Forall_cons in Hown as [Hp Hown]. destruct (serve_due src p w Hworks Hulid Hr Hp) as (w1 & E & Hr1).
  destruct (IH w1 Hr1 Hown (codes ++ [due p])) as (w2 & E2 & Hr2). exists w2. split; [|done].
  assert ((code ← serve src p; mret (codes ++ [code])) w = (Ok (codes ++ [due p]), w1)) as E1 by by rewrite (st_bind_Ok_step _ _ _ _ _ E).
  rewrite (st_bind_Ok_step _ _ _ _ _ E1). by rewrite <-(assoc app) in E2.
Qed.

Lemma posts_answered_witness :
  let d := set_d_rules (Some {| rd_Version := 1; rd_HeartbeatSeconds := 180; rd_Rules := defaultRules |}) demo_db in
  let sample := {| sp_TS := "2026-09-18T05:59:00.000Z"; sp_CPUPercent := Some (f64_of_Z 50); sp_MemPercent := None;
    sp_MemUsedBytes := None; sp_MemTotalBytes := None; sp_Load1 := None; sp_UptimeSeconds := None;
    sp_BootTime := None; sp_Disks := []; sp_Net := None; sp_Containers := None; sp_NAS := None |}%string in
  let metrics s := Sample {| imr_Seq := 4; imr_SentAt := ""%string; imr_Agent := None; imr_Capabilities := None; imr_Sample := s |} in
  let posts := [Batch (demo_batch [demo_event "e1" 3 "resolve"; demo_event "e1" 7 "open"; demo_event "e2" 2 "open"]);
    metrics (Some sample); metrics (Some sample); metrics None] in
  ∃ w', st_foldl (λ codes p, code ← serve (HE := demo_env) (SS := merge_slice_sort) demo_source p; mret (codes ++ [code]))
    [] posts (world_of d) = (Ok [200; 202; 202; 400], w').
Proof.
  intros d sample metrics posts.
  destruct (posts_answered (HE := demo_env) (SS := merge_slice_sort) demo_source posts (world_of d)) as (w' & E & _).
  - by intros n.
  - exact demo_ulids_unique.
  - split; [by destruct (demo_db_ok (HE := demo_env))| |by eexists|by eexists|by eexists]. intros n _. split_and!; try (by intros ?%elem_of_nil). 
    by intros s ?%elem_of_nil.
  - repeat constructor; intros n _; done.
  - exists w'. exact E.
Defined.
