(* ===== verification/Watch.v ===== *)
(** The heartbeat monitor of a hub whose database works ([checkHeartbeats] in
    [hub/rules.go]): one pass announces every silent device, and touches nothing else. *)

From S2P Require Import Prelude GoBase GoTime HubTypes HubStore Fault Rules Working.
Local Open Scope Z_scope.

(** ** Specification *)

(** The heartbeat of the rules on record, in seconds. *)
Definition heartbeat_of (d : db) : Z :=
  match d_rules d with
  | Some doc => if decide (rd_HeartbeatSeconds doc <= 0) then 180 else rd_HeartbeatSeconds doc
  | None => 180
  end.

(** An enabled device that was last seen more than the heartbeat before [now]. *)
Definition silent (now hb : Z) (s : sourceRow) : bool :=
  s_Enabled s && bool_decide (s_Kind s = "device"%string) && bool_decide (s_DeletedAt s = None) &&
  match s_LastSeenAt s ≫= parseTS with
  | Some t => bool_decide (duration_mul hb Second < time_sub now t)
  | None => false
  end.

(** What a pass does to the fault [k] of the source [id] when the sources [quiet] are silent. *)
Definition announced (quiet : list string) (id k : string) (f : option (Z * bool)) : option (Z * bool) :=
  if decide (k = "heartbeat"%string ∧ id ∈ quiet) then abs_step f "open" else f.

(** Between the steps of a pass: the tables are sound and the sources [srcs], with the heartbeat [hb]. *)
Record watching `{HE : HubEnv} (srcs : list sourceRow) (hb : Z) (w : World) : Prop := {
  wt_ok : db_ok (w_db w);
  wt_unnamed : unnamed (w_ids w) (w_db w);
  wt_sources : d_sources (w_db w) = srcs;
  wt_rules : is_Some (d_rules (w_db w));
  wt_heartbeat : heartbeat_of (w_db w) = hb }.

(** The next event of the hub's is above all that is on record for the source's heartbeat. *)
Definition unforeseen (id : string) (d : db) : Prop := ahead id "heartbeat" (hub_next d) d.

Section watch.
Context `{HE : HubEnv} (Hworks : works) (Hulid : ulids_unique).
Notation HM := (stM World herr).

(** ** Opening the fault *)

Lemma ahead_mono s k q q' d : q <= q' → ahead s k q d → ahead s k q' d.
Proof. intros Hq [H1 H2]. split; [intros p ???; specialize (H1 p); naive_solver lia|intros f Hf; specialize (H2 f Hf); lia]. Qed.

(** An open leaves the pending resolves alone. *)
Lemma applied_open_pending lo hi src ev internal ooo d d' new :
  applied lo hi src ev internal ooo d d' new → ep_IncidentAction ev = Some "open"%string → d_pending d' = d_pending d.
Proof.
  intros (n & mid & now & o & pend & faults & rows & _ & Hout & _ & _ & -> & _) Ha. unfold outcome_of, transition in Hout.
  rewrite Ha in Hout. repeat (case_match || case_decide); simplify_eq; done || naive_solver.
Qed.

Lemma applied_meta lo hi src ev internal ooo d d' new : applied lo hi src ev internal ooo d d' new →
  d_sources d' = d_sources d ∧ d_rules d' = d_rules d ∧ hub_next d' = hub_next d.
Proof.
  intros (n & mid & now & o & pend & faults & rows & _ & _ & _ & _ & _ & _ & _ & _ & _ & _ & _ & _ & _ & (? & _ & _ & _ & _ & ? & _ & Hm) & _).
  unfold hub_next. by rewrite Hm.
Qed.

(** The hub opens the heartbeat fault of a source. *)
Lemma emit_open src kind sev title body at_ ch w d :
  w_tx w = Some d → good (s_ID src) w d → unforeseen (s_ID src) d →
  ∃ ch' w' d', emitHubEventTx src kind sev (Some "heartbeat"%string) (Some "open"%string) title body at_ ch w = (Ok ch', w') ∧
    w_tx w' = Some d' ∧ good (s_ID src) w' d' ∧ d_sources d' = d_sources d ∧ d_rules d' = d_rules d ∧
    (∀ id k, abs_fault id k d' = announced [s_ID src] id k (abs_fault id k d)) ∧
    (∀ id, id ≠ s_ID src → unforeseen id d → unforeseen id d').
Proof.
  intros Hd Hg Hq. pose proof Hg as [H1 H2 H3 H4 H5].
  destruct (hubSeq_next Hworks w d Hd) as (w1 & E1 & Ei & Eb & Hd1).
  destruct (total_hubSeq Hworks (s_ID src) w d Hd Hg) as (q & w1' & d1 & E1' & Hd1' & Hg1 & _).
  rewrite E1 in E1'. injection E1' as <- <-. rewrite Hd1 in Hd1'. injection Hd1' as <-.
  destruct (total_emit Hworks Hulid (s_ID src) src kind sev (Some "heartbeat"%string) (Some "open"%string) title body at_ ch
    ltac:(intros _; set_solver) w d Hd Hg) as (ch' & w' & d' & E & Hd' & Hg' & _).
  exists ch', w', d'. unfold emitHubEventTx in E. rewrite (st_bind_Ok_step _ _ _ _ _ E1), (st_bind_Ok_step (newID "hub_") _ w1 _ _ eq_refl) in E.
  unfold emitHubEventTx. rewrite (st_bind_Ok_step _ _ _ _ _ E1), (st_bind_Ok_step (newID "hub_") _ w1 _ _ eq_refl).
  pose proof E as Ha. apply (applyEventTx_Ok _ _ _ _ _ (wset_ids (S (w_ids w1)) w1) _ _ _ Hd1) in Ha as (d2 & new & Hd2 & _ & _ & Ha).
  rewrite Hd' in Hd2. injection Hd2 as <-. destruct (applied_meta _ _ _ _ _ _ _ _ _ Ha) as (Hs & Hr & Hn).
  set (d1 := set_d_meta _ d) in *. pose proof (applied_open_pending _ _ _ _ _ _ _ _ _ Ha eq_refl) as Hp.
  assert (∀ lo, (w_ids w1 <= lo)%nat → fresh_ulids lo d1) as Hf by (intros lo Hlo n Hn'; apply (gd_unnamed _ _ _ Hg1 n); lia).
  assert (hub_next d1 = hub_next d + 1) as Hnext by (unfold d1, hub_next; cbn; by rewrite lookup_insert_eq).
  destruct (applied_abs _ _ _ _ _ _ _ _ _ Hulid Ha (gd_ok _ _ _ Hg1) (Hf (S (w_ids w1)) ltac:(lia))) as (Hthis & Hother & _ & _).
  { intros k [= <-]. exact Hq. }
  split_and!; [exact E|exact Hd'|exact Hg'|exact Hs|exact Hr| |].
  - intros id k. unfold announced. destruct (decide (id = s_ID src)) as [->|Hne].
    + rewrite Hthis. unfold abs_event. cbn. change (abs_fault (s_ID src) k d1) with (abs_fault (s_ID src) k d).
      destruct (decide (k = "heartbeat"%string)) as [->|Hk]; [by rewrite !decide_True by set_solver|].
      rewrite !decide_False; [done|naive_solver|intros E3; vm_compute in E3; congruence].
    + rewrite Hother by done. rewrite decide_False; [done|set_solver].
  - intros id Hne Hu. apply (ahead_mono _ _ (hub_next d)); [lia|]. destruct Hu as [Hu1 Hu2]. split.
    + rewrite Hp. exact Hu1.
    + intros f. rewrite (applied_elsewhere _ _ _ _ _ _ _ _ _ _ _ Ha (gd_ok _ _ _ Hg1)); [exact (Hu2 f)|apply (Hf (S (w_ids w1))); lia|].
      cbn. congruence.
Qed.

Lemma emit_announces src now title body w d : w_tx w = Some d → good (s_ID src) w d → unforeseen (s_ID src) d →
  ∃ ch' w' d', (ch ← emitHubEventTx src "heartbeat_lost" "critical" (Some "heartbeat") (Some "open") title body now [];
    emitSourceChangeTx src ch)%string w = (Ok ch', w') ∧
    w_tx w' = Some d' ∧ good (s_ID src) w' d' ∧ d_sources d' = d_sources d ∧ d_rules d' = d_rules d ∧
    (∀ id k, abs_fault id k d' = announced [s_ID src] id k (abs_fault id k d)) ∧
    (∀ id, id ≠ s_ID src → unforeseen id d → unforeseen id d').
Proof.
  intros Hd Hg Hq. destruct (emit_open src "heartbeat_lost" "critical" title body now [] w d Hd Hg Hq)
    as (ch & w1 & d1 & E1 & Hd1 & Hg1 & Hs & Hr & Hf & Hu).
  destruct (total_sourceChange Hworks (s_ID src) src ch w1 d1 Hd1 Hg1) as (ch2 & w2 & d2 & E2 & Hd2 & Hg2 & _).
  exists ch2, w2, d2. rewrite (st_bind_Ok_step _ _ _ _ _ E1). split_and!; [exact E2|exact Hd2|exact Hg2|..];
    apply (emitSourceChangeTx_Ok _ _ _ _ _ _ Hd1) in E2 as (sj & t & E & _); rewrite Hd2 in E; injection E as ->; try done.
  intros id Hne Hi. specialize (Hu id Hne Hi). unfold unforeseen in *.
  assert (hub_next (log_change "source" (s_ID src) (DSource sj) None t d1) = hub_next d1) as ->; [|exact Hu].
  unfold hub_next. cbn. by rewrite lookup_insert_ne.
Qed.

(** ** One source *)

Lemma slot_find_unique l f : NoDup (fault_slot <$> l) → f ∈ l → slot_find (f_SourceID f) (f_FaultKey f) l = Some f.
Proof.
  intros Hnd Hf. destruct (slot_find (f_SourceID f) (f_FaultKey f) l) as [g|] eqn:E.
  - apply slot_find_Some in E as [Hg Es]. f_equal.
    apply list_elem_of_lookup in Hf as [i Hi]. apply list_elem_of_lookup in Hg as [j Hj].
    assert (j = i) as ->; [|congruence].
    eapply NoDup_lookup; [exact Hnd|by rewrite list_lookup_fmap, Hj|]. rewrite list_lookup_fmap, Hi. cbn. by rewrite Es.
  - assert (f ∈ filter (λ g, f_SourceID g = f_SourceID f ∧ f_FaultKey g = f_FaultKey f) l) as H by (by apply list_elem_of_filter).
    unfold slot_find in E. destruct (filter _ l); [by apply elem_of_nil in H|done].
Qed.

Lemma fault_open_abs s k d : db_ok d → fault_open s k d = true ↔ snd <$> abs_fault s k d = Some true.
Proof.
  intros Hok. unfold fault_open, abs_fault. rewrite bool_decide_eq_true. split.
  - intros Hne. destruct (filter _ (d_faults d)) as [|f l] eqn:E; [done|].
    assert (f ∈ filter (λ f, f_SourceID f = s ∧ f_FaultKey f = k ∧ f_State f = "open"%string) (d_faults d)) as Hin by (rewrite E; left).
    apply list_elem_of_filter in Hin as [(<- & <- & Ho) Hin].
    pose proof (slot_find_unique (d_faults d) f (ok_fault_slots _ Hok) Hin) as Es. unfold slot_find in Es. unfold find_fault. rewrite Es.
    cbn. by rewrite bool_decide_true.
  - intros Ho Hnil. destruct (find_fault s k d) as [f|] eqn:E; [|done]. injection Ho as Ho. apply bool_decide_eq_true in Ho.
    apply find_fault_Some in E as (Hin & <- & <-).
    assert (f ∈ filter (λ g, f_SourceID g = f_SourceID f ∧ f_FaultKey g = f_FaultKey f ∧ f_State g = "open"%string) (d_faults d)) as Hf
      by (by apply list_elem_of_filter).
    rewrite Hnil in Hf. by apply elem_of_nil in Hf.
Qed.

Lemma announced_open id k n : announced [id] id k (Some (n, true)) = Some (n, true).
Proof. unfold announced. by case_decide. Qed.
Lemma announced_none id k f : announced [] id k f = f.
Proof. unfold announced. rewrite decide_False; [done|]. intros [_ H]. by apply elem_of_nil in H. Qed.
Lemma announced_app q1 q2 id k f : announced q2 id k (announced q1 id k f) = announced (q1 ++ q2) id k f.
Proof. unfold announced. repeat case_decide; destruct f as [[n []]|]; set_solver. Qed.

Lemma watching_ext srcs hb w w' : w_db w' = w_db w → w_ids w' = w_ids w → watching srcs hb w → watching srcs hb w'.
Proof. intros E1 E2 [H1 H2 H3 H4 H5]. split; rewrite ?E1, ?E2; done. Qed.

Lemma silent_true now hb s : silent now hb s = true ↔
  s_Enabled s = true ∧ s_Kind s = "device"%string ∧ s_DeletedAt s = None ∧
  ∃ seen t, s_LastSeenAt s = Some seen ∧ parseTS seen = Some t ∧ duration_mul hb Second < time_sub now t.
Proof.
  unfold silent. rewrite !andb_true_iff, !bool_decide_eq_true. split.
  - intros [[[H1 H2] H3] H4]. split_and!; [done..|]. destruct (s_LastSeenAt s) as [seen|]; [|done]. cbn in H4.
    destruct (parseTS seen) as [t|] eqn:Et; [|done]. apply bool_decide_eq_true in H4. eauto.
  - intros (H1 & H2 & H3 & seen & t & -> & Et & H4). split_and!; [done..|]. cbn. rewrite Et. by apply bool_decide_eq_true.
Qed.

Lemma check_source_quiet now hb src w : s_DeletedAt src = None → silent now hb src = false → check_source now hb src w = (Ok (), w).
Proof.
  intros Hdel Hs. unfold check_source. destruct (s_LastSeenAt src) as [seen|] eqn:El; [|done].
  destruct (s_Enabled src) eqn:Ee; [|done]. case_bool_decide as Hk; [done|]. cbn [negb orb].
  destruct (parseTS seen) as [t|] eqn:Et; [|done]. case_decide as Ht; [done|].
  apply not_true_iff_false in Hs. destruct Hs. apply silent_true. split_and!; try done.
  exists seen, t. split_and!; [done..|lia].
Qed.

(** The transaction for a silent source whose fault is not open. *)
Lemma heartbeat_tx_announces src now hb w d : silent now hb src = true → w_tx w = Some d → good (s_ID src) w d →
  tbl_lookup (s_ID src) (d_sources d) = Some src → fault_open (s_ID src) "heartbeat" d = false → unforeseen (s_ID src) d →
  ∃ ch' w' d', heartbeat_tx src now hb w = (Ok ch', w') ∧
    w_tx w' = Some d' ∧ good (s_ID src) w' d' ∧ d_sources d' = d_sources d ∧ d_rules d' = d_rules d ∧
    (∀ id k, abs_fault id k d' = announced [s_ID src] id k (abs_fault id k d)) ∧
    (∀ id, id ≠ s_ID src → unforeseen id d → unforeseen id d').
Proof.
  intros (H1 & H2 & H3 & seen & t & Hseen & Ht & Hlt)%silent_true Hd Hg Hl Ho Hq. unfold heartbeat_tx.
  destruct (runs_row Hworks (λ d, tbl_lookup (s_ID src) (d_sources d)) w d Hd) as (a & w1 & E1); [exact (ex_intro _ _ Hl)|].
  pose proof E1 as E1'. apply (tx_row_Ok _ _ _ _ _ Hd) in E1' as (Ea & Hd1 & Hs1). rewrite Hl in Ea. injection Ea as <-.
  unfold loadSourceTx. rewrite (st_bind_Ok_step _ _ _ _ _ E1), Hseen, H1, H3, (bool_decide_false (_ ≠ _)) by auto.
  cbn [negb orb bool_decide]. rewrite Ht, decide_False by lia. rewrite bool_decide_false by (by intros [? ?]).
  destruct (runs_query Hworks (find_fault (s_ID src) "heartbeat") w1 d Hd1) as (f & w2 & E2).
  pose proof E2 as E2'. apply (tx_query_Ok _ _ _ _ _ Hd1) in E2' as (-> & Hd2 & Hs2).
  unfold loadFaultTx. rewrite (st_bind_Ok_step _ _ _ _ _ E2).
  assert (good (s_ID src) w2 d) as Hg2.
  { destruct Hg as [G1 G2 G3 G4 G5]. assert (same_outside w w2) as Hs by (by etransitivity). split; try done.
    - eapply unnamed_mono; [|exact G2]. by apply same_outside_ids.
    - by destruct Hs as (-> & _). }
  pose proof (fault_open_abs (s_ID src) "heartbeat" d (gd_ok _ _ _ Hg)) as Hop. unfold abs_fault in Hop.
  destruct (find_fault (s_ID src) "heartbeat" d) as [f|]; [|by apply emit_announces].
  rewrite decide_False; [by apply emit_announces|]. intros Ef. rewrite Ho in Hop. cbn in Hop. rewrite bool_decide_true in Hop by done.
  by destruct Hop as [_ Hop]; specialize (Hop eq_refl).
Qed.

(** One source of a pass, silent or not. *)
Definition quiet_one (now hb : Z) (s : sourceRow) : list string := if silent now hb s then [s_ID s] else [].

Lemma check_source_watch srcs now hb src w : watching srcs hb w → NoDup (s_ID <$> srcs) → src ∈ srcs → s_DeletedAt src = None →
  (silent now hb src = true → unforeseen (s_ID src) (w_db w)) →
  ∃ w', check_source now hb src w = (Ok (), w') ∧ watching srcs hb w' ∧
    (∀ id k, abs_fault id k (w_db w') = announced (quiet_one now hb src) id k (abs_fault id k (w_db w))) ∧
    (∀ id, id ≠ s_ID src → unforeseen id (w_db w) → unforeseen id (w_db w')).
Proof.
  intros Hw Hnd Hin Hdel Hq. unfold quiet_one. destruct (silent now hb src) eqn:Es; cycle 1.
  { exists w. rewrite check_source_quiet by done. split_and!; try done. intros id k. by rewrite announced_none. }
  pose proof Es as (H1 & H2 & H3 & seen & t & Hseen & Ht & Hlt)%silent_true. pose proof Hw as [W1 W2 W3 W4 W5].
  unfold check_source. rewrite Hseen, H1, (bool_decide_false (_ ≠ _)) by auto. cbn [negb orb]. rewrite Ht, decide_False by lia.
  assert (∃ w1, st_try (faultOpen (s_ID src) "heartbeat") w = (Ok (Ok (fault_open (s_ID src) "heartbeat" (w_db w))), w1) ∧
    w_db w1 = w_db w ∧ w_ids w1 = w_ids w) as (w1 & E1 & Hb1 & Hi1).
  { unfold st_try, faultOpen, db_query, db_call. rewrite Hworks. by eexists. }
  rewrite (st_bind_Ok_step _ _ _ _ _ E1). clear E1. pose proof (watching_ext _ _ _ _ Hb1 Hi1 Hw) as Hw1. rewrite <-Hb1 in *.
  destruct (fault_open (s_ID src) "heartbeat" (w_db w1)) eqn:Eo.
  { exists w1. split_and!; try done. intros id k. unfold announced. case_decide as Hk; [|done]. destruct Hk as [-> ->%list_elem_of_singleton].
    apply fault_open_abs in Eo; [|done]. destruct (abs_fault (s_ID src) "heartbeat" (w_db w1)) as [[n []]|]; done. }
  assert (tbl_lookup (s_ID src) (d_sources (w_db w1)) = Some src) as Hl by (apply tbl_lookup_unique; [by unfold tbl_unique; rewrite W3|by rewrite W3|done]).
  set (w2 := wset_tx (Some (w_db w1)) (wset_calls (S (w_calls w1)) w1)).
  destruct (heartbeat_tx_announces src now hb w2 (w_db w1) Es eq_refl) as (ch & w3 & d & E & Hd & Hg & Hsrc & Hr & Hf & Hu); [|done|done|by apply Hq|].
  { by split; [destruct Hw1..|by rewrite Hl|destruct Hw1|destruct Hw1]. }
  assert (∃ w4, st_try (withTx (heartbeat_tx src now hb)) w1 = (Ok (Ok ch), w4) ∧ w_db w4 = d ∧ w_ids w4 = w_ids w3) as (w4 & E4 & Hb4 & Hi4).
  { unfold st_try, withTx. rewrite Hworks. fold w2. rewrite E, Hworks, Hd. by eexists. }
  rewrite (st_bind_Ok_step _ _ _ _ _ E4). eexists. split; [reflexivity|]. cbn [w_db wset_re wset_broker]. rewrite Hb4.
  destruct Hg as [G1 G2 G3 G4 G5]. split_and!; [|exact Hf|exact Hu]. split; cbn; rewrite ?Hb4, ?Hi4; try done; [by rewrite Hsrc|].
  unfold heartbeat_of in *. by rewrite Hr.
Qed.

(** ** A pass *)

Lemma watch_all srcs now hb l w : watching srcs hb w → NoDup (s_ID <$> srcs) → NoDup (s_ID <$> l) →
  (∀ s, s ∈ l → s ∈ srcs ∧ s_DeletedAt s = None ∧ (silent now hb s = true → unforeseen (s_ID s) (w_db w))) →
  ∃ w', st_foldl (λ _ src, check_source now hb src) () l w = (Ok (), w') ∧ watching srcs hb w' ∧
    ∀ id k, abs_fault id k (w_db w') = announced (s_ID <$> filter (λ s, silent now hb s) l) id k (abs_fault id k (w_db w)).
Proof.
  revert w. induction l as [|s l IH]; intros w Hw Hnd Hndl Hl; cbn [st_foldl].
  { exists w. split_and!; try done. intros id k. by rewrite announced_none. }
  apply NoDup_cons in Hndl as [Hs Hndl]. destruct (Hl s) as (Hin & Hdel & Hq); [by left|].
  destruct (check_source_watch srcs now hb s w Hw Hnd Hin Hdel Hq) as (w1 & E1 & Hw1 & Hf1 & Hu1).
  destruct (IH w1 Hw1 Hnd Hndl) as (w2 & E2 & Hw2 & Hf2).
  { intros s' Hs'. destruct (Hl s') as (? & ? & Hq'); [by right|]. split_and!; [done..|]. intros Hsil. apply Hu1; [|by apply Hq'].
    intros E. apply Hs. rewrite <-E. by apply (list_elem_of_fmap_2 s_ID). }
  exists w2. rewrite (st_bind_Ok_step _ _ _ _ _ E1). split_and!; [exact E2|done|]. intros id k.
  rewrite Hf2, Hf1, announced_app. unfold quiet_one. rewrite filter_cons.
  by destruct (silent now hb s).
Qed.
End watch.

Lemma announced_ext q1 q2 id k f : (∀ x, x ∈ q1 ↔ x ∈ q2) → announced q1 id k f = announced q2 id k f.
Proof. intros H. unfold announced. repeat case_decide; naive_solver. Qed.

Lemma heartbeat_seconds `{HE : HubEnv} w : works →
  ∃ w', heartbeatSeconds w = (Ok (heartbeat_of (w_db w)), w') ∧ w_db w' = w_db w ∧ w_ids w' = w_ids w.
Proof.
  intros Hw. unfold heartbeatSeconds, heartbeat_of, db_row, db_call, st_try. unfold mbind, stM_bind. rewrite Hw.
  destruct (d_rules (w_db w)) as [doc|]; by eexists.
Qed.


