(* ===== verification/Retention.v ===== *)
(** Retention ([hub/retention.go]): the five-minute roll-up of the raw series, and the removal
    of what is older than its keeping period, announced by tombstones. *)

From S2P Require Import Prelude GoBase GoTime HubTypes HubStore Fault.
From Stdlib Require Import SpecFloat.
Local Open Scope Z_scope.

(** What SQLite computes for the roll-up: the bucket of a timestamp ([strftime] of [datetime],
    NULL when the text is not a time to it) and [AVG]. *)
Class SqlFuns := {
  sql_bucket : string → option string;
  sql_avg : list float64 → float64 }.

(** ** Roll-up *)

(** A group of the query: source, bucket, metric and label. *)
Definition roll_group `{SqlFuns} (r : rawRow) : string * option string * string * string :=
  (mr_source_id r, sql_bucket (mr_ts r), mr_metric r, mr_label r).

Definition f64_min (a b : float64) : float64 := if f64_lt b a then b else a.
Definition f64_max (a b : float64) : float64 := if f64_lt a b then b else a.

(** [MIN] and [MAX] of a group, which is not empty. *)
Definition fold_values (f : float64 → float64 → float64) (l : list float64) : float64 :=
  match l with x :: l => foldl f x l | [] => S754_nan end.

(** The row of a group; its bucket is NULL when the timestamps are no times. *)
(* @src hub/retention.go 16-24 !runRollup *)
Definition roll_row `{SqlFuns} (raw : list rawRow) (g : string * option string * string * string) : option rollRow :=
  let '(src, bucket, metric, label) := g in
  let vs := mr_value <$> filter (λ r, roll_group r = g) raw in
  (λ b, {| m5_source_id := src; m5_bucket := b; m5_metric := metric; m5_label := label;
           m5_avg := sql_avg vs; m5_min := fold_values f64_min vs; m5_max := fold_values f64_max vs;
           m5_n := Z.of_nat (length vs) |}) <$> bucket.

(** [INSERT OR REPLACE ... SELECT ... GROUP BY]: [None] when a row violates NOT NULL. *)
(* @src hub/retention.go 14-24 !runRollup *)
Definition roll_up `{SqlFuns} (since : string) (raw : list rawRow) (t : list rollRow) : option (list rollRow) :=
  let raw := filter (λ r, str_le since (mr_ts r)) raw in
  (λ rows, foldl (λ t row, tbl_replace row t) t rows) <$>
    mapM (roll_row raw) (remove_dups (roll_group <$> raw)).

(** ** Expiry *)

(** [now.Add(-time.Duration(days) * 24 * time.Hour)] *)
(* @src hub/retention.go 33-36 !runRetention *)
Definition days_before (now days : Z) : Z := now + duration_mul (wrap64 (- days * 24)) Hour.

(* @src hub/retention.go 58-59 !runRetention *)
Definition expired (cut : string) (f : faultRow) : Prop :=
  f_State f = "resolved"%string ∧ match f_ResolvedAt f with Some t => str_lt t cut | None => False end.
#[export] Instance expired_dec cut f : Decision (expired cut f).
Proof. unfold expired. destruct (f_ResolvedAt f); apply _. Defined.

Section retention.
Context `{HE : HubEnv} `{SF : SqlFuns}.
Notation HM := (stM World herr).

(* @src hub/retention.go 11-28 runRollup *)
Definition runRollup (now : Z) : HM () :=
  let earliest := time_truncate now (5 * Minute) - 24 * Hour in
  withTx (tx_insert (λ d, (λ l, set_d_5m l d) <$> roll_up (fmtTS earliest) (d_raw d) (d_5m d))).

(* @src hub/retention.go 159-163 insertTombstone *)
Definition insertTombstone (typ id : string) : HM changeEntry :=
  insertChange "tombstone" id (DTombstone typ id) None.

(* @src hub/retention.go 130-139 !runRetention *)
(** The body of the loops over messages. *)
Definition drop_message (changes : list changeEntry) (mid : string) : HM (list changeEntry) :=
  e ← insertTombstone "message" mid;
  tx_exec (λ d, set_d_messages (tbl_delete mid (d_messages d)) d) ;;
  mret (changes ++ [e]).

(** The body of the loop over expired faults: its messages, itself, its pending resolves. *)
(* @src hub/retention.go 74-112 !runRetention *)
Definition drop_fault (changes : list changeEntry) (f : faultRow) : HM (list changeEntry) :=
  mids ← tx_rows (λ d, m_ID <$> filter (λ m, m_FaultID m = Some (f_ID f)) (d_messages d));
  changes ← st_foldl drop_message changes mids;
  e ← insertTombstone "fault" (f_ID f);
  tx_exec (λ d, set_d_faults (tbl_delete (f_ID f) (d_faults d)) d) ;;
  tx_exec (λ d, set_d_pending
    (filter (λ p, ¬ (p_source_id p = f_SourceID f ∧ p_fault_key p = f_FaultKey f)) (d_pending d)) d) ;;
  mret (changes ++ [e]).

(* @src hub/retention.go 33-154 !runRetention *)
Definition retention_tx (cfg : config) (now : Z) : HM (list changeEntry) :=
  let rawCut := fmtTS (days_before now (cfg_rawDays cfg)) in
  let rollCut := fmtTS (days_before now (cfg_rollupDays cfg)) in
  let msgCut := fmtTS (days_before now (cfg_messagesDays cfg)) in
  let chgCut := fmtTS (days_before now (cfg_changesDays cfg)) in
  tx_exec (λ d, set_d_raw (filter (λ r, ¬ str_lt (mr_ts r) rawCut) (d_raw d)) d) ;;
  tx_exec (λ d, set_d_5m (filter (λ r, ¬ str_lt (m5_bucket r) rollCut) (d_5m d)) d) ;;
  tx_exec (λ d, set_d_samples (filter (λ r, ¬ str_lt (ms_ts r) rawCut) (d_samples d)) d) ;;
  tx_exec (λ d, set_d_events (filter (λ e, ¬ str_lt (e_received_at e) msgCut) (d_events d)) d) ;;
  tx_exec (λ d, set_d_pending (filter (λ p, ¬ str_lt (p_occurred_at p) msgCut) (d_pending d)) d) ;;
  fids ← tx_rows (λ d, filter (expired msgCut) (d_faults d));
  changes ← st_foldl drop_fault [] fids;
  mids ← tx_rows (λ d, m_ID <$> filter (λ m, m_FaultID m = None ∧ str_lt (m_ReceivedAt m) msgCut) (d_messages d));
  changes ← st_foldl drop_message changes mids;
  maxSeq ← tx_query (λ d, max_seq (d_changes d));
  match maxSeq with
  | Some maxSeq =>
    let cutoffSeq := wrap64 (maxSeq - cfg_changesMinSeq cfg) in
    tx_exec (λ d, set_d_changes (filter (λ r, ¬ (str_lt (ch_created_at r) chgCut ∧ ch_seq r <= cutoffSeq))
      (d_changes d)) d)
  | None => mret ()
  end ;;
  mret changes.

(* @src hub/retention.go 30-157 runRetention *)
Definition runRetention (cfg : config) (now : Z) : HM () :=
  changes ← withTx (retention_tx cfg now);
  publish changes.

(** One turn of a background loop: an error is logged. *)
(* @src hub/retention.go 166-180 rollupLoop *)
Definition rollup_tick (now : Z) : HM () := st_try (runRollup now) ;; mret ().
(* @src hub/retention.go 182-196 retentionLoop *)
Definition retention_tick (cfg : config) (now : Z) : HM () := st_try (runRetention cfg now) ;; mret ().
End retention.

(** ** What a retention run does, purely *)

(** The announcement of a tombstone. *)
Definition tomb (typ id : string) (r : changeRow) : Prop :=
  ch_type r = "tombstone"%string ∧ ch_ref_id r = id ∧ ch_data r = DTombstone typ id ∧ ch_notify r = None.

(** [d'] is [d] without the faults [fs] and the messages [ms], each announced by one of [rows]. *)
Record dropped (ms fs : list string) (d d' : db) (rows : list changeRow) : Prop := {
  dr_messages : d_messages d' = filter (λ m, m_ID m ∉ ms) (d_messages d);
  dr_faults : d_faults d' = filter (λ f, f_ID f ∉ fs) (d_faults d);
  dr_events : d_events d' = d_events d;
  dr_log : log_grows d d' rows;
  dr_tombs : ∃ names : list (string * string), Forall2 (λ n r, tomb n.1 n.2 r) names rows ∧
    names ≡ₚ (pair "message"%string <$> ms) ++ (pair "fault"%string <$> fs);
  dr_kept : kept d d' }.

(** The deletions that announce nothing. *)
Definition purge (rawCut rollCut msgCut : string) (d : db) : db :=
  let d := set_d_raw (filter (λ r, ¬ str_lt (mr_ts r) rawCut) (d_raw d)) d in
  let d := set_d_5m (filter (λ r, ¬ str_lt (m5_bucket r) rollCut) (d_5m d)) d in
  let d := set_d_samples (filter (λ r, ¬ str_lt (ms_ts r) rawCut) (d_samples d)) d in
  let d := set_d_events (filter (λ e, ¬ str_lt (e_received_at e) msgCut) (d_events d)) d in
  set_d_pending (filter (λ p, ¬ str_lt (p_occurred_at p) msgCut) (d_pending d)) d.

(** The rows of the log within the window that must be kept. *)
Definition window (cfg : config) (now : Z) (l : list changeRow) : list changeRow :=
  match max_seq l with
  | Some mx => filter (λ r, ¬ (str_lt (ch_created_at r) (fmtTS (days_before now (cfg_changesDays cfg))) ∧
                             ch_seq r <= wrap64 (mx - cfg_changesMinSeq cfg))) l
  | None => l
  end.

(** The messages a run may remove together with the faults [ids]. *)
Definition doomed (cut : string) (ids : list string) (m : messageRow) : Prop :=
  match m_FaultID m with
  | Some id => id ∈ ids
  | None => str_lt (m_ReceivedAt m) cut
  end.
#[export] Instance doomed_dec cut ids m : Decision (doomed cut ids m).
Proof. unfold doomed. destruct (m_FaultID m); apply _. Defined.

(** The faults whose time is up. *)
Notation expired_ids cut d := (f_ID <$> filter (expired cut) (d_faults d)).

(** [ms] are ids of rows of [l] with the property [P], each once; all of them if no iteration
    breaks off. *)
Record picks `{HE : HubEnv} (P : messageRow → Prop) `{!∀ m, Decision (P m)} (l : list messageRow) (ms : list string) : Prop := {
  pk_nodup : NoDup ms;
  pk_in : ∀ x, x ∈ ms → ∃ m, m ∈ l ∧ m_ID m = x ∧ P m;
  pk_all : whole_rows → ms ≡ₚ m_ID <$> filter P l }.

Section retention_lemmas.
Context `{HE : HubEnv} `{SF : SqlFuns}.

Lemma dropped_refl d : dropped [] [] d d [].
Proof.
  split; try done.
  - symmetry. apply list_filter_all. set_solver.
  - symmetry. apply list_filter_all. set_solver.
  - apply log_grows_refl.
  - by exists [].
Qed.

Lemma dropped_trans ms1 fs1 ms2 fs2 d1 d2 d3 r1 r2 :
  dropped ms1 fs1 d1 d2 r1 → dropped ms2 fs2 d2 d3 r2 → dropped (ms1 ++ ms2) (fs1 ++ fs2) d1 d3 (r1 ++ r2).
Proof.
  intros [M1 F1 E1 L1 (n1 & T1 & P1) K1] [M2 F2 E2 L2 (n2 & T2 & P2) K2]. split.
  - rewrite M2, M1, list_filter_filter. apply list_filter_iff. set_solver.
  - rewrite F2, F1, list_filter_filter. apply list_filter_iff. set_solver.
  - congruence.
  - by eapply log_grows_trans.
  - exists (n1 ++ n2). split; [by apply Forall2_app|]. rewrite P1, P2, !fmap_app. solve_Permutation.
  - by etransitivity.
Qed.

(** Writes elsewhere. *)
Lemma dropped_ext ms fs d d1 d' rows :
  dropped ms fs d d1 rows → d_messages d' = d_messages d1 → d_faults d' = d_faults d1 →
  d_events d' = d_events d1 → d_changes d' = d_changes d1 → change_seq d' = change_seq d1 → kept d1 d' →
  dropped ms fs d d' rows.
Proof.
  intros [M F E L T K] HM HF HE' HC HS HK. split; [congruence..| |done|by etransitivity].
  by eapply log_grows_same.
Qed.

Lemma tombstone_Ok typ id w d e w' :
  w_tx w = Some d → insertTombstone typ id w = (Ok e, w') →
  ∃ d' r, w_tx w' = Some d' ∧ same_outside w w' ∧ log_grows d d' [r] ∧ tomb typ id r ∧ e = entry_of r ∧
    d_messages d' = d_messages d ∧ d_faults d' = d_faults d ∧ d_events d' = d_events d ∧
    d_pending d' = d_pending d ∧ kept d d'.
Proof.
  intros Hd H. apply (insertChange_Ok _ _ _ _ _ _ _ _ Hd) in H as (now & Hd' & Hs & ->).
  eexists _, _. split; [exact Hd'|]. split; [done|]. split; [apply log_change_grows|]. by repeat split.
Qed.

Lemma drop_message_Ok ch mid w d ch' w' :
  w_tx w = Some d → drop_message ch mid w = (Ok ch', w') →
  ∃ d' rows, w_tx w' = Some d' ∧ same_outside w w' ∧ ch' = ch ++ (entry_of <$> rows) ∧
    dropped [mid] [] d d' rows ∧ d_pending d' = d_pending d.
Proof.
  intros Hd H. unfold drop_message in H. mrun H.
  apply (tombstone_Ok _ _ _ _ _ _ Hd) in Hrun as (d1 & r & Hd1 & Hs1 & Hl & Ht & -> & Hm & Hf & He & Hp & Hk).
  mrun H. apply (tx_exec_Ok _ _ _ _ _ Hd1) in Hrun as [Hd2 Hs2]. injection H as <- <-.
  eexists _, [r]. split; [exact Hd2|]. split; [by etransitivity|]. split; [done|]. split; [|done].
  split; cbn; [|by rewrite Hf, list_filter_all by set_solver|done|exact Hl| |exact Hk].
  - rewrite Hm. apply list_filter_iff. intros m. unfold pkey, message_key. set_solver.
  - exists [("message"%string, mid)]. split; [|done]. constructor; [exact Ht|constructor].
Qed.

Lemma drop_messages_Ok mids ch w d ch' w' :
  w_tx w = Some d → st_foldl drop_message ch mids w = (Ok ch', w') →
  ∃ d' rows, w_tx w' = Some d' ∧ same_outside w w' ∧ ch' = ch ++ (entry_of <$> rows) ∧
    dropped mids [] d d' rows ∧ d_pending d' = d_pending d.
Proof.
  revert ch w d. induction mids as [|mid mids IH]; intros ch w d Hd H; cbn in H.
  - injection H as <- <-. exists d, []. rewrite app_nil_r. split_and!; [done..|apply dropped_refl|done].
  - mrun H. destruct (drop_message_Ok _ _ _ _ _ _ Hd Hrun) as (d1 & r1 & Hd1 & Hs1 & -> & Dr1 & Hp1).
    destruct (IH _ _ _ Hd1 H) as (d2 & r2 & Hd2 & Hs2 & -> & Dr2 & Hp2).
    exists d2, (r1 ++ r2). split; [done|]. split; [by etransitivity|].
    split; [by rewrite fmap_app, app_assoc|]. split; [|congruence]. exact (dropped_trans _ _ _ _ _ _ _ _ _ Dr1 Dr2).
Qed.

Lemma picks_rows P `{!∀ m, Decision (P m)} l mids :
  NoDup (m_ID <$> l) → mids `prefix_of` m_ID <$> filter P l → (whole_rows → mids = m_ID <$> filter P l) → picks P l mids.
Proof.
  intros Hnd Hp Hw. split.
  - eapply sublist_NoDup; [by apply (NoDup_fmap_filter m_ID P)|]. destruct Hp as [k ->]. by apply sublist_inserts_r.
  - intros x Hx. destruct Hp as [k E]. assert (x ∈ m_ID <$> filter P l) as (m & -> & [? ?]%list_elem_of_filter)%list_elem_of_fmap
      by (rewrite E; apply elem_of_app; by left). eauto.
  - intros Hrows. by rewrite Hw.
Qed.

Lemma drop_fault_Ok f ch w d ch' w' :
  w_tx w = Some d → NoDup (m_ID <$> d_messages d) → drop_fault ch f w = (Ok ch', w') →
  ∃ d' rows ms, w_tx w' = Some d' ∧ same_outside w w' ∧ ch' = ch ++ (entry_of <$> rows) ∧
    picks (λ m, m_FaultID m = Some (f_ID f)) (d_messages d) ms ∧ dropped ms [f_ID f] d d' rows ∧
    d_pending d' = filter (λ p, ¬ (p_source_id p = f_SourceID f ∧ p_fault_key p = f_FaultKey f)) (d_pending d).
Proof.
  intros Hd Hnd H. unfold drop_fault in H. mrun H. apply (tx_rows_Ok _ _ _ _ _ Hd) in Hrun as (Hpre & Hall & Hd1 & Hs1).
  pose proof (picks_rows _ _ _ Hnd Hpre Hall) as Hpk. clear Hpre Hall.
  mrun H. destruct (drop_messages_Ok _ _ _ _ _ _ Hd1 Hrun) as (d2 & r2 & Hd2 & Hs2 & -> & Dr & Hp2).
  mrun H. apply (tombstone_Ok _ _ _ _ _ _ Hd2) in Hrun0 as (d3 & r & Hd3 & Hs3 & Hl & Ht & -> & Hm & Hf & He & Hp & Hk).
  mrun H. apply (tx_exec_Ok _ _ _ _ _ Hd3) in Hrun0 as [Hd4 Hs4].
  mrun H. apply (tx_exec_Ok _ _ _ _ _ Hd4) in Hrun0 as [Hd5 Hs5]. injection H as <- <-.
  eexists _, (r2 ++ [r]), _. split; [exact Hd5|].
  split; [repeat (etransitivity; [eassumption|]); done|].
  split; [by rewrite fmap_app, app_assoc|]. split; [exact Hpk|]. split; [|cbn; by rewrite Hp, Hp2].
  assert (dropped [] [f_ID f] d2 (set_d_pending (filter (λ p, ¬ (p_source_id p = f_SourceID f ∧
    p_fault_key p = f_FaultKey f)) (d_pending d3)) (set_d_faults (tbl_delete (f_ID f) (d_faults d3)) d3)) [r]) as Dr2.
  { split; cbn; [by rewrite Hm, list_filter_all by set_solver| |done|exact Hl| |exact Hk].
    - rewrite Hf. apply list_filter_iff. intros g. unfold pkey, fault_key. set_solver.
    - exists [("fault"%string, f_ID f)]. split; [|done]. constructor; [exact Ht|constructor]. }
  pose proof (dropped_trans _ _ _ _ _ _ _ _ _ Dr Dr2) as D. by rewrite app_nil_r in D.
Qed.
End retention_lemmas.

Section retention_tx.
Context `{HE : HubEnv} `{SF : SqlFuns}.

(** The messages of some faults. *)
Definition of_faults (ids : list string) (m : messageRow) : Prop :=
  match m_FaultID m with Some id => id ∈ ids | None => False end.
#[local] Instance of_faults_dec ids m : Decision (of_faults ids m).
Proof. unfold of_faults. destruct (m_FaultID m); apply _. Defined.

Lemma of_faults_cons id ids m : of_faults (id :: ids) m ↔ m_FaultID m = Some id ∨ of_faults ids m.
Proof. unfold of_faults. destruct (m_FaultID m); set_solver. Qed.

(** What one deletion picks, and then another from what is left. *)
Lemma picks_then P Q R `{!∀ m, Decision (P m), !∀ m, Decision (Q m), !∀ m, Decision (R m)} ms1 ms2 fs d d1 rows :
  NoDup (m_ID <$> d_messages d) → dropped ms1 fs d d1 rows → (∀ m, R m ↔ P m ∨ Q m) →
  picks P (d_messages d) ms1 → picks Q (d_messages d1) ms2 → picks R (d_messages d) (ms1 ++ ms2).
Proof.
  intros Hnd D HR [N1 I1 A1] [N2 I2 A2]. pose proof (dr_messages _ _ _ _ _ D) as Hm.
  assert (∀ x, x ∈ ms2 → x ∉ ms1 ∧ ∃ m, m ∈ d_messages d ∧ m_ID m = x ∧ Q m) as Hb.
  { intros x Hx. destruct (I2 x Hx) as (m & Hin & <- & HQ). rewrite Hm in Hin. apply list_elem_of_filter in Hin as [? ?]. eauto. }
  split.
  - apply NoDup_app. split; [done|]. split; [|done]. intros x Ha Hx. by destruct (Hb x Hx).
  - intros x [Hx|Hx]%elem_of_app; [destruct (I1 x Hx) as (m & ? & ? & ?)|destruct (Hb x Hx) as (_ & m & ? & ? & ?)];
      exists m; (split; [done|]); (split; [done|]); apply HR; auto.
  - intros Hw. rewrite (A1 Hw), (A2 Hw), Hm, <-fmap_app. apply fmap_Permutation.
    assert (filter (λ m, m_ID m ∉ ms1) (d_messages d) = filter (λ m, ¬ P m) (d_messages d)) as ->.
    { rewrite <-(filter_by_key m_ID P) by done. apply list_filter_iff. intros m. by rewrite (A1 Hw). }
    by apply filter_or_perm.
Qed.

(** The messages a list of deletions leaves, when it deleted those with a property. *)
Lemma dropped_remains P `{!∀ m, Decision (P m)} ms fs d d' rows :
  dropped ms fs d d' rows → NoDup (m_ID <$> d_messages d) → ms ≡ₚ m_ID <$> filter P (d_messages d) →
  d_messages d' = filter (λ m, ¬ P m) (d_messages d).
Proof.
  intros [-> _ _ _ _ _] Hnd Hms. rewrite <-(filter_by_key m_ID P) by done.
  apply list_filter_iff. intros m. by rewrite Hms.
Qed.

Lemma drop_faults_Ok fs ch w d ch' w' :
  w_tx w = Some d → NoDup (m_ID <$> d_messages d) → st_foldl drop_fault ch fs w = (Ok ch', w') →
  ∃ d' rows ms, w_tx w' = Some d' ∧ same_outside w w' ∧ ch' = ch ++ (entry_of <$> rows) ∧
    dropped ms (f_ID <$> fs) d d' rows ∧ picks (of_faults (f_ID <$> fs)) (d_messages d) ms.
Proof.
  revert ch w d. induction fs as [|f fs IH]; intros ch w d Hd Hnd H; cbn in H.
  - injection H as <- <-. exists d, [], []. rewrite app_nil_r. split_and!; [done..|apply dropped_refl|].
    split; [constructor|by intros x ?%elem_of_nil|intros _].
    rewrite list_filter_none; [done|]. intros m _. unfold of_faults. destruct (m_FaultID m); set_solver.
  - mrun H. destruct (drop_fault_Ok _ _ _ _ _ _ Hd Hnd Hrun) as (d1 & r1 & ms1 & Hd1 & Hs1 & -> & P1 & D1 & _).
    assert (NoDup (m_ID <$> d_messages d1)) as Hnd1 by (rewrite (dr_messages _ _ _ _ _ D1); by apply NoDup_fmap_filter).
    destruct (IH _ _ _ Hd1 Hnd1 H) as (d2 & r2 & ms2 & Hd2 & Hs2 & -> & D2 & P2).
    exists d2, (r1 ++ r2), (ms1 ++ ms2).
    split; [done|]. split; [by etransitivity|]. split; [by rewrite fmap_app, app_assoc|].
    split; [exact (dropped_trans _ _ _ _ _ _ _ _ _ D1 D2)|].
    eapply (picks_then _ _ _ ms1 ms2); [done|exact D1| |exact P1|exact P2]. intros m. apply of_faults_cons.
Qed.

(** The whole transaction: what is left, what is announced, and the window of the log. *)
Lemma retention_tx_Ok cfg now w d ch w' :
  w_tx w = Some d → NoDup (m_ID <$> d_messages d) → retention_tx cfg now w = (Ok ch, w') →
  let cut days := fmtTS (days_before now days) in
  let msgCut := cut (cfg_messagesDays cfg) in
  let d0 := purge (cut (cfg_rawDays cfg)) (cut (cfg_rollupDays cfg)) msgCut d in
  ∃ d' rows d1 fl ms, w_tx w' = Some d' ∧ same_outside w w' ∧ ch = entry_of <$> rows ∧
    fl `prefix_of` filter (expired msgCut) (d_faults d) ∧ (whole_rows → fl = filter (expired msgCut) (d_faults d)) ∧
    dropped ms (f_ID <$> fl) d0 d1 rows ∧ picks (doomed msgCut (f_ID <$> fl)) (d_messages d) ms ∧
    d' = set_d_changes (window cfg now (d_changes d1)) d1.
Proof.
  intros Hd Hnd H cut msgCut d0. unfold retention_tx in H. cbv zeta in H.
  mrun H. apply (tx_exec_Ok _ _ _ _ _ Hd) in Hrun as [Ha Sa].
  mrun H. apply (tx_exec_Ok _ _ _ _ _ Ha) in Hrun as [Hb Sb].
  mrun H. apply (tx_exec_Ok _ _ _ _ _ Hb) in Hrun as [Hc Sc].
  mrun H. apply (tx_exec_Ok _ _ _ _ _ Hc) in Hrun as [He Se].
  mrun H. apply (tx_exec_Ok _ _ _ _ _ He) in Hrun as [Hf Sf].
  change (w_tx s3 = Some d0) in Hf.
  mrun H. apply (tx_rows_Ok _ _ _ _ _ Hf) in Hrun as (Hpre & Hall & Hg & Sg). rename a4 into fl.
  mrun H. destruct (drop_faults_Ok _ _ _ _ _ _ Hg Hnd Hrun) as (d1 & r1 & ms1 & Hd1 & S1 & -> & D1 & P1).
  assert (NoDup (m_ID <$> d_messages d1)) as Hnd1 by (rewrite (dr_messages _ _ _ _ _ D1); by apply NoDup_fmap_filter).
  mrun H. apply (tx_rows_Ok _ _ _ _ _ Hd1) in Hrun0 as (Hpre2 & Hall2 & Hd2 & S2).
  pose proof (picks_rows _ _ _ Hnd1 Hpre2 Hall2) as P2.
  mrun H. destruct (drop_messages_Ok _ _ _ _ _ _ Hd2 Hrun0) as (d3 & r3 & Hd3 & S3 & -> & D3 & _).
  mrun H. apply (tx_query_Ok _ _ _ _ _ Hd3) in Hrun1 as (-> & Hd4 & S4). mrun H.
  assert (∃ d', w_tx s9 = Some d' ∧ same_outside s8 s9 ∧ d' = set_d_changes (window cfg now (d_changes d3)) d3)
    as (d' & Hd' & S5 & ->).
  { unfold window. destruct (max_seq (d_changes d3)).
    - apply (tx_exec_Ok _ _ _ _ _ Hd4) in Hrun1 as [Hd5 S5]. eauto.
    - injection Hrun1 as _ <-. exists d3. by destruct d3. }
  injection H as <- <-.
  exists (set_d_changes (window cfg now (d_changes d3)) d3), (r1 ++ r3), d3, fl.
  eexists. split; [exact Hd'|]. split; [repeat (etransitivity; [eassumption|]); done|].
  split; [by rewrite fmap_app|]. split; [exact Hpre|]. split; [exact Hall|].
  split; [pose proof (dropped_trans _ _ _ _ _ _ _ _ _ D1 D3) as D; rewrite app_nil_r in D; exact D|].
  split; [|done]. eapply (picks_then _ _ _ ms1 _ _ d0); [exact Hnd|exact D1| |exact P1|exact P2].
  intros m. unfold doomed, of_faults. destruct (m_FaultID m); naive_solver.
Qed.
End retention_tx.

Section retention_results.
Context `{HE : HubEnv} `{SF : SqlFuns}.

Lemma sealed_retention cfg now : sealed (retention_tx cfg now).
Proof. intros d0 b0. unfold retention_tx, drop_fault, drop_message, insertTombstone. pres. Qed.

Lemma window_filter cfg now l : ∃ P (HP : ∀ r, Decision (P r)), window cfg now l = filter P l.
Proof.
  unfold window. destruct (max_seq l); [eauto|]. exists (λ _, True), (λ _, _).
  symmetry. by apply list_filter_all.
Qed.

(** The invariant survives a removal of faults together with their messages.  When no
    iteration breaks off, what is left is exactly what neither expired nor belonged to it. *)
Lemma removal_ok d d1 d' fl ms rows cut cfg now :
  db_ok d → fl `prefix_of` filter (expired cut) (d_faults d) →
  (whole_rows → fl = filter (expired cut) (d_faults d)) →
  dropped ms (f_ID <$> fl) d d1 rows → picks (doomed cut (f_ID <$> fl)) (d_messages d) ms →
  d' = set_d_changes (window cfg now (d_changes d1)) d1 →
  db_ok d' ∧ d_faults d' = filter (λ f, f_ID f ∉ f_ID <$> fl) (d_faults d) ∧
  d_messages d' = filter (λ m, m_ID m ∉ ms) (d_messages d) ∧
  (whole_rows → d_faults d' = filter (λ f, ¬ expired cut f) (d_faults d) ∧
    d_messages d' = filter (λ m, ¬ doomed cut (expired_ids cut d) m) (d_messages d)).
Proof.
  intros [K1 K2 K3 K4 K5 K6 K7] Hpre Hfl D Hpk ->.
  pose proof (dr_messages _ _ _ _ _ D) as Hm. pose proof (dr_faults _ _ _ _ _ D) as Hf.
  assert (log_ok d1) as [Hs Hb] by (by eapply log_grows_ok; [|exact (dr_log _ _ _ _ _ D)]).
  destruct (window_filter cfg now (d_changes d1)) as (P & HP & Hw). split_and!; [|exact Hf|exact Hm|].
  - split; cbn; rewrite ?Hf, ?Hm, ?(dr_events _ _ _ _ _ D); try (by apply NoDup_fmap_filter); try done.
    + rewrite Forall_forall in K3 |- *. intros f [_ Hin]%list_elem_of_filter. by apply K3.
    + intros Hrows m id [Hnd Hin]%list_elem_of_filter Hid. specialize (K6 Hrows m id Hin Hid).
      apply list_elem_of_fmap in K6 as (f & -> & Hfin). apply list_elem_of_fmap. exists f. split; [done|].
      apply list_elem_of_filter. split; [|done]. intros Hgone. apply Hnd. rewrite (pk_all _ _ _ Hpk Hrows).
      apply list_elem_of_fmap. exists m. split; [done|]. apply list_elem_of_filter. split; [|done].
      unfold doomed. by rewrite Hid.
    + split; cbn; rewrite Hw; [by apply sorted_filter_key|].
      change (change_seq (set_d_changes _ d1)) with (change_seq d1).
      rewrite Forall_forall in Hb |- *. intros r [_ Hr]%list_elem_of_filter. by apply Hb.
  - intros Hrows. cbn. rewrite Hf, (Hfl Hrows). split; [by apply filter_by_key|].
    pose proof (pk_all _ _ _ Hpk Hrows) as Hms. rewrite (Hfl Hrows) in Hms.
    exact (dropped_remains _ _ _ _ _ _ D K4 Hms).
Qed.

Lemma purge_ok rawCut rollCut cut d : db_ok d → db_ok (purge rawCut rollCut cut d).
Proof. intros [K1 K2 K3 K4 K5 K6 K7]. split; try done. cbn. by apply NoDup_fmap_filter. Qed.

(** A committed run. *)
Lemma runRetention_Ok cfg now w u w' :
  db_ok (w_db w) → runRetention cfg now w = (Ok u, w') →
  let cut days := fmtTS (days_before now days) in
  let msgCut := cut (cfg_messagesDays cfg) in
  let d0 := purge (cut (cfg_rawDays cfg)) (cut (cfg_rollupDays cfg)) msgCut (w_db w) in
  ∃ rows d1 fl ms, fl `prefix_of` filter (expired msgCut) (d_faults d0) ∧
    (whole_rows → fl = filter (expired msgCut) (d_faults d0)) ∧
    dropped ms (f_ID <$> fl) d0 d1 rows ∧ picks (doomed msgCut (f_ID <$> fl)) (d_messages d0) ms ∧
    w_db w' = set_d_changes (window cfg now (d_changes d1)) d1 ∧
    w_broker w' = foldl (λ b e, Publish e b) (w_broker w) (entry_of <$> rows).
Proof.
  intros Hok H cut msgCut d0. unfold runRetention in H. mrun H. injection H as <- <-.
  pose proof Hrun as Htx. apply withTx_Ok in Hrun as (w0 & w2 & d' & Ht & Ho & Hf & Ht2 & Hd & _ & _ & Hb).
  destruct (retention_tx_Ok _ _ _ _ _ _ Ht (ok_message_ids _ Hok) Hf)
    as (d2 & rows & d1 & fl & ms & Hd2 & _ & -> & Hp & Hfl & D & Hms & E).
  exists rows, d1, fl, ms. split; [exact Hp|]. split; [exact Hfl|]. split; [exact D|]. split; [exact Hms|].
  cbn. split; [congruence|].
  f_equal. rewrite Hb. assert (inside (w_db w) (w_broker w) w0) as Hin.
  { destruct Ho as (H1 & _ & H2 & _). by repeat split; eauto. }
  pose proof (sealed_retention cfg now _ _ _ Hin) as Hs. rewrite Hf in Hs. apply Hs.
Qed.

(** The values of a group among the rows of the roll-up's day. *)
Definition group_values (since : string) (raw : list rawRow) (src b metric label : string) : list float64 :=
  mr_value <$> filter (λ r, roll_group r = (src, Some b, metric, label)) (filter (λ r, str_le since (mr_ts r)) raw).

Lemma lookup_replace_all (rows t : list rollRow) (k : string * string * string * string) :
  NoDup (pkey <$> rows : list (string * string * string * string)) →
  tbl_lookup k (foldl (λ t row, tbl_replace row t) t rows) =
    match tbl_lookup k rows with Some r => Some r | None => tbl_lookup k t end.
Proof.
  revert t. induction rows as [|r rows IH]; intros t Hnd; [done|]. rewrite fmap_cons in Hnd. apply NoDup_cons in Hnd as [Hr Hnd].
  cbn [foldl]. rewrite IH by done. change (r :: rows) with ([r] ++ rows). rewrite tbl_lookup_app.
  unfold tbl_replace. rewrite tbl_lookup_app.
  assert (∀ k', tbl_lookup k' [r] = if decide (pkey r = k') then Some r else None) as Hone.
  { intros k'. unfold tbl_lookup. rewrite filter_cons, filter_nil. by case_decide. }
  rewrite !Hone. destruct (decide (pkey r = k)) as [<-|Hk].
  - assert (tbl_lookup (pkey r) rows = None) as -> by (by apply tbl_lookup_None).
    assert (tbl_lookup (pkey r) (filter (λ r', pkey r' ≠ pkey r) t) = None) as ->; [|done].
    apply tbl_lookup_None. intros (y & Hy & [Hne _]%list_elem_of_filter)%list_elem_of_fmap. by apply Hne.
  - destruct (tbl_lookup k rows); [done|].
    change (filter (λ r', pkey r' ≠ pkey r) t) with (tbl_delete (pkey r) t).
    rewrite tbl_lookup_filter_key by done. by destruct (tbl_lookup k t).
Qed.
End retention_results.

(** ** Properties *)


(** A database with an expired and an open fault. *)
Definition old_fault (id : string) (resolved : option string) : faultRow :=
  {| f_ID := id; f_SourceID := "src_1"; f_FaultKey := id; f_Severity := "warning"; f_Title := "t";
     f_Summary := None; f_State := if resolved then "resolved" else "open"; f_Incident := 1;
     f_OpenedAt := "2026-01-01T00:00:00.000Z"; f_OpenedBySeq := 1; f_LastEventAt := "2026-01-01T00:00:00.000Z";
     f_ResolvedAt := resolved; f_ResolvedBySeq := if resolved then Some 2 else None;
     f_ResolvedBy := if resolved then Some "e2"%string else None; f_EventCount := 1; f_ReadAt := None;
     f_MutedAt := None; f_MutedUntil := None; f_ChangeSeq := 1 |}%string.

Definition old_db : db :=
  set_d_faults [old_fault "flt_a" (Some "2026-01-02T00:00:00.000Z"); old_fault "flt_b" None]%string demo_db.

Definition demo_config : config :=
  {| cfg_bind := ""; cfg_dbPath := ""; cfg_adminUser := "admin"; cfg_adminPassword := ""; cfg_baseURL := "";
     cfg_rawDays := 7; cfg_rollupDays := 90; cfg_messagesDays := 90; cfg_changesDays := 7;
     cfg_changesMinSeq := 100000; cfg_heartbeatInterval := 15 * Second; cfg_rollupInterval := 60 * Second;
     cfg_retentionInterval := Hour; cfg_agentVersion := ""; cfg_agentCacheDir := ""; cfg_agentCacheMaxBytes := 0 |}%string.

Definition demo_sql : SqlFuns := {| sql_bucket := Some; sql_avg := λ l, default S754_nan (head l) |}.

Lemma old_db_ok `{HE : HubEnv} : db_ok old_db.
Proof.
  split; [apply (bool_decide_unpack (NoDup _)); vm_compute; exact I..| | | | |].
  - constructor; [|constructor; [|constructor]]; (split; [done|]; split; [done|]); [right|left; done].
    split; [done|]. split; [by eexists|]. split; [by eexists|]. by exists 2.
  - apply (bool_decide_unpack (NoDup _)). vm_compute. exact I.
  - apply (bool_decide_unpack (NoDup _)). vm_compute. exact I.
  - intros _ m id Hm. by apply elem_of_nil in Hm.
  - split; constructor.
Defined.


(** A message whose fault is gone is there for good: no run, whatever it reads, removes it. *)
Lemma orphan_stays `{HE : HubEnv} `{SF : SqlFuns} cfg now w u w' m id :
  db_ok (w_db w) → runRetention cfg now w = (Ok u, w') →
  m ∈ d_messages (w_db w) → m_FaultID m = Some id → id ∉ f_ID <$> d_faults (w_db w) →
  m ∈ d_messages (w_db w') ∧ id ∉ f_ID <$> d_faults (w_db w').
Proof.
  intros Hok H Hm Hid Hno. destruct (runRetention_Ok _ _ _ _ _ Hok H) as (rows & d1 & fl & ms & Hp & _ & D & Hpk & -> & _).
  assert (∀ f, f ∈ fl → f ∈ d_faults (w_db w)) as Hfl.
  { intros f Hf. destruct Hp as [k E]. assert (f ∈ fl ++ k) as Hin by (apply elem_of_app; by left).
    rewrite <-E in Hin. by apply list_elem_of_filter in Hin as [_ ?]. }
  split.
  - change (m ∈ d_messages d1). rewrite (dr_messages _ _ _ _ _ D). apply list_elem_of_filter. split; [|exact Hm].
    intros Hin. destruct (pk_in _ _ _ Hpk _ Hin) as (m' & Hm' & Heq & Hd).
    assert (m' = m) as -> by (eapply (NoDup_fmap_inj m_ID); [exact (ok_message_ids _ Hok)|done..]).
    unfold doomed in Hd. rewrite Hid in Hd. apply Hno. apply list_elem_of_fmap in Hd as (f & -> & Hf).
    apply list_elem_of_fmap. eauto.
  - change (id ∉ f_ID <$> d_faults d1). rewrite (dr_faults _ _ _ _ _ D).
    intros (f & -> & [_ Hf]%list_elem_of_filter)%list_elem_of_fmap. apply Hno. apply list_elem_of_fmap. eauto.
Qed.

(** And a run can make one: the rows of the messages of an expired fault break off before the
    first, the run answers no error, and commits the removal of the fault without them. *)
Definition old_message : messageRow :=
  {| m_ID := "msg_a"; m_SourceID := "src_1"; m_Kind := "custom"; m_Severity := "warning"; m_Title := "t";
     m_Body := None; m_OccurredAt := "2026-01-01T00:00:00.000Z"; m_ReceivedAt := "2026-01-01T00:00:00.000Z";
     m_ReadAt := None; m_FaultID := Some "flt_a"; m_Incident := Some 1; m_Ref := None; m_Attachments := [];
     m_EventID := "e1"; m_EventSeq := 1; m_FaultKey := Some "flt_a"; m_OutOfOrder := false;
     m_ChangeSeq := 1 |}%string.
Definition broken_env : HubEnv :=
  {| h_now := h_now (HubEnv := demo_env); h_io := λ _, false; h_rows := λ n, if decide (n = 7)%nat then Some 0%nat else None;
     h_ulid := demo_ulid; h_rand := λ n, [N.of_nat n] |}.

Example broken_rows_orphan :
  let w := world_of (set_d_messages [old_message] old_db) in
  match runRetention (HE := broken_env) demo_config (date_utc 2026 9 18 6 0 0 0) w with
  | (Ok _, w') => d_messages (w_db w') = [old_message] ∧ f_ID <$> d_faults (w_db w') = ["flt_b"]%string
  | (Err _, _) => False
  end.
Proof. vm_compute. done. Qed.

(** C20: the window of the change log.  After a run, of the log and the new tombstones
    everything is still there that is young enough or among the last [changesMinSeq]
    changes: a client at most that far behind can catch up change by change. *)
Theorem retention_window `{HE : HubEnv} `{SF : SqlFuns} cfg now w u w'
    (Hok : db_ok (w_db w)) (Hrun : runRetention cfg now w = (Ok u, w'))
    (Hmin : 0 <= cfg_changesMinSeq cfg <= int64_max)
    (Hseq : ∀ r, r ∈ d_changes (w_db w) → 0 <= ch_seq r) (Hcount : 0 <= change_seq (w_db w))
    (Hlast : change_seq (w_db w') <= int64_max) :
  ∃ rows, w_broker w' = foldl (λ b e, Publish e b) (w_broker w) (entry_of <$> rows) ∧
    d_changes (w_db w') ⊆ d_changes (w_db w) ++ rows ∧
    ∀ r, r ∈ d_changes (w_db w) ++ rows →
      ¬ str_lt (ch_created_at r) (fmtTS (days_before now (cfg_changesDays cfg))) ∨
      change_seq (w_db w') - cfg_changesMinSeq cfg < ch_seq r →
      r ∈ d_changes (w_db w').
Proof.
  destruct (runRetention_Ok _ _ _ _ _ Hok Hrun) as (rows & d1 & fl & ms & _ & _ & D & _ & Hd & Hb). cbv zeta in D.
  destruct (dr_log _ _ _ _ _ D) as (Hc & Hq & Hcs). cbn in Hc.
  change (change_seq (purge _ _ _ (w_db w))) with (change_seq (w_db w)) in Hq, Hcs.
  assert (change_seq (w_db w') = change_seq d1) as Hcs' by (by rewrite Hd).
  exists rows. split; [done|]. rewrite Hd. cbn [d_changes set_d_changes]. rewrite Hc.
  split; [destruct (window_filter cfg now (d_changes (w_db w) ++ rows)) as (P & HP & ->);
    by intros r [_ ?]%list_elem_of_filter|].
  intros r Hr Hyoung. unfold window. destruct (max_seq _) as [mx|] eqn:Emx; [|done].
  apply list_elem_of_filter. split; [|done]. intros [Hold Hlow]. destruct Hyoung as [?|Hnear]; [done|].
  assert (0 <= mx <= change_seq d1) as Hmx.
  { destruct (max_seq_in _ _ Emx) as (r' & Hr' & <-). rewrite <-Hc in Hr'.
    destruct (log_grows_ok _ _ _ (ok_log _ (purge_ok _ _ _ _ Hok)) (dr_log _ _ _ _ _ D)) as [_ Hall].
    rewrite Forall_forall in Hall. split; [|by apply Hall]. rewrite Hc in Hr'.
    apply elem_of_app in Hr' as [Hr'|Hr']; [by apply Hseq|].
    assert (ch_seq r' ∈ seqZ (change_seq (w_db w) + 1) (Z.of_nat (length rows))) as Hin%elem_of_seqZ.
    { rewrite <-Hq. apply list_elem_of_fmap. eauto. }
    lia. }
  change (change_seq (set_d_changes _ d1)) with (change_seq d1) in Hnear. rewrite Hcs' in Hlast.
  rewrite wrap64_small in Hlow by (unfold int64_min, int64_max in *; lia). lia.
Qed.

Lemma retention_window_witness :
  ch_ref_id <$> d_changes (w_db (runRetention (HE := demo_env) demo_config (date_utc 2026 9 18 6 0 0 0)
    (world_of old_db)).2) = ["flt_a"]%string.
Proof.
  assert (∃ u w', runRetention (HE := demo_env) demo_config (date_utc 2026 9 18 6 0 0 0) (world_of old_db) = (Ok u, w')
    ∧ change_seq (w_db w') <= int64_max ∧ (ch_ref_id <$> d_changes (w_db w') = ["flt_a"%string]))
    as (u & w' & Hrun & Hlast & Hids).
  { eexists _, _. split; [vm_compute; reflexivity|]. split; [vm_compute; done|reflexivity]. }
  pose proof (retention_window (HE := demo_env) (SF := demo_sql) demo_config (date_utc 2026 9 18 6 0 0 0)
    (world_of old_db) u w' old_db_ok Hrun) as H. rewrite Hrun. clear Hrun. cbn [snd].
  destruct H as (rows & _ & Hsub & _); [vm_compute; done|by intros r Hr%elem_of_nil|done|done|]. exact Hids.
Defined.

(** The row the roll-up writes for the values of a group. *)
Definition aggregate `{SqlFuns} (src b metric label : string) (vs : list float64) : rollRow :=
  {| m5_source_id := src; m5_bucket := b; m5_metric := metric; m5_label := label; m5_avg := sql_avg vs;
     m5_min := fold_values f64_min vs; m5_max := fold_values f64_max vs; m5_n := Z.of_nat (length vs) |}.

Section rollup.
Context `{HE : HubEnv} `{SF : SqlFuns}.

(** The row a group produces, and its key. *)
Lemma roll_row_inv raw g row :
  roll_row raw g = Some row → ∃ src b metric label, g = (src, Some b, metric, label) ∧
    row = aggregate src b metric label (mr_value <$> filter (λ r, roll_group r = g) raw).
Proof.
  destruct g as [[[src [b|]] metric] label]; [|done]. intros [= <-]. by exists src, b, metric, label.
Qed.

Lemma roll_rows_keys raw gs rows :
  Forall2 (λ g row, roll_row raw g = Some row) gs rows →
  gs = (λ k : string * string * string * string, (k.1.1.1, Some k.1.1.2, k.1.2, k.2)) <$> (pkey <$> rows).
Proof.
  induction 1 as [|g row gs rows Hg _ IH]; [done|]. rewrite !fmap_cons, <-IH. f_equal.
  by destruct (roll_row_inv _ _ _ Hg) as (? & ? & ? & ? & -> & ->).
Qed.

Lemma roll_up_Some since raw t t' src b metric label :
  roll_up since raw t = Some t' →
  tbl_lookup (src, b, metric, label) t' =
    match group_values since raw src b metric label with
    | [] => tbl_lookup (src, b, metric, label) t
    | vs => Some (aggregate src b metric label vs)
    end.
Proof.
  unfold roll_up, group_values. set (day := filter (λ r, str_le since (mr_ts r)) raw).
  destruct (mapM (roll_row day) _) as [rows|] eqn:Em; [|done]. intros [= <-].
  apply mapM_Some in Em. pose proof (roll_rows_keys _ _ _ Em) as Hk.
  assert (NoDup (pkey <$> rows : list (string * string * string * string))) as Hnd.
  { eapply NoDup_fmap_1. rewrite <-Hk. apply NoDup_remove_dups. }
  rewrite lookup_replace_all by done.
  destruct (tbl_lookup _ rows) as [row|] eqn:El.
  - apply tbl_lookup_Some in El as [Hin Hkey]. apply list_elem_of_lookup in Hin as [i Hi].
    destruct (Forall2_lookup_r _ _ _ _ _ Em Hi) as (g & Hg & Hrow).
    destruct (roll_row_inv _ _ _ Hrow) as (src' & b' & m' & l' & -> & ->). injection Hkey as -> -> -> ->.
    assert ((src, Some b, metric, label) ∈ roll_group <$> day) as (r & Hr & Hrin)%list_elem_of_fmap.
    { apply elem_of_remove_dups. by eapply list_elem_of_lookup_2. }
    destruct (filter _ day) as [|x l] eqn:Ef; [|done].
    exfalso. assert (r ∈ filter (λ r, roll_group r = (src, Some b, metric, label)) day) as H
      by (apply list_elem_of_filter; by split). rewrite Ef in H. by apply elem_of_nil in H.
  - destruct (filter _ day) as [|x l] eqn:Ef; [done|].
    exfalso. assert (x ∈ filter (λ r, roll_group r = (src, Some b, metric, label)) day) as [Hx Hin]%list_elem_of_filter
      by (rewrite Ef; left).
    apply tbl_lookup_None in El. apply El. assert ((src, Some b, metric, label) ∈ roll_group <$> day) as Hg.
    { apply list_elem_of_fmap. exists x. by split. }
    apply elem_of_remove_dups in Hg. rewrite Hk in Hg.
    apply list_elem_of_fmap in Hg as ([[[? ?] ?] ?] & Heq & Hg). cbn in Heq. by simplify_eq.
Qed.
End rollup.

(** The roll-up.  A run that succeeds gives every five-minute bucket that has a raw
    sample of the last day the aggregate of exactly those samples, replacing what an earlier
    run wrote, and leaves every other bucket and table as it was; a run that fails changes
    nothing. *)
Theorem rollup_spec `{HE : HubEnv} `{SF : SqlFuns} now w :
  let since := fmtTS (time_truncate now (5 * Minute) - 24 * Hour) in
  match runRollup now w with
  | (Err _, w') => untouched w w'
  | (Ok _, w') =>
    w_broker w' = w_broker w ∧
    ∃ t, w_db w' = set_d_5m t (w_db w) ∧
      ∀ src b metric label, tbl_lookup (src, b, metric, label) t =
        match group_values since (d_raw (w_db w)) src b metric label with
        | [] => tbl_lookup (src, b, metric, label) (d_5m (w_db w))
        | vs => Some (aggregate src b metric label vs)
        end
  end.
Proof.
  intros since. destruct (runRollup now w) as [[u|e] w'] eqn:E; unfold runRollup in E.
  - apply withTx_Ok in E as (w0 & w1 & d' & Ht & Ho & Hf & Ht1 & Hd & _ & _ & Hb).
    apply (tx_insert_Ok _ _ _ _ _ Ht) in Hf as (d1 & Hr & Ht2 & Ho1). simplify_eq.
    destruct (roll_up _ _ _) as [t|] eqn:Et; [|done]. injection Hr as Hr. cbv zeta in Et. fold since in Et.
    split.
    + rewrite Hb. destruct Ho as (_ & _ & <- & _), Ho1 as (_ & _ & <- & _). done.
    + exists t. split; [done|]. intros src b metric label. by apply roll_up_Some.
  - eapply withTx_failed; [|exact E]. intros d0 b0. pres.
Qed.
