(* ===== verification/Sse.v ===== *)
(** The wire of the change stream: the frames the hub writes ([hub/sse.go]: sseWrite, splitLines)
    and the lines the app reads them from ([app/.../sse/SseParser.kt]), with the round trip
    between the two programs. *)

From S2P Require Import Prelude GoBase.
From Stdlib Require Import Ascii DecimalString.
Local Open Scope string_scope.
Local Open Scope list_scope.

Definition LF : string := String "010"%char EmptyString.
Definition CR : ascii := "013"%char.

(** ** The hub's side *)

(* @src hub/sse.go 60-71 splitLines *)
Fixpoint splitLines (b : string) : list string :=
  match b with
  | EmptyString => [EmptyString]
  | String c b' =>
    if decide (c = "010"%char) then EmptyString :: splitLines b'
    else match splitLines b' with
         | l :: ls => String c l :: ls
         | [] => [String c EmptyString]
         end
  end.

(** The lines of a frame; the last one is empty. *)
Definition frame_lines (event : string) (id : Z) (data : string) : list string :=
  (if decide (0 < id)%Z then ["id: " +:+ fmt_d id] else []) ++
  ["event: " +:+ event] ++
  ((λ line, "data: " +:+ line) <$> splitLines data) ++ [""].

(** Each [Fprintf] ends its line. *)
Fixpoint unlines (ls : list string) : string :=
  match ls with [] => EmptyString | l :: ls' => l +:+ (LF +:+ unlines ls') end.

(* @src hub/sse.go 47-58 sseWrite *)
Definition sseWrite (event : string) (id : Z) (data : string) : string :=
  unlines (frame_lines event id data).

(** ** The app's side *)

(** A line ends at a line feed; a carriage return before it belongs to the ending. *)
Fixpoint strip_cr (s : string) : string :=
  match s with
  | EmptyString => EmptyString
  | String c EmptyString => if decide (c = CR) then EmptyString else s
  | String c s' => String c (strip_cr s')
  end.

(** [readUtf8Line] until the end of the body: an unterminated last line counts if it is not empty. *)
Fixpoint body_lines (ls : list string) : list string :=
  match ls with
  | [] => []
  | [l] => if decide (l = EmptyString) then [] else [l]
  | l :: ls' => strip_cr l :: body_lines ls'
  end.
Definition read_lines (body : string) : list string := body_lines (splitLines body).

(* @src app/android/app/src/main/kotlin/com/sakurasep/assistant/sse/SseParser.kt 9-16 !Event *)
Record sse_event := { ev_type : string; ev_data : string; ev_id : option string }.

(* @src app/android/app/src/main/kotlin/com/sakurasep/assistant/sse/SseParser.kt 18-20 !SseParser *)
Record sse_parser := { sp_eventName : option string; sp_dataLines : string; sp_lastId : option string }.

Definition new_parser : sse_parser :=
  {| sp_eventName := None; sp_dataLines := EmptyString; sp_lastId := None |}.

(** [line.indexOf(':')]: the field and the rest after the colon, if there is one. *)
Fixpoint cut_colon (line : string) : string * option string :=
  match line with
  | EmptyString => (EmptyString, None)
  | String c line' =>
    if decide (c = ":"%char) then (EmptyString, Some line')
    else let '(field, rest) := cut_colon line' in (String c field, rest)
  end.

(** [value.contains(U+FFFD)] on the UTF-8 bytes of the line. *)
Definition has_replacement (s : string) : bool :=
  if String.index 0 replacement_rune s then true else false.

(* @src app/android/app/src/main/kotlin/com/sakurasep/assistant/sse/SseParser.kt 54-60 !dispatch *)
Definition dispatch (p : sse_parser) : option sse_event * sse_parser :=
  (if decide (sp_dataLines p = EmptyString) then None
   else Some {| ev_type := default "message" (sp_eventName p); ev_data := sp_dataLines p; ev_id := sp_lastId p |},
   {| sp_eventName := None; sp_dataLines := EmptyString; sp_lastId := sp_lastId p |}).

(* @src app/android/app/src/main/kotlin/com/sakurasep/assistant/sse/SseParser.kt 25-52 !feed *)
Definition feed (line : string) (p : sse_parser) : option sse_event * sse_parser :=
  match line with
  | EmptyString => dispatch p
  | String c _ =>
    if decide (c = ":"%char) then (None, p)
    else
      let '(field, value) :=
        match cut_colon line with
        | (field, None) => (field, EmptyString)
        | (field, Some (String " " value)) => (field, value)
        | (field, Some value) => (field, value)
        end in
      (None,
       if decide (field = "event") then
         {| sp_eventName := Some value; sp_dataLines := sp_dataLines p; sp_lastId := sp_lastId p |}
       else if decide (field = "data") then
         {| sp_eventName := sp_eventName p;
            sp_dataLines := if decide (sp_dataLines p = EmptyString) then value
                            else sp_dataLines p +:+ (LF +:+ value);
            sp_lastId := sp_lastId p |}
       else if decide (field = "id") then
         if has_replacement value then p
         else {| sp_eventName := sp_eventName p; sp_dataLines := sp_dataLines p; sp_lastId := Some value |}
       else p)
  end.

(** The loop over the lines of the body: the events it hands on. *)
Fixpoint feed_all (ls : list string) (p : sse_parser) : list sse_event :=
  match ls with
  | [] => []
  | l :: ls' => let '(ev, p') := feed l p in
    match ev with Some ev => [ev] | None => [] end ++ feed_all ls' p'
  end.

(** ** Lines *)

(** No line ending inside. *)
Fixpoint plain (s : string) : bool :=
  match s with
  | EmptyString => true
  | String c s' => negb (bool_decide (c = "010"%char)) && negb (bool_decide (c = CR)) && plain s'
  end.

Fixpoint no_cr (s : string) : bool :=
  match s with EmptyString => true | String c s' => negb (bool_decide (c = CR)) && no_cr s' end.

Lemma string_app_cons c s t : String c s +:+ t = String c (s +:+ t).
Proof. reflexivity. Qed.

Lemma string_app_nil_r s : s +:+ "" = s.
Proof. induction s as [|c s IH]; [done|]. by rewrite string_app_cons, IH. Qed.

Lemma string_app_assoc s t u : (s +:+ t) +:+ u = s +:+ (t +:+ u).
Proof. induction s as [|c s IH]; [done|]. by rewrite !string_app_cons, IH. Qed.

Lemma splitLines_nonempty b : ∃ l ls, splitLines b = l :: ls.
Proof. destruct b as [|c b]; cbn; [eauto|]. case_decide; [eauto|]. destruct (splitLines b); eauto. Qed.

Lemma splitLines_line l rest : plain l → splitLines (l +:+ (LF +:+ rest)) = l :: splitLines rest.
Proof.
  induction l as [|c l IH]; [done|]. cbn [plain]. rewrite !andb_True. intros [[Hc _] Hl].
  rewrite negb_True, bool_decide_spec in Hc. rewrite string_app_cons. cbn [splitLines].
  by rewrite decide_False, IH by done.
Qed.

Lemma splitLines_plain b : no_cr b → Forall (λ l, plain l) (splitLines b).
Proof.
  induction b as [|c b IH]; cbn; [by repeat constructor|]. intros [Hc Hb]%andb_True.
  specialize (IH Hb). destruct (splitLines_nonempty b) as (l & ls & E). rewrite E in *.
  destruct (decide (c = "010"%char)) as [Hlf|Hlf]; [by constructor|]. apply Forall_cons in IH as [Hl Hls]. constructor; [|done].
  cbn. rewrite !andb_True. split; [|done]. split; [|done]. by rewrite negb_True, bool_decide_spec.
Qed.

Lemma strip_cr_plain l : plain l → strip_cr l = l.
Proof.
  induction l as [|c l IH]; cbn; [done|]. intros Hl. rewrite !andb_True in Hl. destruct Hl as [[_ Hc] Hl].
  rewrite negb_True, bool_decide_spec in Hc. destruct l; [by rewrite decide_False|]. by rewrite IH.
Qed.

Lemma read_lines_line l rest : plain l → read_lines (l +:+ (LF +:+ rest)) = l :: read_lines rest.
Proof.
  intros Hl. unfold read_lines. rewrite splitLines_line by done.
  destruct (splitLines_nonempty rest) as (l' & ls & E). rewrite E. cbn. by rewrite strip_cr_plain.
Qed.

Lemma read_unlines ls rest : Forall (λ l, plain l) ls → read_lines (unlines ls +:+ rest) = ls ++ read_lines rest.
Proof.
  induction 1 as [|l ls Hl _ IH]; [done|]. cbn [unlines]. rewrite !string_app_assoc, read_lines_line by done.
  cbn [app]. by rewrite IH.
Qed.

(** Joined again, the lines of a text are the text. *)
Definition join_lines (ls : list string) : string :=
  match ls with [] => EmptyString | l :: ls' => fold_left (λ s l, s +:+ (LF +:+ l)) ls' l end.

Lemma join_lines_cons c l ls : join_lines (String c l :: ls) = String c (join_lines (l :: ls)).
Proof. cbn. revert l. induction ls as [|l' ls IH]; intros l; [done|]. cbn. exact (IH (l +:+ (LF +:+ l'))). Qed.

Lemma join_lines_empty l ls : join_lines ("" :: l :: ls) = String "010"%char (join_lines (l :: ls)).
Proof. exact (join_lines_cons "010"%char l ls). Qed.

Lemma join_splitLines b : join_lines (splitLines b) = b.
Proof.
  induction b as [|c b IH]; [done|]. cbn [splitLines]. destruct (splitLines_nonempty b) as (l & ls & E).
  rewrite E in *. case_decide as Hc.
  - rewrite join_lines_empty, IH. by subst c.
  - by rewrite join_lines_cons, IH.
Qed.

(** ** What the app reads of a frame *)

(** What the hub sends: a one-line event name, and data without a carriage return that neither
    is empty nor begins with a line feed (a JSON object does neither). *)
Definition sendable (event data : string) : Prop :=
  plain event ∧ no_cr data ∧ data ≠ "" ∧ ∀ d, data ≠ String "010"%char d.

Lemma cut_colon_app f value : (∀ c, c ∈ String.list_ascii_of_string f → c ≠ ":"%char) →
  cut_colon (f +:+ (":" +:+ value)) = (f, Some value).
Proof.
  induction f as [|c f IH]; intros Hf; [done|]. rewrite string_app_cons. cbn [cut_colon].
  rewrite decide_False by (apply Hf; cbn; left). rewrite IH; [done|]. intros c' Hc'. apply Hf. cbn. by right.
Qed.

Lemma feed_event event p :
  feed ("event: " +:+ event) p =
    (None, {| sp_eventName := Some event; sp_dataLines := sp_dataLines p; sp_lastId := sp_lastId p |}).
Proof. reflexivity. Qed.

Lemma feed_data line p :
  feed ("data: " +:+ line) p =
    (None, {| sp_eventName := sp_eventName p;
              sp_dataLines := if decide (sp_dataLines p = "") then line else sp_dataLines p +:+ (LF +:+ line);
              sp_lastId := sp_lastId p |}).
Proof. reflexivity. Qed.

Lemma feed_id value p :
  has_replacement value = false →
  feed ("id: " +:+ value) p =
    (None, {| sp_eventName := sp_eventName p; sp_dataLines := sp_dataLines p; sp_lastId := Some value |}).
Proof.
  intros H. transitivity (@None sse_event, if has_replacement value then p else
    {| sp_eventName := sp_eventName p; sp_dataLines := sp_dataLines p; sp_lastId := Some value |}); [reflexivity|].
  by rewrite H.
Qed.

Lemma string_app_not_empty s t : t ≠ "" → s +:+ t ≠ "".
Proof. by destruct s. Qed.

(** The data lines after the first one, which was not empty. *)
Lemma feed_more_data ls rest p :
  sp_dataLines p ≠ "" →
  feed_all (((λ line, "data: " +:+ line) <$> ls) ++ rest) p =
  feed_all rest {| sp_eventName := sp_eventName p;
                   sp_dataLines := fold_left (λ s l, s +:+ (LF +:+ l)) ls (sp_dataLines p);
                   sp_lastId := sp_lastId p |}.
Proof.
  revert p. induction ls as [|l ls IH]; intros p Hp; [by destruct p|].
  rewrite fmap_cons. cbn [app feed_all]. rewrite feed_data, decide_False by done. cbn [app].
  rewrite IH; [done|]. cbn. intros H. by destruct (sp_dataLines p).
Qed.

Lemma feed_frame_data data rest p :
  sp_dataLines p = "" → data ≠ "" → (∀ d, data ≠ String "010"%char d) →
  feed_all (((λ line, "data: " +:+ line) <$> splitLines data) ++ rest) p =
  feed_all rest {| sp_eventName := sp_eventName p; sp_dataLines := data; sp_lastId := sp_lastId p |}.
Proof.
  intros Hp Hne Hlf. pose proof (join_splitLines data) as J.
  destruct (splitLines_nonempty data) as (l & ls & E). rewrite E in *.
  assert (l ≠ "") as Hl.
  { intros ->. destruct data as [|c d]; [done|]. cbn in E. case_decide as Hc; [subst c; by eapply Hlf|].
    by destruct (splitLines d). }
  rewrite fmap_cons. cbn [app feed_all]. rewrite feed_data, decide_True by done. cbn [app].
  rewrite feed_more_data by done. cbn [sp_dataLines sp_eventName sp_lastId].
  unfold join_lines in J. by rewrite J.
Qed.

(** The id after a frame. *)
Definition next_id (id : Z) (last : option string) : option string :=
  if decide (0 < id)%Z then Some (fmt_d id) else last.

Lemma digits_no_replacement s : all_digits s → has_replacement s = false.
Proof.
  intros Hs. unfold has_replacement. destruct (String.index 0 replacement_rune s) as [n|] eqn:E; [|done].
  exfalso. assert (∀ n s, all_digits s → String.index n replacement_rune s = None) as H; [|by rewrite H in E].
  clear. intros n s. revert n. induction s as [|c s IH]; intros n Hs; [by destruct n|].
  cbn in Hs. apply andb_True in Hs as [Hc Hs].
  assert (String.prefix replacement_rune (String c s) = false) as Hp.
  { unfold replacement_rune. cbn. match goal with |- (if ?d then _ else _) = _ => destruct d as [Hd|] end; [|done].
    by subst c. }
  destruct n as [|n]; cbn [String.index]; [rewrite Hp, (IH 0 Hs)|rewrite (IH n Hs)]; by destruct s.
Qed.

Lemma string_of_uint_digits d : all_digits (NilEmpty.string_of_uint d).
Proof. induction d; cbn; done. Qed.

Lemma fmt_d_digits z : (0 <= z)%Z → all_digits (fmt_d z).
Proof.
  intros Hz. unfold fmt_d, Z.to_int. destruct z as [|z|z]; [done| |lia].
  unfold NilZero.string_of_int, NilZero.string_of_uint. destruct (Pos.to_uint z) eqn:E; [done|..];
    rewrite <-E; apply string_of_uint_digits.
Qed.

Lemma digits_plain s : all_digits s → plain s.
Proof.
  induction s as [|c s IH]; [done|]. cbn [all_digits plain]. intros [Hc Hs]%andb_True.
  rewrite !andb_True. split; [|by apply IH]. split; rewrite negb_True, bool_decide_spec; by intros ->.
Qed.

Lemma plain_app s t : plain (s +:+ t) ↔ plain s ∧ plain t.
Proof.
  induction s as [|c s IH]; [cbn; tauto|]. rewrite string_app_cons. cbn [plain]. rewrite !andb_True, IH. tauto.
Qed.

Lemma frame_lines_plain event id data : sendable event data → Forall (λ l, plain l) (frame_lines event id data).
Proof.
  intros (He & Hd & _). unfold frame_lines. apply Forall_app. split; [|apply Forall_app; split; [|apply Forall_app; split]].
  - case_decide; [|constructor]. constructor; [|constructor]. apply plain_app. split; [done|].
    apply digits_plain, fmt_d_digits. lia.
  - constructor; [|constructor]. by apply plain_app.
  - apply Forall_fmap. eapply Forall_impl; [by apply splitLines_plain|]. intros l Hl. by apply plain_app.
  - by repeat constructor.
Qed.

Lemma feed_frame event id data rest last :
  sendable event data →
  feed_all (frame_lines event id data ++ rest) {| sp_eventName := None; sp_dataLines := ""; sp_lastId := last |} =
  {| ev_type := event; ev_data := data; ev_id := next_id id last |} ::
  feed_all rest {| sp_eventName := None; sp_dataLines := ""; sp_lastId := next_id id last |}.
Proof.
  intros (_ & _ & Hne & Hlf). unfold frame_lines. rewrite <-!app_assoc.
  set (p0 := {| sp_eventName := None; sp_dataLines := ""; sp_lastId := last |}).
  set (p1 := {| sp_eventName := None; sp_dataLines := ""; sp_lastId := next_id id last |}).
  assert (∀ ls, feed_all ((if decide (0 < id)%Z then ["id: " +:+ fmt_d id] else []) ++ ls) p0 = feed_all ls p1) as ->.
  { intros ls. unfold p1, next_id. case_decide; [|done]. cbn [app feed_all].
    by rewrite feed_id by (apply digits_no_replacement, fmt_d_digits; lia). }
  cbn [app feed_all]. rewrite feed_event. cbn [app].
  rewrite feed_frame_data by done. cbn [feed_all feed]. unfold dispatch. cbn. by rewrite decide_False.
Qed.

(** ** Properties *)

(** The events a sequence of frames stands for: a frame without a number keeps the last one. *)
Fixpoint sent_events (last : option string) (frames : list (string * Z * string)) : list sse_event :=
  match frames with
  | [] => []
  | (event, id, data) :: frames' =>
    {| ev_type := event; ev_data := data; ev_id := next_id id last |} :: sent_events (next_id id last) frames'
  end.

(** C21: the app reads the frames the hub writes.  Whatever frames the hub writes one after
    the other, what the app's parser makes of the bytes is exactly their names, data and
    numbers, in order: no frame is lost, split or invented by what its data contains. *)
Theorem sse_roundtrip (frames : list (string * Z * string))
    (Hsend : ∀ event id data, (event, id, data) ∈ frames → sendable event data) :
  feed_all (read_lines (concat_str ((λ f, sseWrite f.1.1 f.1.2 f.2) <$> frames))) new_parser =
  sent_events None frames.
Proof.
  unfold new_parser. set (last := None : option string) at 2 3. clearbody last. revert last.
  induction frames as [|[[event id] data] frames IH]; intros last; [done|].
  rewrite fmap_cons. cbn [concat_str fst snd sent_events]. unfold sseWrite at 1.
  assert (sendable event data) as Hs by (apply (Hsend event id); left).
  rewrite read_unlines by (by apply frame_lines_plain). rewrite feed_frame by done. f_equal.
  apply IH. intros e i d Hin. apply (Hsend e i). by right.
Qed.

Lemma sse_roundtrip_witness :
  feed_all (read_lines (sseWrite "message" 7 ("{" +:+ LF +:+ "}") +:+ sseWrite "ping" 0 "{}")) new_parser =
  [{| ev_type := "message"; ev_data := "{" +:+ LF +:+ "}"; ev_id := Some "7" |};
   {| ev_type := "ping"; ev_data := "{}"; ev_id := Some "7" |}].
Proof.
  exact (sse_roundtrip [("message", 7%Z, "{" +:+ LF +:+ "}"); ("ping", 0%Z, "{}")]
    ltac:(intros e i d Hin; repeat (apply elem_of_cons in Hin as [[= -> -> ->]|Hin];
      [split; [done|]; split; [done|]; split; [done|]; by intros d|]); by apply elem_of_nil in Hin)).
Defined.
