(* ===== verification/Handlers.v ===== *)
(** What the handlers of the read and management groups share: which errors a transaction can
    end with, the order of the keys they page by, and paging itself. *)

From S2P Require Import Prelude GoBase GoTime HubTypes HubStore Fault.
From Stdlib Require Import Ascii OrdersEx.
Local Open Scope Z_scope.

(** ** The order of byte strings *)

Lemma str_compare_OT a b : String.compare a b = String_as_OT.compare a b.
Proof. revert b. induction a as [|c a IH]; intros [|c' b]; cbn; by rewrite ?IH. Qed.

#[export] Instance str_lt_trans : Transitive str_lt.
Proof. intros a b c. unfold str_lt. rewrite !str_compare_OT. apply String_as_OT.lt_strorder. Qed.

#[export] Instance str_lt_irreflexive : Irreflexive str_lt.
Proof. intros a. apply str_lt_irrefl. Qed.

Lemma str_trichotomy a b : str_lt a b ∨ a = b ∨ str_lt b a.
Proof.
  unfold str_lt. rewrite (String.compare_antisym a b). destruct (String.compare b a) eqn:E; cbn; [|by right; right|by left].
  right. left. symmetry. by apply String.compare_eq_iff in E.
Qed.

Lemma str_le_lt a b : str_le a b ↔ str_lt a b ∨ a = b.
Proof.
  unfold str_le, str_lt. split; intros H.
  - destruct (String.compare a b) eqn:E; [right; by apply String.compare_eq_iff|by left|done].
  - destruct H as [H|H]; [by rewrite H|]. rewrite H. by rewrite str_compare_refl.
Qed.

#[export] Instance str_le_total : Total str_le.
Proof. intros a b. rewrite !str_le_lt. destruct (str_trichotomy a b) as [?|[->|?]]; tauto. Qed.

#[export] Instance str_le_trans : Transitive str_le.
Proof. intros a b c. rewrite !str_le_lt. intros [H1| ->] [H2| ->]; [left; by etransitivity|by left..|by right]. Qed.

(** ** Sorted by a key *)

(** [ORDER BY] a key without ties gives a strictly sorted list. *)
Lemma sort_strict {A K} (key : A → K) (le lt : K → K → Prop)
    (R : A → A → Prop) `{!∀ x y, Decision (R x y), !Transitive R, !Total R} (l : list A) :
  (∀ x y, R x y → le (key x) (key y)) → (∀ a b, le a b → lt a b ∨ a = b) →
  NoDup (key <$> l) → StronglySorted lt (key <$> merge_sort R l).
Proof.
  intros HR Hle Hnd. assert (StronglySorted R (merge_sort R l)) as Hs by (by apply StronglySorted_merge_sort).
  rewrite <-(merge_sort_Permutation R l) in Hnd. revert Hs Hnd. generalize (merge_sort R l). clear -HR Hle.
  induction l as [|x l IH]; [constructor|]. rewrite fmap_cons. intros [Hs Hx]%StronglySorted_inv [Hnin Hnd]%NoDup_cons.
  constructor; [by apply IH|]. rewrite Forall_fmap. rewrite Forall_forall in Hx. apply Forall_forall. intros y Hy. cbn.
  destruct (Hle _ _ (HR _ _ (Hx _ Hy))) as [?|Heq]; [done|]. destruct Hnin. rewrite Heq. by apply list_elem_of_fmap_2.
Qed.

(** ** Paging *)

Section paging.
Context {A : Type} (before : A → A → Prop) `{!∀ x y, Decision (before x y)}.
Context `{!Transitive before, !Irreflexive before}.

(** What follows a row of a sorted list. *)
Lemma rest_after l1 x l2 : StronglySorted before (l1 ++ x :: l2) → filter (before x) (l1 ++ x :: l2) = l2.
Proof.
  intros Hs. rewrite filter_app, (list_filter_none _ l1), filter_cons_False, list_filter_all; [done|..].
  - intros y Hy. apply StronglySorted_app_1_r, StronglySorted_inv in Hs as [_ Hx]. rewrite Forall_forall in Hx. by apply Hx.
  - apply irreflexivity; apply _.
  - intros y Hy Hxy. assert (before y x) as Hyx by (eapply (StronglySorted_app_1_elem_of before); [exact Hs|done|left]).
    by apply (irreflexivity before x); etransitivity.
Qed.

(** Page after page: at most [limit] rows after the cursor; the last row of a page that left
    something out is the next cursor. *)
Fixpoint walk (fuel limit : nat) (l : list A) (cursor : option A) : list A :=
  let todo := match cursor with Some x => filter (before x) l | None => l end in
  match fuel with
  | O => []
  | S fuel => if decide (limit < length todo)%nat then take limit todo ++ walk fuel limit l (last (take limit todo))
              else todo
  end.

Lemma walk_from fuel limit l1 l2 cursor :
  StronglySorted before (l1 ++ l2) → (0 < limit)%nat → (length l2 < fuel)%nat → last l1 = cursor →
  walk fuel limit (l1 ++ l2) cursor = l2.
Proof.
  intros Hs Hl. revert l1 l2 cursor Hs. induction fuel as [|fuel IH]; intros l1 l2 cursor Hs Hf Hc; [lia|]. cbn [walk].
  assert (match cursor with Some x => filter (before x) (l1 ++ l2) | None => l1 ++ l2 end = l2) as ->.
  { subst cursor. destruct (last l1) as [x|] eqn:E; [|by apply last_None in E as ->].
    apply last_Some in E as [l1' ->]. rewrite <-app_assoc in *. by apply rest_after. }
  destruct (decide (limit < length l2)%nat) as [Hlt|]; [|done].
  assert (take limit l2 ≠ []) as Hne by (intros Ht%(f_equal length); rewrite length_take in Ht; cbn in Ht; lia).
  assert (walk fuel limit (l1 ++ l2) (last (take limit l2)) = drop limit l2) as ->; [|apply take_drop].
  rewrite <-(take_drop limit l2) at 1. rewrite app_assoc. apply IH.
  - by rewrite <-app_assoc, take_drop.
  - rewrite length_drop. lia.
  - rewrite last_app. destruct (last (take limit l2)) as [x|] eqn:E; [done|by apply last_None in E].
Qed.

Lemma walk_all fuel limit l :
  StronglySorted before l → (0 < limit)%nat → (length l < fuel)%nat → walk fuel limit l None = l.
Proof. intros. by apply (walk_from fuel limit [] l None). Qed.
End paging.

(** ** Errors *)

(** Every error [m] ends with satisfies [P]. *)
Definition errs `{HE : HubEnv} {A} (P : herr → Prop) (m : stM World herr A) : Prop :=
  ∀ w e w', m w = (Err e, w') → P e.

Section errs.
Context `{HE : HubEnv}.
Notation HM := (stM World herr).
Variable P : herr → Prop.

Lemma errs_ret {A} (a : A) : errs P (mret a).
Proof. by intros w e w'. Qed.
Lemma errs_throw {A} e : P e → errs P (st_throw (A := A) e).
Proof. by intros He w e' w' [= <- _]. Qed.
Lemma errs_bind {A B} (m : HM A) (k : A → HM B) : errs P m → (∀ a, errs P (k a)) → errs P (m ≫= k).
Proof.
  intros Hm Hk w e w'. unfold mbind, stM_bind. destruct (m w) as [[a|e1] w1] eqn:E; [apply Hk|].
  intros [= <- _]. by eapply Hm.
Qed.
Lemma errs_try {A} (m : HM A) : errs P (st_try m).
Proof. intros w e w'. unfold st_try. by destruct (m w). Qed.
Lemma errs_now : errs P nowUTC.
Proof. by intros w e w'. Qed.
Lemma errs_id p : errs P (newID p).
Proof. by intros w e w'. Qed.
Lemma errs_token p : errs P (randToken p).
Proof. by intros w e w'. Qed.
Lemma errs_foldl {A B} (body : A → B → HM A) a xs : (∀ a x, errs P (body a x)) → errs P (st_foldl body a xs).
Proof.
  intros Hb. revert a. induction xs as [|x xs IH]; intros a; cbn; [apply errs_ret|].
  apply errs_bind; [apply Hb|]. intros. apply IH.
Qed.

Lemma errs_call {A} (f : db → outcome herr (A * db)) :
  P EIO → (∀ d e, f d = Err e → P e) → errs P (tx_call f).
Proof.
  intros Hio Hf w e w'. unfold tx_call. destruct (w_tx w) as [d|]; [|by intros [= <- _]].
  destruct (h_io _); [by intros [= <- _]|]. destruct (f d) as [[a d']|e1] eqn:E; [done|]. intros [= <- _]. by eapply Hf.
Qed.
Lemma errs_query {A} (f : db → A) : P EIO → errs P (tx_query f).
Proof. intros. by apply errs_call. Qed.
Lemma errs_rows {A} (f : db → list A) : P EIO → errs P (tx_rows f).
Proof. intros Hio w e w'. by apply errs_query. Qed.
Lemma errs_exec f : P EIO → errs P (tx_exec f).
Proof. intros. by apply errs_call. Qed.
Lemma errs_insert f : P EIO → P EConstraint → errs P (tx_insert f).
Proof. intros. apply errs_call; [done|]. intros d e. destruct (f d); [done|]. by intros [= <-]. Qed.
Lemma errs_row {A} (f : db → option A) : P EIO → P ENoRows → errs P (tx_row f).
Proof. intros. apply errs_call; [done|]. intros d e. destruct (f d); [done|]. by intros [= <-]. Qed.
Lemma errs_sourceName id : errs P (sourceName id).
Proof. apply errs_bind; [apply errs_try|intros; apply errs_ret]. Qed.
Lemma errs_heartbeat : errs P heartbeatSeconds.
Proof. apply errs_bind; [apply errs_try|intros; apply errs_ret]. Qed.

Lemma errs_changeObj typ ref obj n : P EIO → P EConstraint → errs P (insertChangeObj typ ref obj n).
Proof.
  intros. apply errs_bind; [apply errs_bind|intros q].
  - apply errs_call; [done|]. intros d e. by case_match.
  - intros [q|]; [apply errs_ret|]. apply errs_call; [done|]. by intros d e.
  - apply errs_bind; [apply errs_now|intros t]. apply errs_bind; [by apply errs_insert|intros; apply errs_ret].
Qed.
Lemma errs_sourceChange src ch : P EIO → P EConstraint → errs P (emitSourceChangeTx src ch).
Proof.
  intros. apply errs_bind; [apply errs_heartbeat|intros hb]. apply errs_bind; [apply errs_now|intros t].
  apply errs_bind; [by apply errs_changeObj|intros; apply errs_ret].
Qed.

(** A transaction ends with an error of its body or a failed call of its own. *)
Lemma errs_withTx {A} (fn : HM A) : P EIO → errs P fn → errs P (withTx fn).
Proof.
  intros Hio Hfn w e w'. unfold withTx. destruct (h_io _); [by intros [= <- _]|].
  destruct (fn _) as [[a|e1] w1] eqn:E; [|by intros [= <- _]; eapply Hfn].
  destruct (h_io _); [by intros [= <- _]|]. destruct (w_tx w1); [done|]. by intros [= <- _].
Qed.
End errs.

Create HintDb errsdb.
#[export] Hint Resolve errs_ret errs_throw errs_try errs_now errs_id errs_token errs_query errs_rows errs_exec errs_insert errs_row
  errs_sourceName errs_heartbeat errs_changeObj errs_sourceChange : errsdb.

Ltac errs_steps := repeat match goal with
  | |- errs _ (mbind _ _) => apply errs_bind; [|intros ?]
  | |- errs _ (st_foldl _ _ _) => apply errs_foldl; intros ??
  | |- errs _ (if ?b then _ else _) => destruct b
  | |- errs _ (match ?x with _ => _ end) => destruct x
  | |- _ => progress (eauto with errsdb)
  end.

(** The name of a source is read, never written. *)
Lemma reads_sourceName `{HE : HubEnv} id : reads (sourceName id).
Proof. apply reads_bind; [apply reads_try, untouched_row|intros r]. apply reads_ret. Qed.
#[export] Hint Resolve reads_sourceName : readsdb.

(** ** A quiet hub: no database call fails *)

Section quiet.
Context `{HE : HubEnv}.
Hypothesis Hio : ∀ n, h_io n = false.

Lemma db_query_quiet {A} (f : db → A) w : ∃ w', db_query f w = (Ok (f (w_db w)), w') ∧ w_db w' = w_db w.
Proof. unfold db_query, db_call. rewrite Hio. eexists. split; [reflexivity|done]. Qed.

Lemma db_query_quiet_step {A B} (f : db → A) (k : A → stM World herr B) w :
  ∃ w', w_db w' = w_db w ∧ (db_query f ≫= k) w = k (f (w_db w)) w'.
Proof.
  destruct (db_query_quiet f w) as (w' & E & H). exists w'. split; [done|]. by apply st_bind_Ok_step.
Qed.

(** An iteration that is never broken off. *)
Lemma db_rows_quiet {A} (f : db → list A) w : whole_rows → ∃ w', db_rows f w = (Ok (f (w_db w)), w') ∧ w_db w' = w_db w.
Proof. intros Hrows. unfold db_rows. rewrite Hrows. apply db_query_quiet. Qed.

(** The name a source has, for an object that mentions it. *)
Definition name_of (d : db) (id : string) : string :=
  match tbl_lookup id (d_sources d) with Some s => s_Name s | None => EmptyString end.

Lemma sourceName_quiet id w : ∃ w', w_db w' = w_db w ∧ sourceName id w = (Ok (name_of (w_db w) id), w').
Proof.
  unfold sourceName, st_try, db_row, db_call, mbind, stM_bind, mret, stM_ret, name_of. rewrite Hio.
  destruct (tbl_lookup _ _); (eexists; split; [|reflexivity]); done.
Qed.

(** A loop of calls that each answer. *)
Lemma collect_quiet {R J} (m : R → stM World herr J) (json : R → J) d rs acc w :
  w_db w = d → (∀ r w, w_db w = d → ∃ w', w_db w' = d ∧ m r w = (Ok (json r), w')) →
  ∃ w', w_db w' = d ∧ st_foldl (λ acc r, j ← m r; mret (acc ++ [j])) acc rs w = (Ok (acc ++ (json <$> rs)), w').
Proof.
  intros Hd Hm. revert acc w Hd. induction rs as [|r rs IH]; intros acc w Hd; cbn [st_foldl].
  - exists w. by rewrite app_nil_r.
  - destruct (Hm r w Hd) as (w1 & Hd1 & E). destruct (IH (acc ++ [json r]) w1 Hd1) as (w2 & Hd2 & E2).
    exists w2. split; [done|]. rewrite (st_bind_Ok_step _ _ w (acc ++ [json r]) w1).
    + by rewrite E2, <-app_assoc.
    + by rewrite (st_bind_Ok_step _ _ _ _ _ E).
Qed.
End quiet.
