(* ===== verification/Stream.v ===== *)
(** How the app keeps up with the change log ([hub/sse.go]): the long-lived stream with its
    replay and its subscription, running beside the transactions that commit and announce
    changes.  The paged catch-up is in [Sync].

    The stream is a state machine over the hub's world.  Between two of its steps any
    transaction may commit, and what a transaction committed is announced entry by entry,
    at some later time, by the goroutine that committed it: [sys_step] has both as steps of
    their own, so the order in which announcements arrive is not the order of the log.  A
    retention run commits like any other transaction, and takes old rows from the log. *)

From S2P Require Import Prelude GoBase GoTime HubTypes HubStore Fault Retention.
From Stdlib Require Import Ascii.
Local Open Scope Z_scope.

(** ** Frames *)

(** The data of a frame: a change, the reason of a resync, the time of a ping. *)
Inductive frame_data :=
| FChange (d : change_data)
| FReason (reason : string)
| FTime (serverTime : string).

Record frame := { fr_event : string; fr_id : Z; fr_data : frame_data }.

(* @src hub/sse.go 73-90 changeSSEData *)
(** The notify block goes into the object; only a message object has the field. *)
Definition changeSSEData (e : changeEntry) : change_data :=
  if negb (bool_decide (ce_Type e = "message"%string)) then ce_Data e
  else match ce_Notify e, ce_Data e with
       | Some nb, DMessage m => DMessage (set_mj_Notify (Some nb) m)
       | _, d => d
       end.

(* @src hub/sse.go 142-142 !handleStream *)
Definition frame_of (e : changeEntry) : frame :=
  {| fr_event := ce_Type e; fr_id := ce_Seq e; fr_data := FChange (changeSSEData e) |}.

Definition resync (reason : string) : frame := {| fr_event := "resync"; fr_id := 0; fr_data := FReason reason |}.

(** ** The stream *)

(** Where [handleStream] is: before the window check, before the subscription, before the
    replay, in its loop with the last number it wrote, or returned. *)
Inductive stream_at :=
| AtWindow (since : Z)
| AtSubscribe (since : Z)
| AtReplay (since : Z) (ch : nat)
| InLoop (ch : nat) (last : Z)
| Closed.

(** The cursor of a request: [None] is the answer 400. *)
(* @src hub/sse.go 101-114 !handleStream *)
Definition stream_since (query header : string) : option Z :=
  if decide (query = EmptyString) then
    if decide (header = EmptyString) then Some 0
    else match atoi header with Some v => Some (if decide (0 <= v) then v else 0) | None => Some 0 end
  else match atoi query with Some v => if decide (v < 0) then None else Some v | None => None end.

(** The numbers a page or a replay is cut from, in their order. *)
Definition change_order (a b : changeRow) : Prop := ch_seq a <= ch_seq b.
#[export] Instance change_order_dec a b : Decision (change_order a b).
Proof. unfold change_order. apply _. Defined.

Definition changes_after (since : Z) (d : db) : list changeRow :=
  filter (λ r, since < ch_seq r) (merge_sort change_order (d_changes d)).

Section stream.
Context `{HE : HubEnv}.
Notation HM := (stM World herr).

(* @src hub/sse.go 172-198 changesSince *)
Definition changesSince (since : Z) : HM (list changeEntry) :=
  db_query (λ d, entry_of <$> changes_after since d).

Definition subscribe : HM nat := λ w,
  let '(ch, b) := Subscribe (w_broker w) in (Ok ch, wset_broker b w).
Definition unsubscribe (ch : nat) : HM () := st_modify (λ w, wset_broker (Unsubscribe ch (w_broker w)) w).

(** [handleStream] up to its loop: one step for each place another goroutine may run.  A step
    returns what it wrote. *)
(* @src hub/sse.go 94-145 !handleStream *)
Definition stream_open (at_ : stream_at) : HM (stream_at * list frame) :=
  match at_ with
  | AtWindow since =>
    m ← minChangeSeq;
    match m with
    | Some minSeq => if decide (wrap64 (since + 1) < minSeq) then mret (Closed, [resync "cursor_expired"])
                     else mret (AtSubscribe since, [])
    | None => mret (AtSubscribe since, [])
    end
  | AtSubscribe since => ch ← subscribe; mret (AtReplay since ch, [])
  | AtReplay since ch =>
    replayed ← st_try (changesSince since);
    match replayed with
    | Err _ => unsubscribe ch ;; mret (Closed, [resync "internal"])
    | Ok es => mret (InLoop ch (foldl (λ _ e, ce_Seq e) since es), frame_of <$> es)
    end
  | _ => mret (at_, [])
  end%string.

(** A case of the loop's select: the client left, an entry arrived, the ping is due. *)
Inductive stream_case := CaseDone | CaseEntry | CasePing.

(* @src hub/sse.go 147-170 !handleStream *)
(** [CaseEntry] is not ready while the buffer is empty. *)
Definition stream_select (c : stream_case) (ch : nat) (last : Z) : HM (stream_at * list frame) :=
  match c with
  | CaseDone => unsubscribe ch ;; mret (Closed, [])
  | CaseEntry => λ w,
    match br_subs (w_broker w) !! ch with
    | Some (e :: buf) =>
      let w' := wset_broker {| br_next := br_next (w_broker w); br_subs := <[ch := buf]> (br_subs (w_broker w)) |} w in
      if decide (ce_Seq e <= last) then (Ok (InLoop ch last, []), w')
      else (Ok (InLoop ch (ce_Seq e), [frame_of e]), w')
    | _ => (Ok (InLoop ch last, []), w)
    end
  | CasePing =>
    now ← nowUTC;
    mret (InLoop ch last, [{| fr_event := "ping"; fr_id := 0; fr_data := FTime (fmtTS now) |}])
  end%string.
End stream.

(** ** The stream among the other goroutines *)

(** [sy_past]: everything the log has held since the request arrived, in its order, whether or
    not a retention run has removed it.  [sy_unsent]: per goroutine that committed, the entries
    it has yet to publish; the commits in their order.  [sy_out]: what the stream wrote. *)
Record sys := {
  sy_world : World;
  sy_past : list changeRow;
  sy_unsent : list (list changeEntry);
  sy_at : stream_at;
  sy_out : list frame }.

(** The channel the stream holds. *)
Definition channel (a : stream_at) : option nat :=
  match a with AtReplay _ ch => Some ch | InLoop ch _ => Some ch | _ => None end.

(** What a step is: a transaction that commits, a retention run that commits and may remove what
    is numbered up to [upto], the [i]-th goroutine publishing its next entry, the stream's next
    step on its way to the loop, a turn of its loop, anything else. *)
Inductive sys_label :=
| LCommit | LRetention (upto : Z) | LPublish (i : nat) | LOpen | LSelect (c : stream_case) | LOther.

(** The log has grown by [rows] and lost some of what is numbered up to [upto]. *)
Record log_pruned (upto : Z) (d d' : db) (rows : list changeRow) : Prop := {
  lp_seqs : ch_seq <$> rows = seqZ (change_seq d + 1) (Z.of_nat (length rows));
  lp_count : change_seq d' = change_seq d + Z.of_nat (length rows);
  lp_sub : d_changes d' `sublist_of` d_changes d ++ rows;
  lp_young : ∀ r, r ∈ d_changes d ++ rows → upto < ch_seq r → r ∈ d_changes d' }.

(** The tables with everything the log has held. *)
Definition history (s : sys) : db := set_d_changes (sy_past s) (w_db (sy_world s)).
Notation logged s := (entry_of <$> sy_past s).

(** A commit that logged [rows], yet to be announced. *)
Definition committed (w' : World) (rows : list changeRow) (s : sys) : sys :=
  {| sy_world := w'; sy_past := sy_past s ++ rows; sy_unsent := sy_unsent s ++ [entry_of <$> rows];
     sy_at := sy_at s; sy_out := sy_out s |}.

(** A step of the stream, or one that is none of its business. *)
Definition moved (w' : World) (a : stream_at) (fs : list frame) (s : sys) : sys :=
  {| sy_world := w'; sy_past := sy_past s; sy_unsent := sy_unsent s; sy_at := a; sy_out := sy_out s ++ fs |}.

Section sys.
Context `{HE : HubEnv}.

Inductive sys_step : sys_label → sys → sys → Prop :=
| step_commit s w' rows :
    w_broker w' = w_broker (sy_world s) → log_grows (w_db (sy_world s)) (w_db w') rows →
    sys_step LCommit s (committed w' rows s)
| step_retention s w' rows upto :
    w_broker w' = w_broker (sy_world s) → log_pruned upto (w_db (sy_world s)) (w_db w') rows →
    sys_step (LRetention upto) s (committed w' rows s)
| step_publish s i e es :
    sy_unsent s !! i = Some (e :: es) →
    sys_step (LPublish i) s
      {| sy_world := wset_broker (Publish e (w_broker (sy_world s))) (sy_world s); sy_past := sy_past s;
         sy_unsent := <[i := es]> (sy_unsent s); sy_at := sy_at s; sy_out := sy_out s |}
| step_open s a fs w' :
    stream_open (sy_at s) (sy_world s) = (Ok (a, fs), w') → sys_step LOpen s (moved w' a fs s)
| step_select s c ch last a fs w' :
    sy_at s = InLoop ch last → stream_select c ch last (sy_world s) = (Ok (a, fs), w') →
    sys_step (LSelect c) s (moved w' a fs s)
| step_other s w' :
    d_changes (w_db w') = d_changes (w_db (sy_world s)) → change_seq (w_db w') = change_seq (w_db (sy_world s)) →
    (∀ ch, channel (sy_at s) = Some ch → br_subs (w_broker w') !! ch = br_subs (w_broker (sy_world s)) !! ch) →
    sys_step LOther s (moved w' (sy_at s) [] s).

(** A request with cursor [since] arrives: everything announced so far, and everything still
    to be announced, is in the log. *)
Definition arrives (since : Z) (s : sys) : Prop :=
  sy_at s = AtWindow since ∧ sy_out s = [] ∧ log_ok (w_db (sy_world s)) ∧ sy_past s = d_changes (w_db (sy_world s)) ∧
  concat (sy_unsent s) ⊆ logged s.

Inductive sys_run (P : sys_label → sys → Prop) (s : sys) : sys → Prop :=
| run_nil : sys_run P s s
| run_snoc s1 l s2 : sys_run P s s1 → P l s1 → sys_step l s1 s2 → sys_run P s s2.
End sys.

(** The changes among the frames. *)
Definition is_change (f : frame) : Prop := match fr_data f with FChange _ => True | _ => False end.
#[export] Instance is_change_dec f : Decision (is_change f).
Proof. unfold is_change. destruct (fr_data f); apply _. Defined.
Definition changes_out (s : sys) : list frame := filter is_change (sy_out s).

(** The stream's buffer has room. *)
Definition room (s : sys) : Prop :=
  match channel (sy_at s) with
  | Some ch => match br_subs (w_broker (sy_world s)) !! ch with
               | Some buf => (length buf < 256)%nat
               | None => True
               end
  | None => True
  end.
#[export] Instance room_dec s : Decision (room s).
Proof. unfold room. destruct (channel _); [destruct (_ !! _)|]; apply _. Defined.

(** The cursor, until the replay is read. *)
Definition connecting (a : stream_at) : option Z :=
  match a with AtWindow v | AtSubscribe v | AtReplay v _ => Some v | _ => None end.

(** An orderly step.  Publication: the oldest entry first, and there is room in the stream's
    buffer.  Retention: until the replay is read nothing above the cursor is removed. *)
Definition orderly (l : sys_label) (s : sys) : Prop :=
  match l with
  | LPublish i => concat (take i (sy_unsent s)) = [] ∧ room s
  | LRetention upto => match connecting (sy_at s) with Some v => upto <= v | None => True end
  | _ => True
  end.
#[export] Instance orderly_dec l s : Decision (orderly l s).
Proof. destruct l; cbn; [..|destruct (connecting _)| | | |]; apply _. Defined.

(** ** What the steps do *)

Lemma elem_of_concat {A} (x : A) ls : x ∈ concat ls ↔ ∃ l, x ∈ l ∧ l ∈ ls.
Proof.
  rewrite list_elem_of_In, in_concat. split; intros (l & H1 & H2); exists l; rewrite !list_elem_of_In in *; done.
Qed.

Lemma filter_entries (P : Z → Prop) `{!∀ q, Decision (P q)} (rows : list changeRow) :
  entry_of <$> filter (λ r, P (ch_seq r)) rows = filter (λ e, P (ce_Seq e)) (entry_of <$> rows).
Proof.
  induction rows as [|r rows IH]; [done|]. rewrite fmap_cons, !filter_cons. cbn [ce_Seq entry_of].
  case_decide; [by rewrite fmap_cons, IH|done].
Qed.

Lemma entry_seqs (rows : list changeRow) : ce_Seq <$> (entry_of <$> rows) = ch_seq <$> rows.
Proof. by rewrite <-list_fmap_compose. Qed.

(** A log in order is what sorting it gives. *)
Lemma changes_after_ok since d : log_ok d → changes_after since d = filter (λ r, since < ch_seq r) (d_changes d).
Proof.
  intros [Hs _]. unfold changes_after. f_equal.
  assert (NoDup (ch_seq <$> d_changes d)) as Hnd by (by apply sorted_lt_distinct).
  apply StronglySorted_unique_strong with (R := change_order).
  - intros a b Ha Hb H1 H2. rewrite merge_sort_Permutation in Ha. unfold change_order in H1, H2.
    assert (ch_seq a = ch_seq b) as Heq by lia. clear H1 H2.
    apply list_elem_of_lookup in Ha as [i Ha], Hb as [j Hb].
    assert (i = j) as ->; [|by simplify_eq].
    eapply NoDup_lookup; [exact Hnd|rewrite list_lookup_fmap, Ha; done|rewrite list_lookup_fmap, Hb; cbn; by rewrite Heq].
  - apply StronglySorted_merge_sort; [intros x y z; unfold change_order; lia|intros x y; unfold change_order; lia].
  - clear Hnd. induction (d_changes d) as [|r l IH]; [constructor|]. rewrite fmap_cons in Hs.
    apply StronglySorted_inv in Hs as [Hs Hr]. constructor; [by apply IH|].
    rewrite Forall_fmap in Hr. eapply Forall_impl; [exact Hr|]. unfold change_order. cbn. lia.
  - apply merge_sort_Permutation.
Qed.

(** What is numbered above the last number removed is all there, in its order. *)
Lemma sublist_filter_all {A} (P : A → Prop) `{!∀ x, Decision (P x)} (l k : list A) :
  l `sublist_of` k → NoDup k → (∀ x, x ∈ k → P x → x ∈ l) → filter P l = filter P k.
Proof.
  induction 1 as [|x l k Hsub IH|x l k Hsub IH]; intros Hnd Hin; [done|..]; apply NoDup_cons in Hnd as [Hx Hnd];
    rewrite !filter_cons.
  - rewrite IH; [done..|]. intros y Hy HP. specialize (Hin y ltac:(by right) HP).
    apply elem_of_cons in Hin as [->|?]; [done|done].
  - rewrite decide_False, IH; [done..| |].
    + intros y Hy HP. apply Hin; [by right|done].
    + intros HP. apply Hx. eapply sublist_subseteq; [exact Hsub|]. apply Hin; [left|done].
Qed.

Lemma sublist_sorted {A} (R : A → A → Prop) (l k : list A) : l `sublist_of` k → StronglySorted R k → StronglySorted R l.
Proof.
  induction 1 as [|x l k Hsub IH|x l k Hsub IH]; [done|..]; intros [Hs Hx]%StronglySorted_inv; [|by apply IH].
  constructor; [by apply IH|]. rewrite Forall_forall in Hx |- *. intros y Hy. apply Hx. by eapply sublist_subseteq.
Qed.

Lemma log_sub_ok d l : log_ok d → l `sublist_of` d_changes d → log_ok (set_d_changes l d).
Proof.
  intros [Hs Hb] Hl. split; cbn.
  - eapply sublist_sorted; [|exact Hs]. by apply fmap_sublist.
  - rewrite Forall_forall in Hb |- *. intros r Hr. apply (Hb r). by eapply sublist_subseteq.
Qed.

(** Without removals a step of the log is one with them. *)
Lemma log_grows_pruned upto d d' rows : log_grows d d' rows → log_pruned upto d d' rows.
Proof. intros (Hc & Hq & Hn). by split; rewrite ?Hc. Qed.

(** Whatever is removed, the history grows. *)
Lemma history_grows upto w' rows s :
  log_pruned upto (w_db (sy_world s)) (w_db w') rows → log_grows (history s) (history (committed w' rows s)) rows.
Proof. intros [Hq Hn _ _]. by split. Qed.

Section stream_lemmas.
Context `{HE : HubEnv}.

Lemma db_query_run {A} (f : db → A) w :
  db_query f w = (Err EIO, wset_calls (S (w_calls w)) w) ∨ ∃ w', db_query f w = (Ok (f (w_db w)), w') ∧ w' = wset_calls (S (w_calls w)) w.
Proof.
  unfold db_query, db_call. destruct (h_io _); [by left|]. right. eexists. split; [|done]. by destruct w.
Qed.

(** One step towards the loop. *)
Lemma stream_open_spec at_ w a fs w' :
  stream_open at_ w = (Ok (a, fs), w') →
  w_db w' = w_db w ∧
  match at_ with
  | AtWindow since => w_broker w' = w_broker w ∧
      (a = Closed ∧ fs = [resync "cursor_expired"] ∨ a = AtSubscribe since ∧ fs = [])
  | AtSubscribe since => a = AtReplay since (br_next (w_broker w)) ∧ fs = [] ∧
      w_broker w' = (Subscribe (w_broker w)).2
  | AtReplay since ch =>
      a = Closed ∧ fs = [resync "internal"] ∨
      w_broker w' = w_broker w ∧
      let es := entry_of <$> changes_after since (w_db w) in
      a = InLoop ch (foldl (λ _ e, ce_Seq e) since es) ∧ fs = frame_of <$> es
  | _ => a = at_ ∧ fs = [] ∧ w' = w
  end.
Proof.
  destruct at_ as [since|since|since ch|ch last|]; cbn [stream_open].
  - unfold minChangeSeq, st_try. unfold mbind, stM_bind.
    destruct (db_query_run (λ d, min_seq (d_changes d)) w) as [->|(w1 & -> & ->)].
    + intros [= <- <- <-]. eauto.
    + unfold mret, stM_ret. destruct (min_seq _); [case_decide|]; intros [= <- <- <-]; eauto.
  - unfold subscribe, mbind, stM_bind, mret, stM_ret. cbn. intros [= <- <- <-]. eauto.
  - unfold changesSince, st_try. unfold mbind, stM_bind.
    destruct (db_query_run (λ d, entry_of <$> changes_after since d) w) as [->|(w1 & -> & ->)].
    + intros [= <- <- <-]. eauto.
    + intros [= <- <- <-]. split; [done|]. by right.
  - by intros [= <- <- <-].
  - by intros [= <- <- <-].
Qed.

(** A turn of the loop. *)
Lemma stream_select_spec c ch last w a fs w' :
  stream_select c ch last w = (Ok (a, fs), w') →
  w_db w' = w_db w ∧
  (a = Closed ∧ fs = [] ∨
   a = InLoop ch last ∧ filter is_change fs = [] ∧ w_broker w' = w_broker w ∨
   ∃ e buf, br_subs (w_broker w) !! ch = Some (e :: buf) ∧ br_subs (w_broker w') !! ch = Some buf ∧
     (ce_Seq e <= last ∧ a = InLoop ch last ∧ fs = [] ∨ last < ce_Seq e ∧ a = InLoop ch (ce_Seq e) ∧ fs = [frame_of e])).
Proof.
  destruct c; cbn [stream_select].
  - intros [= <- <- <-]. eauto.
  - destruct (br_subs (w_broker w) !! ch) as [[|e buf]|] eqn:Eb;
      [intros [= <- <- <-]; split; [done|by right; left]|..|intros [= <- <- <-]; split; [done|by right; left]].
    cbv zeta. case_decide; intros [= <- <- <-]; (split; [done|]); right; right; exists e, buf;
      (split; [done|]); (split; [cbn; apply lookup_insert_eq|]); [by left|right; split; [lia|done]].
  - intros [= <- <- <-]. split; [done|]. right. left. done.
Qed.

(** What a stream does to the subscribers: it joins, leaves, and takes what it was sent. *)
Inductive broker_event := BPublish (e : changeEntry) | BSubscribe | BUnsubscribe (ch : nat) | BReceive (ch : nat).

Definition broker_step (b : broker) (ev : broker_event) : broker :=
  match ev with
  | BPublish e => Publish e b
  | BSubscribe => (Subscribe b).2
  | BUnsubscribe ch => Unsubscribe ch b
  | BReceive ch => {| br_next := br_next b; br_subs := alter tail ch (br_subs b) |}
  end.

Definition published (ev : broker_event) : option changeEntry := match ev with BPublish e => Some e | _ => None end.

(** One turn of a stream: it ends without an error, touches no table, publishes nothing. *)
Definition stream_turn (c : stream_case) (at_ : stream_at) : stM World herr (stream_at * list frame) :=
  match at_ with InLoop ch last => stream_select c ch last | _ => stream_open at_ end.

Lemma stream_turn_spec c at_ w :
  ∃ a fs w' evs, stream_turn c at_ w = (Ok (a, fs), w') ∧ w_db w' = w_db w ∧ w_tx w' = w_tx w ∧
    w_broker w' = foldl broker_step (w_broker w) evs ∧ omap published evs = [].
Proof.
  destruct at_ as [since|since|since ch|ch last|]; cbn [stream_turn stream_open].
  - unfold minChangeSeq, st_try. unfold mbind, stM_bind.
    destruct (db_query_run (λ d, min_seq (d_changes d)) w) as [->|(w1 & -> & ->)].
    + by eexists _, _, _, [].
    + unfold mret, stM_ret. destruct (min_seq _); [case_decide|]; by eexists _, _, _, [].
  - by eexists _, _, _, [BSubscribe].
  - unfold changesSince, st_try. unfold mbind, stM_bind.
    destruct (db_query_run (λ d, entry_of <$> changes_after since d) w) as [->|(w1 & -> & ->)].
    + by eexists _, _, _, [BUnsubscribe ch].
    + by eexists _, _, _, [].
  - destruct c; cbn [stream_select].
    + by eexists _, _, _, [BUnsubscribe ch].
    + destruct (br_subs (w_broker w) !! ch) as [[|e buf]|] eqn:Eb; [by eexists _, _, _, []|..|by eexists _, _, _, []].
      assert (alter tail ch (br_subs (w_broker w)) = <[ch := buf]> (br_subs (w_broker w))) as Ha.
      { apply map_eq. intros j. destruct (decide (ch = j)) as [<-|Hne];
          [by rewrite lookup_alter_eq, lookup_insert_eq, Eb|by rewrite lookup_alter_ne, lookup_insert_ne]. }
      cbv zeta. case_decide; eexists _, _, _, [BReceive ch]; (split; [reflexivity|]); cbn; by rewrite Ha.
    + by eexists _, _, _, [].
  - by eexists _, _, _, [].
Qed.

(** The last number of a replay. *)
Lemma last_seq since (es : list changeEntry) :
  StronglySorted Z.lt (ce_Seq <$> es) → Forall (λ e, since < ce_Seq e) es →
  since <= foldl (λ _ e, ce_Seq e) since es ∧ Forall (λ e, ce_Seq e <= foldl (λ _ e, ce_Seq e) since es) es ∧
  (foldl (λ _ e, ce_Seq e) since es = since ∨ foldl (λ _ e, ce_Seq e) since es ∈ ce_Seq <$> es).
Proof.
  revert since. induction es as [|e es IH]; intros since Hs Hf;
    [cbn; split; [lia|]; split; [constructor|by left]|].
  rewrite fmap_cons in Hs. apply StronglySorted_inv in Hs as [Hs He]. apply Forall_cons in Hf as [Hse Hf]. cbn [foldl].
  rewrite Forall_fmap in He. destruct (IH (ce_Seq e) Hs He) as (H1 & H2 & H3).
  split; [lia|]. split; [by constructor|]. right. rewrite fmap_cons. destruct H3 as [->|H3]; [left|by right].
Qed.
End stream_lemmas.

(** ** Order: nothing twice, nothing invented, nothing out of order *)

Section ordered.
Context `{HE : HubEnv}.
Variable since : Z.

(** Everything written so far comes from what the log has held, in its order, above the cursor; up to the
    last number while the stream is in its loop. *)
Definition written (s : sys) (bound : Z → Prop) : Prop :=
  ∃ es, changes_out s = frame_of <$> es ∧ es ⊆ logged s ∧ StronglySorted Z.lt (ce_Seq <$> es) ∧
    Forall (λ e, since < ce_Seq e ∧ bound (ce_Seq e)) es.

Definition buffered (s : sys) : Prop :=
  ∀ ch buf, channel (sy_at s) = Some ch → br_subs (w_broker (sy_world s)) !! ch = Some buf → buf ⊆ logged s.

Record stream_inv (s : sys) : Prop := {
  si_log : log_ok (history s);
  si_sub : d_changes (w_db (sy_world s)) `sublist_of` sy_past s;
  si_unsent : concat (sy_unsent s) ⊆ logged s;
  si_buffer : buffered s;
  si_at : match sy_at s with
          | AtWindow v | AtSubscribe v | AtReplay v _ => v = since ∧ sy_out s = []
          | InLoop _ last => since <= last ∧ written s (λ q, q <= last)
          | Closed => written s (λ _, True)
          end }.

Lemma history_log s : sy_past s = d_changes (w_db (sy_world s)) → history s = w_db (sy_world s).
Proof. intros Hp. unfold history. rewrite Hp. by destruct (w_db _). Qed.

(** The log itself is in order. *)
Lemma now_ok s : log_ok (history s) → d_changes (w_db (sy_world s)) `sublist_of` sy_past s → log_ok (w_db (sy_world s)).
Proof. intros Hl Hs. pose proof (log_sub_ok (history s) _ Hl Hs) as H. unfold history in H. by destruct (w_db _). Qed.

(** Steps that leave the log alone. *)
Lemma moved_history w' a fs s : w_db w' = w_db (sy_world s) → history (moved w' a fs s) = history s.
Proof. intros Hd. unfold history. cbn. by rewrite Hd. Qed.

Lemma arrives_inv s : arrives since s → stream_inv s.
Proof.
  intros (Ha & Ho & Hl & Hp & Hu). split; [by rewrite (history_log s Hp)|by rewrite Hp|done|intros ch buf Hch|]; by rewrite Ha in *.
Qed.

Lemma written_weaken s (P Q : Z → Prop) : (∀ q, P q → Q q) → written s P → written s Q.
Proof.
  intros HPQ (es & H1 & H2 & H3 & H4). exists es. split_and!; [done..|].
  eapply Forall_impl; [exact H4|]. naive_solver.
Qed.

(** A log that has grown, the frames unchanged. *)
Lemma written_grows s s' P : logged s ⊆ logged s' → changes_out s' = changes_out s → written s P → written s' P.
Proof. intros Hl Ho (es & H1 & H2 & H3 & H4). exists es. split; [congruence|]. set_solver. Qed.

Lemma written_nil s P : changes_out s = [] → written s P.
Proof. intros Ho. exists []. split; [done|]. split; [set_solver|]. split; constructor. Qed.

Lemma try_send_sub (e : changeEntry) buf l : e ∈ l → buf ⊆ l → try_send e buf ⊆ l.
Proof. intros. unfold try_send. case_decide; set_solver. Qed.

Lemma changes_frames (es : list changeEntry) : filter is_change (frame_of <$> es) = frame_of <$> es.
Proof. apply list_filter_all. by intros f (e & -> & _)%list_elem_of_fmap. Qed.

Lemma changes_out_app s a w fs : changes_out (moved w a fs s) = changes_out s ++ filter is_change fs.
Proof. unfold changes_out. cbn. apply filter_app. Qed.

Lemma open_inv s a fs w' :
  stream_inv s → stream_open (sy_at s) (sy_world s) = (Ok (a, fs), w') → stream_inv (moved w' a fs s).
Proof.
  intros [Hl Hsub Hu Hb Ha] H. apply stream_open_spec in H as [Hd H].
  pose proof (now_ok s Hl Hsub) as Hnow. pose proof (moved_history w' a fs s Hd) as Hh.
  destruct (sy_at s) as [v|v|v ch|ch last|] eqn:E.
  - destruct Ha as [-> Ho]. destruct H as (Hbr & [[-> ->]|[-> ->]]); split; rewrite ?Hh; cbn; rewrite ?Hd; try done.
    + apply written_nil. unfold changes_out. cbn. by rewrite Ho.
    + by rewrite app_nil_r.
  - destruct Ha as [-> Ho]. destruct H as (-> & -> & Hbr); split; rewrite ?Hh; cbn; rewrite ?Hd; try done.
    + intros ch buf [= <-]. cbn. rewrite Hbr. cbn. rewrite lookup_insert_eq. intros [= <-]. set_solver.
    + by rewrite app_nil_r.
  - destruct Ha as [-> Ho]. destruct H as [[-> ->]|(Hbr & -> & ->)]; split; rewrite ?Hh; cbn; rewrite ?Hd; try done.
    + apply written_nil. unfold changes_out. cbn. by rewrite Ho.
    + intros ch' buf [= <-]. cbn. rewrite Hbr. apply Hb. by rewrite E.
    + rewrite changes_after_ok by done. set (rs := filter _ _). set (es := entry_of <$> rs).
      assert (StronglySorted Z.lt (ce_Seq <$> es)) as Hs.
      { unfold es, rs. rewrite entry_seqs. apply sorted_filter_key, Hnow. }
      assert (Forall (λ e, since < ce_Seq e) es) as Hf.
      { unfold es, rs. rewrite Forall_fmap, Forall_forall. by intros r [Hr _]%list_elem_of_filter. }
      destruct (last_seq since es Hs Hf) as (H1 & H2 & _). split; [done|].
      exists es. split; [unfold changes_out; cbn; rewrite Ho; cbn [app]; apply changes_frames|].
      split; [|split; [done|by apply Forall_and]].
      intros e (r & -> & [_ Hr]%list_elem_of_filter)%list_elem_of_fmap. apply list_elem_of_fmap. exists r.
      split; [done|]. by eapply sublist_subseteq.
  - destruct H as (-> & -> & ->). unfold moved. rewrite app_nil_r. destruct s; cbn in *. by subst.
  - destruct H as (-> & -> & ->). unfold moved. rewrite app_nil_r. destruct s; cbn in *. by subst.
Qed.

Lemma select_inv s c ch last a fs w' :
  stream_inv s → sy_at s = InLoop ch last → stream_select c ch last (sy_world s) = (Ok (a, fs), w') →
  stream_inv (moved w' a fs s).
Proof.
  intros [Hl Hsub Hu Hb Ha] E H. apply stream_select_spec in H as [Hd H]. rewrite E in Ha. destruct Ha as [Hsl Hw].
  unfold buffered in Hb. rewrite E in Hb. specialize (Hb ch). pose proof (moved_history w' a fs s Hd) as Hh.
  assert (∀ a fs', filter is_change fs' = [] → ∀ P, written s P → written (moved w' a fs' s) P) as Hkeep.
  { intros a0 fs' Hfs P. apply written_grows; [done|]. by rewrite changes_out_app, Hfs, app_nil_r. }
  destruct H as [(-> & ->)|[(-> & Hfs & Hbr)|(e & buf & Hbuf & Hbuf' & H)]].
  - split; rewrite ?Hh; cbn; rewrite ?Hd; try done. apply Hkeep; [done|]. by eapply written_weaken, Hw.
  - split; rewrite ?Hh; cbn; rewrite ?Hd; try done; [|split; [done|by apply Hkeep]].
    intros ch' buf [= <-]. cbn. rewrite Hbr. by apply Hb.
  - specialize (Hb _ eq_refl Hbuf). destruct H as [(Hle & -> & ->)|(Hlt & -> & ->)];
      split; rewrite ?Hh; cbn; rewrite ?Hd; try done.
    + intros ch' buf' [= <-]. cbn. rewrite Hbuf'. intros [= <-]. set_solver.
    + split; [done|]. by apply Hkeep.
    + intros ch' buf' [= <-]. cbn. rewrite Hbuf'. intros [= <-]. set_solver.
    + split; [lia|]. destruct Hw as (es & Hes & Hin & Hsort & Hall). exists (es ++ [e]).
      split; [by rewrite changes_out_app, fmap_app, Hes|]. cbn. split; [set_solver|]. split.
      * rewrite fmap_app. apply StronglySorted_app_2; [|done|repeat constructor].
        intros x y (e' & -> & He')%list_elem_of_fmap ->%list_elem_of_singleton.
        rewrite Forall_forall in Hall. specialize (Hall _ He'). lia.
      * apply Forall_app. split; [|by constructor; [split; lia|constructor]].
        eapply Forall_impl; [exact Hall|]. cbn. lia.
Qed.

(** A commit, whatever it takes from the log. *)
Lemma commit_inv upto s w' rows :
  stream_inv s → w_broker w' = w_broker (sy_world s) → log_pruned upto (w_db (sy_world s)) (w_db w') rows →
  stream_inv (committed w' rows s).
Proof.
  intros [Hl Hsub Hu Hb Ha] Hbr Hg.
  assert (logged (committed w' rows s) = logged s ++ (entry_of <$> rows)) as Hlog by apply fmap_app.
  split; [by eapply log_grows_ok, history_grows|..]; rewrite ?Hlog; cbn.
  - etransitivity; [exact (lp_sub _ _ _ _ Hg)|]. by apply sublist_app.
  - rewrite concat_app. cbn. rewrite app_nil_r. set_solver.
  - intros ch buf Hch. rewrite Hlog. cbn. rewrite Hbr. intros Hbuf. specialize (Hb ch buf Hch Hbuf). set_solver.
  - destruct (sy_at s); [done..| |]; [destruct Ha as [? Ha]; split; [done|]|];
      (eapply (written_grows s); [|done|exact Ha]); rewrite Hlog; set_solver.
Qed.

Lemma publish_inv s i e es :
  stream_inv s → sy_unsent s !! i = Some (e :: es) →
  stream_inv {| sy_world := wset_broker (Publish e (w_broker (sy_world s))) (sy_world s); sy_past := sy_past s;
                sy_unsent := <[i := es]> (sy_unsent s); sy_at := sy_at s; sy_out := sy_out s |}.
Proof.
  intros [Hl Hsub Hu Hb Ha] Hi. assert (e ∈ logged s ∧ es ⊆ logged s) as [He Hes].
  { apply list_elem_of_lookup_2 in Hi. assert (∀ x, x ∈ e :: es → x ∈ logged s); [|set_solver].
    intros x Hx. apply Hu. apply elem_of_concat. eauto. }
  split; cbn; [done|done| | |].
  - intros x (l & Hx & Hin)%elem_of_concat. apply list_elem_of_lookup in Hin as [j Hj].
    destruct (decide (j = i)) as [->|Hne].
    + apply list_lookup_insert_Some in Hj. destruct Hj as [(_ & -> & _)|[? _]]; [by apply Hes|done].
    + rewrite list_lookup_insert_ne in Hj by done. apply Hu. apply elem_of_concat.
      exists l. split; [done|]. by eapply list_elem_of_lookup_2.
  - intros ch buf Hch. cbn. rewrite lookup_fmap. destruct (br_subs _ !! ch) as [b0|] eqn:Eb; [|done].
    intros [= <-]. apply try_send_sub; [done|]. by eapply Hb.
  - destruct (sy_at s); done.
Qed.

Lemma step_inv l s s' : sys_step l s s' → stream_inv s → stream_inv s'.
Proof.
  intros Hstep Hi. destruct Hstep as [s w' rows Hbr Hg|s w' rows upto Hbr Hg|s i e es Hi'|s a fs w' H|s c ch last a fs w' Ha H|s w' Hc Hq Hb].
  - by eapply (commit_inv 0), log_grows_pruned.
  - by eapply commit_inv.
  - by apply publish_inv.
  - by apply open_inv.
  - by eapply select_inv.
  - destruct Hi as [Hl Hsub Hu Hb' Ha].
    assert (∀ P, written s P → written (moved w' (sy_at s) [] s) P) as Hkeep.
    { intros P. apply written_grows; [done|]. by rewrite changes_out_app, app_nil_r. }
    split; cbn; rewrite ?Hc, ?app_nil_r; try done.
    + destruct Hl as [Hs Hn]. split; [exact Hs|]. change (change_seq (history (moved w' (sy_at s) [] s))) with (change_seq (w_db w')).
      rewrite Hq. exact Hn.
    + intros ch buf Hch. cbn. rewrite Hb by done. by apply Hb'.
    + destruct (sy_at s); [done..| |]; [destruct Ha as [? Ha]; split; [done|]|]; by apply Hkeep.
Qed.
End ordered.

(** Without a retention run the log is all it has held. *)
Lemma past_is_log `{HE : HubEnv} s s' :
  sys_run (λ l _, ∀ upto, l ≠ LRetention upto) s s' → sy_past s = d_changes (w_db (sy_world s)) →
  sy_past s' = d_changes (w_db (sy_world s')).
Proof.
  induction 1 as [|s1 l s2 _ IH Hl Hstep]; [done|]. intros Hp. specialize (IH Hp).
  destruct Hstep as [s0 w' rows _ Hg|s0 w' rows cut|s0 i e es|s0 a fs w' H|s0 c ch last a fs w' _ H|s0 w' Hc]; cbn.
  - destruct Hg as (-> & _). by rewrite IH.
  - by destruct (Hl cut).
  - done.
  - apply stream_open_spec in H as [Hd _]. by rewrite Hd.
  - apply stream_select_spec in H as [Hd _]. by rewrite Hd.
  - by rewrite Hc.
Qed.

(** ** Completeness: with orderly publication nothing is missing *)

Section complete.
Context `{HE : HubEnv}.
Variable since : Z.

(** The oldest announcements are out: what is to come is the rest of what was logged, in its
    order. *)
Definition in_step (s : sys) (pre buf : list changeEntry) : Prop := logged s = pre ++ buf ++ concat (sy_unsent s).

Definition upto (last : Z) (s : sys) : list changeEntry := filter (λ e, since < ce_Seq e <= last) (logged s).

Record tidy_inv (s : sys) : Prop := {
  ti_log : log_ok (history s);
  ti_sub : d_changes (w_db (sy_world s)) `sublist_of` sy_past s;
  ti_whole : is_Some (connecting (sy_at s)) →
    filter (λ r, since < ch_seq r) (d_changes (w_db (sy_world s))) = filter (λ r, since < ch_seq r) (sy_past s);
  ti_at : ∃ pre,
    match sy_at s with
    | AtWindow v | AtSubscribe v => v = since ∧ changes_out s = [] ∧ in_step s pre []
    | AtReplay v ch => v = since ∧ changes_out s = [] ∧ ∃ buf, br_subs (w_broker (sy_world s)) !! ch = Some buf ∧ in_step s pre buf
    | InLoop ch last =>
      since <= last ∧ (last = since ∨ last <= change_seq (w_db (sy_world s))) ∧
      changes_out s = frame_of <$> upto last s ∧ Forall (λ e, ce_Seq e <= since ∨ ce_Seq e <= last) pre ∧
      ∃ buf, br_subs (w_broker (sy_world s)) !! ch = Some buf ∧ in_step s pre buf
    | Closed => True
    end }.

Lemma log_sorted s : log_ok (history s) → StronglySorted Z.lt (ce_Seq <$> logged s).
Proof. intros [H _]. by rewrite entry_seqs. Qed.

Lemma sorted_middle pre (e : changeEntry) post :
  StronglySorted Z.lt (ce_Seq <$> pre ++ e :: post) →
  Forall (λ x, ce_Seq x < ce_Seq e) pre ∧ Forall (λ x, ce_Seq e < ce_Seq x) post.
Proof.
  rewrite fmap_app, fmap_cons. intros H. split.
  - apply Forall_forall. intros x Hx. eapply (StronglySorted_app_1_elem_of Z.lt); [exact H| |left].
    by apply list_elem_of_fmap_2.
  - apply StronglySorted_app_1_r in H. apply StronglySorted_inv in H as [_ H]. by rewrite Forall_fmap in H.
Qed.

(** The next entry above the last number extends what was written by itself. *)
Lemma upto_next pre e post last s :
  log_ok (history s) → logged s = pre ++ e :: post →
  Forall (λ x, ce_Seq x <= since ∨ ce_Seq x <= last) pre → since <= last → last < ce_Seq e →
  upto (ce_Seq e) s = upto last s ++ [e].
Proof.
  intros Hok Hlog Hpre Hsl Hlt. pose proof (log_sorted s Hok) as Hs. unfold upto. rewrite Hlog in *.
  destruct (sorted_middle _ _ _ Hs) as [H1 H2]. rewrite !filter_app, !filter_cons.
  rewrite (decide_True (P := since < ce_Seq e <= ce_Seq e)), (decide_False (P := since < ce_Seq e <= last)) by lia.
  rewrite (list_filter_none (λ e0, since < ce_Seq e0 <= ce_Seq e) post),
    (list_filter_none (λ e0, since < ce_Seq e0 <= last) post).
  - rewrite app_nil_r. f_equal. apply list_filter_ext_elem. intros x Hx. rewrite Forall_forall in Hpre, H1.
    specialize (Hpre _ Hx). specialize (H1 _ Hx). lia.
  - intros x Hx. rewrite Forall_forall in H2. specialize (H2 _ Hx). lia.
  - intros x Hx. rewrite Forall_forall in H2. specialize (H2 _ Hx). lia.
Qed.

(** The announcement of the oldest entry. *)
Lemma oldest_first (unsent : list (list changeEntry)) i e es :
  unsent !! i = Some (e :: es) → concat (take i unsent) = [] → concat unsent = e :: concat (<[i := es]> unsent).
Proof.
  revert i. induction unsent as [|q unsent IH]; intros [|i]; cbn; [done|done| |].
  - by intros [= ->] _.
  - intros Hi [-> Ht]%app_eq_nil. cbn. by apply IH.
Qed.

(** A commit, whatever it takes from the log; above the cursor nothing, while the stream connects. *)
Lemma tidy_commit cut s w' rows :
  tidy_inv s → w_broker w' = w_broker (sy_world s) → log_pruned cut (w_db (sy_world s)) (w_db w') rows →
  match connecting (sy_at s) with Some v => cut <= v | None => True end →
  tidy_inv (committed w' rows s).
Proof.
  intros [Hl Hsub Hwh (pre & Ha)] Hbr Hg Hcut. pose proof (history_grows _ _ _ _ Hg) as Hgr.
  assert (log_ok (history (committed w' rows s))) as Hl' by (by eapply log_grows_ok).
  assert (d_changes (w_db (sy_world s)) ++ rows `sublist_of` sy_past s ++ rows) as Hsub' by (by apply sublist_app).
  split; [done| |cbn|].
  - etransitivity; [exact (lp_sub _ _ _ _ Hg)|done].
  - intros Hc. rewrite filter_app, <-Hwh, <-filter_app by done. apply sublist_filter_all; [apply Hg| |].
    + eapply sublist_NoDup; [|exact Hsub']. apply (NoDup_fmap_1 ch_seq), sorted_lt_distinct, Hl'.
    + intros r Hr Hlt. apply (lp_young _ _ _ _ Hg r Hr).
      assert (∀ v, connecting (sy_at s) = Some v → v = since) as Hv by (destruct (sy_at s); cbn; naive_solver).
      destruct Hc as [v Hc]. rewrite Hc in Hcut. specialize (Hv v Hc). lia.
  - exists pre. assert (∀ p b, in_step s p b → in_step (committed w' rows s) p b) as Hstep.
    { intros p b Hin. unfold in_step in *. cbn. rewrite fmap_app, Hin, concat_app. cbn [concat]. by rewrite app_nil_r, !app_assoc. }
    cbn. rewrite Hbr. destruct (sy_at s) as [v|v|v ch|ch last|]; [naive_solver..| |done].
    destruct Ha as (H1 & H2 & H3 & H4 & buf & H5 & H6). destruct Hg as [Hq Hn _ _].
    split; [done|]. split; [rewrite Hn; destruct H2; [by left|right; lia]|]. split; [|naive_solver].
    unfold upto. cbn. rewrite fmap_app, filter_app, (list_filter_none _ (entry_of <$> rows)), app_nil_r; [exact H3|].
    intros x (r & -> & Hr)%list_elem_of_fmap. assert (ch_seq r ∈ ch_seq <$> rows) as Hin by (apply list_elem_of_fmap; eauto).
    rewrite Hq in Hin. apply elem_of_seqZ in Hin. cbn. lia.
Qed.

Lemma tidy_publish s i e es :
  tidy_inv s → sy_unsent s !! i = Some (e :: es) → orderly (LPublish i) s →
  tidy_inv {| sy_world := wset_broker (Publish e (w_broker (sy_world s))) (sy_world s); sy_past := sy_past s;
              sy_unsent := <[i := es]> (sy_unsent s); sy_at := sy_at s; sy_out := sy_out s |}.
Proof.
  intros [Hl Hsub Hwh (pre & Ha)] Hi (Hfirst & Hroom). split; [done..|].
  pose proof (oldest_first _ _ _ _ Hi Hfirst) as Hun. cbn. unfold in_step in *. rewrite Hun in Ha. cbn.
  unfold room in Hroom. destruct (sy_at s) as [v|v|v ch|ch last|]; [|..|by exists pre].
  1,2: exists (pre ++ [e]); by rewrite <-app_assoc.
  1,2: exists pre.
  - destruct Ha as (-> & Ho & buf & Hb & Hin). split_and!; [done..|]. exists (buf ++ [e]).
    cbn [channel] in Hroom. rewrite Hb in Hroom. rewrite lookup_fmap, Hb. cbn. unfold try_send. rewrite decide_True by exact Hroom.
    split; [done|]. by rewrite <-app_assoc.
  - destruct Ha as (H1 & H2 & H3 & H4 & buf & Hb & Hin). split_and!; [done..|]. exists (buf ++ [e]).
    cbn [channel] in Hroom. rewrite Hb in Hroom. rewrite lookup_fmap, Hb. cbn. unfold try_send. rewrite decide_True by exact Hroom.
    split; [done|]. by rewrite <-app_assoc.
Qed.

Lemma tidy_open s a fs w' :
  tidy_inv s → stream_open (sy_at s) (sy_world s) = (Ok (a, fs), w') → tidy_inv (moved w' a fs s).
Proof.
  intros [Hl Hsub Hwh (pre & Ha)] H. pose proof (now_ok s Hl Hsub) as Hnow.
  apply stream_open_spec in H as [Hd H]. pose proof (moved_history w' a fs s Hd) as Hh.
  split; rewrite ?Hh; cbn [sy_at sy_world sy_past moved]; rewrite ?Hd; [done..| |].
  { intros Hc. apply Hwh. destruct (sy_at s); [by eexists..|destruct H as (-> & _); done|destruct H as (-> & _); done]. }
  exists pre. rewrite changes_out_app. unfold in_step, upto in *. cbn [sy_at sy_world sy_past sy_unsent moved].
  destruct (sy_at s) as [v|v|v ch|ch last|] eqn:E.
  - destruct Ha as (-> & Ho & Hin). rewrite Ho. by destruct H as (Hbr & [[-> ->]|[-> ->]]).
  - destruct Ha as (-> & Ho & Hin). destruct H as (-> & -> & Hbr). split; [done|]. split; [by rewrite app_nil_r|].
    exists []. rewrite Hbr. cbn. by rewrite lookup_insert_eq.
  - destruct Ha as (-> & Ho & buf & Hb & Hin). destruct H as [[-> ->]|(Hbr & -> & ->)]; [done|].
    rewrite changes_after_ok by done. rewrite Hwh by by eexists. clear Hwh. set (es := entry_of <$> _).
    assert (es = filter (λ e, since < ce_Seq e) (logged s)) as Hes by apply (filter_entries (λ q, since < q)).
    assert (StronglySorted Z.lt (ce_Seq <$> es)) as Hs by (rewrite Hes; by apply sorted_filter_key, log_sorted).
    assert (Forall (λ e, since < ce_Seq e) es) as Hf.
    { rewrite Hes, Forall_forall. by intros x [Hx _]%list_elem_of_filter. }
    destruct (last_seq since es Hs Hf) as (H1 & H2 & H3). set (last := foldl _ since es) in *.
    rewrite Forall_forall in H2.
    split; [done|]. split.
    { destruct H3 as [->|(x & -> & Hx)%list_elem_of_fmap]; [by left|right].
      rewrite Hes in Hx. apply list_elem_of_filter in Hx as [_ (r & -> & Hr)%list_elem_of_fmap].
      destruct Hl as [_ Hlb]. rewrite Forall_forall in Hlb. by apply Hlb. }
    split; [|split; [|by exists buf; rewrite Hbr]].
    + rewrite Ho, changes_frames. cbn. f_equal. rewrite Hes. apply list_filter_ext_elem. intros x Hx.
      split; [|tauto]. intros Hsx. split; [done|]. apply H2. rewrite Hes. by apply list_elem_of_filter.
    + apply Forall_forall. intros x Hx. destruct (decide (ce_Seq x <= since)) as [?|Hgt]; [by left|right].
      apply H2. rewrite Hes. apply list_elem_of_filter. split; [lia|]. rewrite Hin. set_solver.
  - destruct H as (-> & -> & ->). rewrite app_nil_r. exact Ha.
  - destruct H as (-> & -> & ->). exact I.
Qed.

Lemma tidy_select s c ch last a fs w' :
  tidy_inv s → sy_at s = InLoop ch last → stream_select c ch last (sy_world s) = (Ok (a, fs), w') →
  tidy_inv (moved w' a fs s).
Proof.
  intros [Hl Hsub _ (pre & Ha)] E H. apply stream_select_spec in H as [Hd H]. rewrite E in Ha.
  destruct Ha as (H1 & H2 & H3 & H4 & buf & Hb & Hin). pose proof (moved_history w' a fs s Hd) as Hh.
  split; rewrite ?Hh; cbn [sy_at sy_world sy_past moved]; rewrite ?Hd; [done..| |].
  { intros [v Hc]. destruct H as [(-> & _)|[(-> & _)|(? & ? & _ & _ & [(_ & -> & _)|(_ & -> & _)])]]; done. }
  rewrite changes_out_app. unfold in_step in *. cbn [sy_at sy_world sy_past sy_unsent moved].
  assert (∀ l, upto l (moved w' a fs s) = upto l s) as Hup by done.
  destruct H as [(-> & ->)|[(-> & Hfs & Hbr)|(e & buf' & Hbuf & Hbuf' & H)]].
  - by exists pre.
  - exists pre. rewrite Hup, Hfs, Hbr, app_nil_r. naive_solver.
  - rewrite Hb in Hbuf. injection Hbuf as ->. exists (pre ++ [e]). cbn [app] in Hin.
    destruct H as [(Hle & -> & ->)|(Hlt & -> & ->)]; rewrite Hup.
    + rewrite app_nil_r. split_and!; [done..| |].
      * apply Forall_app. split; [done|]. constructor; [by right|constructor].
      * exists buf'. split; [done|]. by rewrite <-app_assoc.
    + pose proof (sorted_middle _ _ _ ltac:(rewrite <-Hin; by apply log_sorted)) as [Hp _].
      split; [lia|]. split.
      { right. destruct Hl as [_ Hlb]. rewrite Forall_forall in Hlb.
        assert (e ∈ logged s) as (r & -> & Hr)%list_elem_of_fmap by (rewrite Hin; set_solver). by apply Hlb. }
      split; [by rewrite (upto_next pre e (buf' ++ concat (sy_unsent s)) last), fmap_app, H3|].
      split; [|exists buf'; split; [done|by rewrite <-app_assoc]].
      apply Forall_app. split; [|constructor; [right; lia|constructor]].
      eapply Forall_impl; [exact Hp|]. cbn. lia.
Qed.

Lemma tidy_other s w' :
  tidy_inv s → d_changes (w_db w') = d_changes (w_db (sy_world s)) → change_seq (w_db w') = change_seq (w_db (sy_world s)) →
  (∀ ch, channel (sy_at s) = Some ch → br_subs (w_broker w') !! ch = br_subs (w_broker (sy_world s)) !! ch) →
  tidy_inv (moved w' (sy_at s) [] s).
Proof.
  intros [Hl Hsub Hwh (pre & Ha)] Hc Hq Hb. split; cbn [sy_at sy_world sy_past moved]; rewrite ?Hc; [|done..|].
  - destruct Hl as [Hs Hn]. split; [exact Hs|].
    change (change_seq (history (moved w' (sy_at s) [] s))) with (change_seq (w_db w')). rewrite Hq. exact Hn.
  - exists pre. rewrite changes_out_app, app_nil_r. rewrite Hq.
    destruct (sy_at s) as [v|v|v ch|ch last|]; [done..| | |done]; rewrite Hb by done; exact Ha.
Qed.

Lemma tidy_run s s' : sys_run orderly s s' → tidy_inv s → tidy_inv s'.
Proof.
  induction 1 as [|s1 l s2 _ IH Ho Hstep]; [done|]. intros Hi. specialize (IH Hi).
  destruct Hstep as [s0 w' rows ? Hg|s0 w' rows cut|s0 i e es|s0 a fs w'|s0 c ch last a fs w'|s0 w'].
  - eapply (tidy_commit (match connecting (sy_at s0) with Some v => v | None => 0 end));
      [done|done|by apply log_grows_pruned|]. by destruct (connecting _).
  - by eapply tidy_commit.
  - by apply tidy_publish.
  - by apply tidy_open.
  - by eapply tidy_select.
  - by apply tidy_other.
Qed.
End complete.

(** ** Properties *)

(** C22: the stream never repeats, reorders or invents a change.  Whatever commits, publishes,
    overflows and is removed by retention around it, the changes written to a client that asked
    for what follows [since] are entries the log held when it asked or has been given since,
    with numbers above [since], strictly increasing; and without a retention run the log still
    has them. *)
Theorem stream_ordered `{HE : HubEnv} since s s'
    (Harr : arrives since s) (Hrun : sys_run (λ _ _, True) s s') :
  ∃ es, changes_out s' = frame_of <$> es ∧ es ⊆ logged s' ∧ StronglySorted Z.lt (ce_Seq <$> es) ∧
    Forall (λ e, since < ce_Seq e) es ∧
    (sys_run (λ l _, ∀ upto, l ≠ LRetention upto) s s' → es ⊆ entry_of <$> d_changes (w_db (sy_world s'))).
Proof.
  assert (stream_inv since s') as [_ _ _ _ Ha].
  { induction Hrun as [|s1 l s2 _ IH _ Hstep]; [by apply arrives_inv|]. by eapply step_inv. }
  assert (∀ P, written since s' P → ∃ es, changes_out s' = frame_of <$> es ∧ es ⊆ logged s' ∧
    StronglySorted Z.lt (ce_Seq <$> es) ∧ Forall (λ e, since < ce_Seq e) es ∧
    (sys_run (λ l _, ∀ upto, l ≠ LRetention upto) s s' → es ⊆ entry_of <$> d_changes (w_db (sy_world s')))) as Hw.
  { intros P (es & H1 & H2 & H3 & H4). exists es. split_and!; [done..| |].
    - eapply Forall_impl; [exact H4|]. by intros e [He _].
    - intros Hr. rewrite <-(past_is_log _ _ Hr); [done|]. apply Harr. }
  destruct (sy_at s') as [v|v|v ch|ch last|]; [..|by eapply Hw, Ha|by eapply Hw, Ha];
    destruct Ha as [_ Ho]; eapply (Hw (λ _, True)), written_nil; unfold changes_out; by rewrite Ho.
Qed.

(** C23: the stream misses nothing, as long as committed changes are published in the order of
    the log, the client drains its buffer, and no retention run removes a change above the
    cursor from the client's request until the replay is read.  A stream in its loop has then written
    exactly the changes above the cursor up to its last number, of all the log held when the
    client asked and has been given since, whatever was committed during the replay and
    whatever retention removed from the log after it; and once everything is published and its
    buffer is empty, all of them. *)
Theorem stream_complete `{HE : HubEnv} since s s' ch last
    (Hat : sy_at s = AtWindow since) (Hout : sy_out s = []) (Hlog : log_ok (w_db (sy_world s)))
    (Hpast : sy_past s = d_changes (w_db (sy_world s)))
    (Hrest : ∃ pre, logged s = pre ++ concat (sy_unsent s))
    (Hrun : sys_run orderly s s') (Hloop : sy_at s' = InLoop ch last) :
  changes_out s' = frame_of <$> filter (λ e, since < ce_Seq e <= last) (logged s') ∧
  (concat (sy_unsent s') = [] → br_subs (w_broker (sy_world s')) !! ch = Some [] →
   changes_out s' = frame_of <$> filter (λ e, since < ce_Seq e) (logged s')).
Proof.
  destruct Hrest as [pre0 Hrest]. assert (tidy_inv since s') as [Hl _ _ (pre & Ha)].
  { eapply tidy_run; [exact Hrun|]. split; [by rewrite history_log|by rewrite Hpast|by rewrite Hpast|].
    exists pre0. rewrite Hat. split; [done|]. split; [unfold changes_out; by rewrite Hout|]. exact Hrest. }
  rewrite Hloop in Ha. destruct Ha as (H1 & H2 & H3 & H4 & buf & Hb & Hin). split; [exact H3|].
  intros Hu Hempty. rewrite H3. f_equal. rewrite Hb in Hempty. injection Hempty as ->.
  unfold in_step in Hin. rewrite Hu in Hin. cbn [app] in Hin. rewrite app_nil_r in Hin.
  apply list_filter_ext_elem. intros e He. rewrite Hin in He. rewrite Forall_forall in H4. specialize (H4 _ He). lia.
Qed.

(** The commit of a retention run is the step of that name; what it then publishes are the
    entries the step left to be announced. *)
Lemma retention_commits `{HE : HubEnv} `{SF : SqlFuns} cfg now s u w1 :
  db_ok (w_db (sy_world s)) → runRetention cfg now (sy_world s) = (Ok u, w1) →
  ∃ upto rows, sys_step (LRetention upto) s (committed (wset_broker (w_broker (sy_world s)) w1) rows s) ∧
    w_broker w1 = foldl (λ b e, Publish e b) (w_broker (sy_world s)) (entry_of <$> rows).
Proof.
  intros Hok H. destruct (runRetention_Ok _ _ _ _ _ Hok H) as (rows & d1 & fl & ms & _ & _ & D & _ & Hd & Hb).
  destruct (dr_log _ _ _ _ _ D) as (Hc & Hq & Hn). change (d_changes (purge _ _ _ ?d)) with (d_changes d) in Hc.
  exists match max_seq (d_changes d1) with Some mx => wrap64 (mx - cfg_changesMinSeq cfg) | None => 0 end, rows.
  split; [|exact Hb]. apply step_retention; [done|]. cbn [w_db wset_broker]. rewrite Hd. split; [exact Hq|exact Hn|..]; cbn [d_changes set_d_changes].
  - rewrite <-Hc. destruct (window_filter cfg now (d_changes d1)) as (P & HP & ->). apply sublist_filter.
  - intros r Hr Hlt. rewrite <-Hc in Hr. unfold window. destruct (max_seq _); [|done].
    apply list_elem_of_filter. split; [|done]. intros [_ Hle]. lia.
Qed.

(** ** Runs on concrete hubs *)

(** Steps to run: one more change committed, the log cut behind a number, a publication, the
    stream's own steps. *)
Inductive demo_step := DCommit | DPrune (upto : Z) | DPublish (i : nat) | DOpen | DSelect (c : stream_case).

Definition demo_label (d : demo_step) : sys_label :=
  match d with
  | DCommit => LCommit | DPrune upto => LRetention upto | DPublish i => LPublish i | DOpen => LOpen | DSelect c => LSelect c
  end.

Section demo.
Context `{HE : HubEnv}.

Definition demo_exec (st : demo_step) (s : sys) : option sys :=
  let w := sy_world s in
  match st with
  | DCommit =>
    let d' := log_change "tombstone" "src_1" (DTombstone "source" "src_1") None 0 (w_db w) in
    Some (committed (wset_db d' w) [
            {| ch_seq := change_seq (w_db w) + 1; ch_type := "tombstone"; ch_ref_id := "src_1";
               ch_data := DTombstone "source" "src_1"; ch_notify := None; ch_created_at := fmtTS 0 |}] s)
  | DPrune upto =>
    Some (committed (wset_db (set_d_changes (filter (λ r, upto < ch_seq r) (d_changes (w_db w))) (w_db w)) w) [] s)
  | DPublish i =>
    match sy_unsent s !! i with
    | Some (e :: es) => Some {| sy_world := wset_broker (Publish e (w_broker w)) w; sy_past := sy_past s;
                                sy_unsent := <[i := es]> (sy_unsent s); sy_at := sy_at s; sy_out := sy_out s |}
    | _ => None
    end
  | DOpen =>
    match stream_open (sy_at s) w with
    | (Ok (a, fs), w') => Some (moved w' a fs s)
    | _ => None
    end
  | DSelect c =>
    match sy_at s with
    | InLoop ch last =>
      match stream_select c ch last w with
      | (Ok (a, fs), w') => Some (moved w' a fs s)
      | _ => None
      end
    | _ => None
    end
  end%string.

Lemma demo_exec_step st s s' : demo_exec st s = Some s' → sys_step (demo_label st) s s'.
Proof.
  destruct st; unfold demo_exec, demo_label; cbv zeta.
  - intros [= <-]. exact (step_commit s (wset_db _ (sy_world s)) [_] eq_refl (log_change_grows _ _ _ _ _ _)).
  - intros [= <-]. apply step_retention; [done|]. split; [done|cbn [w_db wset_db]|..]; rewrite ?app_nil_r.
    + cbn. unfold change_seq. cbn. lia.
    + apply sublist_filter.
    + intros r Hr Hlt. cbn. by apply list_elem_of_filter.
  - destruct (sy_unsent s !! i) as [[|e es]|] eqn:E; [done| |done]. intros [= <-]. by apply step_publish.
  - destruct (stream_open _ _) as [[[a fs]|e] w'] eqn:E; [|done]. intros [= <-]. by apply step_open.
  - destruct (sy_at s) eqn:Ea; try done. destruct (stream_select _ _ _ _) as [[[a fs]|e] w'] eqn:E; [|done].
    intros [= <-]. by eapply step_select.
Qed.

(** The steps one after the other, each checked against [P]. *)
Fixpoint demo_run (P : sys_label → sys → bool) (sts : list demo_step) (s : sys) : option sys :=
  match sts with
  | [] => Some s
  | st :: sts => if P (demo_label st) s then s' ← demo_exec st s; demo_run P sts s' else None
  end.

Lemma sys_run_trans P s1 s2 s3 : sys_run P s1 s2 → sys_run P s2 s3 → sys_run P s1 s3.
Proof. intros H12. induction 1; [done|]. by eapply run_snoc. Qed.

Lemma demo_run_sound P sts s s' : demo_run P sts s = Some s' → sys_run (λ l s, P l s) s s'.
Proof.
  revert s. induction sts as [|st sts IH]; intros s; cbn; [intros [= ->]; constructor|].
  destruct (P _ s) eqn:EP; [|done]. destruct (demo_exec st s) as [s1|] eqn:E; [|done]. cbn. intros H.
  eapply sys_run_trans; [|by apply IH]. eapply run_snoc; [constructor| |by apply demo_exec_step]. by rewrite EP.
Qed.

Lemma sys_run_mono (P Q : sys_label → sys → Prop) s s' : (∀ l s, P l s → Q l s) → sys_run P s s' → sys_run Q s s'.
Proof. intros HPQ. induction 1; [constructor|]. eapply run_snoc; eauto. Qed.
End demo.

(** A client connects to a hub without changes. *)
Definition demo_start : sys := {| sy_world := world_of empty_db; sy_past := []; sy_unsent := []; sy_at := AtWindow 0; sy_out := [] |}.

Lemma empty_log_ok : log_ok empty_db.
Proof. split; constructor. Qed.

(** Two changes, announced in the order of the log while the stream connects; once it has
    replayed the first one retention removes it. *)
Notation in_order := [DCommit; DOpen; DOpen; DCommit; DPublish 0; DOpen; DPublish 1; DPrune 1; DSelect CaseEntry; DSelect CasePing; DSelect CaseEntry].

(** The second change overtakes the first. *)
Notation overtaking := [DOpen; DOpen; DOpen; DCommit; DCommit; DPublish 1; DPublish 0; DSelect CaseEntry; DSelect CaseEntry].

Lemma stream_ordered_witness :
  option_map (λ s, fr_id <$> changes_out s) (demo_run (HE := demo_env) (λ _ _, true) overtaking demo_start) = Some [2].
Proof.
  assert (∃ s', demo_run (HE := demo_env) (λ _ _, true) overtaking demo_start = Some s' ∧
    fr_id <$> changes_out s' = [2]) as (s' & Hs & Hids) by (eexists; split; [vm_compute; reflexivity|reflexivity]).
  rewrite Hs. apply demo_run_sound in Hs.
  pose proof (stream_ordered (HE := demo_env) 0 demo_start s'
    ltac:(split; [done|split; [done|split; [exact empty_log_ok|split; [done|set_solver]]]])
    (sys_run_mono _ _ _ _ (λ l s _, I) Hs)) as (es & He & _). cbn. by rewrite Hids.
Defined.

Lemma stream_complete_witness :
  option_map (λ s, fr_id <$> changes_out s)
    (demo_run (HE := demo_env) (λ l s, bool_decide (orderly l s)) in_order demo_start) = Some [1; 2].
Proof.
  assert (∃ s', demo_run (HE := demo_env) (λ l s, bool_decide (orderly l s)) in_order demo_start = Some s' ∧
    sy_at s' = InLoop 0 2 ∧ fr_id <$> changes_out s' = [1; 2]) as (s' & Hs & Hat & Hids)
    by (eexists; split; [vm_compute; reflexivity|split; reflexivity]).
  rewrite Hs. apply demo_run_sound in Hs.
  destruct (stream_complete (HE := demo_env) 0 demo_start s' 0 2 eq_refl eq_refl empty_log_ok eq_refl
    ltac:(by exists []) (sys_run_mono _ _ _ _ (λ l s, proj1 (bool_decide_spec _)) Hs) Hat) as [Hout _].
  cbn. by rewrite Hids.
Defined.

(** Without the order, a change is lost for good: the stream wrote the second and then skipped
    the first, everything is published, nothing is buffered, and no resync was asked for. *)
Lemma out_of_order_publish_skips :
  ∃ s', sys_run (HE := demo_env) (λ _ _, True) demo_start s' ∧ arrives 0 demo_start ∧
    concat (sy_unsent s') = [] ∧ sy_at s' = InLoop 0 2 ∧ br_subs (w_broker (sy_world s')) !! 0%nat = Some [] ∧
    ch_seq <$> d_changes (w_db (sy_world s')) = [1; 2] ∧ fr_id <$> sy_out s' = [2].
Proof.
  assert (∃ s', demo_run (HE := demo_env) (λ _ _, true) overtaking demo_start = Some s' ∧
    concat (sy_unsent s') = [] ∧ sy_at s' = InLoop 0 2 ∧ br_subs (w_broker (sy_world s')) !! 0%nat = Some [] ∧
    ch_seq <$> d_changes (w_db (sy_world s')) = [1; 2] ∧ fr_id <$> sy_out s' = [2]) as (s' & Hs & H)
    by (eexists; split; [vm_compute; reflexivity|repeat split]).
  exists s'. split; [exact (sys_run_mono _ _ _ _ (λ l s _, I) (demo_run_sound _ _ _ _ Hs))|].
  split; [|exact H]. split; [done|split; [done|split; [exact empty_log_ok|split; [done|set_solver]]]].
Qed.

(** A change that finds the buffer full is dropped, and the stream goes on with the next one. *)
Notation flood := ([DOpen; DOpen; DOpen] ++ concat ((λ i, [DCommit; DPublish i]) <$> seq 0 257) ++
  repeat (DSelect CaseEntry) 256 ++ [DCommit; DPublish 257; DSelect CaseEntry]).
Lemma overflow_skips :
  option_map (λ s, (length (d_changes (w_db (sy_world s))), sy_at s, drop 255 (fr_id <$> sy_out s)))
    (demo_run (HE := demo_env) (λ _ _, true) flood demo_start) = Some (258%nat, InLoop 0 258, [256; 258]).
Proof. vm_compute. reflexivity. Qed.

(** A retention run between the window check and the replay removes changes the client was
    promised: it is told neither of them nor that it missed them. *)
Notation pruned_between := [DCommit; DCommit; DCommit; DPublish 0; DPublish 1; DPublish 2; DOpen; DPrune 2; DOpen; DOpen].
Lemma prune_before_replay_skips :
  option_map (λ s, (ch_seq <$> sy_past s, sy_at s, fr_id <$> sy_out s))
    (demo_run (HE := demo_env) (λ _ _, true) pruned_between demo_start) = Some ([1; 2; 3], InLoop 0 3, [3]).
Proof. vm_compute. reflexivity. Qed.
