(* ===== verification/Sync.v ===== *)
(** The catch-up of the app ([hub/api.go], handleSync): one page of the change log after a
    cursor, and the paging a client does with it. *)

From S2P Require Import Prelude GoBase GoTime HubTypes HubStore Fault Handlers Stream.
From Stdlib Require Import Ascii.
Local Open Scope Z_scope.

(* @src hub/api.go 250-254 !changeJSON *)
Record changeJSON := { cj_ChangeSeq : Z; cj_Type : string; cj_Data : change_data }.

(* @src hub/api.go 256-264 !handleSync *)
Definition change_json (r : changeRow) : changeJSON :=
  {| cj_ChangeSeq := ch_seq r; cj_Type := ch_type r; cj_Data := ch_data r |}.

(** The body of an answer. *)
(* @src hub/api.go 282-284 !handleSync *)
Record sync_page := { sp_cursor : Z; sp_hasMore : bool; sp_changes : list changeJSON }.

(** [since] and [limit] as the query gives them; [None] is the answer 400. *)
(* @src hub/api.go 219-227 !handleSync *)
Definition sync_since (s : string) : option Z :=
  if decide (s = EmptyString) then Some 0
  else match atoi s with Some v => if decide (v < 0) then None else Some v | None => None end.
(* @src hub/api.go 228-239 !handleSync *)
Definition sync_limit (s : string) : option Z :=
  if decide (s = EmptyString) then Some 500
  else match atoi s with
       | Some v => if decide (v <= 0) then None else Some (if decide (1000 < v) then 1000 else v)
       | None => None
       end.

(** The number of the last row, 0 without one. *)
Definition last_row (rows : list changeRow) : Z := foldl (λ _ r, ch_seq r) 0 rows.

Section sync.
Context `{HE : HubEnv}.
Notation HM := (stM World herr).

(** The query; an iteration that breaks off is not told from one that reached the end. *)
(* @src hub/api.go 241-248 !handleSync *)
Definition sync_rows (since limit : Z) : HM (list changeRow) :=
  db_rows (λ d, take (Z.to_nat (limit + 1)) (changes_after since d)).

(** The answer, once the rows are read. *)
(* @src hub/api.go 255-284 !handleSync *)
Definition sync_answer (since limit : Z) (rows : list changeRow) : HM sync_page :=
  if decide (limit < Z.of_nat (length rows)) then
    let items := take (Z.to_nat limit) rows in
    mret {| sp_cursor := last_row items; sp_hasMore := true; sp_changes := change_json <$> items |}
  else
    cursor ← (if decide (rows = []) then mx ← maxChangeSeq; mret (if decide (since < mx) then mx else since)
              else mret (last_row rows));
    mret {| sp_cursor := cursor; sp_hasMore := false; sp_changes := change_json <$> rows |}.

(* @src hub/api.go 241-284 !handleSync *)
Definition syncPage (since limit : Z) : HM sync_page :=
  rows ← sync_rows since limit; sync_answer since limit rows.

(* @src hub/api.go 217-285 handleSync *)
Definition handleSync (sinceQ limitQ : string) : HM (reply sync_page) :=
  match sync_since sinceQ with
  | None => mret (errInvalid "since 非法")
  | Some since =>
    match sync_limit limitQ with
    | None => mret (errInvalid "limit 非法")
    | Some limit =>
      r ← st_try (syncPage since limit);
      mret match r with Ok page => Reply 200 page | Err _ => errInternal end
    end
  end.

(** A client catching up: page after page from the cursor it was given, as often as told. *)
Fixpoint sync_all (fuel : nat) (limit since : Z) (pages : nat) (got : list changeJSON)
    : HM (list changeJSON * Z * nat) :=
  match fuel with
  | O => st_throw EIO
  | S fuel =>
    page ← syncPage since limit;
    if sp_hasMore page then sync_all fuel limit (sp_cursor page) (S pages) (got ++ sp_changes page)
    else mret (got ++ sp_changes page, sp_cursor page, S pages)
  end.
End sync.

(** ** Lemmas *)

(** The last of a run of rows is the number they reach up to. *)
Lemma last_row_seq (rows : list changeRow) r : last rows = Some r → last_row rows = ch_seq r.
Proof.
  unfold last_row. generalize 0. induction rows as [|x rows IH]; intros z; [done|].
  destruct rows as [|y rows]; [by intros [= <-]|]. intros H. exact (IH _ H).
Qed.

Lemma filter_above {A} (g : A → Z) (l l1 l2 : list A) a b x :
  StronglySorted Z.lt (g <$> l) → filter (λ y, a < g y) l = l1 ++ l2 → last l1 = Some x → b = g x →
  filter (λ y, b < g y) l = l2.
Proof.
  intros Hs Hf Hx ->. apply last_Some in Hx as [l1' ->].
  assert (a < g x) as Hax.
  { assert (x ∈ filter (λ y, a < g y) l) as [H _]%list_elem_of_filter by (rewrite Hf; set_solver). done. }
  transitivity (filter (λ y, g x < g y) (filter (λ y, a < g y) l)).
  { rewrite list_filter_filter. apply list_filter_iff. intros y. lia. }
  assert (StronglySorted Z.lt (g <$> (l1' ++ [x]) ++ l2)) as Hs' by (rewrite <-Hf; by apply sorted_filter_key).
  rewrite Hf, filter_app, list_filter_none, list_filter_all; [done|..].
  - intros y Hy. rewrite <-app_assoc in Hs'. cbn [app] in Hs'. rewrite fmap_app, fmap_cons in Hs'. apply StronglySorted_app_1_r in Hs'.
    apply StronglySorted_inv in Hs' as [_ Hall]. rewrite Forall_fmap, Forall_forall in Hall. by apply Hall.
  - intros y Hy. rewrite <-app_assoc, fmap_app in Hs'. apply elem_of_app in Hy as [Hy|Hy].
    + assert (g y < g x) as ?; [|lia]. eapply (StronglySorted_app_1_elem_of Z.lt); [exact Hs'|by apply list_elem_of_fmap_2|left].
    + apply list_elem_of_singleton in Hy as ->. lia.
Qed.

Section sync_lemmas.
Context `{HE : HubEnv}.
Hypothesis Hio : ∀ n, h_io n = false.
Hypothesis Hrows : whole_rows.

(** One page of a quiet hub. *)
Lemma sync_page_spec since limit w :
  log_ok (w_db w) → 0 <= since → 0 < limit →
  let todo := filter (λ r, since < ch_seq r) (d_changes (w_db w)) in
  ∃ w', w_db w' = w_db w ∧ syncPage since limit w =
    (Ok {| sp_cursor := if decide (todo = []) then since else last_row (take (Z.to_nat limit) todo);
           sp_hasMore := bool_decide (limit < Z.of_nat (length todo));
           sp_changes := change_json <$> take (Z.to_nat limit) todo |}, w').
Proof.
  intros Hok Hsince Hlim todo. unfold syncPage, sync_rows.
  destruct (db_rows_quiet Hio (λ d, take (Z.to_nat (limit + 1)) (changes_after since d)) w Hrows) as (w1 & E & Hd).
  rewrite (st_bind_Ok_step _ _ w (take (Z.to_nat (limit + 1)) todo) w1).
  2:{ rewrite E, changes_after_ok by done. done. }
  unfold sync_answer. rewrite length_take.
  destruct (decide (limit < Z.of_nat (length todo))) as [Hmore|Hless].
  - rewrite decide_True by lia. exists w1. split; [done|]. rewrite bool_decide_true by done.
    rewrite decide_False by (intros H; rewrite H in Hmore; cbn in Hmore; lia).
    rewrite take_take. by replace (Z.to_nat limit `min` Z.to_nat (limit + 1))%nat with (Z.to_nat limit) by lia.
  - rewrite decide_False by lia. rewrite !(take_ge todo) by lia.
    rewrite bool_decide_false by done. destruct (decide (todo = [])) as [Hnil|Hcons]; [|by exists w1].
    destruct (db_query_quiet Hio (λ d, max_seq (d_changes d)) w1) as (w2 & E2 & Hd2).
    exists w2. split; [congruence|]. unfold maxChangeSeq, st_try, mbind, stM_bind, mret, stM_ret. rewrite E2, Hd. clear E2.
    destruct (max_seq _) as [mx|] eqn:Em; [|by rewrite decide_False by lia].
    rewrite decide_False; [done|]. apply max_seq_in in Em as (r & Hr & <-). intros Hlt.
    assert (r ∈ todo) as Hin by (by apply list_elem_of_filter). rewrite Hnil in Hin. set_solver.
Qed.

(** The number of pages it takes: one more while a whole page leaves something. *)
Fixpoint page_count (fuel limit n : nat) : nat :=
  match fuel with
  | O => 1
  | S fuel => if decide (limit < n)%nat then S (page_count fuel limit (n - limit)) else 1
  end.

Lemma sync_all_spec limit w fuel since pages got :
  log_ok (w_db w) → 0 <= since → 0 < limit →
  let todo := filter (λ r, since < ch_seq r) (d_changes (w_db w)) in
  (length todo <= fuel)%nat →
  ∃ w', w_db w' = w_db w ∧ sync_all (S fuel) limit since pages got w =
    (Ok (got ++ (change_json <$> todo), if decide (todo = []) then since else last_row todo,
         (pages + page_count fuel (Z.to_nat limit) (length todo))%nat), w').
Proof.
  intros Hok Hsince Hlim. revert since pages got w Hok Hsince.
  induction fuel as [|fuel IH]; intros since pages got w Hok Hsince todo Hfuel.
  - destruct todo as [|r todo'] eqn:Et; [|cbn in Hfuel; lia]. subst todo.
    destruct (sync_page_spec since limit w Hok Hsince Hlim) as (w1 & Hd & E). rewrite Et in E.
    exists w1. split; [done|]. cbn [sync_all]. rewrite (st_bind_Ok_step _ _ _ _ _ E). cbn [sp_hasMore sp_cursor sp_changes].
    rewrite bool_decide_false by (cbn [length]; lia). rewrite take_nil, Nat.add_1_r. done.
  - destruct (sync_page_spec since limit w Hok Hsince Hlim) as (w1 & Hd & E). fold todo in E.
    remember (S fuel) as fuel' eqn:Ef. cbn [sync_all]. rewrite (st_bind_Ok_step _ _ _ _ _ E). subst fuel'. cbn [page_count].
    cbn [sp_hasMore sp_cursor sp_changes]. destruct (decide (limit < Z.of_nat (length todo))) as [Hmore|Hless].
    + rewrite bool_decide_true by done.
      rewrite (decide_True (P := (Z.to_nat limit < length todo)%nat)) by lia.
      assert (todo ≠ []) as Hne by (intros H; rewrite H in Hmore; cbn in Hmore; lia).
      rewrite decide_False by done.
      set (page := take (Z.to_nat limit) todo). destruct (last page) as [r|] eqn:Er.
      2:{ apply last_None in Er. unfold page in Er. apply (f_equal length) in Er. rewrite length_take in Er. cbn in Er. lia. }
      rewrite (last_row_seq _ _ Er).
      assert (filter (λ x, ch_seq r < ch_seq x) (d_changes (w_db w)) = drop (Z.to_nat limit) todo) as Hrest.
      { eapply (filter_above ch_seq); [apply Hok|symmetry; apply take_drop|exact Er|done]. }
      destruct (IH (ch_seq r) (S pages) (got ++ (change_json <$> page)) w1) as (w2 & Hd2 & E2).
      * by rewrite Hd.
      * assert (r ∈ todo) as [Hr _]%list_elem_of_filter; [|lia].
        apply (subseteq_take (Z.to_nat limit)). apply last_Some_elem_of in Er. done.
      * rewrite Hd, Hrest, length_drop. lia.
      * exists w2. split; [congruence|]. rewrite Hd, Hrest in E2. rewrite E2. f_equal. f_equal.
        rewrite <-app_assoc, <-fmap_app. unfold page. rewrite take_drop, length_drop.
        replace (S pages + page_count fuel (Z.to_nat limit) (length todo - Z.to_nat limit))%nat
          with (pages + S (page_count fuel (Z.to_nat limit) (length todo - Z.to_nat limit)))%nat by lia.
        destruct (decide (drop _ todo = [])) as [Hnil|_].
        { apply (f_equal length) in Hnil. rewrite length_drop in Hnil. cbn in Hnil. lia. }
        destruct (last (drop (Z.to_nat limit) todo)) as [y|] eqn:Ey'.
        2:{ apply last_None, (f_equal length) in Ey'. rewrite length_drop in Ey'. cbn in Ey'. lia. }
        assert (last (take (Z.to_nat limit) todo ++ drop (Z.to_nat limit) todo) = Some y) as Ey
          by (by rewrite last_app, Ey'). rewrite take_drop in Ey.
        rewrite (decide_False (P := todo = [])) by done. by rewrite (last_row_seq _ _ Ey), (last_row_seq _ _ Ey').
    + rewrite bool_decide_false by done.
      rewrite (decide_False (P := (Z.to_nat limit < length todo)%nat)) by lia.
      exists w1. split; [done|]. rewrite !(take_ge todo) by lia. rewrite Nat.add_1_r. done.
Qed.
End sync_lemmas.

(** ** Properties *)

Lemma page_count_ceil fuel limit n :
  (0 < limit)%nat → (n <= fuel)%nat →
  Z.of_nat (page_count fuel limit n) = Z.max 1 ((Z.of_nat n + Z.of_nat limit - 1) / Z.of_nat limit).
Proof.
  intros Hl. revert n. induction fuel as [|fuel IH]; intros n Hn; cbn [page_count].
  - replace n with 0%nat by lia. rewrite Z.div_small by lia. done.
  - destruct (decide (limit < n)%nat) as [Hlt|Hge].
    + rewrite Nat2Z.inj_succ, IH by lia. rewrite Nat2Z.inj_sub by lia.
      replace (Z.of_nat n + Z.of_nat limit - 1) with (Z.of_nat n - Z.of_nat limit + Z.of_nat limit - 1 + 1 * Z.of_nat limit) by lia.
      rewrite Z.div_add by lia.
      assert (1 <= (Z.of_nat n - Z.of_nat limit + Z.of_nat limit - 1) / Z.of_nat limit) by (apply Z.div_le_lower_bound; lia).
      lia.
    + destruct (decide (n = 0)%nat) as [->|Hn0]; [by rewrite Z.div_small by lia|].
      rewrite <-(Z.div_unique_pos (Z.of_nat n + Z.of_nat limit - 1) (Z.of_nat limit) 1 (Z.of_nat n - 1)) by lia. done.
Qed.

(** C24: catching up ends and is complete.  On a hub that is quiet meanwhile (nothing is
    committed, no call fails, no iteration breaks off), a client that asks for page after page
    until it is told there is no more has, after as many pages as the changes need and at least
    one, every change after its cursor exactly once and in order, and the cursor
    it ends with is the last of them. *)
Theorem sync_all_complete `{HE : HubEnv} (Hio : ∀ n, h_io n = false) (Hrows : whole_rows) limit since fuel w
    (Hok : log_ok (w_db w)) (Hsince : 0 <= since) (Hlimit : 0 < limit)
    (Hfuel : (length (filter (λ r, (since < ch_seq r)%Z) (d_changes (w_db w))) < fuel)%nat) :
  let todo := filter (λ r, since < ch_seq r) (d_changes (w_db w)) in
  ∃ pages w', sync_all fuel limit since 0 [] w =
      (Ok (change_json <$> todo, if decide (todo = []) then since else last_row todo, pages), w') ∧
    w_db w' = w_db w ∧
    Z.of_nat pages = Z.max 1 ((Z.of_nat (length todo) + limit - 1) / limit).
Proof.
  intros todo. destruct fuel as [|fuel]; [lia|].
  destruct (sync_all_spec Hio Hrows limit w fuel since 0 [] Hok Hsince Hlimit) as (w' & Hd & E); [fold todo in Hfuel |- *; lia|].
  eexists _, w'. split; [exact E|]. split; [done|]. rewrite Nat.add_0_l, page_count_ceil by (fold todo in Hfuel |- *; lia).
  fold todo. by rewrite Z2Nat.id by lia.
Qed.

Definition quiet_env : HubEnv :=
  {| h_now := λ _, 0; h_io := λ _, false; h_rows := λ _, None; h_ulid := λ _, EmptyString; h_rand := λ _, [] |}.


(** A log of five changes. *)
Definition five_row (n : Z) : changeRow :=
  {| ch_seq := n; ch_type := "tombstone"; ch_ref_id := "src_1"; ch_data := DTombstone "source" "src_1";
     ch_notify := None; ch_created_at := "2026-07-01T00:00:00.000Z" |}%string.
Definition five_db : db :=
  set_d_meta {["change_seq"%string := 5]} (set_d_changes (five_row <$> [1; 2; 3; 4; 5]) empty_db).

Lemma five_db_ok : log_ok five_db.
Proof. split; cbn; repeat constructor; done. Defined.

Lemma sync_all_complete_witness :
  ∃ pages w', sync_all (HE := quiet_env) 5 2 1 0 [] (world_of five_db) =
    (Ok (change_json ∘ five_row <$> [2; 3; 4; 5], 5, pages), w') ∧ Z.of_nat pages = 2.
Proof.
  destruct (sync_all_complete (HE := quiet_env) (λ _, eq_refl) (λ _, eq_refl) 2 1 5 (world_of five_db) five_db_ok
    ltac:(lia) ltac:(lia) ltac:(apply Nat.ltb_lt; vm_compute; reflexivity)) as (pages & w' & E & _ & Hp).
  exists pages, w'. split; [exact E|exact Hp].
Defined.

Lemma sync_page_any `{HE : HubEnv} since limit w :
  0 < limit →
  let '(r, w') := syncPage since limit w in
  w_db w' = w_db w ∧ w_broker w' = w_broker w ∧
  match r with
  | Err _ => ∃ n, h_io n = true
  | Ok page => ∃ rows, sp_changes page = change_json <$> rows ∧ (length rows <= Z.to_nat limit)%nat ∧
      ∀ r, r ∈ rows → since < ch_seq r ∧ r ∈ d_changes (w_db w)
  end.
Proof.
  intros Hlim. unfold syncPage, sync_rows, db_rows, db_query, db_call, mbind, stM_bind, mret, stM_ret.
  destruct (h_io (w_calls w)) eqn:Eio; [by eauto|].
  set (w1 := wset_db (w_db w) _). set (rows := cut_rows _ _).
  assert (∀ r, r ∈ rows → since < ch_seq r ∧ r ∈ d_changes (w_db w)) as Hrows.
  { intros r Hr. assert (r ∈ take (Z.to_nat (limit + 1)) (changes_after since (w_db w))) as Hr'.
    { by eapply (sublist_subseteq _ _ (cut_rows_sublist _ _)). }
    apply subseteq_take, list_elem_of_filter in Hr' as [Hlt Hin]. by rewrite merge_sort_Permutation in Hin. }
  unfold sync_answer. case_decide as Hlen.
  - split; [done|]. split; [done|]. exists (take (Z.to_nat limit) rows). split; [done|].
    split; [rewrite length_take; lia|]. intros r Hr. by apply Hrows, (subseteq_take (Z.to_nat limit)).
  - assert (∀ w2, w_db w2 = w_db w → w_broker w2 = w_broker w → w_db w2 = w_db w ∧ w_broker w2 = w_broker w ∧
      ∃ rows0, change_json <$> rows = change_json <$> rows0 ∧ (length rows0 <= Z.to_nat limit)%nat ∧
        ∀ r, r ∈ rows0 → since < ch_seq r ∧ r ∈ d_changes (w_db w)) as Hfin.
    { intros w2 H1 H2. split; [done|]. split; [done|]. exists rows. split; [done|]. split; [lia|exact Hrows]. }
    unfold maxChangeSeq, st_try, db_query, db_call, mbind, stM_bind, mret, stM_ret.
    destruct (decide (rows = [])); [destruct (h_io (w_calls w1))|]; by apply Hfin.
Qed.

(** What an answer to [GET /sync] is.  A malformed or negative cursor and a malformed or
    non-positive limit are answered 400 before the database is asked, a failed query 500;
    a page holds at most the limit, which is cut at 1000, and only changes after the cursor;
    no answer changes anything. *)
Theorem handleSync_answers `{HE : HubEnv} sinceQ limitQ w :
  match handleSync sinceQ limitQ w with
  | (Ok (Fail 400 _ _), w') => w' = w ∧ (sync_since sinceQ = None ∨ sync_limit limitQ = None)
  | (Ok (Fail 500 _ _), w') => w_db w' = w_db w ∧ w_broker w' = w_broker w ∧ ∃ n, h_io n = true
  | (Ok (Reply 200 page), w') => w_db w' = w_db w ∧ w_broker w' = w_broker w ∧
      ∃ since limit, sync_since sinceQ = Some since ∧ sync_limit limitQ = Some limit ∧
        0 <= since ∧ 0 < limit <= 1000 ∧ (length (sp_changes page) <= Z.to_nat limit)%nat ∧
        Forall (λ c, since < cj_ChangeSeq c ∧ ∃ r, r ∈ d_changes (w_db w) ∧ c = change_json r) (sp_changes page)
  | _ => False
  end.
Proof.
  assert (∀ s v, sync_since s = Some v → 0 <= v) as Hsince.
  { intros s v. unfold sync_since. case_decide; [intros [= <-]; lia|]. destruct (atoi s); [|done].
    case_decide; [done|intros [= <-]; lia]. }
  assert (∀ s v, sync_limit s = Some v → 0 < v <= 1000) as Hlim.
  { intros s v. unfold sync_limit. case_decide; [intros [= <-]; lia|]. destruct (atoi s); [|done].
    case_decide; [done|]. case_decide; intros [= <-]; lia. }
  unfold handleSync. destruct (sync_since sinceQ) as [since|] eqn:Es; [|cbn; auto].
  destruct (sync_limit limitQ) as [limit|] eqn:El; [|cbn; auto].
  apply Hsince in Es as Hs. apply Hlim in El as Hl.
  pose proof (sync_page_any since limit w ltac:(lia)) as H.
  unfold st_try, mbind, stM_bind. destruct (syncPage _ _ w) as [[page|e] w'] eqn:E; [|exact H].
  destruct H as (H1 & H2 & H3). split; [done|]. split; [done|]. exists since, limit. do 4 (split; [done|]).
  destruct H3 as (rows & -> & Hlen & Hr). split; [by rewrite length_fmap|].
  apply Forall_fmap, Forall_forall. intros r Hin. destruct (Hr r Hin) as [? ?]. cbn. eauto.
Qed.

(** ** Where the cursor runs ahead *)

(** An empty page's cursor is read after the page: a change committed in between is never
    sent, neither on this page nor after its cursor. *)
Lemma sync_cursor_race :
  let w := world_of five_db in
  let later := world_of (log_change "tombstone" "src_1" (DTombstone "source" "src_1") None 0 five_db) in
  (sync_rows (HE := quiet_env) 5 500 w).1 = Ok [] ∧
  (sync_answer (HE := quiet_env) 5 500 [] later).1 = Ok {| sp_cursor := 6; sp_hasMore := false; sp_changes := [] |} ∧
  filter (λ r, 6 < ch_seq r) (d_changes (w_db later)) = [] ∧ (5 < 6 ∧ ch_seq <$> last (d_changes (w_db later)) = Some 6).
Proof. vm_compute. repeat split; reflexivity. Qed.

(** An iteration that breaks off before its first row is taken for an empty page: the client
    is moved past every change. *)
Definition breaking_env : HubEnv :=
  {| h_now := λ _, 0; h_io := λ _, false; h_rows := λ _, Some 0%nat; h_ulid := λ _, EmptyString; h_rand := λ _, [] |}.

Lemma sync_broken_skips :
  (handleSync (HE := breaking_env) "0" "" (world_of five_db)).1 =
  Ok (Reply 200 {| sp_cursor := 5; sp_hasMore := false; sp_changes := [] |}).
Proof. vm_compute. reflexivity. Qed.
