(* ===== verification/Messages.v ===== *)
(** The read group of the API ([hub/api.go]): the overview, the lists of messages and faults,
    read and mute flags, and the metric series. *)

From S2P Require Import Prelude GoBase GoTime HubTypes HubStore Fault Handlers.
From Stdlib Require Import Ascii SpecFloat.
Local Open Scope Z_scope.

(** ** Bodies *)

(* @src hub/api.go 172-185 !handleOverview *)
Record overviewFault := {
  of_id : string; of_sourceId : string; of_sourceName : string; of_faultKey : string; of_severity : string;
  of_title : string; of_openedAt : string; of_lastEventAt : string; of_incident : Z; of_eventCount : Z;
  of_muted : bool; of_read : bool }.

(* @src hub/api.go 203-212 !handleOverview *)
Record overview := {
  ov_serverTime : string; ov_sources : list sourceJSON; ov_openFaults : list overviewFault;
  ov_unreadMessages : Z; ov_rulesVersion : Z; ov_settingsVersion : Z; ov_dnd : dndConfig }.

(** A page of a list, with the cursor of the next one. *)
Record listing (A : Type) := { li_items : list A; li_nextCursor : option string }.
Arguments li_items {A} l.
Arguments li_nextCursor {A} l.
Arguments Build_listing {A} li_items li_nextCursor.

(* @src hub/api.go 730-735 !point *)
Record point := { pt_TS : string; pt_Avg : float64; pt_Min : float64; pt_Max : float64 }.

(* @src hub/api.go 785-788 !agg *)
Record agg := { ag_sumW : float64; ag_min : float64; ag_max : float64; ag_n : Z }.

(** ** Queries *)

Definition is_null {A} (o : option A) : Prop := match o with None => True | Some _ => False end.
#[export] Instance is_null_dec {A} (o : option A) : Decision (is_null o).
Proof. destruct o; apply _. Defined.

(** [strconv.Atoi] of a list's limit: 50 if there is none, at most 200; [None] is the answer 400. *)
(* @src hub/api.go 299-310 !handleMessages *)
Definition list_limit (s : string) : option nat :=
  if decide (s = EmptyString) then Some 50%nat
  else match atoi s with
       | Some v => if decide (v <= 0) then None else Some (Z.to_nat (if decide (200 < v) then 200 else v))
       | None => None
       end.

(** The message list's filters: a row passes [filter] if it is of that kind; "feedback" joins
    the message with its source. *)
(* @src hub/api.go 322-330 !handleMessages *)
Definition in_filter (filter_ : string) (d : db) (m : messageRow) : Prop := (
  if decide (filter_ = "unread"%string) then is_null (m_ReadAt m)
  else if decide (filter_ = "feedback") then
    (∃ s, tbl_lookup (m_SourceID m) (d_sources d) = Some s ∧ s_Kind s = "feedback") ∧ is_null (m_FaultID m)
  else if decide (filter_ = "faults") then ¬ is_null (m_FaultID m)
  else True)%string%type.
#[export] Instance in_filter_dec f d m : Decision (in_filter f d m).
Proof.
  unfold in_filter. repeat case_decide; try apply _. destruct (tbl_lookup (m_SourceID m) (d_sources d)) as [s|] eqn:E.
  - destruct (decide (s_Kind s = "feedback"%string ∧ is_null (m_FaultID m))) as [[? ?]|Hn]; [left; eauto|right].
    intros [(s' & [= ->] & ?) ?]. by apply Hn.
  - right. by intros [(s & ? & _) _].
Defined.

(** [ORDER BY m.id DESC], [ORDER BY last_event_at DESC, id DESC]. *)
Definition message_desc (a b : messageRow) : Prop := str_le (m_ID b) (m_ID a).
#[export] Instance message_desc_dec a b : Decision (message_desc a b).
Proof. unfold message_desc. apply _. Defined.

(** A fault's place in the list: when it last moved, then its id. *)
Definition fault_place (f : faultRow) : string * string := (f_LastEventAt f, f_ID f).
Definition place_lt (a b : string * string) : Prop := str_lt a.1 b.1 ∨ (a.1 = b.1 ∧ str_lt a.2 b.2).
#[export] Instance place_lt_dec a b : Decision (place_lt a b).
Proof. unfold place_lt. apply _. Defined.
Definition fault_desc (a b : faultRow) : Prop := place_lt (fault_place b) (fault_place a) ∨ fault_place b = fault_place a.
#[export] Instance fault_desc_dec a b : Decision (fault_desc a b).
Proof. unfold fault_desc. apply _. Defined.

(** The rows of the message list before any page is cut, newest first. *)
(* @src hub/api.go 314-340 !handleMessages *)
Definition message_rows (filter_ src : string) (d : db) : list messageRow :=
  merge_sort message_desc
    (filter (λ m, in_filter filter_ d m ∧ (src = EmptyString ∨ m_SourceID m = src)) (d_messages d)).

Definition fault_rows (state : string) (d : db) : list faultRow :=
  merge_sort fault_desc (filter (λ f, state = "all"%string ∨ f_State f = state) (d_faults d)).

(** After the cursor of the fault list. *)
Definition past_place (cursor : option (string * string)) (f : faultRow) : Prop :=
  match cursor with Some p => place_lt (fault_place f) p | None => True end.
#[export] Instance past_place_dec c f : Decision (past_place c f).
Proof. unfold past_place. destruct c; apply _. Defined.

(** [strings.SplitN(c, "|", 2)] with two parts. *)
Fixpoint split_bar (c : string) : option (string * string) :=
  match c with
  | EmptyString => None
  | String a c' => if decide (a = "|"%char) then Some (EmptyString, c')
                   else match split_bar c' with Some (l, r) => Some (String a l, r) | None => None end
  end.

Section messages.
Context `{HE : HubEnv}.
Notation HM := (stM World herr).

(* @src hub/api.go 145-215 handleOverview *)
(** Faults that moved at the same instant come in any order; here in the table's. *)
Definition handleOverview : HM (reply overview) :=
  r ← st_try (
    hbSec ← heartbeatSeconds;
    sources ← listSources;
    srcJSON ← st_foldl (λ acc s, now ← nowUTC; mret (acc ++ [toSourceJSON s hbSec now])) [] sources;
    rows ← db_rows (λ d, merge_sort (λ a b, str_le (f_LastEventAt b) (f_LastEventAt a))
                            (filter (λ f, f_State f = "open"%string) (d_faults d)));
    openFaults ← st_foldl (λ acc f,
      name ← sourceName (f_SourceID f);
      mret (acc ++ [{| of_id := f_ID f; of_sourceId := f_SourceID f; of_sourceName := name;
                       of_faultKey := f_FaultKey f; of_severity := f_Severity f; of_title := f_Title f;
                       of_openedAt := f_OpenedAt f; of_lastEventAt := f_LastEventAt f;
                       of_incident := f_Incident f; of_eventCount := f_EventCount f;
                       of_muted := bool_decide (¬ is_null (f_MutedAt f));
                       of_read := bool_decide (¬ is_null (f_ReadAt f)) |}])) [] rows;
    unread ← st_try (db_query (λ d, Z.of_nat (length (filter (λ m, is_null (m_ReadAt m)) (d_messages d)))));
    rules ← loadRules;
    settings ← loadSettings;
    now ← nowUTC;
    mret {| ov_serverTime := fmtTS now; ov_sources := srcJSON; ov_openFaults := openFaults;
            ov_unreadMessages := match unread with Ok n => n | Err _ => 0 end;
            ov_rulesVersion := rd_Version rules; ov_settingsVersion := sd_Version settings;
            ov_dnd := sd_DND settings |});
  mret match r with Ok body => Reply 200 body | Err _ => errInternal end.

(** A page cut from the rows after the cursor: at most [limit], and the last one's cursor if
    there is another row. *)
(* @src hub/api.go 349-366 !handleMessages *)
Definition cut_page {R J} (limit : nat) (json : R → HM J) (cursor : R → string) (rows : list R) : HM (listing J) :=
  items ← st_foldl (λ acc r, j ← json r; mret (acc ++ [j])) [] (take limit rows);
  mret (Build_listing items
    (if decide (limit < length rows)%nat then cursor <$> last (take limit rows) else None)).

Definition message_json (m : messageRow) : HM messageJSON :=
  name ← sourceName (m_SourceID m); mret (toMessageJSON m name).
Definition fault_json (f : faultRow) : HM faultJSON :=
  name ← sourceName (f_SourceID f); mret (toFaultJSON f name).

(** The query of the message list. *)
(* @src hub/api.go 342-366 !handleMessages *)
Definition messagesPage (filter_ src cursor : string) (limit : nat) : HM (listing messageJSON) :=
  rows ← db_rows (λ d, take (S limit)
    (filter (λ m, cursor = EmptyString ∨ str_lt (m_ID m) cursor) (message_rows filter_ src d)));
  cut_page limit message_json m_ID rows.

(* @src hub/api.go 289-365 handleMessages *)
Definition handleMessages (filterQ limitQ cursor srcFilter : string) : HM (reply (listing messageJSON)) :=
  let filter_ := if decide (filterQ = "") then "all" else filterQ in
  if decide (filter_ ∉ ["all"; "unread"; "feedback"; "faults"]) then mret (errInvalid "filter 非法")
  else match list_limit limitQ with
  | None => mret (errInvalid "limit 非法")
  | Some limit =>
    r ← st_try (messagesPage filter_ srcFilter cursor limit);
    mret match r with Ok page => Reply 200 page | Err _ => errInternal end
  end%string.

(* @src hub/api.go 367-386 handleMessageDetail *)
Definition handleMessageDetail (id : string) : HM (reply (messageJSON * option faultJSON)) :=
  r ← st_try (loadMessage id);
  match r with
  | Err ENoRows => mret errNotFound
  | Err _ => mret errInternal
  | Ok m =>
    mj ← message_json m;
    fj ← match m_FaultID m with
         | Some fid =>
           f ← st_try (loadFault fid);
           match f with Ok f => fj ← fault_json f; mret (Some fj) | Err _ => mret None end
         | None => mret None
         end;
    mret (Reply 200 (mj, fj))
  end.

(* @src hub/api.go 433-436 loadMessageTx *)
Definition loadMessageTx (id : string) : HM messageRow := tx_row (λ d, tbl_lookup id (d_messages d)).

(* @src hub/api.go 412-425 !setMessageRead *)
(** Stores a message's read mark, logs the message and stores the number it was logged under;
    the object as logged. *)
Definition store_read (m : messageRow) : HM (changeEntry * messageJSON) :=
  tx_exec (λ d, set_d_messages (tbl_update (m_ID m) (set_m_ReadAt (m_ReadAt m)) (d_messages d)) d) ;;
  mj ← message_json m;
  entry ← insertChangeObj "message" (m_ID m) (λ seq, DMessage (set_mj_ChangeSeq seq mj)) None;
  tx_exec (λ d, set_d_messages (tbl_update (m_ID m) (set_m_ChangeSeq (ce_Seq entry)) (d_messages d)) d) ;;
  mret (entry, set_mj_ChangeSeq (ce_Seq entry) mj).

(* @src hub/api.go 398-426 !setMessageRead *)
(** The transaction of [setMessageRead]. *)
Definition read_tx (id : string) (read : bool) : HM (list changeEntry * messageJSON) :=
  m ← loadMessageTx id;
  if decide (read = bool_decide (¬ is_null (m_ReadAt m))) then
    mj ← message_json m; mret ([], mj)
  else
    readAt ← (if read then now ← nowUTC; mret (Some (fmtTS now)) else mret None);
    r ← store_read (set_m_ReadAt readAt m);
    mret ([r.1], r.2).

(** The end of the handlers that mark one object: a missing row is the answer 404. *)
(* @src hub/api.go 428-437 !setMessageRead *)
Definition answer_marked {J} (r : outcome herr (list changeEntry * J)) : HM (reply J) :=
  match r with
  | Err ENoRows => mret errNotFound
  | Err _ => mret errInternal
  | Ok (changes, out) => publish changes ;; mret (Reply 200 out)
  end.

(* @src hub/api.go 388-431 setMessageRead *)
Definition setMessageRead (id : string) (read : bool) : HM (reply messageJSON) :=
  r ← st_try (withTx (read_tx id read)); answer_marked r.

(* @src hub/api.go 438-440 handleMessageRead *)
Definition handleMessageRead (id : string) : HM (reply messageJSON) := setMessageRead id true.
(* @src hub/api.go 442-444 handleMessageUnread *)
Definition handleMessageUnread (id : string) : HM (reply messageJSON) := setMessageRead id false.

(** The loop of [handleMessagesReadAll]. *)
(* @src hub/api.go 497-517 !handleMessagesReadAll *)
Definition read_one (now : string) (acc : list changeEntry * Z) (id : string) : HM (list changeEntry * Z) :=
  m ← loadMessageTx id;
  r ← store_read (set_m_ReadAt (Some now) m);
  mret (acc.1 ++ [r.1], acc.2 + 1).

(** Unread messages up to a time, [ORDER BY id]. *)
Definition id_order (a b : messageRow) : Prop := str_le (m_ID a) (m_ID b).
#[export] Instance id_order_dec a b : Decision (id_order a b).
Proof. unfold id_order. apply _. Defined.
(* @src hub/api.go 474-480 !handleMessagesReadAll *)
Definition unread_until (before : option string) (m : messageRow) : Prop :=
  is_null (m_ReadAt m) ∧ match before with Some t => str_le (m_ReceivedAt m) t | None => True end.
#[export] Instance unread_until_dec b m : Decision (unread_until b m).
Proof. unfold unread_until. destruct b; apply _. Defined.

(* @src hub/api.go 473-519 !handleMessagesReadAll *)
Definition read_all_tx (before : option string) : HM (list changeEntry * Z) :=
  ids ← tx_rows (λ d, m_ID <$> merge_sort id_order (filter (unread_until before) (d_messages d)));
  now ← nowUTC;
  st_foldl (read_one (fmtTS now)) ([], 0) ids.

(* @src hub/api.go 446-526 handleMessagesReadAll *)
Definition handleMessagesReadAll (before : option string) : HM (reply Z) :=
  let run beforeTS :=
    r ← st_try (withTx (read_all_tx beforeTS));
    match r with
    | Err _ => mret errInternal
    | Ok (changes, updated) => publish changes ;; mret (Reply 200 updated)
    end in
  match before with
  | Some s =>
    if decide (s = EmptyString) then run None
    else match parseTS s with
         | None => mret (errInvalid "before 非法")
         | Some t => run (Some (fmtTS t))
         end
  | None => run None
  end%string.

(** The query of the fault list. *)
Definition faultsPage (state : string) (cursor : option (string * string)) (limit : nat) : HM (listing faultJSON) :=
  rows ← db_rows (λ d, take (S limit) (filter (past_place cursor) (fault_rows state d)));
  cut_page limit fault_json (λ f, (f_LastEventAt f +:+ "|" +:+ f_ID f)%string) rows.

(* @src hub/api.go 530-598 handleFaults *)
Definition handleFaults (stateQ limitQ cursorQ : string) : HM (reply (listing faultJSON)) :=
  let state := if decide (stateQ = "") then "all" else stateQ in
  if decide (state ∉ ["open"; "resolved"; "all"]) then mret (errInvalid "state 非法")
  else match list_limit limitQ with
  | None => mret (errInvalid "limit 非法")
  | Some limit =>
    let run cursor :=
      r ← st_try (faultsPage state cursor limit);
      mret match r with Ok page => Reply 200 page | Err _ => errInternal end in
    if decide (cursorQ = "") then run None
    else match split_bar cursorQ with
         | None => mret (errInvalid "cursor 非法")
         | Some p => run (Some p)
         end
  end%string.

(* @src hub/api.go 611-635 !updateFaultFlags *)
(** The flags after an operation; [None] if there is nothing to do. *)
Definition fault_flags (op : string) (now : string) (f : faultRow) : option faultRow :=
  if decide (op = "read") then
    match f_ReadAt f with None => Some (set_f_ReadAt (Some now) f) | Some _ => None end
  else if decide (op = "mute") then
    match f_MutedAt f with None => Some (set_f_MutedUntil None (set_f_MutedAt (Some now) f)) | Some _ => None end
  else if decide (op = "unmute") then
    match f_MutedAt f with Some _ => Some (set_f_MutedUntil None (set_f_MutedAt None f)) | None => None end
  else Some f.

(** The columns the [UPDATE] writes. *)
(* @src hub/api.go 637-641 !updateFaultFlags *)
Definition copy_flags (g f : faultRow) : faultRow :=
  set_f_ReadAt (f_ReadAt g) (set_f_MutedAt (f_MutedAt g) (set_f_MutedUntil (f_MutedUntil g) f)).

(* @src hub/api.go 605-654 !updateFaultFlags *)
Definition flags_tx (id op : string) : HM (list changeEntry * faultJSON) :=
  f ← tx_row (λ d, tbl_lookup id (d_faults d));
  now ← nowUTC;
  match fault_flags op (fmtTS now) f with
  | None => fj ← fault_json f; mret ([], fj)
  | Some g =>
    tx_exec (λ d, set_d_faults (tbl_update (f_ID g) (copy_flags g) (d_faults d)) d) ;;
    fj ← fault_json g;
    entry ← insertChangeObj "fault" (f_ID g) (λ seq, DFault (set_fj_ChangeSeq seq fj)) None;
    tx_exec (λ d, set_d_faults (tbl_update (f_ID g) (set_f_ChangeSeq (ce_Seq entry)) (d_faults d)) d) ;;
    mret ([entry], set_fj_ChangeSeq (ce_Seq entry) fj)
  end.

(* @src hub/api.go 600-661 updateFaultFlags *)
Definition updateFaultFlags (id op : string) : HM (reply faultJSON) :=
  r ← st_try (withTx (flags_tx id op)); answer_marked r.

(* @src hub/api.go 663-665 handleFaultRead *)
Definition handleFaultRead (id : string) : HM (reply faultJSON) := updateFaultFlags id "read".
(* @src hub/api.go 666-668 handleFaultMute *)
Definition handleFaultMute (id : string) : HM (reply faultJSON) := updateFaultFlags id "mute".
(* @src hub/api.go 669-671 handleFaultUnmute *)
Definition handleFaultUnmute (id : string) : HM (reply faultJSON) := updateFaultFlags id "unmute".
End messages.

(** ** Metric series *)

(* @src hub/api.go 679-682 !seriesMetrics *)
Definition seriesMetrics : list string :=
  ["cpu_percent"; "mem_percent"; "disk_percent"; "net_rx_bps"; "net_tx_bps"]%string.

(** [from] and [to], empty when the query has none. *)
Definition in_range (fromTS toTS ts : string) : Prop :=
  (fromTS = EmptyString ∨ str_le fromTS ts) ∧ (toTS = EmptyString ∨ str_le ts toTS).
#[export] Instance in_range_dec f t ts : Decision (in_range f t ts).
Proof. unfold in_range. apply _. Defined.

(** A bound of the range, rewritten; [None] is the answer 400. *)
(* @src hub/api.go 712-728 !handleMetricsSeries *)
Definition series_bound (s : string) : option string :=
  if decide (s = EmptyString) then Some EmptyString else fmtTS <$> parseTS s.

(* @src hub/api.go 789-798 !bucketOf *)
Definition bucketOf (step ts : string) : string :=
  if decide (step = "5m"%string) then ts
  else match parseTS ts with Some t => fmtTS (time_truncate t Hour) | None => ts end.

(** One row of the loop over the five-minute rows: the groups and the order they came in. *)
(* @src hub/api.go 801-824 !handleMetricsSeries *)
Definition add_row (step : string) (acc : list string * gmap string agg) (r : rollRow)
    : list string * gmap string agg :=
  let bk := bucketOf step (m5_bucket r) in
  let '(order, g) :=
    match acc.2 !! bk with
    | Some g => (acc.1, g)
    | None => (acc.1 ++ [bk], {| ag_sumW := S754_zero false; ag_min := m5_min r; ag_max := m5_max r; ag_n := 0 |})
    end in
  (order, <[bk := {| ag_sumW := f64_add (ag_sumW g) (f64_mul (m5_avg r) (f64_of_Z (m5_n r)));
                     ag_min := if f64_lt (m5_min r) (ag_min g) then m5_min r else ag_min g;
                     ag_max := if f64_lt (ag_max g) (m5_max r) then m5_max r else ag_max g;
                     ag_n := wrap64 (ag_n g + m5_n r) |}]> acc.2).

(* @src hub/api.go 825-832 !handleMetricsSeries *)
Definition agg_point (groups : gmap string agg) (bk : string) : list point :=
  match groups !! bk with
  | Some g => [{| pt_TS := bk;
                  pt_Avg := if decide (0 < ag_n g) then f64_div (ag_sumW g) (f64_of_Z (ag_n g)) else S754_zero false;
                  pt_Min := ag_min g; pt_Max := ag_max g |}]
  | None => []
  end.

(* @src hub/api.go 799-832 !handleMetricsSeries *)
Definition series_of (step : string) (rows : list rollRow) : list point :=
  let '(order, groups) := foldl (add_row step) ([], ∅) rows in concat (agg_point groups <$> order).

(* @src hub/api.go 740-751 !handleMetricsSeries *)
Definition raw_series (src metric label fromTS toTS : string) (d : db) : list rawRow :=
  merge_sort (λ a b, str_le (mr_ts a) (mr_ts b))
    (filter (λ r, mr_source_id r = src ∧ mr_metric r = metric ∧ mr_label r = label ∧ in_range fromTS toTS (mr_ts r)) (d_raw d)).
(* @src hub/api.go 767-779 !handleMetricsSeries *)
Definition roll_series (src metric label fromTS toTS : string) (d : db) : list rollRow :=
  merge_sort (λ a b, str_le (m5_bucket a) (m5_bucket b))
    (filter (λ r, m5_source_id r = src ∧ m5_metric r = metric ∧ m5_label r = label ∧ in_range fromTS toTS (m5_bucket r)) (d_5m d)).

Section series.
Context `{HE : HubEnv}.
Notation HM := (stM World herr).

(* @src hub/api.go 738-833 !handleMetricsSeries *)
Definition series_rows (src metric label step fromTS toTS : string) : HM (list point) :=
  if decide (step = "raw"%string) then
    db_rows (λ d, (λ r, {| pt_TS := mr_ts r; pt_Avg := mr_value r; pt_Min := mr_value r; pt_Max := mr_value r |}) <$>
      raw_series src metric label fromTS toTS d)
  else rows ← db_rows (roll_series src metric label fromTS toTS); mret (series_of step rows).

(* @src hub/api.go 680-835 handleMetricsSeries *)
Definition handleMetricsSeries (sourceID metric labelQ stepQ fromQ toQ : string) : HM (reply (list point)) :=
  let label := if decide (metric = "disk_percent") then labelQ else "" in
  let step := if decide (stepQ = "") then "raw" else stepQ in
  if decide (sourceID = "") then mret (errInvalid "source 必填")
  else if decide (metric ∉ seriesMetrics) then mret (errInvalid "metric 非法")
  else if decide (metric = "disk_percent" ∧ label = "") then mret (errInvalid "disk_percent 需要 label")
  else if decide (step ∉ ["raw"; "5m"; "1h"]) then mret (errInvalid "step 非法")
  else match series_bound fromQ with
  | None => mret (errInvalid "from 非法")
  | Some fromTS =>
    match series_bound toQ with
    | None => mret (errInvalid "to 非法")
    | Some toTS =>
      r ← st_try (series_rows sourceID metric label step fromTS toTS);
      mret match r with Ok series => Reply 200 series | Err _ => errInternal end
    end
  end%string.
End series.

(** ** What marking does *)

Section marking.
Context `{HE : HubEnv}.
Notation HM := (stM World herr).

Lemma tbl_update_twice {K R} `{EqDecision K} `{!Keyed K R} (k : K) (f g : R → R) t :
  (∀ r, pkey (g r) = (pkey r : K)) → tbl_update k f (tbl_update k g t) = tbl_update k (f ∘ g) t.
Proof.
  intros Hg. unfold tbl_update. rewrite <-list_fmap_compose. apply list_fmap_ext. intros _ r _. cbn.
  destruct (decide (pkey r = k)) as [Hk|Hk]; cbn; [by rewrite decide_True by (by rewrite Hg)|by rewrite decide_False].
Qed.

(** A list updated in place keeps what the update keeps. *)
Lemma tbl_update_fmap {K R B} `{EqDecision K} `{!Keyed K R} (k : K) (f : R → R) (g : R → B) t :
  (∀ r, g (f r) = g r) → g <$> tbl_update k f t = g <$> t.
Proof.
  intros Hg. unfold tbl_update. rewrite <-list_fmap_compose. apply list_fmap_ext. intros _ r _. cbn. by case_decide.
Qed.

Lemma update_messages_ok k f d :
  (∀ m, m_ID (f m) = m_ID m ∧ m_FaultID (f m) = m_FaultID m) → db_ok d →
  db_ok (set_d_messages (tbl_update k f (d_messages d)) d).
Proof.
  intros Hf [K1 K2 K3 K4 K5 K6 K7].
  assert (m_ID <$> tbl_update k f (d_messages d) = m_ID <$> d_messages d) as Hids by (apply tbl_update_fmap; apply Hf).
  split; try done; cbn; [by rewrite Hids|]. intros Hrows m id Hm Hid. unfold tbl_update in Hm.
  apply list_elem_of_fmap in Hm as (m0 & -> & Hm0). apply (K6 Hrows m0); [done|]. rewrite <-Hid.
  case_decide; [symmetry; apply Hf|done].
Qed.

Lemma update_faults_ok k f d :
  (∀ x, f_ID (f x) = f_ID x ∧ fault_slot (f x) = fault_slot x ∧ (fault_ok x → fault_ok (f x))) → db_ok d →
  db_ok (set_d_faults (tbl_update k f (d_faults d)) d).
Proof.
  intros Hf [K1 K2 K3 K4 K5 K6 K7].
  assert (f_ID <$> tbl_update k f (d_faults d) = f_ID <$> d_faults d) as Hids by (apply tbl_update_fmap; apply Hf).
  assert (fault_slot <$> tbl_update k f (d_faults d) = fault_slot <$> d_faults d) as Hslots by (apply tbl_update_fmap; apply Hf).
  split; try done; cbn; [by rewrite Hids|by rewrite Hslots| |by intros; rewrite Hids; eapply K6].
  unfold tbl_update. apply Forall_fmap. eapply Forall_impl; [exact K3|]. intros x Hx. cbn. case_decide; [by apply Hf|done].
Qed.

Lemma log_change_ok typ ref data n t d : db_ok d → db_ok (log_change typ ref data n t d).
Proof.
  intros [K1 K2 K3 K4 K5 K6 K7]. split; try done. by eapply log_grows_ok, log_change_grows.
Qed.

(** The row logged for an object. *)
Definition logged (typ ref : string) (data : change_data) (t : Z) (d : db) : changeRow :=
  {| ch_seq := change_seq d + 1; ch_type := typ; ch_ref_id := ref; ch_data := data; ch_notify := None;
     ch_created_at := fmtTS t |}.

(** A message marked and logged as [mj]. *)
Definition marked_message (id : string) (readAt : option string) (mj : messageJSON) (t : Z) (d : db) : db :=
  set_d_messages (tbl_update id (λ m, set_m_ChangeSeq (change_seq d + 1) (set_m_ReadAt readAt m)) (d_messages d))
    (log_change "message" id (DMessage mj) None t d).

Lemma marked_message_ok id readAt mj t d : db_ok d → db_ok (marked_message id readAt mj t d).
Proof. 
  intros Hok. by apply (update_messages_ok id _ (log_change "message" id (DMessage mj) None t d)), log_change_ok.
Qed.

Lemma marked_message_grows id readAt mj t d :
  log_grows d (marked_message id readAt mj t d) [logged "message" id (DMessage mj) t d].
Proof. eapply log_grows_same; [apply log_change_grows|done|done]. Qed.

Lemma reads_Ok {A} (m : HM A) w : reads m → ∃ a w', m w = (Ok a, w') ∧ untouched w w'.
Proof. intros Hm. destruct (Hm w) as [Hu [a Ha]]. destruct (m w) as [r w']. cbn in *. subst r. eauto. Qed.

Lemma sourceName_Ok id w name w' : sourceName id w = (Ok name, w') → w_tx w' = w_tx w ∧ same_outside w w'.
Proof.
  unfold sourceName, st_try, db_row, db_call, mbind, stM_bind, mret, stM_ret.
  destruct (h_io _); [intros [= _ <-]; by repeat split|]. destruct (tbl_lookup _ _); intros [= _ <-]; by repeat split.
Qed.

Lemma store_read_Ok m w d e mj w' :
  w_tx w = Some d → store_read m w = (Ok (e, mj), w') →
  ∃ name t, mj = toMessageJSON (set_m_ChangeSeq (change_seq d + 1) m) name ∧
    e = entry_of (logged "message" (m_ID m) (DMessage mj) t d) ∧
    w_tx w' = Some (marked_message (m_ID m) (m_ReadAt m) mj t d) ∧ same_outside w w'.
Proof.
  intros Hd H. unfold store_read, message_json in H. mrun H.
  apply (tx_exec_Ok _ _ _ _ _ Hd) in Hrun as [Hd1 S1]. mrun H. mrun Hrun.
  apply sourceName_Ok in Hrun0 as [Hd2 S2]. injection Hrun as <- <-. rewrite Hd1 in Hd2.
  mrun H. apply (insertChangeObj_Ok _ _ _ _ _ _ _ _ Hd2) in Hrun as (t & Hd3 & S3 & ->).
  mrun H. apply (tx_exec_Ok _ _ _ _ _ Hd3) in Hrun as [Hd4 S4]. injection H as <- <- <-.
  eexists _, t. split; [reflexivity|]. split; [done|]. split; [|repeat (etransitivity; [eassumption|]); done].
  rewrite Hd4. f_equal. unfold marked_message. cbn [d_messages set_d_messages log_change ce_Seq].
  change (change_seq (set_d_messages _ d)) with (change_seq d).
  change (d_messages (log_change _ _ _ _ _ (set_d_messages ?x d))) with x.
  rewrite tbl_update_twice by done. reflexivity.
Qed.

(** A fault with other flags, logged as [fj]. *)
Definition marked_fault (g : faultRow) (fj : faultJSON) (t : Z) (d : db) : db :=
  set_d_faults (tbl_update (f_ID g) (λ f, set_f_ChangeSeq (change_seq d + 1) (copy_flags g f)) (d_faults d))
    (log_change "fault" (f_ID g) (DFault fj) None t d).

Lemma marked_fault_ok g fj t d : db_ok d → db_ok (marked_fault g fj t d).
Proof.
  intros Hok. apply (update_faults_ok (f_ID g) _ (log_change "fault" (f_ID g) (DFault fj) None t d)); [done|].
  by apply log_change_ok.
Qed.

Lemma marked_fault_grows g fj t d : log_grows d (marked_fault g fj t d) [logged "fault" (f_ID g) (DFault fj) t d].
Proof. eapply log_grows_same; [apply log_change_grows|done|done]. Qed.

Lemma read_tx_Ok id read w d ch mj w' :
  w_tx w = Some d → read_tx id read w = (Ok (ch, mj), w') →
  same_outside w w' ∧ ∃ m name, tbl_lookup id (d_messages d) = Some m ∧
    (read = bool_decide (¬ is_null (m_ReadAt m)) ∧ ch = [] ∧ mj = toMessageJSON m name ∧ w_tx w' = Some d ∨
     ∃ readAt t, read = bool_decide (¬ is_null readAt) ∧ read ≠ bool_decide (¬ is_null (m_ReadAt m)) ∧
       mj = toMessageJSON (set_m_ChangeSeq (change_seq d + 1) (set_m_ReadAt readAt m)) name ∧
       ch = [entry_of (logged "message" id (DMessage mj) t d)] ∧ w_tx w' = Some (marked_message id readAt mj t d)).
Proof.
  intros Hd H. unfold read_tx in H. mrun H. apply (tx_row_Ok _ _ _ _ _ Hd) in Hrun as (Hm & Hd1 & S1).
  pose proof (tbl_lookup_Some _ _ _ Hm) as [_ Hid]. unfold pkey, message_key in Hid. subst id.
  destruct (decide (read = _)) as [Heq|Hne].
  - mrun H. injection H as <- <- <-. unfold message_json in Hrun. mrun Hrun. apply sourceName_Ok in Hrun0 as [Hd2 S2].
    injection Hrun as <- <-. split; [by etransitivity|]. eexists _, _. split; [exact Hm|]. left.
    split_and!; [done..|by rewrite Hd2].
  - mrun H. assert (w_tx s0 = Some d ∧ same_outside s s0 ∧ read = bool_decide (¬ is_null a0)) as (Hd2 & S2 & Hr).
    { destruct read; [|by injection Hrun as <- <-]. mrun Hrun. injection Hrun0 as <- <-. injection Hrun as <- <-. by repeat split. }
    mrun H. destruct a1 as [e mj0]. injection H as <- <- <-.
    apply (store_read_Ok _ _ _ _ _ _ Hd2) in Hrun0 as (name & t & -> & -> & Hd3 & S3).
    split; [etransitivity; [exact S1|by etransitivity]|]. eexists _, name. split; [exact Hm|]. right.
    exists a0, t. split_and!; done.
Qed.

Lemma flags_tx_Ok id op w d ch fj w' :
  w_tx w = Some d → flags_tx id op w = (Ok (ch, fj), w') →
  same_outside w w' ∧ ∃ f now name, tbl_lookup id (d_faults d) = Some f ∧
    match fault_flags op (fmtTS now) f with
    | None => ch = [] ∧ fj = toFaultJSON f name ∧ w_tx w' = Some d
    | Some g => fj = toFaultJSON (set_f_ChangeSeq (change_seq d + 1) g) name ∧
        ∃ t, ch = [entry_of (logged "fault" id (DFault fj) t d)] ∧ w_tx w' = Some (marked_fault g fj t d)
    end.
Proof.
  intros Hd H. unfold flags_tx in H. mrun H. apply (tx_row_Ok _ _ _ _ _ Hd) in Hrun as (Hf & Hd1 & S1).
  pose proof (tbl_lookup_Some _ _ _ Hf) as [_ Hid]. unfold pkey, fault_key in Hid. subst id. mrun H. injection Hrun as <- <-.
  set (now := h_now _) in *. destruct (fault_flags op (fmtTS now) a) as [g|] eqn:Eg.
  - assert (f_ID g = f_ID a) as Hg.
    { unfold fault_flags in Eg. repeat (case_decide || case_match); by simplify_eq. }
    mrun H. apply (tx_exec_Ok _ (wset_ticks (S (w_ticks s)) s) d _ _ Hd1) in Hrun as [Hd2 S2]. mrun H.
    unfold fault_json in Hrun. mrun Hrun. apply sourceName_Ok in Hrun0 as [Hd3 S3]. injection Hrun as <- <-. rewrite Hd2 in Hd3.
    mrun H. apply (insertChangeObj_Ok _ _ _ _ _ _ _ _ Hd3) in Hrun as (t & Hd4 & S4 & ->).
    mrun H. apply (tx_exec_Ok _ _ _ _ _ Hd4) in Hrun as [Hd5 S5]. injection H as <- <- <-.
    split; [etransitivity; [exact S1|]; repeat (etransitivity; [eassumption|]); done|].
    eexists _, now, _. split; [exact Hf|]. rewrite Eg. split; [reflexivity|]. exists t. split; [by rewrite <-Hg|].
    rewrite Hd5. f_equal. unfold marked_fault. cbn [d_faults set_d_faults log_change ce_Seq].
    change (change_seq (set_d_faults _ d)) with (change_seq d).
    change (d_faults (log_change _ _ _ _ _ (set_d_faults ?x d))) with x.
    rewrite tbl_update_twice by done. reflexivity.
  - mrun H. unfold fault_json in Hrun. mrun Hrun. apply sourceName_Ok in Hrun0 as [Hd3 S3]. injection Hrun as <- <-.
    injection H as <- <- <-. split; [etransitivity; [exact S1|done]|].
    eexists _, now, _. split; [exact Hf|]. rewrite Eg. split_and!; [done..|by rewrite Hd3].
Qed.
End marking.

Section marking_answers.
Context `{HE : HubEnv}.
Notation HM := (stM World herr).

(** How a request that marks one object ends. *)
Lemma answer_marked_run {J} (fn : HM (list changeEntry * J)) w :
  sealed fn →
  match (r ← st_try (withTx fn); answer_marked r) w with
  | (Ok (Reply st out), w') => st = 200 ∧ ∃ ch w0 w1, w_tx w0 = Some (w_db w) ∧ same_outside w w0 ∧
      fn w0 = (Ok (ch, out), w1) ∧ w_tx w1 = Some (w_db w') ∧ w_broker w' = foldl (λ b e, Publish e b) (w_broker w1) ch
  | (Ok (Fail st _ _), w') => untouched w w' ∧
      (st = 404 ∧ (∃ w0 w1, w_tx w0 = Some (w_db w) ∧ fn w0 = (Err ENoRows, w1)) ∨ st = 500)
  | (Err _, _) => False
  end.
Proof.
  intros Hs. unfold st_try. unfold mbind, stM_bind. destruct (withTx fn w) as [[[ch out]|e] w1] eqn:E.
  - cbn. split; [done|]. apply withTx_Ok in E as (w0 & w2 & d' & Ht & Ho & Hf & Ht2 & Hd & _ & _ & Hb).
    exists ch, w0, w2. cbn. split_and!; try done; congruence.
  - assert (untouched w w1) as Hu by (by eapply withTx_failed).
    destruct e; cbn; (split; [exact Hu|]); try (by right). left.
    split; [done|]. unfold withTx in E. destruct (h_io _); [done|].
    destruct (fn _) as [[a|e1] w2] eqn:Ef; [destruct (h_io _); [done|]; by destruct (w_tx w2)|].
    injection E as -> <-. eexists _, w2. split; [|exact Ef]. done.
Qed.

Lemma store_read_rows m : errs (λ e, e ≠ ENoRows) (store_read m).
Proof. unfold store_read, message_json. errs_steps. Qed.

Lemma row_error {A B} (f : db → option A) (k : A → HM B) w d w' :
  w_tx w = Some d → (∀ a, errs (λ e, e ≠ ENoRows) (k a)) → (tx_row f ≫= k) w = (Err ENoRows, w') → f d = None.
Proof.
  intros Hd Hk. unfold mbind, stM_bind, tx_row, tx_call. rewrite Hd. destruct (h_io _); [done|].
  destruct (f d) as [a|]; [|done]. intros H. by apply Hk in H.
Qed.

Lemma sealed_read_tx id read : sealed (read_tx id read).
Proof. intros d0 b0. unfold read_tx, loadMessageTx, store_read, message_json, sourceName. pres. Qed.
Lemma sealed_flags_tx id op : sealed (flags_tx id op).
Proof. intros d0 b0. unfold flags_tx, fault_json, sourceName. pres. Qed.
End marking_answers.

(** ** Marking everything read *)

(** The messages [ids] read at [now], each under the number [q] gives it. *)
Definition all_read (ids : list string) (now : string) (q : string → Z) (m : messageRow) : messageRow :=
  if decide (m_ID m ∈ ids) then set_m_ChangeSeq (q (m_ID m)) (set_m_ReadAt (Some now) m) else m.

(** The row that announces a message read. *)
Definition announces_read (now : string) (r : changeRow) : Prop :=
  ch_type r = "message"%string ∧ ∃ mj, ch_data r = DMessage mj ∧ mj_ID mj = ch_ref_id r ∧
    mj_ReadAt mj = Some now ∧ mj_ChangeSeq mj = ch_seq r.

Section read_all.
Context `{HE : HubEnv}.

Lemma read_one_Ok now acc id w d acc' w' :
  w_tx w = Some d → read_one now acc id w = (Ok acc', w') →
  same_outside w w' ∧ ∃ mj t, w_tx w' = Some (marked_message id (Some now) mj t d) ∧
    acc' = (acc.1 ++ [entry_of (logged "message" id (DMessage mj) t d)], acc.2 + 1) ∧
    announces_read now (logged "message" id (DMessage mj) t d).
Proof.
  intros Hd H. unfold read_one in H. mrun H. apply (tx_row_Ok _ _ _ _ _ Hd) in Hrun as (Hm & Hd1 & S1).
  pose proof (tbl_lookup_Some _ _ _ Hm) as [_ Hid]. unfold pkey, message_key in Hid. subst id.
  mrun H. destruct a0 as [e mj]. apply (store_read_Ok _ _ _ _ _ _ Hd1) in Hrun as (name & t & Hmj & -> & Hd2 & S2).
  injection H as <- <-. split; [by etransitivity|]. exists mj, t. split; [done|]. split; [done|].
  split; [done|]. exists mj. by rewrite Hmj.
Qed.

(** The loop: the messages it went through are read, and each was logged once, in their order. *)
(** What is read of the ids of some rows are the ids of the first of them. *)
Lemma prefix_fmap {A B} (g : A → B) (l : list A) k :
  k `prefix_of` g <$> l → ∃ k', k = g <$> k' ∧ k' `prefix_of` l ∧ (k = g <$> l → k' = l).
Proof.
  intros [r E]. exists (take (length k) l).
  assert (k = g <$> take (length k) l) as Hk by (by rewrite fmap_take, E, take_app_length).
  split; [exact Hk|]. split; [apply prefix_take|]. intros Heq. apply take_ge. by rewrite Heq, length_fmap.
Qed.

Lemma read_loop now ids acc w d acc' w' :
  w_tx w = Some d → NoDup ids → st_foldl (read_one now) acc ids w = (Ok acc', w') →
  same_outside w w' ∧ ∃ rows q d', w_tx w' = Some d' ∧
    acc' = (acc.1 ++ (entry_of <$> rows), acc.2 + Z.of_nat (length ids)) ∧
    log_grows d d' rows ∧ ch_ref_id <$> rows = ids ∧ Forall (announces_read now) rows ∧
    d' = set_d_messages (all_read ids now q <$> d_messages d) (set_d_changes (d_changes d') (set_d_meta (d_meta d') d)) ∧
    (db_ok d → db_ok d').
Proof.
  revert acc w d. induction ids as [|id ids IH]; intros acc w d Hd Hnd H; cbn in H.
  - injection H as <- <-. split; [done|]. exists [], (λ _, 0), d. split; [done|].
    split; [destruct acc; cbn; by rewrite app_nil_r, Z.add_0_r|]. split; [apply log_grows_refl|].
    split; [done|]. split; [constructor|]. split; [|done].
    assert (all_read [] now (λ _, 0) <$> d_messages d = d_messages d) as ->; [|by destruct d].
    rewrite <-(list_fmap_id (d_messages d)) at 2. apply list_fmap_ext. intros _ m _. unfold all_read.
    by rewrite decide_False by apply not_elem_of_nil.
  - apply NoDup_cons in Hnd as [Hid Hnd]. mrun H.
    apply (read_one_Ok _ _ _ _ _ _ _ Hd) in Hrun as (S1 & mj & t & Hd1 & -> & Hann).
    destruct (IH _ _ _ Hd1 Hnd H) as (S2 & rows & q & d' & Hd2 & -> & Hg & Hids & Hall & Hd' & Hok).
    split; [by etransitivity|]. exists (logged "message" id (DMessage mj) t d :: rows),
      (λ k, if decide (k = id) then change_seq d + 1 else q k), d'. split; [done|].
    split; [cbn [fst snd]; rewrite fmap_cons, <-app_assoc; f_equal; cbn [length]; lia|].
    split; [eapply (log_grows_trans _ _ _ [_]); [apply marked_message_grows|exact Hg]|].
    split; [rewrite fmap_cons, Hids; done|]. split; [by constructor|].
    split; [|intros; by apply Hok, marked_message_ok].
    rewrite Hd' at 1. cbn [d_messages marked_message set_d_messages].
    match goal with |- set_d_messages ?l _ = set_d_messages ?l' _ => assert (l = l') as ->; [|done] end.
    unfold tbl_update. rewrite <-list_fmap_compose. apply list_fmap_ext. intros _ m _. unfold all_read. cbn.
    destruct (decide (m_ID m = id)) as [<-|Hne].
    + rewrite (decide_True (P := pkey m = m_ID m)) by done. cbn [m_ID set_m_ChangeSeq set_m_ReadAt].
      rewrite (decide_False (P := m_ID m ∈ ids)) by done. by rewrite decide_True by (left).
    + rewrite (decide_False (P := pkey m = id)) by done.
      destruct (decide (m_ID m ∈ ids)) as [Hin|Hnin]; [by rewrite decide_True by (by right)|].
      rewrite decide_False; [done|]. by intros [?|?]%elem_of_cons.
Qed.

Lemma sealed_read_all before : sealed (read_all_tx before).
Proof. intros d0 b0. unfold read_all_tx, read_one, loadMessageTx, store_read, message_json, sourceName. pres. Qed.
End read_all.

(** ** Properties *)

(** Marking a message read or unread.  The answer is 404 exactly for an id without a
    message, and then, as after any failure, nothing has changed.  A message that is already
    as asked is answered and nothing is written, logged or announced.  Otherwise its read
    mark is the only thing of it that changes, it is logged and announced exactly once, and
    the answer is the object that was announced, with its number. *)
Theorem message_read_spec `{HE : HubEnv} id read w (Hok : db_ok (w_db w)) :
  match setMessageRead id read w with
  | (Err _, _) => False
  | (Ok (Fail st _ _), w') => untouched w w' ∧ (st = 404 ∧ tbl_lookup id (d_messages (w_db w)) = None ∨ st = 500)
  | (Ok (Reply st mj), w') => st = 200 ∧ db_ok (w_db w') ∧
    ∃ m name, tbl_lookup id (d_messages (w_db w)) = Some m ∧ (is_Some (mj_ReadAt mj) ↔ read = true) ∧
      if decide (read = bool_decide (¬ is_null (m_ReadAt m))) then untouched w w' ∧ mj = toMessageJSON m name
      else ∃ readAt t, w_db w' = marked_message id readAt mj t (w_db w) ∧
        mj = toMessageJSON (set_m_ChangeSeq (change_seq (w_db w) + 1) (set_m_ReadAt readAt m)) name ∧
        w_broker w' = Publish (entry_of (logged "message" id (DMessage mj) t (w_db w))) (w_broker w)
  end.
Proof.
  pose proof (answer_marked_run (read_tx id read) w (sealed_read_tx id read)) as H. unfold setMessageRead.
  destruct ((r ← st_try (withTx (read_tx id read)); answer_marked r) w) as [[[st mj|st c msg]|e] w']; [| |done].
  - destruct H as (-> & ch & w0 & w1 & Ht & (Hd0 & _ & Hb0 & _) & Hf & Ht1 & Hb).
    apply (read_tx_Ok _ _ _ _ _ _ _ Ht) in Hf as ((_ & _ & Hb1 & _) & m & name & Hm & Hcase).
    assert (∀ o : option string, is_Some o ↔ bool_decide (¬ is_null o) = true) as Hsome.
    { intros o. rewrite bool_decide_eq_true. destruct o; cbn; split; [by intros _ []|by eexists|by intros [? [=]]|by intros []]. }
    split; [done|]. destruct Hcase as [(-> & -> & -> & Hd)|(readAt & t & -> & Hne & Hmj & -> & Hd)];
      rewrite Ht1 in Hd; injection Hd as Hd.
    + split; [by rewrite Hd|]. exists m, name. split; [done|]. split; [apply Hsome|].
      rewrite decide_True by done. split; [|done]. split; [done|]. rewrite Hb, Hb1, Hb0. done.
    + split; [rewrite Hd; by apply marked_message_ok|]. exists m, name. split; [done|]. split; [rewrite Hmj; apply Hsome|].
      rewrite decide_False by done. exists readAt, t. split; [done|]. split; [done|]. by rewrite Hb, Hb1, Hb0.
  - destruct H as (Hu & [(-> & w0 & w1 & Ht & Hf)| ->]); split; try done; [left|by right]. split; [done|].
    apply (row_error _ _ _ _ _ Ht) in Hf; [done|]. intros m.
    case_decide; [unfold message_json; errs_steps|]. errs_steps. apply store_read_rows.
Qed.

(** A table with one message that nobody has read. *)
Definition demo_message (id : string) (src : string) : messageRow :=
  {| m_ID := id; m_SourceID := src; m_Kind := "feedback_created"; m_Severity := "info"; m_Title := "t";
     m_Body := None; m_OccurredAt := "2026-09-18T05:00:00.000Z"; m_ReceivedAt := "2026-09-18T05:00:01.000Z";
     m_ReadAt := None; m_FaultID := None; m_Incident := None; m_Ref := None; m_Attachments := [];
     m_EventID := "e1"; m_EventSeq := 1; m_FaultKey := None; m_OutOfOrder := false; m_ChangeSeq := 0 |}%string.
Definition message_db (ids : list string) : db :=
  set_d_messages ((λ id, demo_message id "src_1") <$> ids) demo_db.

Lemma message_db_ok `{HE : HubEnv} ids : NoDup ids → db_ok (message_db ids).
Proof.
  intros Hnd. destruct (demo_db_ok (HE := HE)) as [K1 K2 K3 K4 K5 K6 K7]. split; try done; cbn.
  - rewrite <-list_fmap_compose. change (m_ID ∘ (λ id, demo_message id "src_1")) with (λ id : string, id).
    by rewrite list_fmap_id.
  - intros _ m id (x & -> & _)%list_elem_of_fmap. done.
Defined.

Definition two_messages : db := message_db ["msg_a"; "msg_b"]%string.
Lemma two_messages_ok `{HE : HubEnv} : db_ok two_messages.
Proof. apply message_db_ok. apply (bool_decide_unpack (NoDup _)). vm_compute. exact I. Defined.

Lemma message_read_spec_witness :
  let w := world_of two_messages in
  is_null ∘ m_ReadAt <$> tbl_lookup "msg_a"%string (d_messages (w_db (setMessageRead (HE := demo_env) "msg_a" true w).2)) =
    Some False.
Proof.
  intros w. assert (∃ mj w', setMessageRead (HE := demo_env) "msg_a" true w = (Ok (Reply 200 mj), w') ∧
    is_null ∘ m_ReadAt <$> tbl_lookup "msg_a"%string (d_messages (w_db w')) = Some False) as (mj & w' & E & Hr)
    by (eexists _, _; split; [vm_compute; reflexivity|reflexivity]).
  pose proof (message_read_spec (HE := demo_env) "msg_a" true w two_messages_ok) as H.
  rewrite E in *. destruct H as (_ & _ & H). exact Hr.
Defined.

(** The flags of a fault.  Reading, muting and unmuting change nothing of a fault but its
    read and mute marks; an operation whose effect the fault already has is answered without
    a change; otherwise the fault is logged and announced exactly once, and the answer is the
    object that was announced.  An id without a fault is answered 404. *)
Theorem fault_flags_spec `{HE : HubEnv} id op w (Hok : db_ok (w_db w)) :
  match updateFaultFlags id op w with
  | (Err _, _) => False
  | (Ok (Fail st _ _), w') => untouched w w' ∧ (st = 404 ∧ tbl_lookup id (d_faults (w_db w)) = None ∨ st = 500)
  | (Ok (Reply st fj), w') => st = 200 ∧ db_ok (w_db w') ∧
    ∃ f now name, tbl_lookup id (d_faults (w_db w)) = Some f ∧
      match fault_flags op (fmtTS now) f with
      | None => untouched w w' ∧ fj = toFaultJSON f name
      | Some g => ∃ t, w_db w' = marked_fault g fj t (w_db w) ∧
          fj = toFaultJSON (set_f_ChangeSeq (change_seq (w_db w) + 1) g) name ∧
          w_broker w' = Publish (entry_of (logged "fault" id (DFault fj) t (w_db w))) (w_broker w)
      end
  end.
Proof.
  pose proof (answer_marked_run (flags_tx id op) w (sealed_flags_tx id op)) as H. unfold updateFaultFlags.
  destruct ((r ← st_try (withTx (flags_tx id op)); answer_marked r) w) as [[[st fj|st c msg]|e] w']; [| |done].
  - destruct H as (-> & ch & w0 & w1 & Ht & (Hd0 & _ & Hb0 & _) & Hf & Ht1 & Hb).
    apply (flags_tx_Ok _ _ _ _ _ _ _ Ht) in Hf as ((_ & _ & Hb1 & _) & f & now & name & Hlook & Hcase).
    split; [done|]. destruct (fault_flags op (fmtTS now) f) as [g|] eqn:Eg.
    + destruct Hcase as (Hfj & t & -> & Hd). rewrite Ht1 in Hd. injection Hd as Hd.
      split; [rewrite Hd; by apply marked_fault_ok|]. exists f, now, name. split; [done|]. rewrite Eg.
      exists t. split; [done|]. split; [done|]. by rewrite Hb, Hb1, Hb0.
    + destruct Hcase as (-> & -> & Hd). rewrite Ht1 in Hd. injection Hd as Hd.
      split; [by rewrite Hd|]. exists f, now, name. split; [done|]. rewrite Eg. split; [|done].
      split; [done|]. by rewrite Hb, Hb1, Hb0.
  - destruct H as (Hu & [(-> & w0 & w1 & Ht & Hf)| ->]); split; try done; [left|by right]. split; [done|].
    apply (row_error _ _ _ _ _ Ht) in Hf; [done|]. intros f. unfold fault_json. errs_steps.
Qed.

(** A table with one open fault. *)
Definition demo_fault : faultRow :=
  {| f_ID := "flt_a"; f_SourceID := "src_1"; f_FaultKey := "disk"; f_Severity := "warning"; f_Title := "t";
     f_Summary := None; f_State := "open"; f_Incident := 1; f_OpenedAt := "2026-09-18T05:00:00.000Z";
     f_OpenedBySeq := 1; f_LastEventAt := "2026-09-18T05:00:00.000Z"; f_ResolvedAt := None; f_ResolvedBySeq := None;
     f_ResolvedBy := None; f_EventCount := 1; f_ReadAt := None; f_MutedAt := None; f_MutedUntil := None;
     f_ChangeSeq := 0 |}%string.
Definition fault_db : db := set_d_faults [demo_fault] demo_db.
Lemma fault_db_ok `{HE : HubEnv} : db_ok fault_db.
Proof.
  destruct (demo_db_ok (HE := HE)) as [K1 K2 K3 K4 K5 K6 K7]. split; try done.
  - apply (bool_decide_unpack (NoDup _)). vm_compute. exact I.
  - apply (bool_decide_unpack (NoDup _)). vm_compute. exact I.
  - constructor; [|constructor]. split; [done|]. split; [done|]. by left.
  - intros _ m id Hm. by apply elem_of_nil in Hm.
Defined.

Lemma fault_flags_spec_witness :
  is_null ∘ f_MutedAt <$> d_faults (w_db (handleFaultMute (HE := demo_env) "flt_a" (world_of fault_db)).2) = [False].
Proof.
  assert (∃ fj w', updateFaultFlags (HE := demo_env) "flt_a" "mute" (world_of fault_db) = (Ok (Reply 200 fj), w') ∧
    is_null ∘ f_MutedAt <$> d_faults (w_db w') = [False]) as (fj & w' & E & Hr)
    by (eexists _, _; split; [vm_compute; reflexivity|reflexivity]).
  pose proof (fault_flags_spec (HE := demo_env) "flt_a" "mute" (world_of fault_db) fault_db_ok) as H.
  unfold handleFaultMute. rewrite E in *. destruct H as (_ & _ & H). exact Hr.
Defined.

(** C25: marking everything read.  A time that is none is answered 400, a failure 500, both
    without a change.  Otherwise the messages that are read are the first ones, in the order
    of their ids, of the unread messages received up to that time (of all of them without one):
    all of them unless the iteration over their ids breaks off, which the code does not ask
    about.  They are read all at the same instant, nothing else of any message changes, each of
    them is logged and announced once, in the order of their ids, and the answer is their
    number. *)
Theorem read_all_spec `{HE : HubEnv} before w (Hok : db_ok (w_db w)) :
  match handleMessagesReadAll before w with
  | (Err _, _) => False
  | (Ok (Fail st _ _), w') => untouched w w' ∧
      (st = 400 ∧ (∃ s, before = Some s ∧ s ≠ EmptyString ∧ parseTS s = None) ∨ st = 500)
  | (Ok (Reply st n), w') => st = 200 ∧ db_ok (w_db w') ∧ ∃ upto now rows q targets,
      upto = match before with Some s => if decide (s = EmptyString) then None else fmtTS <$> parseTS s | None => None end ∧
      let unread := merge_sort id_order (filter (unread_until upto) (d_messages (w_db w))) in
      targets `prefix_of` unread ∧ (whole_rows → targets = unread) ∧
      n = Z.of_nat (length targets) ∧ ch_ref_id <$> rows = m_ID <$> targets ∧ Forall (announces_read now) rows ∧
      d_messages (w_db w') = all_read (m_ID <$> targets) now q <$> d_messages (w_db w) ∧
      d_faults (w_db w') = d_faults (w_db w) ∧ d_events (w_db w') = d_events (w_db w) ∧
      log_grows (w_db w) (w_db w') rows ∧
      w_broker w' = foldl (λ b e, Publish e b) (w_broker w) (entry_of <$> rows)
  end.
Proof.
  assert (∀ upto, match (r ← st_try (withTx (read_all_tx upto)); match r with
      | Err _ => mret errInternal | Ok (changes, updated) => publish changes ;; mret (Reply 200 updated) end) w with
    | (Err _, _) => False
    | (Ok (Fail st _ _), w') => untouched w w' ∧ st = 500
    | (Ok (Reply st n), w') => st = 200 ∧ db_ok (w_db w') ∧ ∃ now rows q targets,
      let unread := merge_sort id_order (filter (unread_until upto) (d_messages (w_db w))) in
      targets `prefix_of` unread ∧ (whole_rows → targets = unread) ∧
      n = Z.of_nat (length targets) ∧ ch_ref_id <$> rows = m_ID <$> targets ∧ Forall (announces_read now) rows ∧
      d_messages (w_db w') = all_read (m_ID <$> targets) now q <$> d_messages (w_db w) ∧
      d_faults (w_db w') = d_faults (w_db w) ∧ d_events (w_db w') = d_events (w_db w) ∧
      log_grows (w_db w) (w_db w') rows ∧
      w_broker w' = foldl (λ b e, Publish e b) (w_broker w) (entry_of <$> rows)
    end) as Hrun.
  { intros upto. unfold st_try. unfold mbind at 1, stM_bind.
    destruct (withTx (read_all_tx upto) w) as [[[ch n]|e] w1] eqn:E; cbn -[publish];
      [|split; [|done]; eapply withTx_failed; [apply sealed_read_all|exact E]].
    apply withTx_Ok in E as (w0 & w2 & d' & Ht & (_ & _ & Hb0 & _) & Hf & Ht2 & Hd & _ & _ & Hb).
    unfold read_all_tx in Hf. mrun Hf. apply (tx_rows_Ok _ _ _ _ _ Ht) in Hrun as (Hpre & Hcut & Ht3 & (_ & _ & Hb3 & _)).
    destruct (prefix_fmap _ _ _ Hpre) as (targets & -> & Hpre' & Hwhole).
    mrun Hf. injection Hrun as <- <-.
    assert (NoDup (m_ID <$> targets)) as Hnd.
    { assert (NoDup (m_ID <$> merge_sort id_order (filter (unread_until upto) (d_messages (w_db w))))) as Hnd
        by (rewrite merge_sort_Permutation; apply NoDup_fmap_filter, Hok).
      eapply sublist_NoDup; [exact Hnd|]. apply fmap_sublist. destruct Hpre' as [k ->]. by apply sublist_inserts_r. }
    apply (read_loop _ _ _ (wset_ticks _ s) (w_db w) _ _ Ht3 Hnd) in Hf
      as ((_ & _ & Hb4 & _) & rows & q & d2 & Ht4 & [= -> ->] & Hg & Hids & Hall & Hd2 & Hok2).
    rewrite Ht2 in Ht4. injection Ht4 as ->. cbn. subst d2. split; [done|]. split; [by apply Hok2|].
    exists (fmtTS (h_now (w_ticks s))), rows, q, targets. cbv zeta. rewrite length_fmap in *.
    change (w_db (wset_broker ?b w1)) with (w_db w1). cbn [w_broker wset_broker].
    split; [exact Hpre'|]. split; [auto|]. split; [done|]. split; [done|]. split; [done|].
    split; [by rewrite Hd2|]. split; [by rewrite Hd2|]. split; [by rewrite Hd2|]. split; [done|].
    rewrite Hb, Hb4. cbn. by rewrite Hb3, Hb0. }
  unfold handleMessagesReadAll. destruct before as [s|]; [destruct (decide (s = EmptyString))|].
  2: destruct (parseTS s) as [t|] eqn:Ep; [|cbn; split; [done|left; eauto 10]].
  1: specialize (Hrun None). 2: specialize (Hrun (Some (fmtTS t))). 3: specialize (Hrun None).
  all: revert Hrun; match goal with |- match ?x with _ => _ end → _ => generalize x end;
    intros [[[st1 n1|st1 c1 msg1]|err1] w1] Hrun; [|split; [apply Hrun|right; apply Hrun]|done];
    destruct Hrun as (H1 & H2 & now & rows & q & targets & H); split; [exact H1|]; split; [exact H2|];
    eexists _, now, rows, q, targets; (split; [reflexivity|exact H]).
Qed.

Lemma read_all_spec_witness :
  m_ReadAt <$> d_messages (w_db (handleMessagesReadAll (HE := demo_env) None (world_of two_messages)).2) =
    [Some "2026-09-18T06:00:00.000Z"; Some "2026-09-18T06:00:00.000Z"]%string.
Proof.
  assert (∃ n w', handleMessagesReadAll (HE := demo_env) None (world_of two_messages) = (Ok (Reply 200 n), w') ∧
    m_ReadAt <$> d_messages (w_db w') = [Some "2026-09-18T06:00:00.000Z"; Some "2026-09-18T06:00:00.000Z"]%string)
    as (n & w' & E & Hr) by (eexists _, _; split; [vm_compute; reflexivity|reflexivity]).
  pose proof (read_all_spec (HE := demo_env) None (world_of two_messages) two_messages_ok) as H.
  rewrite E in *. destruct H as (_ & _ & H). exact Hr.
Defined.

(** Rows that break off after the first: the answer is 200, and the rest stays unread. *)
Example read_all_breaks :
  let H := {| h_now := h_now (HubEnv := demo_env); h_io := λ _, false; h_rows := λ _, Some 1%nat;
              h_ulid := demo_ulid; h_rand := λ n, [N.of_nat n] |} in
  let '(r, w') := handleMessagesReadAll (HE := H) None (world_of two_messages) in
  r = Ok (Reply 200 1) ∧
  (λ m, (m_ID m, is_null (m_ReadAt m))) <$> d_messages (w_db w') = [("msg_a", False); ("msg_b", True)]%string.
Proof. vm_compute. done. Qed.

(** ** Listing everything, page by page *)

Section listing.
Context `{HE : HubEnv} {R J : Type} (json : R → J).
Notation HM := (stM World herr).
Variables (before : R → R → Prop) (rows : list R) (cursor : R → string) (limit : nat).
Hypothesis Hlimit : (0 < limit)%nat.
Context `{!∀ x y, Decision (before x y)} `{!Transitive before, !Irreflexive before}.

(** A client following the cursors, at most [fuel] times. *)
Fixpoint follow (page : string → HM (listing J)) (fuel : nat) (c : string) : HM (list J) :=
  match fuel with
  | O => mret []
  | S fuel =>
    p ← page c;
    match li_nextCursor p with
    | Some c' => rest ← follow page fuel c'; mret (li_items p ++ rest)
    | None => mret (li_items p)
    end
  end.

(** A page as the queries cut it. *)
Definition page_of (rest : list R) : listing J :=
  Build_listing (json <$> take limit rest) (if decide (limit < length rest)%nat then cursor <$> last (take limit rest) else None).

Lemma follow_walk (page : string → HM (listing J)) (d : db) fuel cur w :
  w_db w = d →
  (∀ cur w, w_db w = d → match cur with Some x => x ∈ rows | None => True end → ∃ w', w_db w' = d ∧
    page (default EmptyString (cursor <$> cur)) w =
      (Ok (page_of (match cur with Some x => filter (before x) rows | None => rows end)), w')) →
  match cur with Some x => x ∈ rows | None => True end →
  ∃ w', w_db w' = d ∧
    follow page fuel (default EmptyString (cursor <$> cur)) w = (Ok (json <$> walk before fuel limit rows cur), w').
Proof.
  intros Hd Hpage. revert cur w Hd. induction fuel as [|fuel IH]; intros cur w Hd Hcur; cbn [follow walk]; [by exists w|].
  destruct (Hpage cur w Hd Hcur) as (w1 & Hd1 & E). rewrite (st_bind_Ok_step _ _ _ _ _ E). unfold page_of.
  cbn [li_nextCursor li_items]. set (rest := match cur with Some x => filter (before x) rows | None => rows end).
  destruct (decide (limit < length rest)%nat) as [Hlt|Hge]; [|exists w1; split; [done|by rewrite take_ge by lia]].
  destruct (last (take limit rest)) as [x|] eqn:El; cbn [fmap option_fmap option_map].
  - destruct (IH (Some x) w1 Hd1) as (w2 & Hd2 & E2).
    { apply last_Some_elem_of, subseteq_take in El. destruct cur; [by apply list_elem_of_filter in El as [_ ?]|done]. }
    exists w2. split; [done|]. cbn [default fmap option_fmap option_map] in E2.
    rewrite (st_bind_Ok_step _ _ _ _ _ E2). by rewrite fmap_app.
  - apply last_None, (f_equal length) in El. rewrite length_take in El. cbn in El. lia.
Qed.
End listing.

Section listing_results.
Context `{HE : HubEnv}.
Hypothesis Hio : ∀ n, h_io n = false.
Hypothesis Hrows : whole_rows.

Lemma cut_page_quiet {R J} (m : R → stM World herr J) (json : R → J) cursor limit d rest w :
  w_db w = d → (∀ r w, w_db w = d → ∃ w', w_db w' = d ∧ m r w = (Ok (json r), w')) →
  ∃ w', w_db w' = d ∧ cut_page limit m cursor (take (S limit) rest) w = (Ok (page_of json cursor limit rest), w').
Proof.
  intros Hd Hm. unfold cut_page. rewrite take_take, Nat.min_l by lia.
  destruct (collect_quiet m json d (take limit rest) [] w Hd Hm) as (w1 & Hd1 & E).
  exists w1. split; [done|]. rewrite (st_bind_Ok_step _ _ _ _ _ E). unfold page_of, mret, stM_ret. cbn [app].
  rewrite length_take. destruct (decide (limit < length rest)%nat); [by rewrite decide_True by lia|by rewrite decide_False by lia].
Qed.

Lemma message_json_quiet d m w :
  w_db w = d → ∃ w', w_db w' = d ∧ message_json m w = (Ok (toMessageJSON m (name_of d (m_SourceID m))), w').
Proof.
  intros <-. destruct (sourceName_quiet Hio (m_SourceID m) w) as (w1 & Hd & E). exists w1. split; [done|].
  unfold message_json. by rewrite (st_bind_Ok_step _ _ _ _ _ E).
Qed.

Lemma fault_json_quiet d f w :
  w_db w = d → ∃ w', w_db w' = d ∧ fault_json f w = (Ok (toFaultJSON f (name_of d (f_SourceID f))), w').
Proof.
  intros <-. destruct (sourceName_quiet Hio (f_SourceID f) w) as (w1 & Hd & E). exists w1. split; [done|].
  unfold fault_json. by rewrite (st_bind_Ok_step _ _ _ _ _ E).
Qed.

Lemma list_filter_iff_elem {A} (P Q : A → Prop) `{!∀ x, Decision (P x), !∀ x, Decision (Q x)} (l : list A) :
  (∀ x, P x ↔ Q x) → filter P l = filter Q l.
Proof. intros HPQ. apply list_filter_ext_elem. intros x _. apply HPQ. Qed.

Definition message_before (a b : messageRow) : Prop := str_lt (m_ID b) (m_ID a).
#[export] Instance message_before_dec a b : Decision (message_before a b).
Proof. unfold message_before. apply _. Defined.
#[export] Instance message_before_trans : Transitive message_before.
Proof. intros a b c H1 H2. unfold message_before in *. by etransitivity. Qed.
#[export] Instance message_before_irrefl : Irreflexive message_before.
Proof. intros a. apply str_lt_irrefl. Qed.

Lemma message_rows_sorted f src d : NoDup (m_ID <$> d_messages d) → StronglySorted message_before (message_rows f src d).
Proof.
  intros Hnd. unfold message_rows. set (l := filter _ _).
  assert (StronglySorted (λ a b, str_lt b a) (m_ID <$> merge_sort message_desc l)) as H.
  { apply (sort_strict m_ID (λ a b, str_le b a)).
    - intros x y z H1 H2. unfold message_desc in *. by etransitivity.
    - intros x y. unfold message_desc. destruct (str_le_total (m_ID x) (m_ID y)); auto.
    - done.
    - intros a b [?| ->]%str_le_lt; auto.
    - by apply NoDup_fmap_filter. }
  revert H. generalize (merge_sort message_desc l). clear. induction l as [|x l IH]; [constructor|].
  rewrite fmap_cons. intros [Hs Hx]%StronglySorted_inv. constructor; [by apply IH|].
  rewrite Forall_fmap in Hx. exact Hx.
Qed.

(** A page of the message list. *)
Lemma messages_page_quiet f src limit cur w d :
  w_db w = d → (∀ m, m ∈ d_messages d → m_ID m ≠ EmptyString) →
  match cur with Some x => x ∈ message_rows f src d | None => True end →
  ∃ w', w_db w' = d ∧ messagesPage f src (default EmptyString (m_ID <$> cur)) limit w =
    (Ok (page_of (λ m, toMessageJSON m (name_of d (m_SourceID m))) m_ID limit
      (match cur with Some x => filter (message_before x) (message_rows f src d) | None => message_rows f src d end)), w').
Proof.
  intros Hd Hids Hcur. unfold messagesPage. set (c := default _ _).
  edestruct (db_rows_quiet Hio (λ d, take (S limit) (filter (λ m, c = EmptyString ∨ str_lt (m_ID m) c) (message_rows f src d))) w Hrows)
    as (w1 & E & Hd1). rewrite (st_bind_Ok_step _ _ _ _ _ E), Hd.
  rewrite Hd in Hd1. assert (filter (λ m, c = EmptyString ∨ str_lt (m_ID m) c) (message_rows f src d) =
    match cur with Some x => filter (message_before x) (message_rows f src d) | None => message_rows f src d end) as ->.
  { destruct cur as [x|]; [|by apply list_filter_all; left]. apply list_filter_iff_elem. intros m. unfold c, message_before. cbn.
    assert (m_ID x ≠ EmptyString); [|tauto]. apply Hids. unfold message_rows in Hcur.
    rewrite merge_sort_Permutation in Hcur. by apply list_elem_of_filter in Hcur as [_ ?]. }
  by apply cut_page_quiet; [|intros; apply message_json_quiet].
Qed.
End listing_results.

(** C26: the message list is complete.  On a hub that is quiet meanwhile (nothing is committed,
    no call fails, no iteration breaks off), following the
    cursors of [GET /messages] from the start, whatever the page size, visits every message
    that passes the filter exactly once, newest first, and then ends. *)
Theorem messages_paging `{HE : HubEnv} (Hio : ∀ n, h_io n = false) (Hrows : whole_rows) f src limit fuel w
    (Hnd : NoDup (m_ID <$> d_messages (w_db w))) (Hids : ∀ m, m ∈ d_messages (w_db w) → m_ID m ≠ EmptyString)
    (Hlimit : (0 < limit)%nat) (Hfuel : (length (d_messages (w_db w)) < fuel)%nat) :
  let rows := message_rows f src (w_db w) in
  (∃ w', w_db w' = w_db w ∧ follow (λ c, messagesPage f src c limit) fuel EmptyString w =
    (Ok ((λ m, toMessageJSON m (name_of (w_db w) (m_SourceID m))) <$> rows), w')) ∧
  StronglySorted message_before rows ∧
  ∀ m, m ∈ rows ↔ m ∈ d_messages (w_db w) ∧ in_filter f (w_db w) m ∧ (src = EmptyString ∨ m_SourceID m = src).
Proof.
  intros rows. pose proof (message_rows_sorted f src (w_db w) Hnd) as Hs. split; [|split; [exact Hs|]].
  - destruct (follow_walk (λ m, toMessageJSON m (name_of (w_db w) (m_SourceID m))) message_before rows m_ID limit Hlimit
      (λ c, messagesPage f src c limit) (w_db w) fuel None w eq_refl) as (w' & Hd & E); [|done|].
    + intros cur w1 Hd1 Hcur. by apply messages_page_quiet.
    + exists w'. split; [done|]. cbn in E. rewrite E, walk_all; [done|apply _|apply _|done|done|].
      unfold rows, message_rows. rewrite merge_sort_Permutation.
      pose proof (length_filter (λ m, in_filter f (w_db w) m ∧ (src = EmptyString ∨ m_SourceID m = src)) (d_messages (w_db w))). lia.
  - intros m. unfold rows, message_rows. rewrite merge_sort_Permutation, list_elem_of_filter. tauto.
Qed.

Lemma messages_paging_witness :
  match (follow (λ c, messagesPage (HE := demo_env) "all" "" c 1) 3 "" (world_of two_messages)).1 with
  | Ok l => map mj_ID l = ["msg_b"; "msg_a"]%string
  | Err _ => False
  end.
Proof.
  destruct (messages_paging (HE := demo_env) (λ _, eq_refl) (λ _, eq_refl) "all" "" 1 3 (world_of two_messages)
    (ok_message_ids (HE := demo_env) _ two_messages_ok)
    ltac:(intros m (id & -> & Hid)%list_elem_of_fmap; cbn; intros ->; by repeat (apply elem_of_cons in Hid as [?|Hid]; [done|]); apply elem_of_nil in Hid)
    ltac:(lia) ltac:(cbn; lia)) as ((w' & _ & ->) & _). vm_compute. reflexivity.
Defined.
