(* ===== verification/Sha256.v ===== *)
(** SHA-256 ([crypto/sha256]) on byte strings, as [hashToken] and the release check use it:
    FIPS 180-4 on 32-bit words, computing. *)

From S2P Require Import Prelude GoBase.
From Stdlib Require Import Ascii.
Local Open Scope N_scope.

Definition word_mask : N := 2 ^ 32 - 1.
Definition wadd (a b : N) : N := N.land (a + b) word_mask.
Definition rotr (n : N) (x : N) : N := N.lor (N.shiftr x n) (N.land (N.shiftl x (32 - n)) word_mask).
Definition wnot (x : N) : N := N.lxor x word_mask.

Definition Ch (x y z : N) : N := N.lxor (N.land x y) (N.land (wnot x) z).
Definition Maj (x y z : N) : N := N.lxor (N.lxor (N.land x y) (N.land x z)) (N.land y z).
Definition Sigma0 (x : N) : N := N.lxor (N.lxor (rotr 2 x) (rotr 13 x)) (rotr 22 x).
Definition Sigma1 (x : N) : N := N.lxor (N.lxor (rotr 6 x) (rotr 11 x)) (rotr 25 x).
Definition sigma0 (x : N) : N := N.lxor (N.lxor (rotr 7 x) (rotr 18 x)) (N.shiftr x 3).
Definition sigma1 (x : N) : N := N.lxor (N.lxor (rotr 17 x) (rotr 19 x)) (N.shiftr x 10).

(** The first [n] primes from [k] on, by trial division. *)
Definition prime (n : N) : bool := forallb (λ d, negb (n mod N.of_nat d =? 0)) (seq 2 (N.to_nat n - 2)).
Fixpoint primes (fuel n : nat) (k : N) : list N :=
  match fuel, n with
  | S fuel, S n' => if prime k then k :: primes fuel n' (k + 1) else primes fuel n (k + 1)
  | _, _ => []
  end.

(** The largest [r] below [2 ^ bits] with [r ^ e <= x], bit by bit. *)
Fixpoint root (e : N) (bits : nat) (x r : N) : N :=
  match bits with
  | O => r
  | S b => let r' := r + 2 ^ N.of_nat b in root e b x (if r' ^ e <=? x then r' else r)
  end.

(** The first 32 bits of the fractional part of the [e]-th root of [p]. *)
Definition root_fraction (e p : N) : N := N.land (root e 40 (p * 2 ^ (32 * e)) 0) word_mask.

(** The round constants: the fractional parts of the cube roots of the first 64 primes; and
    the initial hash: those of the square roots of the first 8. *)
Definition round_constants : list N := Eval vm_compute in root_fraction 3 <$> primes 320 64 2.
Definition initial_hash : list N := Eval vm_compute in root_fraction 2 <$> primes 320 8 2.

(** [n] bytes of [x], the most significant first. *)
Fixpoint be_bytes (n : nat) (x : N) : list N :=
  match n with O => [] | S n' => N.land (N.shiftr x (8 * N.of_nat n')) 255 :: be_bytes n' x end.

(** The message, a one bit, zeros and its length in bits: a multiple of 64 bytes. *)
Definition padded (msg : list N) : list N :=
  let l := length msg in
  msg ++ 128 :: repeat 0 ((119 - l mod 64) mod 64)%nat ++ be_bytes 8 (8 * N.of_nat l).

Fixpoint words (bs : list N) : list N :=
  match bs with
  | a :: b :: c :: d :: bs' => N.lor (N.shiftl a 24) (N.lor (N.shiftl b 16) (N.lor (N.shiftl c 8) d)) :: words bs'
  | _ => []
  end.

(** The schedule, newest word first: [n] more words. *)
Fixpoint extend (n : nat) (w : list N) : list N :=
  match n with
  | O => w
  | S n' => extend n' (wadd (wadd (sigma1 (nth 1 w 0)) (nth 6 w 0)) (wadd (sigma0 (nth 14 w 0)) (nth 15 w 0)) :: w)
  end.

Definition round (st : list N) (kw : N * N) : list N :=
  match st with
  | [a; b; c; d; e; f; g; h] =>
    let t1 := wadd (wadd h (Sigma1 e)) (wadd (Ch e f g) (wadd kw.1 kw.2)) in
    let t2 := wadd (Sigma0 a) (Maj a b c) in
    [wadd t1 t2; a; b; c; wadd d t1; e; f; g]
  | _ => st
  end.

Definition compress (st block : list N) : list N :=
  zip_with wadd st (foldl round st (zip round_constants (rev (extend 48 (rev block))))).

Fixpoint blocks (fuel : nat) (st ws : list N) : list N :=
  match fuel, ws with
  | S fuel, _ :: _ => blocks fuel (compress st (take 16 ws)) (drop 16 ws)
  | _, _ => st
  end.

(** [sha256.Sum256] *)
Definition sum256 (msg : list N) : list N :=
  let ws := words (padded msg) in
  concat (be_bytes 4 <$> blocks (length ws) initial_hash ws).

Definition bytes_of (s : string) : list N := N_of_ascii <$> String.list_ascii_of_string s.

(** The two vectors of the standard. *)
Example sha256_abc :
  hex_string (sum256 (bytes_of "abc")) = "ba7816bf8f01cfea414140de5dae2223b00361a396177a9cb410ff61f20015ad"%string.
Proof. vm_compute. reflexivity. Qed.

Example sha256_two_blocks :
  hex_string (sum256 (bytes_of "abcdbcdecdefdefgefghfghighijhijkijkljklmklmnlmnomnopnopq")) =
  "248d6a61d20638b8e5c026930c3e6039a33ce45964ff2167f6ecedd419db06c1"%string.
Proof. vm_compute. reflexivity. Qed.

(** A digest is 32 bytes, whatever the message. *)
Lemma length_be_bytes n x : length (be_bytes n x) = n.
Proof. induction n as [|n IH]; [done|]. cbn. by rewrite IH. Qed.

Lemma length_round st kw : length (round st kw) = length st.
Proof. unfold round. by repeat (destruct st as [|? st]; try reflexivity). Qed.

Lemma length_compress st block : length (compress st block) = length st.
Proof.
  unfold compress. rewrite length_zip_with. assert (∀ l st, length (foldl round st l) = length st) as Hf.
  { induction l as [|kw l IH]; intros st'; [done|]. cbn [foldl]. by rewrite IH, length_round. }
  rewrite Hf. lia.
Qed.

Lemma length_blocks fuel st ws : length (blocks fuel st ws) = length st.
Proof.
  revert st ws. induction fuel as [|fuel IH]; intros st [|w ws]; [done..|]. cbn [blocks]. by rewrite IH, length_compress.
Qed.

Lemma length_sum256 msg : length (sum256 msg) = 32%nat.
Proof.
  unfold sum256. rewrite length_concat. assert (∀ l, sum_list (length <$> (be_bytes 4 <$> l)) = 4 * length l)%nat as Hs.
  { induction l as [|x l IH]; [done|]. rewrite !fmap_cons. cbn [sum_list sum_list_with length]. 
    change (sum_list (length <$> (be_bytes 4 <$> l))) with (sum_list (length <$> (be_bytes 4 <$> l))) in IH. cbn in *. lia. }
  rewrite Hs, length_blocks. done.
Qed.
