(* ===== verification/Auth.v ===== *)
(** Authentication ([hub/auth.go]): sessions and their tokens, source keys, and the limit on
    login attempts.  bcrypt is code outside the repository: a parameter. *)

From S2P Require Import Prelude GoBase GoTime HubTypes HubStore Fault Handlers Sha256.
From Stdlib Require Import Ascii.
Local Open Scope Z_scope.

(* @src hub/auth.go 18-21 !tokenTTL *)
Definition tokenTTL : Z := 30 * 24 * Hour.
Definition refreshTTL : Z := 90 * 24 * Hour.

(* @src hub/auth.go 23-27 hashToken *)
Definition hashToken (tok : string) : string := hex_string (sum256 (bytes_of tok)).

(* @src hub/auth.go 29-36 bearerToken *)
(** [h] is the [Authorization] header. *)
Definition bearerToken (h : string) : string :=
  if has_prefix "Bearer " h then trim_space (String.substring 7 (String.length h) h) else EmptyString.

(* @src hub/auth.go 53-59 session *)
Record session := { se_ID : string; se_Username : string; se_DeviceLabel : option string; se_ExpiresAt : Z }.

(* @src hub/auth.go 137-141 loginReq *)
Record loginReq := { lr_Username : string; lr_Password : string; lr_DeviceLabel : string }.

(** The body of a login's and a refresh's answer. *)
(* @src hub/auth.go 194-200 !issueSession *)
Record tokens := { tk_token : string; tk_expiresAt : string; tk_refreshToken : string; tk_username : string;
                   tk_serverTime : string }.

(** ** The limit on login attempts *)

(* @src hub/auth.go 128-131 loginLimiter *)
(** Per address and user name, the instants of the attempts. *)
Record loginLimiter := { ll_hits : gmap string (list Z) }.

(* @src hub/auth.go 133-135 newLoginLimiter *)
Definition newLoginLimiter : loginLimiter := {| ll_hits := ∅ |}.

Definition limit_window : Z := 5 * Minute.
Definition limit_hits : nat := 10.

(* @src hub/auth.go 137-158 allow *)
(** At the instant [now]: whether the attempt may proceed, or after how many seconds. *)
Definition allow (key : string) (now : Z) (l : loginLimiter) : (bool * Z) * loginLimiter :=
  let keep := filter (λ t, now - limit_window < t) (default [] (ll_hits l !! key)) in
  match keep with
  | t0 :: _ =>
    if decide (limit_hits <= length keep)%nat
    then ((false, Z.quot (t0 + limit_window - now) Second + 1), {| ll_hits := <[key := keep]> (ll_hits l) |})
    else ((true, 0), {| ll_hits := <[key := keep ++ [now]]> (ll_hits l) |})
  | [] => ((true, 0), {| ll_hits := <[key := [now]]> (ll_hits l) |})
  end.

(** ** Addresses *)

Fixpoint index_of (c : ascii) (s : string) : option nat :=
  match s with
  | EmptyString => None
  | String c' s' => if decide (c' = c) then Some O else S <$> index_of c s'
  end.

Fixpoint last_index_of (c : ascii) (s : string) : option nat :=
  match s with
  | EmptyString => None
  | String c' s' => match last_index_of c s' with
                    | Some n => Some (S n)
                    | None => if decide (c' = c) then Some O else None
                    end
  end.

Definition str_from (n : nat) (s : string) : string := String.substring n (String.length s) s.

(** [net.SplitHostPort]: the host; [None] is its error. *)
Definition split_host (s : string) : option string :=
  match last_index_of ":" s with
  | None => None
  | Some i =>
    match s with
    | String "[" _ =>
      match index_of "]" s with
      | None => None
      | Some e =>
        if decide (S e = i) then
          match index_of "[" (str_from 1 s), index_of "]" (str_from (S e) s) with
          | None, None => Some (String.substring 1 (e - 1) s)
          | _, _ => None
          end
        else None
      end
    | _ =>
      let host := String.substring 0 i s in
      match index_of ":" host, index_of "[" s, index_of "]" s with
      | None, None, None => Some host
      | _, _, _ => None
      end
    end
  end%char.

(* @src hub/auth.go 316-322 clientIP *)
Definition clientIP (remoteAddr : string) : string :=
  match split_host remoteAddr with Some host => host | None => remoteAddr end.

(** The digits of a number, the last first, into a buffer of 20. *)
Fixpoint itoa_loop (room : nat) (n : Z) (b : string) : string :=
  match room with
  | O => b
  | S room => if decide (0 < n) then itoa_loop room (n / 10) (String (digit (n mod 10)) b) else b
  end.

(* @src hub/auth.go 324-337 itoa *)
Definition itoa (n : Z) : string := if decide (n <= 0) then "1"%string else itoa_loop 20 n EmptyString.

Section auth.
Context `{HE : HubEnv}.
Notation HM := (stM World herr).

(** [bcrypt.CompareHashAndPassword] as a test. *)
Variable bcrypt_match : string → string → bool.

(** A write outside a transaction, with its result. *)
Definition db_write {A} (f : db → outcome herr (A * db)) : HM A := λ w,
  match w_tx w with
  | Some _ => (Err EBusy, wset_calls (S (w_calls w)) w)
  | None => db_call f w
  end.

(** The session a token belongs to. *)
(* @src hub/auth.go 69-72 !clientSession *)
Definition token_session (tok : string) (d : db) : option sessionRow :=
  head (filter (λ s, ss_token_hash s = hashToken tok ∧ ss_revoked s = false) (d_sessions d)).

(* @src hub/auth.go 61-91 clientSession *)
(** [None]: no session. *)
Definition clientSession (authorization : string) : HM (option session) :=
  let tok := bearerToken authorization in
  if decide (tok = EmptyString) then mret None
  else
    r ← st_try (db_row (token_session tok));
    match r with
    | Err ENoRows => mret None
    | Err e => st_throw e
    | Ok s =>
      match parseTS (ss_expires_at s) with
      | None => st_throw EDecode
      | Some t =>
        now ← nowUTC;
        if decide (t < now) then mret None
        else mret (Some {| se_ID := ss_id s; se_Username := ss_username s; se_DeviceLabel := ss_device_label s;
                           se_ExpiresAt := t |})
      end
    end.

(* @src hub/auth.go 93-107 requireClient *)
Definition requireClient {B} (next : session → HM (reply B)) (authorization : string) : HM (reply B) :=
  r ← st_try (clientSession authorization);
  match r with
  | Err _ => mret errInternal
  | Ok None => mret (errUnauthorized "令牌缺失或失效")
  | Ok (Some s) => next s
  end%string.

(* @src hub/auth.go 109-125 sourceKeyAuth *)
Definition sourceKeyAuth {B} (next : sourceRow → HM (reply B)) (authorization : string) : HM (reply B) :=
  let key := bearerToken authorization in
  if decide (key = "") then mret (errUnauthorized "来源密钥缺失")
  else
    r ← st_try (loadSourceByKeyHash (hashToken key));
    match r with
    | Err ENoRows => mret (errUnauthorized "未知来源密钥")
    | Err _ => mret errInternal
    | Ok src => if s_Enabled src then next src else mret (errForbidden "source_disabled" "来源已停用")
    end%string.

(* @src hub/auth.go 169-203 issueSession *)
Definition issueSession (username deviceLabel : string) : HM tokens :=
  now ← nowUTC;
  tok ← randToken "tok_";
  rtok ← randToken "rtok_";
  let exp := now + tokenTTL in
  let rexp := now + refreshTTL in
  id ← newID "ses_";
  db_write (λ d, match tbl_insert {| ss_id := id; ss_token_hash := hashToken tok; ss_refresh_hash := hashToken rtok;
                                     ss_username := username; ss_device_label := nullStr deviceLabel;
                                     ss_created_at := fmtTS now; ss_expires_at := fmtTS exp;
                                     ss_refresh_expires_at := fmtTS rexp; ss_revoked := false |} (d_sessions d) with
                 | Some l => Ok ((), set_d_sessions l d)
                 | None => Err EConstraint
                 end) ;;
  mret {| tk_token := tok; tk_expiresAt := fmtTS exp; tk_refreshToken := rtok; tk_username := username;
          tk_serverTime := fmtTS now |}.

(* @src hub/auth.go 235-241 checkPassword *)
Definition checkPassword (adminHash pw : string) : bool :=
  if decide (adminHash = EmptyString) then false else bcrypt_match adminHash pw.

(* @src hub/auth.go 205-233 handleLogin *)
(** From the decoded request on; with the limiter before and after. *)
Definition handleLogin (cfg : config) (adminHash remoteAddr : string) (l : loginLimiter) (req : loginReq)
    : HM (reply tokens * loginLimiter) :=
  if decide (lr_Username req = "" ∨ lr_Password req = "") then mret (errInvalid "username/password 必填", l)
  else if decide (100 < str_len (lr_DeviceLabel req)) then mret (errInvalid "deviceLabel 超长", l)
  else
    now ← nowUTC;
    let '((ok, retry), l) := allow (clientIP remoteAddr +:+ "|" +:+ lr_Username req) now l in
    if negb ok then mret (Fail 429 "rate_limited" "尝试过多，请稍后重试", l)
    else if decide (lr_Username req ≠ cfg_adminUser cfg) then mret (Fail 401 "invalid_credentials" "账号或密码错误", l)
    else if negb (checkPassword adminHash (lr_Password req)) then
      mret (Fail 401 "invalid_credentials" "账号或密码错误", l)
    else
      r ← st_try (issueSession (lr_Username req) (lr_DeviceLabel req));
      match r with
      | Ok resp => mret (Reply 200 resp, l)
      | Err _ => mret (errInternal, l)
      end%string.

(** The session a refresh token belongs to: [device_label] is scanned into a string, which
    refuses NULL. *)
(* @src hub/auth.go 258-261 !handleRefresh *)
Definition refresh_session (rtok : string) (d : db) : outcome herr sessionRow :=
  match head (filter (λ s, ss_refresh_hash s = hashToken rtok) (d_sessions d)) with
  | None => Err ENoRows
  | Some s => match ss_device_label s with Some _ => Ok s | None => Err EDecode end
  end.

Definition invalid_refresh {B} (msg : string) : reply B := Fail 401 "invalid_refresh" msg.

(** The first half of [handleRefresh]: the session whose tokens are to be replaced, or the answer. *)
(* @src hub/auth.go 251-270 !handleRefresh *)
Definition refresh_check (rtok : string) : HM (reply tokens + sessionRow) :=
  if decide (rtok = "") then mret (inl (errInvalid "refreshToken 必填"))
  else
    r ← st_try (db_call (λ d, match refresh_session rtok d with Ok s => Ok (s, d) | Err e => Err e end));
    match r with
    | Err _ => mret (inl (invalid_refresh "refreshToken 失效"))
    | Ok s =>
      if ss_revoked s then mret (inl (invalid_refresh "refreshToken 失效"))
      else match parseTS (ss_refresh_expires_at s) with
           | None => mret (inl (invalid_refresh "refreshToken 已过期"))
           | Some t =>
             now ← nowUTC;
             if decide (t < now) then mret (inl (invalid_refresh "refreshToken 已过期")) else mret (inr s)
           end
    end%string.

(** The rows of the [UPDATE]: this session, if it is not revoked. *)
(* @src hub/auth.go 275-281 !handleRefresh *)
Definition rotate_row (tok rtok : string) (now : Z) (s : sessionRow) : sessionRow :=
  set_ss_token_hash (hashToken tok) (set_ss_refresh_hash (hashToken rtok)
    (set_ss_expires_at (fmtTS (now + tokenTTL)) (set_ss_refresh_expires_at (fmtTS (now + refreshTTL)) s))).
Definition update_sessions (id : string) (f : sessionRow → sessionRow) (l : list sessionRow) : list sessionRow :=
  (λ s, if decide (ss_id s = id ∧ ss_revoked s = false) then f s else s) <$> l.

(** The second half: new tokens for the session. *)
(* @src hub/auth.go 271-296 !handleRefresh *)
Definition refresh_rotate (sess : sessionRow) : HM (reply tokens) :=
  now ← nowUTC;
  tok ← randToken "tok_";
  rtok ← randToken "rtok_";
  r ← st_try (db_write (λ d, Ok (length (filter (λ s, ss_id s = ss_id sess ∧ ss_revoked s = false) (d_sessions d)),
        set_d_sessions (update_sessions (ss_id sess) (rotate_row tok rtok now) (d_sessions d)) d)));
  mret match r with
  | Err _ => errInternal
  | Ok O => invalid_refresh "refreshToken 失效"
  | Ok (S _) => Reply 200 {| tk_token := tok; tk_expiresAt := fmtTS (now + tokenTTL); tk_refreshToken := rtok;
                             tk_username := ss_username sess; tk_serverTime := fmtTS now |}
  end%string.

(* @src hub/auth.go 243-300 handleRefresh *)
Definition handleRefresh (rtok : string) : HM (reply tokens) :=
  r ← refresh_check rtok;
  match r with inl answer => mret answer | inr sess => refresh_rotate sess end.

(* @src hub/auth.go 302-310 handleSession *)
Definition handleSession (s : session) : HM (reply (bool * string * string)) :=
  mret (Reply 200 (true, se_Username s, fmtTS (se_ExpiresAt s))).

(* @src hub/auth.go 312-317 handleLogout *)
(** A failed statement is not reported. *)
Definition handleLogout (s : session) : HM (reply ()) :=
  st_try (db_write (λ d, Ok ((), set_d_sessions
    ((λ r, if decide (ss_id r = se_ID s) then set_ss_revoked true r else r) <$> d_sessions d) d))) ;;
  mret (Reply 204 ()).
End auth.

(** ** Runs of the limiter *)

(** The attempts [(key, instant)] that were allowed, in their order. *)
Fixpoint granted (l : loginLimiter) (attempts : list (string * Z)) : list (string * Z) :=
  match attempts with
  | [] => []
  | (k, t) :: rest =>
    let '((ok, _), l') := allow k t l in
    (if ok : bool then [(k, t)] else []) ++ granted l' rest
  end.

(** The instants a key was granted within the window that ends at [t]. *)
Definition in_window (k : string) (t : Z) (a : string * Z) : Prop := a.1 = k ∧ t - limit_window < a.2 <= t.
#[export] Instance in_window_dec k t a : Decision (in_window k t a).
Proof. unfold in_window. apply _. Defined.

(** What the limiter remembers of the attempts granted so far, the last attempt being at [T]. *)
Definition remembers (l : loginLimiter) (past : list (string * Z)) (T : Z) : Prop :=
  ∀ k, (∀ t, T <= t → filter (λ x, t - limit_window < x) (default [] (ll_hits l !! k)) =
                      filter (λ x, t - limit_window < x) (filter (λ a, a.1 = k) past).*2) ∧
       (length (default [] (ll_hits l !! k)) <= limit_hits)%nat.

Lemma filter_filter_window T t (l : list Z) :
  T <= t → filter (λ x, t - limit_window < x) (filter (λ x, T - limit_window < x) l) = filter (λ x, t - limit_window < x) l.
Proof. intros. rewrite list_filter_filter. apply list_filter_iff. intros x. lia. Qed.

(** One attempt: granted, or refused with ten in the window. *)
Lemma allow_step k now l past T ok retry l' :
  remembers l past T → T <= now → allow k now l = ((ok, retry), l') →
  let seen := filter (λ x, now - limit_window < x) (filter (λ a, a.1 = k) past).*2 in
  ok = bool_decide (length seen < limit_hits)%nat ∧
  remembers l' (if ok then past ++ [(k, now)] else past) now.
Proof.
  intros Hrem HT Ha seen. destruct (Hrem k) as [Hk Hlen].
  assert (filter (λ t, now - limit_window < t) (default [] (ll_hits l !! k)) = seen) as Hkeep by (by apply Hk).
  unfold allow in Ha. rewrite Hkeep in Ha.
  assert (length seen <= limit_hits)%nat as Hseen.
  { rewrite <-Hkeep. pose proof (length_filter (λ t, now - limit_window < t) (default [] (ll_hits l !! k))). lia. }
  assert (∀ k' t, k' ≠ k → now <= t → filter (λ x, t - limit_window < x) (default [] (ll_hits l !! k')) =
    filter (λ x, t - limit_window < x) (filter (λ a, a.1 = k') past).*2) as Hother.
  { intros k' t _ Ht. destruct (Hrem k') as [H _]. apply H. lia. }
  assert (((ok = false ∧ l' = {| ll_hits := <[k := seen]> (ll_hits l) |} ∧ (limit_hits <= length seen)%nat) ∨
           (ok = true ∧ l' = {| ll_hits := <[k := seen ++ [now]]> (ll_hits l) |} ∧ (length seen < limit_hits)%nat))) as Hcase.
  { destruct seen as [|t0 seen'] eqn:Es; [injection Ha as <- _ <-; right; split_and!; [done..|cbn; unfold limit_hits; lia]|].
    case_decide; injection Ha as <- _ <-; [by left|right; split_and!; [done..|lia]]. }
  destruct Hcase as [(-> & -> & Hge)|(-> & -> & Hlt)].
  - split; [by rewrite bool_decide_false by lia|]. intros k'. destruct (decide (k' = k)) as [->|Hne].
    + cbn [ll_hits]. rewrite lookup_insert_eq. unfold default, id, from_option. split; [|done]. intros t Ht. unfold seen. by rewrite filter_filter_window.
    + cbn [ll_hits]. rewrite lookup_insert_ne by done. split; [|apply Hrem]. intros t Ht. by apply Hother.
  - split; [by rewrite bool_decide_true|]. intros k'. destruct (decide (k' = k)) as [->|Hne].
    + cbn [ll_hits]. rewrite lookup_insert_eq. unfold default, id, from_option. rewrite length_app. cbn [length]. split; [|lia]. intros t Ht.
      rewrite filter_app, (filter_app (λ a, a.1 = k)), (filter_cons_True (λ a, a.1 = k)), fmap_app, filter_app by done.
      unfold seen. rewrite filter_filter_window by done. by rewrite filter_nil.
    + cbn [ll_hits]. rewrite lookup_insert_ne by done. split; [|apply Hrem]. intros t Ht.
      rewrite (filter_app (λ a, a.1 = k')), (filter_cons_False (λ a, a.1 = k')), filter_nil, app_nil_r by (cbn; congruence).
      by apply Hother.
Qed.

Lemma length_filter_mono {A} (P Q : A → Prop) `{!∀ x, Decision (P x), !∀ x, Decision (Q x)} (l : list A) :
  (∀ x, x ∈ l → P x → Q x) → (length (filter P l) <= length (filter Q l))%nat.
Proof.
  induction l as [|x l IH]; intros HPQ; [done|]. rewrite !filter_cons.
  assert (length (filter P l) <= length (filter Q l))%nat by (apply IH; intros y Hy; apply HPQ; by right).
  destruct (decide (P x)) as [Hx|Hx], (decide (Q x)) as [Hq|Hq]; cbn; try lia. destruct Hq. apply HPQ; [left|done].
Qed.

Lemma in_window_count k t (past : list (string * Z)) :
  (∀ a, a ∈ past → a.2 <= t) →
  length (filter (in_window k t) past) = length (filter (λ x, t - limit_window < x) (filter (λ a, a.1 = k) past).*2).
Proof.
  intros Hle. induction past as [|a past IH]; [done|].
  assert (∀ a, a ∈ past → a.2 <= t) as Hle' by (intros b Hb; apply Hle; by right).
  assert (a.2 <= t) as Ha by (apply Hle; left). specialize (IH Hle').
  rewrite (filter_cons (in_window k t)), (filter_cons (λ a, a.1 = k)). unfold in_window at 1.
  destruct (decide (a.1 = k)) as [Hk|Hk].
  - rewrite fmap_cons, filter_cons. destruct (decide (t - limit_window < a.2)) as [Ht|Ht].
    + rewrite decide_True by done. cbn. by rewrite IH.
    + rewrite decide_False by (intros (_ & ? & _); lia). done.
  - rewrite decide_False by (intros (? & _); done). done.
Qed.

Lemma granted_bound l past T attempts :
  remembers l past T → (∀ a, a ∈ past → a.2 <= T) →
  (∀ k t, (length (filter (in_window k t) past) <= limit_hits)%nat) →
  StronglySorted Z.le (T :: attempts.*2) →
  ∀ k t, (length (filter (in_window k t) (past ++ granted l attempts)) <= limit_hits)%nat.
Proof.
  revert l past T. induction attempts as [|[k0 now] attempts IH]; intros l past T Hrem Hle Hbound Hs k t; cbn [granted].
  - by rewrite app_nil_r.
  - apply StronglySorted_inv in Hs as [Hs HT]. rewrite fmap_cons in HT, Hs. apply Forall_cons in HT as [HT _]. cbn in HT, Hs.
    destruct (allow k0 now l) as [[ok retry] l'] eqn:Ea.
    destruct (allow_step _ _ _ _ _ _ _ _ Hrem HT Ea) as [Hok Hrem'].
    assert (∀ a, a ∈ past → a.2 <= now) as Hle' by (intros a Ha; specialize (Hle a Ha); lia).
    rewrite app_assoc. destruct ok.
    + symmetry in Hok. apply bool_decide_eq_true in Hok. apply (IH _ _ _ Hrem'); [| |done].
      * intros a [Ha|Ha]%elem_of_app; [by apply Hle'|]. by apply list_elem_of_singleton in Ha as ->.
      * intros k' t'. rewrite filter_app, length_app. destruct (decide (in_window k' t' (k0, now))) as [[Hk Hw]|Hn].
        -- rewrite (filter_cons_True (in_window k' t')), filter_nil by done. cbn in Hk, Hw |- *. subst k'.
           assert (length (filter (in_window k0 t') past) <= length (filter (in_window k0 now) past))%nat as Hmono.
           { apply length_filter_mono. intros a Ha [Hk Ht]. specialize (Hle' a Ha). split; [done|lia]. }
           rewrite (in_window_count k0 now) in Hmono by done. lia.
        -- rewrite (filter_cons_False (in_window k' t')), filter_nil by done. cbn. rewrite Nat.add_0_r. apply Hbound.
    + rewrite app_nil_r. by apply (IH _ _ _ Hrem').
Qed.

(** ** Lemmas on sessions *)

Section sessions.
Context `{HE : HubEnv}.
Notation HM := (stM World herr).

Lemma db_row_cases {A} (f : db → option A) w :
  ∃ r, db_row f w = (r, wset_calls (S (w_calls w)) w) ∧
    match r with Ok a => f (w_db w) = Some a ∧ h_io (w_calls w) = false
    | Err e => e = EIO ∧ h_io (w_calls w) = true ∨ e = ENoRows ∧ f (w_db w) = None end.
Proof.
  unfold db_row, db_call. destruct (h_io (w_calls w)) eqn:Eio; [eexists; split; [done|by left]|].
  destruct (f (w_db w)) as [a|] eqn:Ef; eexists; (split; [by destruct w|]); [done|by right].
Qed.

(** The session a request's token stands for, if it stands for one. *)
Definition stands_for (authorization : string) (d : db) (now : Z) (s : session) : Prop :=
  bearerToken authorization ≠ EmptyString ∧
  ∃ row, token_session (bearerToken authorization) d = Some row ∧ se_ID s = ss_id row ∧
    se_Username s = ss_username row ∧ parseTS (ss_expires_at row) = Some (se_ExpiresAt s) ∧ now <= se_ExpiresAt s.

Lemma clientSession_spec authorization w :
  let '(r, w') := clientSession authorization w in untouched w w' ∧
  match r with
  | Ok (Some s) => stands_for authorization (w_db w) (h_now (w_ticks w)) s
  | Ok None => ∀ s, ¬ stands_for authorization (w_db w) (h_now (w_ticks w)) s
  | Err e => e = EIO ∧ h_io (w_calls w) = true ∨
      e = EDecode ∧ ∃ row, token_session (bearerToken authorization) (w_db w) = Some row ∧ parseTS (ss_expires_at row) = None
  end.
Proof.
  unfold clientSession. case_decide as Hne; [split; [done|]; intros s [? _]; done|].
  destruct (db_row_cases (token_session (bearerToken authorization)) w) as (r & E & Hr).
  unfold st_try. unfold mbind, stM_bind. rewrite E. destruct r as [row|e].
  - destruct Hr as [Hr Hio]. destruct (parseTS (ss_expires_at row)) as [t|] eqn:Et.
    + unfold nowUTC, mret, stM_ret. cbv beta iota zeta. case_decide as Hlt; (split; [done|]).
      * intros s (_ & row' & Hrow & _ & _ & Hp & Hle). rewrite Hr in Hrow. injection Hrow as <-. rewrite Et in Hp.
        injection Hp as ->. cbn in Hlt. lia.
      * split; [done|]. exists row. cbn in Hlt. split_and!; try done; cbn; lia.
    + split; [done|]. right. eauto.
  - destruct Hr as [[-> Hio]|[-> Hnone]]; (split; [done|]); [by left|].
    intros s (_ & row & Hrow & _). congruence.
Qed.

(** A successful write outside a transaction. *)
Lemma db_write_cases {A} (f : db → outcome herr (A * db)) w :
  match db_write f w with
  | (Ok a, w') => f (w_db w) = Ok (a, w_db w') ∧ w_broker w' = w_broker w ∧ w_ticks w' = w_ticks w
  | (Err _, w') => untouched w w'
  end.
Proof.
  unfold db_write, db_call. destruct (w_tx w); [done|]. destruct (h_io _); [done|].
  destruct (f (w_db w)) as [[a d']|e] eqn:Ef; done.
Qed.
End sessions.

(** ** Properties *)

(** Only a live session gets in.  A handler behind [requireClient] runs exactly when the
    presented token is that of a session that is on record, was not revoked and has not
    expired, and runs with that session; otherwise the answer is 401, or 500 if the session
    could not be read, and nothing was done. *)
Theorem requireClient_guards `{HE : HubEnv} {B} (next : session → stM World herr (reply B)) authorization w :
  (∃ s w1, untouched w w1 ∧ stands_for authorization (w_db w) (h_now (w_ticks w)) s ∧
     requireClient next authorization w = next s w1) ∨
  (∃ w', untouched w w' ∧ (∀ s, ¬ stands_for authorization (w_db w) (h_now (w_ticks w)) s) ∧
     requireClient next authorization w = (Ok (errUnauthorized "令牌缺失或失效"), w')) ∨
  (∃ w', untouched w w' ∧ requireClient next authorization w = (Ok errInternal, w') ∧
     (h_io (w_calls w) = true ∨ ∃ row, row ∈ d_sessions (w_db w) ∧ parseTS (ss_expires_at row) = None)).
Proof.
  pose proof (clientSession_spec authorization w) as H. unfold requireClient, st_try. unfold mbind, stM_bind.
  destruct (clientSession authorization w) as [[[s|]|e] w'].
  - left. destruct H as [Hu Hs]. by exists s, w'.
  - right. left. destruct H as [Hu Hs]. by exists w'.
  - right. right. destruct H as [Hu H]. exists w'. split; [done|]. split; [done|].
    destruct H as [[_ Hio]|(_ & row & Hrow & Hp)]; [by left|right]. exists row. split; [|done].
    unfold token_session in Hrow. apply head_Some_elem_of, list_elem_of_filter in Hrow. tauto.
Qed.

(** C27: the limit on logins.  However the attempts of all clients are interleaved, in every
    window of five minutes at most ten attempts of one address and user name are let through
    to the password check. *)
Theorem login_limit (attempts : list (string * Z)) (Hsorted : StronglySorted Z.le attempts.*2) k t :
  (length (filter (in_window k t) (granted newLoginLimiter attempts)) <= 10)%nat.
Proof.
  destruct attempts as [|a attempts]; [cbn; lia|]. pose proof Hsorted as Hs. rewrite fmap_cons in Hs.
  apply StronglySorted_inv in Hs as [Hs Ha].
  apply (granted_bound newLoginLimiter [] a.2 (a :: attempts)).
  - intros k'. cbn. rewrite lookup_empty. split; [done|]. cbn. unfold limit_hits. lia.
  - by intros b Hb%elem_of_nil.
  - intros. cbn. lia.
  - rewrite fmap_cons. constructor; [done|]. constructor; [lia|done].
Qed.

Lemma login_limit_witness :
  (length (filter (in_window "ip|admin" (12 * Second)%Z) (granted newLoginLimiter
     ((λ n : Z, ("ip|admin"%string, (n * Second)%Z)) <$> seqZ 0 12))) <= 10)%nat.
Proof.
  apply login_limit. apply (bool_decide_unpack (StronglySorted Z.le _)). vm_compute. exact I.
Defined.

Section session_lifecycle.
Context `{HE : HubEnv}.

Lemma issueSession_spec user label w :
  match issueSession user label w with
  | (Err _, w') => untouched w w'
  | (Ok tk, w') => w_broker w' = w_broker w ∧ ∃ row now,
      w_db w' = set_d_sessions (d_sessions (w_db w) ++ [row]) (w_db w) ∧ ss_id row ∉ ss_id <$> d_sessions (w_db w) ∧
      ss_token_hash row = hashToken (tk_token tk) ∧ ss_refresh_hash row = hashToken (tk_refreshToken tk) ∧
      ss_username row = user ∧ ss_device_label row = nullStr label ∧ ss_revoked row = false ∧
      ss_expires_at row = fmtTS (now + tokenTTL) ∧ ss_refresh_expires_at row = fmtTS (now + refreshTTL) ∧
      tk_expiresAt tk = fmtTS (now + tokenTTL) ∧ tk_username tk = user
  end.
Proof.
  unfold issueSession. unfold mbind at 1 2 3 4, stM_bind. unfold nowUTC, randToken, newID. cbv beta iota zeta.
  unfold mbind, stM_bind.
  match goal with |- context [db_write ?f ?w0] => pose proof (db_write_cases f w0) as H; destruct (db_write f w0) as [[u|e] w1] end;
    [|exact H].
  destruct H as (Hf & Hb & _). unfold mret, stM_ret. split; [exact Hb|].
  destruct (tbl_insert _ _) as [l|] eqn:El; [|done]. injection Hf as _ Hf.
  unfold tbl_insert in El. case_decide as Hnin; [done|]. injection El as <-.
  eexists _, _. split; [symmetry; exact Hf|]. split; [exact Hnin|]. by repeat split.
Qed.

Lemma update_sessions_none id f l :
  filter (λ x, ss_id x = id ∧ ss_revoked x = false) l = [] → update_sessions id f l = l.
Proof.
  intros Hn. unfold update_sessions. rewrite <-(list_fmap_id l) at 2. apply list_fmap_ext. intros i s Hs.
  rewrite decide_False; [done|]. intros Hp. apply list_elem_of_lookup_2 in Hs.
  assert (s ∈ filter (λ x, ss_id x = id ∧ ss_revoked x = false) l) as H by (by apply list_elem_of_filter).
  rewrite Hn in H. by apply elem_of_nil in H.
Qed.

(** A second half of a refresh. *)
Lemma refresh_rotate_spec s w :
  match refresh_rotate s w with
  | (Err _, _) => False
  | (Ok (Fail st _ _), w') => untouched w w' ∧ (st = 500 ∨
      st = 401 ∧ filter (λ x, ss_id x = ss_id s ∧ ss_revoked x = false) (d_sessions (w_db w)) = [])
  | (Ok (Reply st tk), w') => st = 200 ∧ w_broker w' = w_broker w ∧ ∃ now,
      w_db w' = set_d_sessions (update_sessions (ss_id s) (rotate_row (tk_token tk) (tk_refreshToken tk) now)
        (d_sessions (w_db w))) (w_db w)
  end.
Proof.
  unfold refresh_rotate, st_try. unfold mbind, stM_bind, nowUTC, randToken.
  match goal with |- context [db_write ?f ?w0] => pose proof (db_write_cases f w0) as H; destruct (db_write f w0) as [[n|e] w1] end;
    unfold mret, stM_ret; [|split; [exact H|by left]].
  destruct H as (Hf & Hb & _). injection Hf as Hn Hd. destruct n as [|n].
  - apply length_zero_iff_nil in Hn. split; [|by right]. split; [|exact Hb].
    rewrite <-Hd, update_sessions_none by exact Hn. by destruct w as [[] ? ? ? ? ? ? ?].
  - split; [done|]. split; [exact Hb|]. eexists. symmetry. exact Hd.
Qed.

(** The session a refresh may replace the tokens of. *)
Definition refreshable (rtok : string) (now : Z) (d : db) (s : sessionRow) : Prop :=
  rtok ≠ EmptyString ∧ refresh_session rtok d = Ok s ∧ ss_revoked s = false ∧
  ∃ t, parseTS (ss_refresh_expires_at s) = Some t ∧ now <= t.

Lemma refresh_check_spec rtok w :
  match refresh_check rtok w with
  | (Err _, _) => False
  | (Ok (inl (Reply _ _)), _) => False
  | (Ok (inl (Fail st _ _)), w') => untouched w w' ∧ (st = 400 ∧ rtok = EmptyString ∨ st = 401)
  | (Ok (inr s), w') => untouched w w' ∧ refreshable rtok (h_now (w_ticks w)) (w_db w) s
  end.
Proof.
  unfold refresh_check. case_decide as Hne; [split; [done|by left]|].
  unfold st_try, db_call. unfold mbind, stM_bind. destruct (h_io _); [split; [done|by right]|].
  destruct (refresh_session rtok (w_db w)) as [s|e] eqn:Es; [|split; [done|by right]].
  destruct (ss_revoked s) eqn:Er; [split; [done|by right]|].
  destruct (parseTS (ss_refresh_expires_at s)) as [t|] eqn:Et; [|split; [done|by right]].
  unfold nowUTC, mret, stM_ret. cbv beta iota zeta. case_decide as Hlt; (split; [done|]); [by right|].
  split; [done|]. split; [done|]. split; [done|]. exists t. split; [done|]. cbn in Hlt. lia.
Qed.

Lemma refresh_session_in rtok d s :
  refresh_session rtok d = Ok s → s ∈ d_sessions d ∧ ss_refresh_hash s = hashToken rtok ∧ ss_device_label s ≠ None.
Proof.
  unfold refresh_session. destruct (head _) as [s'|] eqn:Eh; [|done]. apply head_Some_elem_of, list_elem_of_filter in Eh.
  destruct (ss_device_label s') eqn:El; [|done]. intros [= <-]. rewrite El. naive_solver.
Qed.

(** After the rotation nobody's refresh token has the old hash. *)
Lemma rotated_away id old tok rtok now l s :
  NoDup (ss_refresh_hash <$> l) → s ∈ l → ss_id s = id → ss_revoked s = false →
  ss_refresh_hash s = hashToken old → hashToken rtok ≠ hashToken old →
  filter (λ x, ss_refresh_hash x = hashToken old) (update_sessions id (rotate_row tok rtok now) l) = [].
Proof.
  intros Hnd Hs Hid Hr Hh Hne. apply list_filter_none. unfold update_sessions.
  intros x (y & -> & Hy)%list_elem_of_fmap. case_decide as Hc; [done|]. intros Heq.
  assert (y = s) as ->; [|by apply Hc]. eapply (NoDup_fmap_inj ss_refresh_hash); [exact Hnd|done|done|congruence].
Qed.
End session_lifecycle.

(** What a login answers.  It succeeds only with the administrator's name, a password
    bcrypt accepts and an attempt the limiter let through; then exactly one session has been
    added, which knows the two tokens by their hashes alone and expires after 30 and 90 days.
    With any other answer nothing was stored, and only the limiter has counted the attempt. *)
Theorem login_answers `{HE : HubEnv} bcrypt_match cfg adminHash remoteAddr l req w :
  let attempt := allow (clientIP remoteAddr +:+ "|" +:+ lr_Username req)%string (h_now (w_ticks w)) l in
  let good := lr_Username req = cfg_adminUser cfg ∧ checkPassword bcrypt_match adminHash (lr_Password req) = true in
  match handleLogin bcrypt_match cfg adminHash remoteAddr l req w with
  | (Err _, _) => False
  | (Ok (Fail st _ _, l'), w') => untouched w w' ∧
      (st = 400 ∧ l' = l ∨
       l' = attempt.2 ∧ (st = 429 ∧ attempt.1.1 = false ∨ st = 401 ∧ attempt.1.1 = true ∧ ¬ good ∨ st = 500 ∧ good))
  | (Ok (Reply st tk, l'), w') => st = 200 ∧ l' = attempt.2 ∧ attempt.1.1 = true ∧ good ∧
      w_broker w' = w_broker w ∧ ∃ row now,
      w_db w' = set_d_sessions (d_sessions (w_db w) ++ [row]) (w_db w) ∧ ss_id row ∉ ss_id <$> d_sessions (w_db w) ∧
      ss_token_hash row = hashToken (tk_token tk) ∧ ss_refresh_hash row = hashToken (tk_refreshToken tk) ∧
      ss_username row = lr_Username req ∧ ss_revoked row = false ∧
      ss_expires_at row = fmtTS (now + tokenTTL) ∧ ss_refresh_expires_at row = fmtTS (now + refreshTTL)
  end.
Proof.
  intros attempt good. unfold handleLogin. destruct (decide (_ ∨ _)); [split; [done|by left]|].
  destruct (decide (100 < _)); [split; [done|by left]|].
  unfold mbind at 1, stM_bind, nowUTC. fold attempt. destruct attempt as [[ok retry] l'] eqn:Ea.
  destruct ok; cbn [negb]; [|split; [done|right; split; [done|by left]]].
  destruct (decide (lr_Username req ≠ cfg_adminUser cfg)) as [Hu|Hu].
  { split; [done|]. right. split; [done|]. right. left. split; [done|]. split; [done|]. by intros [? _]. }
  apply dec_stable in Hu. destruct (checkPassword _ _ _) eqn:Ep; cbn [negb]; cycle 1.
  { split; [done|]. right. split; [done|]. right. left. split; [done|]. split; [done|]. by intros [_ ?]. }
  unfold st_try, mbind, stM_bind. set (w1 := wset_ticks _ w).
  pose proof (issueSession_spec (lr_Username req) (lr_DeviceLabel req) w1) as H.
  destruct (issueSession _ _ w1) as [[tk|e] w2]; unfold mret, stM_ret.
  - destruct H as (Hb & row & now & Hd & H1 & H2 & H3 & H4 & _ & H5 & H6 & H7 & _).
    do 4 (split; [done|]). split; [exact Hb|]. exists row, now. split; [exact Hd|]. by repeat split.
  - split; [exact H|]. right. split; [done|]. right. right. done.
Qed.

(** A refresh token works once.  A refresh is answered with new tokens only for a session
    that is on record with that refresh token, not revoked, not expired; that session then
    has the new tokens and nothing else has changed; and from then on, as long as no two
    sessions share a refresh hash and the new token does not collide with the old one, the
    old refresh token is refused whenever it is presented. *)
Theorem refresh_rotates `{HE : HubEnv} rtok w st tk w'
    (Hnd : NoDup (ss_refresh_hash <$> d_sessions (w_db w)))
    (Hrun : handleRefresh rtok w = (Ok (Reply st tk), w')) (Hfresh : hashToken (tk_refreshToken tk) ≠ hashToken rtok) :
  st = 200 ∧ w_broker w' = w_broker w ∧
  ∃ s now, s ∈ d_sessions (w_db w) ∧ ss_refresh_hash s = hashToken rtok ∧ refreshable rtok (h_now (w_ticks w)) (w_db w) s ∧
    w_db w' = set_d_sessions (update_sessions (ss_id s) (rotate_row (tk_token tk) (tk_refreshToken tk) now)
      (d_sessions (w_db w))) (w_db w) ∧
    ∀ later, w_db later = w_db w' → ∃ code msg, (handleRefresh rtok later).1 = Ok (Fail 401 code msg).
Proof.
  unfold handleRefresh in Hrun. unfold mbind, stM_bind in Hrun. pose proof (refresh_check_spec rtok w) as Hc.
  destruct (refresh_check rtok w) as [[[[]|s]|e] w1]; [done..| |done].
  destruct Hc as [[Hd1 Hb1] Href]. pose proof (refresh_rotate_spec s w1) as Hr. rewrite Hrun in Hr.
  destruct Hr as (-> & Hb & now & Hd). split; [done|]. split; [congruence|]. exists s, now.
  destruct Href as (Hne & Hs & Hrev & Hexp). destruct (refresh_session_in _ _ _ Hs) as (Hin & Hh & Hl).
  rewrite Hd1 in Hd. split_and!; [done..|exact Hd|].
  intros later Hlater. unfold handleRefresh. unfold mbind, stM_bind. unfold refresh_check. rewrite decide_False by done.
  unfold st_try, db_call. unfold mbind, stM_bind. destruct (h_io _); [by eexists _, _|].
  assert (refresh_session rtok (w_db later) = Err ENoRows) as ->; [|by eexists _, _].
  unfold refresh_session. rewrite Hlater, Hd. cbn [d_sessions set_d_sessions].
  by rewrite (rotated_away _ _ _ _ _ _ s).
Qed.

(** ** Concrete sessions *)

(** A hub with one session, whose refresh token is ["rtok_old"]. *)
Definition demo_session (label : option string) : sessionRow :=
  {| ss_id := "ses_1"; ss_token_hash := hashToken "tok_old"; ss_refresh_hash := hashToken "rtok_old";
     ss_username := "admin"; ss_device_label := label; ss_created_at := "2026-09-01T00:00:00.000Z";
     ss_expires_at := "2026-10-01T00:00:00.000Z"; ss_refresh_expires_at := "2026-12-01T00:00:00.000Z";
     ss_revoked := false |}%string.
Definition session_world (label : option string) : World :=
  world_of (set_d_sessions [demo_session label] empty_db).

Lemma refresh_rotates_witness :
  let w := session_world (Some "phone"%string) in
  match handleRefresh (HE := demo_env) "rtok_old" w with
  | (_, w') => ∃ code msg, (handleRefresh (HE := demo_env) "rtok_old" w').1 = Ok (Fail 401 code msg)
  end.
Proof.
  intros w. assert (∃ tk w', handleRefresh (HE := demo_env) "rtok_old" w = (Ok (Reply 200 tk), w') ∧
    String.eqb (hashToken (tk_refreshToken tk)) (hashToken "rtok_old") = false) as (tk & w' & E & Hne)
    by (eexists _, _; split; [vm_compute; reflexivity|vm_compute; reflexivity]).
  destruct (refresh_rotates (HE := demo_env) "rtok_old" w 200 tk w'
    ltac:(apply (bool_decide_unpack (NoDup _)); vm_compute; exact I) E) as (_ & _ & s & now & _ & _ & _ & _ & Hlater).
  { intros H. apply String.eqb_eq in H. congruence. }
  rewrite E. by apply Hlater.
Defined.

(** Two refreshes with the same token whose checks both come before either rotation both
    succeed: the token is used twice, and the first client's new tokens are already void. *)
Lemma refresh_race :
  match refresh_check (HE := demo_env) "rtok_old" (session_world (Some "phone"%string)) with
  | (Ok (inr s), w1) =>
    match handleRefresh (HE := demo_env) "rtok_old" w1 with
    | (Ok (Reply st1 tk1), w2) =>
      match refresh_rotate (HE := demo_env) s w2 with
      | (Ok (Reply st2 tk2), w3) => st1 = 200 ∧ st2 = 200 ∧
          match (handleRefresh (HE := demo_env) (tk_refreshToken tk1) w3).1 with Ok (Fail st _ _) => st = 401 | _ => False end
      | _ => False
      end
    | _ => False
    end
  | _ => False
  end.
Proof. vm_compute. done. Qed.

(** A session that was opened without a device label can never be refreshed. *)
Lemma refresh_without_label :
  (handleRefresh (HE := demo_env) "rtok_old" (session_world None)).1 = Ok (invalid_refresh "refreshToken 失效") ∧
  refreshable "rtok_old" 0 (w_db (session_world (Some "phone"%string))) (demo_session (Some "phone"%string)) ∧
  nullStr "" = None.
Proof. split_and!; [vm_compute; reflexivity| |done]. split; [done|]. split; [vm_compute; reflexivity|]. split; [done|]. by eexists. Qed.

(** ** Logging out *)

(** Revoked, a session is nobody's any more. *)
Lemma logout_revokes `{HE : HubEnv} s w w' r :
  handleLogout s w = (r, w') →
  w_db w' = w_db w ∨ ∀ row, row ∈ d_sessions (w_db w') → ss_id row = se_ID s → ss_revoked row = true.
Proof.
  unfold handleLogout, st_try. unfold mbind, stM_bind.
  match goal with |- context [db_write ?f ?w0] => pose proof (db_write_cases f w0) as H; destruct (db_write f w0) as [[u|e] w1] end;
    intros [= _ <-]; [right|by left; apply H].
  destruct H as (Hf & _). injection Hf as _ <-. cbn. intros row (r0 & -> & _)%list_elem_of_fmap. by case_decide.
Qed.

(** ** Numbers and addresses *)

Lemma itoa_loop_digits room n b : (0 <= n < 10 ^ Z.of_nat room)%Z → all_digits b → all_digits (itoa_loop room n b).
Proof.
  revert n b. induction room as [|room IH]; intros n b Hn Hb; [done|]. cbn [itoa_loop]. case_decide as Hpos; [|done].
  apply IH.
  - replace (10 ^ Z.of_nat (S room)) with (10 * 10 ^ Z.of_nat room) in Hn by (rewrite Nat2Z.inj_succ, Z.pow_succ_r by lia; lia).
    split; [apply Z.div_pos; lia|]. apply Z.div_lt_upper_bound; lia.
  - cbn. apply andb_True. split; [|done]. assert (0 <= n mod 10 < 10) as Hd by (apply Z.mod_pos_bound; lia).
    rewrite is_digit_digit by done. done.
Qed.

Lemma digits_val_loop room n b :
  0 <= n < 10 ^ Z.of_nat room → digits_val 0 (itoa_loop room n b) = digits_val n b.
Proof.
  revert n b. induction room as [|room IH]; intros n b Hn; [cbn in *; by replace n with 0 by lia|].
  cbn [itoa_loop]. case_decide as Hpos; [|by replace n with 0 by lia].
  rewrite IH.
  - cbn [digits_val]. rewrite digit_val_digit by (apply Z.mod_pos_bound; lia). by rewrite <-Z.div_mod by lia.
  - replace (10 ^ Z.of_nat (S room)) with (10 * 10 ^ Z.of_nat room) in Hn by (rewrite Nat2Z.inj_succ, Z.pow_succ_r by lia; lia).
    split; [apply Z.div_pos; lia|]. apply Z.div_lt_upper_bound; lia.
Qed.

(** The header reads back as the number of seconds. *)
Lemma itoa_digits n : 0 < n <= int64_max → all_digits (itoa n) ∧ digits_val 0 (itoa n) = n.
Proof.
  intros Hn. assert (0 <= n < 10 ^ Z.of_nat 20) by (unfold int64_max in Hn; cbn; lia).
  unfold itoa. rewrite decide_False by lia. split; [by apply itoa_loop_digits|by rewrite digits_val_loop].
Qed.
