(* ===== verification/Body.v ===== *)
(** Request bodies ([hub/util.go] decodeBody): the encodings a body may come in, the 256 KiB it
    may have, and what of it reaches [encoding/json].

    [compress/gzip] and [encoding/json] are parameters: a reader that, given what it can read
    of a compressed body, yields what it decompresses and how that ends; and a decoder. *)

From S2P Require Import Prelude GoBase HubStore.
Local Open Scope Z_scope.

(** How reading a compressed body ends: where a member ends, inside a member, or at bytes that
    are no such stream. *)
Inductive gzip_end := GzEnded | GzCut | GzCorrupt.

Class GzipReader := {
  gz_header : string → bool;                       (* gzip.NewReader succeeds *)
  gz_read : string → string * gzip_end }.

(** ** decodeBody *)

Definition maxBody : Z := 256 * 1024.

(** The outcome of [io.ReadAll]. *)
Inductive body_read := BodyData (data : string) | BodyTooLarge | BodyBroken (msg : string).

(** [http.MaxBytesReader] around the body: what can be read of it, and whether there is more. *)
Definition max_bytes (limit : Z) (raw : string) : string * bool :=
  (String.substring 0 (Z.to_nat limit) raw, bool_decide (limit < str_len raw)).

(** Reading an uncompressed and a compressed body, of which at most [maxBody] + 1 bytes are
    asked for. *)
Definition read_plain (raw : string) : body_read :=
  let '(seen, more) := max_bytes maxBody raw in
  if more : bool then BodyTooLarge else BodyData seen.

Definition read_gzip `{GzipReader} (raw : string) : body_read :=
  let '(seen, more) := max_bytes (maxBody + 8 * 1024) raw in
  if negb (gz_header seen) then BodyBroken "非法的 gzip 请求体"
  else
    let '(data, fin) := gz_read seen in
    if decide (maxBody < str_len data) then BodyTooLarge
    else match fin with
         | GzCorrupt => BodyBroken "非法的请求体"
         | GzEnded => if more : bool then BodyTooLarge else BodyData data
         | GzCut => if more : bool then BodyTooLarge else BodyBroken "非法的请求体"
         end.

(* @src hub/util.go 142-187 decodeBody *)
(** [inl] is the answer that was written. *)
Definition decodeBody `{GzipReader} {A B} (unmarshal : string → option A) (contentEncoding raw : string) : reply B + A :=
  let enc := to_lower (trim_space contentEncoding) in
  let run (r : body_read) : reply B + A :=
    match r with
    | BodyData data => match unmarshal data with Some a => inr a | None => inl (errInvalid "非法的 JSON 请求体") end
    | BodyTooLarge => inl (Fail 413 "too_large" "请求体超限")
    | BodyBroken msg => inl (errInvalid msg)
    end in
  if decide (enc = "" ∨ enc = "identity") then run (read_plain raw)
  else if decide (enc = "gzip") then run (read_gzip raw)
  else inl (Fail 415 "unsupported_encoding" "不支持的内容编码").

(** ** Lemmas *)

Section body.
Context `{GR : GzipReader}.

Lemma max_bytes_whole limit raw : str_len raw <= limit → max_bytes limit raw = (raw, false).
Proof.
  unfold max_bytes, str_len. intros H. rewrite substring_all by lia. by rewrite bool_decide_false by lia.
Qed.

(** What reaches the decoder: a body, or the content of a compressed one, of at most 256 KiB. *)
Lemma decodeBody_data {A B} (unmarshal : string → option A) enc raw a :
  decodeBody (B := B) unmarshal enc raw = inr a →
  ∃ data, unmarshal data = Some a ∧ str_len data <= maxBody ∧
    (data = raw ∨ gz_read raw = (data, GzEnded) ∧ str_len raw <= maxBody + 8 * 1024).
Proof.
  unfold decodeBody, read_plain, read_gzip. case_decide; [|case_decide; [|done]].
  - unfold max_bytes. case_bool_decide as Hl; [done|]. intros H1. exists raw. unfold str_len in *.
    rewrite substring_all in H1 by lia. destruct (unmarshal raw); [|done]. injection H1 as ->. split_and!; [done|lia|by left].
  - unfold max_bytes. case_bool_decide as Hl.
    + destruct (negb _); [done|]. destruct (gz_read _) as [data []]; case_decide; done.
    + unfold str_len in Hl. rewrite substring_all by lia. destruct (negb _); [done|].
      destruct (gz_read raw) as [data []] eqn:E; case_decide as Hd; try done.
      destruct (unmarshal data) eqn:Eu; [|done]. intros [= ->]. exists data. split_and!; [done|lia|]. right. split; [done|unfold str_len; lia].
Qed.

(** What does not is answered 400, 413 or 415. *)
Lemma decodeBody_refused {A B} (unmarshal : string → option A) enc raw r :
  decodeBody (B := B) unmarshal enc raw = inl r → ∃ st c m, r = Fail st c m ∧ st ∈ [400; 413; 415].
Proof.
  unfold decodeBody. intros H. repeat case_decide; try (injection H as <-; eexists _, _, _; split; [reflexivity|set_solver]).
  - destruct (read_plain raw); [destruct (unmarshal _); [done|]| |]; injection H as <-; eexists _, _, _; (split; [reflexivity|set_solver]).
  - destruct (read_gzip raw); [destruct (unmarshal _); [done|]| |]; injection H as <-; eexists _, _, _; (split; [reflexivity|set_solver]).
Qed.

Lemma decode_plain {A B} (unmarshal : string → option A) raw a :
  str_len raw <= maxBody → unmarshal raw = Some a → decodeBody (B := B) unmarshal "" raw = inr a.
Proof.
  intros Hl Hu. unfold decodeBody. rewrite decide_True by (left; vm_compute; reflexivity). unfold read_plain.
  by rewrite max_bytes_whole, Hu.
Qed.

Lemma decode_gzip {A B} (unmarshal : string → option A) raw data a :
  gz_header raw = true → gz_read raw = (data, GzEnded) → str_len raw <= maxBody + 8 * 1024 → str_len data <= maxBody →
  unmarshal data = Some a → decodeBody (B := B) unmarshal "gzip" raw = inr a.
Proof.
  intros Hh Hr Hraw Hd Hu. unfold decodeBody. rewrite decide_False by (vm_compute; by intros [|]).
  rewrite decide_True by (vm_compute; reflexivity). unfold read_gzip. rewrite max_bytes_whole by done.
  rewrite Hh, Hr. cbn [negb]. rewrite decide_False by lia. by rewrite Hu.
Qed.
End body.
