(* ===== verification/Flags.v ===== *)
(** What the agent's configuration uses of Go's standard library: [flag], [strconv.ParseInt]
    with base 0, [ParseBool] and [ParseFloat], and [time.ParseDuration].

    The texts are read byte by byte; numbers keep the bounds of their Go types. *)

From S2P Require Import Prelude GoBase Text.
From Stdlib Require Import Ascii SpecFloat.
Local Open Scope Z_scope.

(** ** Numbers *)

(** The value of a digit or letter, in either case. *)
Definition digit36 (c : ascii) : option Z :=
  let n := Z.of_N (N_of_ascii c) in
  if byte_in 48 57 c then Some (n - 48)
  else if byte_in 97 122 c then Some (n - 87)
  else if byte_in 65 90 c then Some (n - 55)
  else None.

Definition lower_byte (c : ascii) : ascii := if byte_in 65 90 c then ascii_of_N (N_of_ascii c + 32) else c.
Fixpoint lower_bytes (s : string) : string :=
  match s with String c s' => String (lower_byte c) (lower_bytes s') | EmptyString => EmptyString end.

(** An optional sign. *)
Definition take_sign (s : string) : bool * string :=
  match s with String "-" s' => (true, s') | String "+" s' => (false, s') | _ => (false, s) end.

(** [underscoreOK]: an underscore stands after a digit, or the base, and before a digit. *)
Inductive saw := SawStart | SawDigit | SawUnderscore | SawOther.
Fixpoint underscores_ok (hex : bool) (last : saw) (s : string) : bool :=
  match s with
  | EmptyString => match last with SawUnderscore => false | _ => true end
  | String c s' =>
    if is_digit c || hex && match digit36 c with Some d => d <? 16 | None => false end then underscores_ok hex SawDigit s'
    else if decide (c = "_"%char) then match last with SawDigit => underscores_ok hex SawUnderscore s' | _ => false end
    else match last with SawUnderscore => false | _ => underscores_ok hex SawOther s' end
  end.
Definition underscoreOK (s : string) : bool :=
  match (take_sign s).2 with
  | String "0" (String c s') as s1 =>
    if decide (lower_byte c ∈ ["b"; "o"; "x"]%char) then underscores_ok (bool_decide (lower_byte c = "x"%char)) SawDigit s'
    else underscores_ok false SawStart s1
  | s1 => underscores_ok false SawStart s1
  end.

(** The digits of a number in a base, underscores skipped; whether there were any. *)
Fixpoint base_digits (base acc : Z) (under : bool) (s : string) : option (Z * bool) :=
  match s with
  | EmptyString => Some (acc, under)
  | String c s' =>
    if decide (c = "_"%char) then base_digits base acc true s'
    else match digit36 c with
         | Some d => if decide (d < base) then base_digits base (base * acc + d) under s' else None
         | None => None
         end
  end.

(** [strconv.ParseInt(s, 0, 64)] *)
Definition base_of (s : string) : Z * string :=
  match s with
  | String "0" s1 =>
    match s1 with
    | String c ((String _ _) as s2) =>
      if decide (lower_byte c = "b"%char) then (2, s2)
      else if decide (lower_byte c = "o"%char) then (8, s2)
      else if decide (lower_byte c = "x"%char) then (16, s2)
      else (8, s1)
    | _ => (8, s1)
    end
  | _ => (10, s)
  end.
Definition parseInt0 (s : string) : option Z :=
  let '(neg, s1) := take_sign s in
  if decide (s1 = EmptyString) then None else
  let '(base, ds) := base_of s1 in
  match base_digits base 0 false ds with
  | None => None
  | Some (v, under) =>
    if under && negb (underscoreOK s1) then None else
    let v := if neg : bool then - v else v in
    if decide (int64_min <= v <= int64_max) then Some v else None
  end.

(** [strconv.ParseBool] *)
Definition parseBool (s : string) : option bool :=
  if decide (s ∈ ["1"; "t"; "T"; "TRUE"; "true"; "True"]%string) then Some true
  else if decide (s ∈ ["0"; "f"; "F"; "FALSE"; "false"; "False"]%string) then Some false
  else None.

(** [strconv.ParseFloat(s, 64)]: the mantissa, its digits after the point counted. *)
Record mantissa := { mt_val : Z; mt_frac : Z; mt_dot : bool; mt_digits : bool; mt_under : bool }.
Fixpoint read_mantissa (hex : bool) (m : mantissa) (s : string) : mantissa * string :=
  match s with
  | EmptyString => (m, s)
  | String c s' =>
    let base := if hex then 16 else 10 in
    if decide (c = "_"%char) then
      read_mantissa hex {| mt_val := mt_val m; mt_frac := mt_frac m; mt_dot := mt_dot m; mt_digits := mt_digits m; mt_under := true |} s'
    else if decide (c = "."%char) then
      if mt_dot m then (m, s)
      else read_mantissa hex {| mt_val := mt_val m; mt_frac := mt_frac m; mt_dot := true; mt_digits := mt_digits m;
                                mt_under := mt_under m |} s'
    else match digit36 c with
    | Some d =>
      if decide (d < base) then
        read_mantissa hex {| mt_val := base * mt_val m + d; mt_frac := if mt_dot m then mt_frac m + 1 else mt_frac m;
                             mt_dot := mt_dot m; mt_digits := true; mt_under := mt_under m |} s'
      else (m, s)
    | None => (m, s)
    end
  end.

(** Its exponent, which is cut off beyond 10000, and whether it has underscores. *)
Fixpoint exponent_digits (e : Z) (under : bool) (s : string) : option (Z * bool) :=
  match s with
  | EmptyString => Some (e, under)
  | String c s' =>
    if decide (c = "_"%char) then exponent_digits e true s'
    else if is_digit c then exponent_digits (if decide (e < 10000) then 10 * e + digit_val c else e) under s'
    else None
  end.
Definition read_exponent (s : string) : option (Z * bool) :=
  let '(neg, s1) := take_sign s in
  match s1 with
  | String c _ =>
    if is_digit c then
      match exponent_digits 0 false s1 with
      | Some (e, under) => Some (if neg : bool then - e else e, under)
      | None => None
      end
    else None
  | EmptyString => None
  end.

Definition special_float (s : string) : option float64 :=
  let '(neg, s1) := take_sign s in
  if decide (lower_bytes s1 ∈ ["inf"; "infinity"]%string) then Some (S754_infinity neg)
  else if decide (lower_bytes s = "nan"%string) then Some S754_nan
  else None.

Definition parseFloat (s : string) : option float64 :=
  match special_float s with
  | Some f => Some f
  | None =>
    let '(neg, s1) := take_sign s in
    let '(hex, s2) := match s1 with
                      | String "0" (String c ((String _ _) as s2)) => if decide (lower_byte c = "x"%char) then (true, s2) else (false, s1)
                      | _ => (false, s1)
                      end in
    let '(m, s3) := read_mantissa hex {| mt_val := 0; mt_frac := 0; mt_dot := false; mt_digits := false; mt_under := false |} s2 in
    if negb (mt_digits m) then None else
    let ex := match s3 with
              | String c s4 => if decide (lower_byte c = if hex : bool then "p"%char else "e"%char) then read_exponent s4 else None
              | EmptyString => if hex then None else Some (0, false)
              end in
    match ex with
    | None => None
    | Some (e, under) =>
      if (mt_under m || under) && negb (underscoreOK s) then None else
      let x := if hex then binary_normalize 53 1024 (mt_val m) (e - 4 * mt_frac m) false
               else f64_of_dec (mt_val m) (e - mt_frac m) in
      match x with
      | S754_infinity _ => None
      | _ => Some (if neg : bool then SFopp x else x)
      end
    end
  end.

(** ** [time.ParseDuration] *)

(** Digits from the left, at most 2^63. *)
Fixpoint leadingInt (x : Z) (s : string) : option (Z * string) :=
  match s with
  | EmptyString => Some (x, s)
  | String c s' =>
    if is_digit c then
      if decide (2 ^ 63 / 10 < x) then None
      else let x' := 10 * x + digit_val c in if decide (2 ^ 63 < x') then None else leadingInt x' s'
    else Some (x, s)
  end.

(** Digits after the point; those that would overflow are skipped. *)
Fixpoint leadingFraction (x : Z) (scale : float64) (overflow : bool) (s : string) : Z * float64 * string :=
  match s with
  | EmptyString => (x, scale, s)
  | String c s' =>
    if is_digit c then
      if overflow then leadingFraction x scale true s'
      else if decide (int64_max / 10 < x) then leadingFraction x scale true s'
      else let y := 10 * x + digit_val c in
           if decide (2 ^ 63 < y) then leadingFraction x scale true s'
           else leadingFraction y (f64_mul scale (f64_of_Z 10)) false s'
    else (x, scale, s)
  end.

Fixpoint take_unit (s : string) : string * string :=
  match s with
  | EmptyString => (EmptyString, EmptyString)
  | String c s' => if decide (c = "."%char) then (EmptyString, s)
                   else if is_digit c then (EmptyString, s)
                   else let '(u, r) := take_unit s' in (String c u, r)
  end.

Definition unitMap (u : string) : option Z :=
  if decide (u = "ns"%string) then Some 1
  else if decide (u = "us" ∨ u = bytes_str [194; 181; 115]%N ∨ u = bytes_str [206; 188; 115]%N)%string then Some 1000
  else if decide (u = "ms"%string) then Some Millisecond
  else if decide (u = "s"%string) then Some Second
  else if decide (u = "m"%string) then Some Minute
  else if decide (u = "h"%string) then Some Hour
  else None.

(** One number with its unit: what it adds, and the rest. *)
Definition duration_part (s : string) : option (Z * string) :=
  match leadingInt 0 s with
  | None => None
  | Some (v, s1) =>
    let pre := bool_decide (String.length s1 ≠ String.length s) in
    let '(f, scale, post, s2) :=
      match s1 with
      | String "." t => let '(f, scale, t') := leadingFraction 0 (f64_of_Z 1) false t in
                        (f, scale, bool_decide (String.length t' ≠ String.length t), t')
      | _ => (0, f64_of_Z 1, false, s1)
      end in
    if negb pre && negb post then None else
    let '(u, s3) := take_unit s2 in
    match unitMap u with
    | None => None
    | Some unit =>
      if decide (2 ^ 63 / unit < v) then None else
      let v := v * unit in
      let v := if decide (0 < f) then v + f64_to_int (f64_mul (f64_of_Z f) (f64_div (f64_of_Z unit) scale)) else v in
      if decide (2 ^ 63 < v) then None else Some (v, s3)
    end
  end.

(** The parts are added up in a [uint64]; each takes at least one byte. *)
Fixpoint duration_parts (n : nat) (d : Z) (s : string) : option Z :=
  match s, n with
  | EmptyString, _ => Some d
  | _, O => None
  | String _ _, S n' =>
    match duration_part s with
    | None => None
    | Some (v, s') => let d' := (d + v) mod 2 ^ 64 in if decide (2 ^ 63 < d') then None else duration_parts n' d' s'
    end
  end.

Definition parseDuration (s : string) : option Z :=
  let '(neg, s1) := take_sign s in
  if decide (s1 = "0"%string) then Some 0
  else if decide (s1 = EmptyString) then None
  else match duration_parts (String.length s1) 0 s1 with
       | None => None
       | Some d => if neg : bool then Some (wrap64 (- wrap64 d)) else if decide (int64_max < d) then None else Some d
       end.

Example parseDuration_examples :
  parseDuration "30s" = Some (30 * Second) ∧ parseDuration "1m30s" = Some (90 * Second) ∧
  parseDuration "1.5h" = Some (90 * Minute) ∧ parseDuration "-.5ms" = Some (- 500000) ∧ parseDuration "30" = None ∧
  parseDuration "2562047h47m16.854775807s" = Some int64_max ∧ parseDuration "2562047h47m16.854775808s" = None ∧
  parseDuration "-2562047h47m16.854775808s" = Some int64_min ∧ parseDuration "s" = None ∧ parseDuration "1s " = None.
Proof. vm_compute. by split_and!. Qed.

Example parseFloat_examples :
  parseFloat "30" = Some (f64_of_Z 30) ∧ parseFloat "-2.5e1" = Some (f64_of_Z (-25)) ∧ parseFloat "0x1.8p1" = Some (f64_of_Z 3) ∧
  parseFloat "1e400" = None ∧ parseFloat "1e" = None ∧ parseFloat "Inf" = Some (S754_infinity false) ∧ parseFloat "nan" = Some S754_nan ∧
  parseFloat "." = None ∧ parseFloat "1_000" = Some (f64_of_Z 1000) ∧ parseFloat "1__0" = None.
Proof. vm_compute. by split_and!. Qed.

Example parseInt0_examples :
  parseInt0 "500" = Some 500 ∧ parseInt0 "0x_1F" = Some 31 ∧ parseInt0 "010" = Some 8 ∧ parseInt0 "-9223372036854775808" = Some int64_min ∧
  parseInt0 "9223372036854775808" = None ∧ parseInt0 "1_" = None ∧ parseInt0 "0" = Some 0 ∧ parseInt0 "08" = None.
Proof. vm_compute. by split_and!. Qed.

(** ** [flag] *)

(** A flag's current value, by its type. *)
Inductive flag_value := FStr (s : string) | FInt (z : Z) | FBool (b : bool).
Definition flag_set : Type := list (string * flag_value).

Inductive flag_err := ErrHelp | BadSyntax (arg : string) | NotDefined (name : string) | NeedsArgument (name : string)
  | InvalidValue (name value : string).

Definition set_value (v : flag_value) (s : string) : option flag_value :=
  match v with
  | FStr _ => Some (FStr s)
  | FInt _ => FInt <$> parseInt0 s
  | FBool _ => FBool <$> parseBool s
  end.

Fixpoint flag_get (fs : flag_set) (name : string) : option flag_value :=
  match fs with
  | [] => None
  | (n, v) :: fs' => if decide (n = name) then Some v else flag_get fs' name
  end.
Fixpoint flag_put (name : string) (v : flag_value) (fs : flag_set) : flag_set :=
  match fs with
  | [] => []
  | (n, w) :: fs' => if decide (n = name) then (n, v) :: fs' else (n, w) :: flag_put name v fs'
  end.

(** Giving a flag a value. *)
Definition flag_assign (name value : string) (fs : flag_set) : outcome flag_err flag_set :=
  match flag_get fs name with
  | None => Err (if decide (name = "help" ∨ name = "h")%string then ErrHelp else NotDefined name)
  | Some v => match set_value v value with
              | Some v' => Ok (flag_put name v' fs)
              | None => Err (InvalidValue name value)
              end
  end.

(** [-name=value], split at the first [=] after the first byte. *)
Fixpoint cut_equals (s : string) : string * option string :=
  match s with
  | EmptyString => (EmptyString, None)
  | String c s' => if decide (c = "="%char) then (EmptyString, Some s')
                   else let '(n, v) := cut_equals s' in (String c n, v)
  end.

(** An argument: the end of the flags, or a flag without its minus signs. *)
Inductive flag_arg := NoFlag | Terminator | Malformed | Flag (name : string) (value : option string).
Definition classify_arg (s : string) : flag_arg :=
  match s with
  | String "-" s1 =>
    if decide (s1 = EmptyString) then NoFlag
    else if decide (s1 = "-"%string) then Terminator
    else let body := match s1 with String "-" s2 => s2 | _ => s1 end in
         match body with
         | EmptyString => Malformed
         | String c rest =>
           if decide (c = "-"%char ∨ c = "="%char) then Malformed
           else let '(n, v) := cut_equals rest in Flag (String c n) v
         end
  | _ => NoFlag
  end.

(** [FlagSet.Parse] with [ContinueOnError]; what is left over is not looked at. *)
Fixpoint flag_parse (fs : flag_set) (args : list string) : outcome flag_err flag_set :=
  match args with
  | [] => Ok fs
  | s :: args' =>
    match classify_arg s with
    | NoFlag | Terminator => Ok fs
    | Malformed => Err (BadSyntax s)
    | Flag name value =>
      match flag_get fs name, value with
      | Some (FBool _), None =>
        match flag_assign name "true" fs with Ok fs' => flag_parse fs' args' | Err e => Err e end
      | None, _ => match flag_assign name EmptyString fs with Ok fs' => Ok fs' | Err e => Err e end
      | Some _, Some v => match flag_assign name v fs with Ok fs' => flag_parse fs' args' | Err e => Err e end
      | Some _, None =>
        match args' with
        | v :: args'' => match flag_assign name v fs with Ok fs' => flag_parse fs' args'' | Err e => Err e end
        | [] => Err (NeedsArgument name)
        end
      end
    end
  end.

(** ** Writing a command line and reading it back *)

(** A setting, written as [--name=value]. *)
Definition write_setting (p : string * string) : string := ("--" +:+ p.1 +:+ "=" +:+ p.2)%string.

(** Names as the program's flags have them. *)
Fixpoint no_equals (s : string) : bool :=
  match s with String c s' => negb (Ascii.eqb c "=") && no_equals s' | EmptyString => true end.
Definition flag_name (s : string) : bool :=
  match s with String c s' => negb (Ascii.eqb c "-") && no_equals s | EmptyString => false end.

Lemma cut_equals_cons c s : cut_equals (String c s) =
  if decide (c = "="%char) then (EmptyString, Some s) else let '(n, v) := cut_equals s in (String c n, v).
Proof. done. Qed.

Lemma cut_equals_app n v : no_equals n = true → cut_equals (n +:+ String "=" v)%string = (n, Some v).
Proof.
  induction n as [|c n IH]; cbn [no_equals]; [done|]. intros [Hc Hn]%andb_true_iff.
  rewrite append_cons, cut_equals_cons, decide_False by (intros ->; discriminate). by rewrite IH.
Qed.

Lemma classify_long c rest : c ≠ "-"%char → c ≠ "="%char → classify_arg (String "-" (String "-" (String c rest))) =
  let '(n, v) := cut_equals rest in Flag (String c n) v.
Proof. intros H1 H2. cbv [classify_arg]. rewrite !decide_False by (congruence || intros [?|?]; done). done. Qed.

Lemma classify_setting n v : flag_name n = true → classify_arg (write_setting (n, v)) = Flag n (Some v).
Proof.
  destruct n as [|c n]; [done|]. cbn [flag_name no_equals]. intros [Hc [Ha Hn]%andb_true_iff]%andb_true_iff.
  change (write_setting (String c n, v)) with (String "-" (String "-" (String c (n +:+ String "=" v)))).
  rewrite classify_long by (intros ->; discriminate). by rewrite cut_equals_app.
Qed.

(** A command line of settings does what the settings do, one after the other: the last one
    given to a flag counts. *)
Lemma parse_settings fs l : Forall (λ p, flag_name p.1 = true) l →
  flag_parse fs (write_setting <$> l) =
  foldl (λ r p, match r with Ok fs => flag_assign p.1 p.2 fs | Err e => Err e end) (Ok fs) l.
Proof.
  assert (∀ (l : list (string * string)) (e : flag_err), foldl (λ r p, match r with Ok fs => flag_assign p.1 p.2 fs | Err e => Err e end) (Err e) l = Err e) as Herr.
  { clear. induction l; cbn; [done|auto]. }
  intros Hl. revert fs. induction Hl as [|[n v] l Hn Hl IH]; intros fs; [done|]. cbn [fst snd] in *.
  rewrite fmap_cons. cbn [flag_parse foldl fst snd]. rewrite classify_setting by done.
  assert (flag_assign n v fs = match flag_get fs n with None => flag_assign n EmptyString fs | _ => flag_assign n v fs end) as E.
  { unfold flag_assign. by destruct (flag_get fs n). }
  unfold flag_assign in *. destruct (flag_get fs n) as [w|]; [|by rewrite Herr].
  destruct (set_value w v) as [w'|]; [|rewrite Herr; by destruct w]. rewrite <-IH. by destruct w.
Qed.

Lemma flag_get_put fs n n' v : flag_get (flag_put n v fs) n' =
  if decide (n = n') then match flag_get fs n with Some _ => Some v | None => None end else flag_get fs n'.
Proof.
  induction fs as [|[m w] fs IH]; cbn -[decide]; [by case_decide|].
  destruct (decide (m = n)) as [->|Hm]; cbn -[decide].
  - destruct (decide (n = n')) as [->|]; [done|]. done.
  - rewrite IH. destruct (decide (n = n')) as [->|]; [by rewrite decide_False|]. done.
Qed.

(** A flag keeps its type. *)
Definition same_type (v w : flag_value) : Prop :=
  match v, w with FStr _, FStr _ | FBool _, FBool _ => True | FInt _, FInt z => int64_min <= z <= int64_max | _, _ => False end.

Lemma parseInt0_range s z : parseInt0 s = Some z → int64_min <= z <= int64_max.
Proof.
  unfold parseInt0. destruct (take_sign s) as [neg s1]. case_decide; [done|]. destruct (base_of s1) as [b ds].
  destruct (base_digits _ _ _ _) as [[v u]|]; [|done]. destruct (_ && _); [done|]. cbn zeta. case_decide as Hd; [|done].
  by intros [= <-].
Qed.

Lemma set_value_type v s w : set_value v s = Some w → same_type v w.
Proof.
  destruct v; cbn; [by intros [= <-]| |].
  - destruct (parseInt0 s) eqn:E; [|done]. intros [= <-]. by apply parseInt0_range in E.
  - destruct (parseBool s); [|done]. by intros [= <-].
Qed.
Lemma same_type_trans u v w : same_type u v → same_type v w → same_type u w.
Proof. by destruct u, v, w. Qed.

Lemma flag_assign_type name s fs fs' n v : flag_assign name s fs = Ok fs' → flag_get fs n = Some v →
  flag_get fs' n = Some v ∨ ∃ w, flag_get fs' n = Some w ∧ same_type v w.
Proof.
  unfold flag_assign. destruct (flag_get fs name) as [u|] eqn:Eu; [|done].
  destruct (set_value u s) as [u'|] eqn:Es; [|done]. intros [= <-] Hn. rewrite flag_get_put, Eu.
  case_decide as Hd; [subst n|by left]. right. exists u'. split; [done|]. rewrite Eu in Hn. injection Hn as ->.
  by eapply set_value_type.
Qed.

(** Parsing never loses a flag: each has a value of its type. *)
Lemma flag_parse_type args fs fs' n v : flag_parse fs args = Ok fs' → flag_get fs n = Some v →
  flag_get fs' n = Some v ∨ ∃ w, flag_get fs' n = Some w ∧ same_type v w.
Proof.
  assert (∀ m args fs, (length args <= m)%nat → flag_parse fs args = Ok fs' → ∀ v, flag_get fs n = Some v →
    flag_get fs' n = Some v ∨ ∃ w, flag_get fs' n = Some w ∧ same_type v w) as Hall; [|by intros H; eapply (Hall (length args))].
  clear. induction m as [|m IH]; intros args fs Hm H v Hv.
  { destruct args; [|cbn in Hm; lia]. injection H as <-. by left. }
  destruct args as [|s args]; [injection H as <-; by left|]. cbn [length] in Hm.
  assert (∀ nm val fs1 args1, flag_assign nm val fs = Ok fs1 → (length args1 <= m)%nat → flag_parse fs1 args1 = Ok fs' →
    flag_get fs' n = Some v ∨ ∃ w, flag_get fs' n = Some w ∧ same_type v w) as Hstep.
  { intros nm val fs1 args1 Ha Hl Hp. destruct (flag_assign_type _ _ _ _ _ _ Ha Hv) as [H1|(w & H1 & Ht)].
    - by eapply IH.
    - destruct (IH _ _ Hl Hp _ H1) as [?|(w' & ? & ?)]; [right; by exists w|]. right. exists w'. split; [done|].
      by eapply same_type_trans. }
  cbn [flag_parse] in H. destruct (classify_arg s) as [| | |nm value]; [injection H as <-; by left..|done|].
  destruct (flag_get fs nm) as [u|] eqn:Eu.
  - destruct u, value as [val|]; try (destruct (flag_assign nm _ fs) as [fs1|] eqn:Ea; [|done]; eapply Hstep; [exact Ea| |exact H]; lia);
      (destruct args as [|val args]; [done|]; destruct (flag_assign nm _ fs) as [fs1|] eqn:Ea; [|done]; cbn [length] in Hm;
       eapply Hstep; [exact Ea| |exact H]; lia).
  - unfold flag_assign in H. rewrite Eu in H. by destruct value.
Qed.
