(* ===== verification/Orderly.v ===== *)
(** Orderly calls: a calculus for what every handler and loop of the hub keeps while no
    transaction is open.  A call is orderly if it leaves no transaction open and has
    [delivered] what it logged: the change log grew by rows numbered without a gap, exactly
    these were published, in their order, and the tables' invariant holds if it held. *)

From S2P Require Import Prelude GoBase GoTime HubTypes HubStore Fault Auth.
Local Open Scope Z_scope.

(** A call made while no transaction is open. *)
Definition orderly `{HE : HubEnv} {A} (m : stM World herr A) : Prop :=
  ∀ w, w_tx w = None → w_tx (m w).2 = None ∧ delivered w (m w).2.

(** A call that neither opens nor closes a transaction, commits nothing and publishes nothing. *)
Definition still `{HE : HubEnv} {A} (m : stM World herr A) : Prop :=
  ∀ w, w_tx (m w).2 = w_tx w ∧ untouched w (m w).2.

Lemma delivered_refl `{HE : HubEnv} w : delivered w w.
Proof. by apply untouched_delivered. Qed.

Lemma delivered_trans `{HE : HubEnv} w1 w2 w3 : delivered w1 w2 → delivered w2 w3 → delivered w1 w3.
Proof.
  intros (r1 & L1 & B1 & K1) (r2 & L2 & B2 & K2). exists (r1 ++ r2).
  split; [by eapply log_grows_trans|]. split; [|auto]. by rewrite B2, B1, fmap_app, foldl_app.
Qed.

#[export] Instance delivered_preorder `{HE : HubEnv} : PreOrder delivered.
Proof. split; [exact delivered_refl|exact delivered_trans]. Qed.

(** A committed write that logs nothing. *)
Lemma effect_delivered `{HE : HubEnv} w w' : tx_effect (w_db w) (w_db w') [] → w_broker w' = w_broker w → delivered w w'.
Proof.
  intros [Hok (rows & Hg & Hr)] Hb. symmetry in Hr. apply fmap_nil_inv in Hr as ->. by exists [].
Qed.

Section orderly.
Context `{HE : HubEnv}.
Notation HM := (stM World herr).

(** ** Still calls *)

Lemma still_ret {A} (a : A) : still (mret a).
Proof. by intros w. Qed.
Lemma still_throw {A} e : still (st_throw (A := A) e).
Proof. by intros w. Qed.
Lemma still_bind {A B} (m : HM A) (k : A → HM B) : still m → (∀ a, still (k a)) → still (m ≫= k).
Proof.
  intros Hm Hk w. unfold mbind, stM_bind. destruct (Hm w) as [Ht Hu]. destruct (m w) as [[a|e] w1]; [|done].
  cbn in Ht, Hu. destruct (Hk a w1) as [Ht2 Hu2]. split; [by rewrite Ht2|by etransitivity].
Qed.
Lemma still_try {A} (m : HM A) : still m → still (st_try m).
Proof. intros Hm w. specialize (Hm w). unfold st_try. by destruct (m w). Qed.
Lemma still_foldl {A B} (body : A → B → HM A) a xs : (∀ a x, still (body a x)) → still (st_foldl body a xs).
Proof.
  intros Hb. revert a. induction xs as [|x xs IH]; intros a; cbn; [apply still_ret|].
  apply still_bind; [apply Hb|]. intros. apply IH.
Qed.
Lemma still_now : still nowUTC.
Proof. by intros w. Qed.
Lemma still_id p : still (newID p).
Proof. by intros w. Qed.
Lemma still_token p : still (randToken p).
Proof. by intros w. Qed.
Lemma still_query {A} (f : db → A) : still (db_query f).
Proof. intros w. split; [apply quiet_db_query|apply untouched_query]. Qed.
Lemma still_rows {A} (f : db → list A) : still (db_rows f).
Proof. intros w. apply still_query. Qed.
Lemma still_row {A} (f : db → option A) : still (db_row f).
Proof. intros w. split; [apply quiet_db_row|apply untouched_row]. Qed.
(** A read that may fail by itself. *)
Lemma still_read {A} (f : db → outcome herr (A * db)) :
  (∀ d a d', f d = Ok (a, d') → d' = d) → still (db_call f).
Proof.
  intros Hf w. unfold db_call. destruct (h_io _); [done|]. destruct (f (w_db w)) as [[a d']|e] eqn:E; [|done].
  by apply Hf in E as ->.
Qed.
Lemma still_heartbeat : still heartbeatSeconds.
Proof. apply still_bind; [apply still_try, still_row|intros; apply still_ret]. Qed.
Lemma still_interval : still reportInterval.
Proof. apply still_bind; [apply still_try, still_row|intros; apply still_ret]. Qed.
Lemma still_name id : still (sourceName id).
Proof. apply still_bind; [apply still_try, still_row|intros; apply still_ret]. Qed.
Lemma still_sources : still listSources.
Proof. apply still_query. Qed.
Lemma still_source id : still (loadSource id).
Proof. apply still_row. Qed.
Lemma still_source_key h : still (loadSourceByKeyHash h).
Proof. apply still_row. Qed.

(** ** Orderly calls *)

Lemma orderly_still {A} (m : HM A) : still m → orderly m.
Proof. intros Hm w Ht. destruct (Hm w) as [Ht2 Hu]. split; [by rewrite Ht2|by apply untouched_delivered]. Qed.

Lemma orderly_bind {A B} (m : HM A) (k : A → HM B) : orderly m → (∀ a, orderly (k a)) → orderly (m ≫= k).
Proof.
  intros Hm Hk w Hw. unfold mbind, stM_bind. destruct (Hm w Hw) as [Ht Hu]. destruct (m w) as [[a|e] w1]; [|done].
  cbn in Ht, Hu. destruct (Hk a w1 Ht) as [Ht2 Hu2]. split; [done|by etransitivity].
Qed.
Lemma orderly_try {A} (m : HM A) : orderly m → orderly (st_try m).
Proof. intros Hm w Hw. specialize (Hm w Hw). unfold st_try. by destruct (m w). Qed.
Lemma orderly_foldl {A B} (body : A → B → HM A) a xs : (∀ a x, orderly (body a x)) → orderly (st_foldl body a xs).
Proof.
  intros Hb. revert a. induction xs as [|x xs IH]; intros a; cbn; [apply orderly_still, still_ret|].
  apply orderly_bind; [apply Hb|]. intros. apply IH.
Qed.

(** A write of its own that logs nothing. *)
Lemma orderly_write {A} (f : db → outcome herr (A * db)) :
  (∀ d a d', f d = Ok (a, d') → tx_effect d d' []) → orderly (db_write f).
Proof.
  intros Hf w Hw. unfold db_write. rewrite Hw. unfold db_call. destruct (h_io _); [split; [done|by apply untouched_delivered]|].
  destruct (f (w_db w)) as [[a d']|e] eqn:E; cbn; [|split; [done|by apply untouched_delivered]]. split; [done|]. by apply effect_delivered; [eapply Hf|].
Qed.
Lemma orderly_exec f : harmless f → orderly (db_exec f).
Proof.
  intros Hf. apply (orderly_write (λ d, Ok ((), f d))). intros d a d' [= _ <-]. by apply harmless_effect.
Qed.

Lemma orderly_loadRules : orderly loadRules.
Proof.
  apply orderly_bind; [apply orderly_still, still_query|intros [doc|]]; [apply orderly_still, still_ret|].
  apply orderly_bind; [by apply orderly_exec|intros; apply orderly_still, still_ret].
Qed.
Lemma orderly_loadSettings : orderly loadSettings.
Proof.
  apply orderly_bind; [apply orderly_still, still_query|intros [doc|]]; [apply orderly_still, still_ret|].
  apply orderly_bind; [by apply orderly_exec|intros; apply orderly_still, still_ret].
Qed.

(** A transaction never stays open. *)
Lemma withTx_closed {A} (fn : HM A) w : w_tx w = None → w_tx (withTx fn w).2 = None.
Proof.
  intros Hw. unfold withTx. destruct (h_io _); [done|]. destruct (fn _) as [[a|e] w1]; [|done].
  destruct (h_io _); [done|]. by destruct (w_tx w1).
Qed.

(** A transaction that is followed by the publication of its changes, or by what is done
    without it when it failed. *)
Lemma orderly_commit {A B} (fn : HM A) chs (k : outcome herr A → HM B) :
  produces [] fn chs → sealed fn → (∀ e, orderly (k (Err e))) →
  (∀ a, ∃ (pre : HM ()) rest, (∀ w, (k (Ok a)) w = (pre ;; publish (chs a) ;; rest) w) ∧ still pre ∧ (∀ w, (pre w).1 = Ok ()) ∧ orderly rest) →
  orderly (r ← st_try (withTx fn); k r).
Proof.
  intros Hp Hs Herr Hok w Hw. pose proof (withTx_closed fn w Hw) as Hc.
  unfold mbind, stM_bind, st_try. destruct (withTx fn w) as [[a|e] w1] eqn:E; cbn in Hc.
  - destruct (Hok a) as (pre & rest & -> & Hpre & Hret & Hrest).
    destruct (commit_produces _ _ _ _ _ Hp Hs E) as (rows & Hg & Hch & Hinv & Hb).
    unfold mbind, stM_bind. destruct (Hpre w1) as [Ht2 [Hd2 Hb2]]. specialize (Hret w1).
    destruct (pre w1) as [r w2]. cbn in Ht2, Hd2, Hb2, Hret. subst r.
    change ((publish (chs a) w2)) with (Ok () : outcome herr (), (publish (chs a) w2).2). cbv beta iota.
    destruct (Hrest (publish (chs a) w2).2) as [Ht3 Hd3]; [cbn; congruence|]. split; [done|].
    etransitivity; [|exact Hd3]. exists rows. cbn. rewrite Hd2, Hb2, Hb, Hch. done.
  - destruct (Herr e w1 Hc) as [Ht2 Hd2]. split; [done|].
    eapply delivered_ext_l; [by eapply withTx_failed|done].
Qed.

(** The common case: nothing between the commit and the publication. *)
Lemma orderly_commit_now {A B} (fn : HM A) chs (k : outcome herr A → HM B) :
  produces [] fn chs → sealed fn → (∀ e, orderly (k (Err e))) →
  (∀ a, ∃ rest, k (Ok a) = (publish (chs a) ;; rest) ∧ orderly rest) →
  orderly (r ← st_try (withTx fn); k r).
Proof.
  intros Hp Hs Herr Hok. eapply orderly_commit; [done..|]. intros a. destruct (Hok a) as (rest & -> & Hr).
  by exists (mret ()), rest.
Qed.
End orderly.

Create HintDb orderlydb.
#[export] Hint Resolve still_ret still_throw still_now still_id still_token still_query still_rows still_row still_heartbeat
  still_interval still_name still_sources still_source still_source_key orderly_loadRules orderly_loadSettings : orderlydb.

Ltac still_steps := repeat match goal with
  | |- still (mbind _ _) => apply still_bind; [|intros ?]
  | |- still (st_foldl _ _ _) => apply still_foldl; intros ??
  | |- still (st_try _) => apply still_try
  | |- still (if ?b then _ else _) => destruct b
  | |- still (match ?x with _ => _ end) => destruct x
  | |- _ => progress (eauto with orderlydb)
  end.

(** Stops at a transaction, whose rule is [orderly_commit]. *)
Ltac orderly_steps := repeat match goal with
  | |- orderly (mbind _ ?m) =>
    lazymatch m with st_try (withTx _) => fail | _ => apply orderly_bind; [|intros ?] end
  | |- orderly (st_foldl _ _ _) => apply orderly_foldl; intros ??
  | |- orderly (st_try _) => apply orderly_try
  | |- orderly (if ?b then _ else _) => destruct b
  | |- orderly (match ?x with _ => _ end) => destruct x
  | |- orderly (mret _) => apply orderly_still, still_ret
  | |- _ => progress (eauto with orderlydb)
  | |- orderly _ => apply orderly_still; solve [still_steps]
  end.
