(* ===== verification/Install.v ===== *)
(** The instructions for installing an agent ([hub/util.go], [hub/admin.go]): which hub
    addresses may go into a command, how words are quoted for the shell, and the command. *)

From S2P Require Import Prelude GoBase Regex.
From Stdlib Require Import Ascii.
Local Open Scope Z_scope.

(** ** Addresses *)

Definition host_cls : regex := Cls [("A", "Z"); ("a", "z"); ("0", "9"); just "."; just "-"]%char.
Definition v6_cls : regex := Cls [("A", "F"); ("a", "f"); ("0", "9"); just ":"]%char.
Definition path_cls : regex :=
  Cls [("A", "Z"); ("a", "z"); ("0", "9"); just "."; just "_"; just "~"; just "%"; just "/"; just "-"]%char.
(* @src hub/util.go 119-119 !installerURLRE *)
Definition installerURLRE : regex :=
  Cat (Lit "https://")
    (Cat (Alt (Plus host_cls) (Cat (Lit "[") (Cat (Plus v6_cls) (Lit "]"))))
      (Cat (Opt (Cat (Lit ":") (between 1 4 digit_cls)))
           (Opt (Cat (Lit "/") (Star path_cls))))).

(** The fields of a [url.URL] the hub looks at. *)
Record URL := {
  u_Scheme : string;
  u_Host : string;
  u_Path : string;
  u_User : bool;
  u_RawQuery : string;
  u_Fragment : string }.

Section install.
(** [net/url.Parse]; [None] is its error. *)
Variable url_parse : string → option URL.

(* @src hub/util.go 121-136 normalizedHTTPSURL *)
Definition normalizedHTTPSURL (raw : string) : string * bool :=
  match url_parse raw with
  | None => ("", false)
  | Some u =>
    if negb (matches installerURLRE raw) || u_User u || negb (String.eqb (u_RawQuery u) "") ||
       negb (String.eqb (u_Fragment u) "") then ("", false)
    else
      let base := trim_right "/" raw in
      if contains "//" (u_Path u) then ("", false)
      else if existsb (λ seg, String.eqb seg "." || String.eqb seg "..") (split_on "/" (u_Path u)) then ("", false)
      else (base, true)
  end%string.

(** [shellQuote] *)
Definition squote : ascii := "'".
(* @src hub/util.go 138-138 shellQuote *)
Definition shellQuote (s : string) : string :=
  (String squote (replace_char squote "'\''" s) +:+ String squote "")%string.

Definition dquote : string := String (ascii_of_N 34) EmptyString.
Definition newline : string := String (ascii_of_N 10) EmptyString.

(** What [installBlock] returns. *)
Record install_block := {
  ib_ASSIST_HUB_URL : string;
  ib_ASSIST_SOURCE_KEY : string;
  ib_command : string;
  ib_note : string }.

(** The format of the command, split at its double quotes, around the script's address and the
    installer's arguments. *)
Definition install_command (q args : string) : string :=
  String.concat dquote
    ["(tmpdir=$(mktemp -d) && trap 'rm -rf "; "$tmpdir"; "' EXIT && curl -q --fail --silent --show-error --max-redirs 0 --proto '=https' --proto-redir '=https' --tlsv1.2 --connect-timeout 10 --max-time 120 " +:+ q +:+ " -o ";
     "$tmpdir/install.sh"; " && if [ "; "$(id -u)"; " -eq 0 ]; then bash "; "$tmpdir/install.sh"; " --hub " +:+ args +:+ "; else sudo bash ";
     "$tmpdir/install.sh"; " --hub " +:+ args +:+ "; fi)"]%string.

(* @src hub/admin.go 28-59 installBlock *)
Definition installBlock (hubURL accessKey kind : string) (reconfigure : bool) : install_block :=
  let '(base, secure) := normalizedHTTPSURL hubURL in
  let '(command, note) :=
    if decide (kind = "device") then
      if secure then
        let q := shellQuote (base +:+ "/api/v1/agent/install.sh") in
        let flag := if reconfigure then " --reconfigure" else "" in
        (install_command q (shellQuote base +:+ flag),
         "## 安装说明" +:+ newline +:+ newline +:+ "在 Linux + systemd 服务器执行上方命令，安装器会安全提示输入本来源密钥并等待首次指标上报。重复执行会保留已有队列和配置。旧版手工服务须先迁移，再轮换密钥；轮换后使用新命令重新输入同一来源的密钥。" +:+ newline)
      else
        ("", "## 安装说明" +:+ newline +:+ newline +:+ "当前中枢地址不适合安全安装（须为 HTTPS，不能含凭证、查询或特殊字符）。请修正 ASSIST_BASE_URL 后重新获取安装说明。" +:+ newline)
    else ("", "Feedback 来源不安装 assistant-agent；保留此 install 字段以兼容旧客户端。") in
  {| ib_ASSIST_HUB_URL := hubURL; ib_ASSIST_SOURCE_KEY := accessKey; ib_command := command; ib_note := note |}%string.
End install.

(** What [mgmtInstallBlock] returns. *)
Record mgmt_block := { mb_FEEDBACK_ASSIST_MGMT_KEY : string; mb_note : string }.

(* @src hub/admin.go 301-312 mgmtInstallBlock *)
Definition mgmtInstallBlock (mgmtKey : string) : mgmt_block :=
  {| mb_FEEDBACK_ASSIST_MGMT_KEY := mgmtKey;
     mb_note := "## 管理凭证配置" +:+ newline +:+ newline +:+
       "1. 在 Feedback 服务的环境变量中设置 `FEEDBACK_ASSIST_MGMT_KEY` 为上方值（仅此一次明文展示，请妥善保存）。" +:+ newline +:+
       "2. 该凭证必须与 `FEEDBACK_ASSIST_SOURCE_KEY` / `FEEDBACK_ASSIST_READ_KEY` 不同，否则 Feedback 端拒绝挂载管理面。" +:+ newline +:+
       "3. 重启 Feedback 服务后管理路由生效；旧管理凭证即刻失效。" +:+ newline +:+
       "4. 未配置该变量时反馈列表与管理操作不可用（只读详情与附件不受影响）。" |}%string.

(** ** The shell's reading of a word *)

(** A blank or an operator ends a word. *)
Definition ends_word (c : ascii) : bool :=
  bool_decide (c ∈ [" "; ";"; ")"; "("; "&"; "|"; "<"; ">"; "009"; "010"]%char).

(** The value of the word at the head of a command and what follows it, by the rules for
    single quotes and backslashes; [None] for a quote that is not closed and for characters
    that would be expanded. *)
Fixpoint shell_word (quoted : bool) (s : string) : option (string * string) :=
  match s with
  | EmptyString => if quoted then None else Some (EmptyString, EmptyString)
  | String c s' =>
    if quoted then
      if decide (c = "'") then shell_word false s'
      else (λ p, (String c p.1, p.2)) <$> shell_word true s'
    else if decide (c = "'") then shell_word true s'
    else if decide (c = "\") then
      match s' with
      | String c' s'' => (λ p, (String c' p.1, p.2)) <$> shell_word false s''
      | EmptyString => None
      end
    else if ends_word c then Some (EmptyString, s)
    else if bool_decide (c ∈ ["$"; "`"; "*"; "?"; "["; "~"; "#"; "034"]) then None
    else (λ p, (String c p.1, p.2)) <$> shell_word false s'
  end%char.

Lemma shell_word_end rest :
  match rest with EmptyString => true | String c _ => ends_word c end = true →
  shell_word false rest = Some (EmptyString, rest).
Proof.
  destruct rest as [|c rest]; [done|]. intros Hc. cbn [shell_word].
  unfold ends_word in Hc. apply bool_decide_eq_true in Hc. 
  repeat (apply elem_of_cons in Hc as [->|Hc]; [reflexivity|]). by apply elem_of_nil in Hc.
Qed.

Lemma shell_word_body s t :
  shell_word true (replace_char squote "'\''" s +:+ t) = (λ p, (s +:+ p.1, p.2))%string <$> shell_word true t.
Proof.
  induction s as [|c s IH].
  - change (shell_word true t = (λ p, (p.1, p.2)) <$> shell_word true t). by destruct (shell_word true t) as [[]|].
  - cbn [replace_char]. destruct (decide (c = squote)) as [->|Hne].
    + change (shell_word true (("'\''" +:+ replace_char squote "'\''" s) +:+ t))
        with ((λ p, (String "'" p.1, p.2)) <$> shell_word true (replace_char squote "'\''" s +:+ t)%string).
      rewrite IH. by destruct (shell_word true t) as [[]|].
    + change (shell_word true (String c (replace_char squote "'\''" s +:+ t)) =
              (λ p, (String c s +:+ p.1, p.2))%string <$> shell_word true t).
      cbn [shell_word]. rewrite decide_False by done. rewrite IH. by destruct (shell_word true t) as [[]|].
Qed.

(** ** Properties *)

(** Whatever a string holds, the shell reads its quoted form back as one word, the string
    itself: nothing in it ends the word, is expanded, or swallows what follows. *)
Theorem shellQuote_word s rest (Hrest : match rest with EmptyString => true | String c _ => ends_word c end = true) :
  shell_word false (shellQuote s +:+ rest)%string = Some (s, rest).
Proof.
  unfold shellQuote.
  change (shell_word true ((replace_char squote "'\''" s +:+ String squote "") +:+ rest)%string = Some (s, rest)).
  assert (∀ a b c : string, (a +:+ b) +:+ c = a +:+ (b +:+ c))%string as Happ.
  { intros a b c. induction a as [|x a IH]; [done|]. exact (f_equal (String x) IH). }
  rewrite Happ, shell_word_body. change (shell_word true (String squote "" +:+ rest)%string) with (shell_word false rest).
  rewrite shell_word_end by done. cbn. f_equal. f_equal. clear. induction s as [|x s IH]; [done|]. exact (f_equal (String x) IH).
Qed.

Lemma shellQuote_word_witness :
  let s := "it's; rm -rf $HOME"%string in
  shellQuote s = "'it'\''s; rm -rf $HOME'"%string ∧ shell_word false (shellQuote s +:+ " -o x")%string = Some (s, " -o x"%string).
Proof. intros s. split; [vm_compute; reflexivity|]. by apply (shellQuote_word s " -o x"). Defined.

(** ** Accepted addresses *)

Definition url_char (c : ascii) : bool :=
  in_cls [("A", "Z"); ("a", "z"); ("0", "9"); just "."; just "-"; just "_"; just "~"; just "%"; just "/"; just ":"; just "["; just "]"]%char c.

Lemma trim_right_app c a b : trim_right c b ≠ EmptyString → trim_right c (a +:+ b)%string = (a +:+ trim_right c b)%string.
Proof.
  intros Hb. induction a as [|x a IH]; [done|].
  change (String x a +:+ b)%string with (String x (a +:+ b)). cbn [trim_right]. rewrite IH.
  rewrite decide_False; [done|]. intros [H _]. by destruct a.
Qed.

Lemma trim_right_head c x s : x ≠ c → trim_right c (String x s) = String x (trim_right c s).
Proof. intros Hx. cbn [trim_right]. rewrite decide_False; [done|]. by intros [_ ?]. Qed.

Lemma trim_right_all p c s : str_all p s = true → str_all p (trim_right c s) = true.
Proof.
  induction s as [|x s IH]; [done|]. cbn. intros [Hx Hs]%andb_true_iff. case_decide; [done|]. cbn. by rewrite Hx, IH.
Qed.

(** A trimmed string does not end in what was trimmed. *)
Lemma trim_right_last c a s : trim_right c s ≠ (a +:+ String c "")%string.
Proof.
  revert a. induction s as [|x s IH]; intros a; [by destruct a|]. cbn [trim_right]. case_decide as Hd; [by destruct a|].
  destruct a as [|y a].
  - intros [= -> Hr]. by apply Hd.
  - intros [= _ Hr]. by apply (IH a).
Qed.

Lemma in_lit s t : in_re (Lit s) t → t = s.
Proof.
  revert t. induction s as [|c s IH]; intros t; [by intros ->%in_eps_iff|]. cbn [Lit]. rewrite in_cat_iff.
  intros (s1 & s2 & -> & H1 & ->%IH). inversion H1 as [|? x Hx| | | | |]; subst. cbn in Hx.
  rewrite orb_false_r, andb_true_iff, !N.leb_le in Hx.
  assert (x = c) as ->; [|done]. rewrite <-(ascii_N_embedding x), <-(ascii_N_embedding c). f_equal. lia.
Qed.

Lemma replace_char_none c by_ s : str_all (λ x, negb (bool_decide (x = c))) s = true → replace_char c by_ s = s.
Proof.
  induction s as [|x s IH]; [done|]. cbn. intros [Hx Hs]%andb_true_iff. rewrite IH by done.
  apply negb_true_iff, bool_decide_eq_false in Hx. by rewrite decide_False.
Qed.

Lemma installer_chars raw : matches installerURLRE raw = true → str_all url_char raw = true.
Proof.
  rewrite matches_iff. apply re_all_sound. cbn [re_all installerURLRE Lit Plus Opt between upto host_cls v6_cls path_cls digit_cls].
  repeat match goal with |- _ ∧ _ => split | |- True => exact I end; apply cls_within; vm_compute; reflexivity.
Qed.

Lemma installer_prefix raw :
  matches installerURLRE raw = true → ∃ c s, raw = ("https://" +:+ String c s)%string ∧ c ≠ "/"%char.
Proof.
  rewrite matches_iff. unfold installerURLRE. intros (s1 & s2 & -> & ->%in_lit & H)%in_cat_iff.
  apply in_cat_iff in H as (h & t & -> & Hh & _). assert (∃ c s, h = String c s ∧ c ≠ "/"%char) as (c & s & -> & Hc).
  { apply in_alt_iff in Hh as [(h1 & h2 & -> & Hh1 & _)%in_cat_iff|(h1 & h2 & -> & ->%in_lit & _)%in_cat_iff].
    - inversion Hh1 as [|? c Hc| | | | |]; subst. exists c, h2. split; [done|]. intros ->. by vm_compute in Hc.
    - by exists "["%char, h2. }
  by exists c, (s +:+ t)%string.
Qed.

(** C35: an address goes into the install command only if it is one the hub may be reached at
    safely: it starts with https://, has no character the shell treats specially (so that its
    quoted form is itself between quotes), does not end in a slash, and its path has neither
    empty nor dot segments.  Otherwise the command is empty. *)
Theorem install_command_safe (url_parse : string → option URL) hubURL key reconfigure :
  let '(base, secure) := normalizedHTTPSURL url_parse hubURL in
  let flag := (if reconfigure : bool then " --reconfigure" else "")%string in
  ib_command (installBlock url_parse hubURL key "device" reconfigure) =
    (if secure : bool then
       install_command ("'" +:+ base +:+ "/api/v1/agent/install.sh'") ("'" +:+ base +:+ "'" +:+ flag) else "")%string ∧
  (secure = true →
     (∃ rest, base = ("https://" +:+ rest)%string) ∧ str_all url_char base = true ∧
     (∀ a, base ≠ (a +:+ "/")%string) ∧
     ∃ u, url_parse hubURL = Some u ∧ u_User u = false ∧ u_RawQuery u = ""%string ∧ u_Fragment u = ""%string ∧
       contains "//" (u_Path u) = false ∧ ∀ seg, seg ∈ split_on "/" (u_Path u) → seg ≠ "."%string ∧ seg ≠ ".."%string).
Proof.
  destruct (normalizedHTTPSURL url_parse hubURL) as [base secure] eqn:E. cbn zeta.
  assert (secure = true → matches installerURLRE hubURL = true ∧ base = trim_right "/" hubURL ∧
     ∃ u, url_parse hubURL = Some u ∧ u_User u = false ∧ u_RawQuery u = ""%string ∧ u_Fragment u = ""%string ∧
       contains "//" (u_Path u) = false ∧ ∀ seg, seg ∈ split_on "/" (u_Path u) → seg ≠ "."%string ∧ seg ≠ ".."%string) as Hsec.
  { intros ->. unfold normalizedHTTPSURL in E. destruct (url_parse hubURL) as [u|]; [|done].
    destruct (matches _ _) eqn:Em; [|done]. destruct (u_User u) eqn:Eu; [done|]. cbn in E.
    destruct (String.eqb (u_RawQuery u) "") eqn:Eq; [|done]. destruct (String.eqb (u_Fragment u) "") eqn:Ef; [|done]. cbn in E.
    destruct (contains _ _) eqn:Ec; [done|]. destruct (existsb _ _) eqn:Ex; [done|]. injection E as <-. split; [done|]. split; [done|].
    exists u. apply String.eqb_eq in Eq, Ef. split_and!; try done. intros seg Hseg.
    assert (String.eqb seg "." || String.eqb seg ".." = false) as Hs.
    { destruct (_ || _) eqn:Eo; [|done]. rewrite <-Ex. symmetry. apply existsb_exists. exists seg. split; [|done].
      by apply list_elem_of_In. }
    apply orb_false_iff in Hs as [H1%String.eqb_neq H2%String.eqb_neq]. done. }
  assert (secure = true → str_all url_char base = true) as Hchars.
  { intros (Hm & -> & _)%Hsec. by apply trim_right_all, installer_chars. }
  split.
  - unfold installBlock. rewrite E. rewrite decide_True by done. destruct secure; [|done]. cbn [ib_command].
    assert (∀ s, str_all url_char s = true → shellQuote s = (String squote s +:+ String squote "")%string) as Hq.
    { intros s Hs. unfold shellQuote. rewrite replace_char_none; [done|]. eapply str_all_impl; [|exact Hs].
      apply cls_within. vm_compute. reflexivity. }
    rewrite !Hq; [|by apply Hchars|rewrite str_all_app, Hchars by done; reflexivity].
    assert (∀ a b c : string, (a +:+ b) +:+ c = a +:+ (b +:+ c))%string as Happ.
    { intros a b c. induction a as [|x a IH]; [done|]. exact (f_equal (String x) IH). }
    f_equal; [|].
    + change (String squote (base +:+ "/api/v1/agent/install.sh") +:+ String squote "")%string
        with ("'" +:+ ((base +:+ "/api/v1/agent/install.sh") +:+ "'"))%string. by rewrite Happ.
    + change (String squote base +:+ String squote "")%string with ("'" +:+ (base +:+ "'"))%string. by rewrite !Happ.
  - intros Hs. destruct (Hsec Hs) as (Hm & Hb & Hu). split_and!; [|by apply Hchars| |exact Hu].
    + destruct (installer_prefix _ Hm) as (c & s & -> & Hc). subst base.
      rewrite (trim_right_app _ "https://"); [by eexists|]. by rewrite trim_right_head.
    + intros a ->. by apply (trim_right_last "/" a hubURL).
Qed.

Lemma install_command_safe_witness :
  let parse (s : string) := Some {| u_Scheme := "https"; u_Host := "hub.example.org"; u_Path := "/assist/"; u_User := false;
                         u_RawQuery := ""; u_Fragment := "" |}%string in
  normalizedHTTPSURL parse "https://hub.example.org/assist/" = ("https://hub.example.org/assist"%string, true) ∧
  ∀ a, "https://hub.example.org/assist"%string ≠ (a +:+ "/")%string.
Proof.
  intros parse. pose proof (install_command_safe parse "https://hub.example.org/assist/" "ask_1" false) as H.
  assert (normalizedHTTPSURL parse "https://hub.example.org/assist/" = ("https://hub.example.org/assist"%string, true)) as E
    by (vm_compute; reflexivity).
  rewrite E in *. split; [reflexivity|]. destruct H as [_ H]. by destruct H as (_ & _ & H & _).
Defined.
