(* ===== verification/Config.v ===== *)
(** The agent's configuration ([agent/internal/config/config.go]): flags, environment variables,
    which come before them, and what of it is refused.

    [flag], [strconv] and [time.ParseDuration] are in [Flags]; [net/url.Parse] is a parameter. *)

From S2P Require Import Prelude GoBase Text Regex Flags Install.
From Stdlib Require Import Ascii SpecFloat.
Local Open Scope Z_scope.

(* @src agent/internal/config/config.go 14-21 Mode *)
Inductive Mode := ModeRun | ModeVersion | ModeCheck.

(* @src agent/internal/config/config.go 23-36 Config *)
Record Config := {
  cfg_HubURL : string;
  cfg_SourceKey : string;
  cfg_Interval : Z;
  cfg_QueueDir : string;
  cfg_QueueMaxBatches : Z;
  cfg_QueueMaxEvents : Z;
  cfg_Hostname : string;
  cfg_DockerHost : string;
  cfg_Smart : string;
  cfg_Gzip : bool;
  cfg_LogLevel : string }.
Definition zero_Config : Config :=
  {| cfg_HubURL := ""; cfg_SourceKey := ""; cfg_Interval := 0; cfg_QueueDir := ""; cfg_QueueMaxBatches := 0;
     cfg_QueueMaxEvents := 0; cfg_Hostname := ""; cfg_DockerHost := ""; cfg_Smart := ""; cfg_Gzip := false; cfg_LogLevel := "" |}.

(* @src agent/internal/config/config.go 38-39 DefaultQueueDir *)
Definition DefaultQueueDir : string := "/var/lib/assistant-agent".
(* @src agent/internal/config/config.go 41-42 FallbackQueueDir *)
Definition FallbackQueueDir : string := "./data".

(* @src agent/internal/config/config.go 45-45 sourceKeyRe *)
Definition sourceKeyRe : regex := Cat (Lit "ask_") (between 48 0 (Cls [("0", "9"); ("a", "f")]%char)).

(* @src agent/internal/config/config.go 46-50 Result *)
Record ParseResult := { res_Cfg : Config; res_Mode : Mode }.

(** Which setting was refused. *)
Inductive config_err :=
| FlagErr (e : flag_err)
| BadInterval (v : string) | BadQueueMaxBatches (v : string) | BadQueueMaxEvents (v : string) | BadGzip (v : string)
| BadSmart (v : string) | BadLogLevel (v : string) | NoHubURL | BadHubURL (v : string) | BadSourceKey.

(* @src agent/internal/config/config.go 159-165 envOr *)
Definition envOr (env : string → string) (key fallback : string) : string :=
  if decide (env key ≠ EmptyString) then env key else fallback.

(* @src agent/internal/config/config.go 167-176 parseDurationLoose *)
Definition parseDurationLoose (s : string) : option Z :=
  match parseDuration s with
  | Some d => Some d
  | None => match parseFloat s with
            | Some n => Some (f64_to_int (f64_mul n (f64_of_Z Second)))
            | None => None
            end
  end.

(* @src agent/internal/config/config.go 178-188 parseBoolLoose *)
Definition parseBoolLoose (s : string) : option bool :=
  let v := to_lower (trim_space s) in
  if decide (v ∈ ["1"; "true"; "on"; "yes"]%string) then Some true
  else if decide (v ∈ ["0"; "false"; "off"; "no"; ""]%string) then Some false
  else None.

(* @src agent/internal/config/config.go 59-73 !Parse *)
Definition flags : flag_set :=
  [("hub-url", FStr ""); ("source-key", FStr ""); ("interval", FStr "30s"); ("queue-dir", FStr DefaultQueueDir);
   ("queue-max-batches", FInt 500); ("queue-max-events", FInt 1000); ("hostname", FStr "");
   ("docker-host", FStr "unix:///var/run/docker.sock"); ("smart", FStr "auto"); ("gzip", FBool false); ("log-level", FStr "info");
   ("version", FBool false); ("check", FBool false)]%string.

(** What a flag holds, as [Parse] turns it into text: [strconv.Itoa], [strconv.FormatBool]. *)
Definition format_flag (v : flag_value) : string :=
  match v with FStr s => s | FInt z => fmt_d z | FBool b => if b then "true" else "false" end.
Definition flag_text (fs : flag_set) (name : string) : string := format_flag (default (FStr "") (flag_get fs name)).
Definition flag_on (fs : flag_set) (name : string) : bool := match flag_get fs name with Some (FBool b) => b | _ => false end.

Section parse.
Variable url_parse : string → option URL.

(* @src agent/internal/config/config.go 100-134 !Parse *)
(** The settings that every mode but [--version] checks. *)
Definition read_settings (v : string → string → string) : outcome config_err Config :=
  let intervalV := v "ASSIST_INTERVAL" "interval" in
  let batchesV := v "ASSIST_QUEUE_MAX_BATCHES" "queue-max-batches" in
  let eventsV := v "ASSIST_QUEUE_MAX_EVENTS" "queue-max-events" in
  let gzipV := v "ASSIST_GZIP" "gzip" in
  let smart := to_lower (v "ASSIST_SMART" "smart") in
  let logLevel := to_lower (v "ASSIST_LOG_LEVEL" "log-level") in
  match parseDurationLoose intervalV with
  | None => Err (BadInterval intervalV)
  | Some d =>
    match atoi batchesV with
    | None => Err (BadQueueMaxBatches batchesV)
    | Some batches => if decide (batches < 1) then Err (BadQueueMaxBatches batchesV) else
    match atoi eventsV with
    | None => Err (BadQueueMaxEvents eventsV)
    | Some events => if decide (events < 1) then Err (BadQueueMaxEvents eventsV) else
    match parseBoolLoose gzipV with
    | None => Err (BadGzip gzipV)
    | Some gzip =>
      if decide (smart ∉ ["auto"; "on"; "off"]) then Err (BadSmart (v "ASSIST_SMART" "smart"))
      else if decide (logLevel ∉ ["debug"; "info"; "warn"; "error"]) then Err (BadLogLevel (v "ASSIST_LOG_LEVEL" "log-level"))
      else Ok {| cfg_HubURL := trim_right "/" (v "ASSIST_HUB_URL" "hub-url"); cfg_SourceKey := v "ASSIST_SOURCE_KEY" "source-key";
                 cfg_Interval := d; cfg_QueueDir := v "ASSIST_QUEUE_DIR" "queue-dir"; cfg_QueueMaxBatches := batches;
                 cfg_QueueMaxEvents := events; cfg_Hostname := v "ASSIST_HOSTNAME" "hostname";
                 cfg_DockerHost := v "ASSIST_DOCKER_HOST" "docker-host"; cfg_Smart := smart; cfg_Gzip := gzip; cfg_LogLevel := logLevel |}
    end end end
  end%string.

(* @src agent/internal/config/config.go 142-151 !Parse *)
(** Where to report, which only [--check] does without. *)
Definition check_hub (hubURLV : string) (cfg : Config) : outcome config_err () :=
  if decide (cfg_HubURL cfg = EmptyString) then Err NoHubURL
  else match url_parse (cfg_HubURL cfg) with
  | None => Err (BadHubURL hubURLV)
  | Some u =>
    if decide ((u_Scheme u ≠ "http" ∧ u_Scheme u ≠ "https") ∨ u_Host u = "")%string then Err (BadHubURL hubURLV)
    else if negb (matches sourceKeyRe (cfg_SourceKey cfg)) then Err BadSourceKey
    else Ok ()
  end.

(* @src agent/internal/config/config.go 54-158 Parse *)
Definition Parse (args : list string) (env : string → string) : outcome config_err ParseResult :=
  match flag_parse flags args with
  | Err e => Err (FlagErr e)
  | Ok fs =>
    let v key name := envOr env key (flag_text fs name) in
    if flag_on fs "version" then Ok {| res_Cfg := zero_Config; res_Mode := ModeVersion |}
    else match read_settings v with
    | Err e => Err e
    | Ok cfg =>
      if flag_on fs "check" then Ok {| res_Cfg := cfg; res_Mode := ModeCheck |}
      else match check_hub (v "ASSIST_HUB_URL" "hub-url")%string cfg with
           | Err e => Err e
           | Ok _ => Ok {| res_Cfg := cfg; res_Mode := ModeRun |}
           end
    end
  end.
End parse.

(** ** What is accepted *)

(** A setting as it was given: by a variable, else by the last flag of its name, else [def]. *)
Fixpoint last_value (l : list (string * string)) (name : string) : option string :=
  match l with
  | [] => None
  | p :: l' => match last_value l' name with Some s => Some s | None => if decide (p.1 = name) then Some p.2 else None end
  end.
Definition given (env : string → string) (l : list (string * string)) (key name def : string) : string :=
  if decide (env key ≠ EmptyString) then env key else default def (last_value l name).

(** A number: a variable is decimal, a flag may also be written in another base. *)
Definition given_number (env : string → string) (l : list (string * string)) (key name : string) (def : Z) : option Z :=
  if decide (env key ≠ EmptyString) then atoi (env key)
  else match last_value l name with Some s => parseInt0 s | None => Some def end.

(** A switch: a variable has its own spellings. *)
Definition given_switch (env : string → string) (l : list (string * string)) (key name : string) (def : bool) : option bool :=
  if decide (env key ≠ EmptyString) then parseBoolLoose (env key)
  else match last_value l name with Some s => parseBool s | None => Some def end.

(** Values within their ranges. *)
Record config_ok (c : Config) : Prop := {
  co_batches : 1 <= cfg_QueueMaxBatches c <= int64_max;
  co_events : 1 <= cfg_QueueMaxEvents c <= int64_max;
  co_interval : int64_min <= cfg_Interval c <= int64_max;
  co_smart : cfg_Smart c ∈ ["auto"; "on"; "off"]%string;
  co_level : cfg_LogLevel c ∈ ["debug"; "info"; "warn"; "error"]%string }.

(** A hub to report to: an http or https address without a slash at its end, and a key. *)
Definition hub_ok (url_parse : string → option URL) (c : Config) : Prop :=
  (∃ u, url_parse (cfg_HubURL c) = Some u ∧ u_Scheme u ∈ ["http"; "https"]%string ∧ u_Host u ≠ EmptyString) ∧
  cfg_HubURL c ≠ EmptyString ∧ (∀ a, cfg_HubURL c ≠ (a +:+ "/")%string) ∧ in_re sourceKeyRe (cfg_SourceKey c).

(** ** Lemmas *)

Lemma f64_to_int_range x : int64_min <= f64_to_int x <= int64_max.
Proof.
  unfold f64_to_int. destruct x; try (unfold int64_min, int64_max; lia). cbn zeta. case_decide as H; [exact H|].
  unfold int64_min, int64_max; lia.
Qed.

Lemma parseDuration_range s d : parseDuration s = Some d → int64_min <= d <= int64_max.
Proof.
  unfold parseDuration. destruct (take_sign s) as [neg s1]. case_decide; [intros [= <-]; unfold int64_min, int64_max; lia|].
  case_decide; [done|]. assert (∀ n d0 t d1, 0 <= d0 → duration_parts n d0 t = Some d1 → 0 <= d1) as Hpos.
  { clear. induction n as [|n IH]; intros d0 t d1 H0; (destruct t; cbn [duration_parts]; [by intros [= <-]|]); [done|].
    destruct (duration_part _) as [[v s']|]; [|done]. cbn zeta. case_decide; [done|]. apply IH. apply Z.mod_pos_bound. lia. }
  destruct (duration_parts _ _ _) as [d1|] eqn:E; [|done]. apply Hpos in E; [|lia].
  destruct neg; [intros [= <-]; apply wrap64_range|]. case_decide; [done|]. intros [= <-]. unfold int64_min, int64_max in *; lia.
Qed.

Lemma parseDurationLoose_range s d : parseDurationLoose s = Some d → int64_min <= d <= int64_max.
Proof.
  unfold parseDurationLoose. destruct (parseDuration s) eqn:E; [intros [= <-]; by eapply parseDuration_range|].
  destruct (parseFloat s); [|done]. intros [= <-]. apply f64_to_int_range.
Qed.

Lemma atoi_range s z : atoi s = Some z → int64_min <= z <= int64_max.
Proof.
  unfold atoi. destruct (match s with EmptyString => _ | _ => _ end) as [neg ds]. destruct (_ && _); [|done]. cbn zeta.
  case_decide as H; [|done]. by intros [= <-].
Qed.

(** After a command line of settings every flag holds what was given to it last. *)
Lemma settings_assigned l : ∀ fs fs' n v,
  foldl (λ r p, match r with Ok fs => flag_assign p.1 p.2 fs | Err e => Err e end) (Ok fs) l = Ok fs' →
  flag_get fs n = Some v →
  flag_get fs' n = match last_value l n with Some s => set_value v s | None => Some v end.
Proof.
  assert (∀ l (e : flag_err) fs', foldl (λ (r : outcome flag_err flag_set) p, match r with Ok fs => flag_assign p.1 p.2 fs | Err e => Err e end)
    (Err e) l ≠ Ok fs') as Herr by (induction l0; cbn; [done|auto]).
  induction l as [|[m s] l IH]; intros fs fs' n v; cbn [foldl fst snd last_value]; [intros [= <-]; done|].
  intros H Hn. destruct (flag_assign m s fs) as [fs1|e] eqn:Ea; [|by apply Herr in H].
  unfold flag_assign in Ea. destruct (flag_get fs m) as [w|] eqn:Em; [|done]. destruct (set_value w s) as [w'|] eqn:Es; [|done].
  injection Ea as <-. assert (flag_get (flag_put m w' fs) n = if decide (m = n) then Some w' else Some v) as Hn1.
  { rewrite flag_get_put, Em. by case_decide. }
  case_decide as Hmn; [subst n|].
  - rewrite Em in Hn. injection Hn as ->. rewrite (IH _ _ _ _ H Hn1). destruct (last_value l m); [|done].
    apply set_value_type in Es. by destruct v, w'.
  - rewrite (IH _ _ _ _ H Hn1). by destruct (last_value l n).
Qed.

Lemma settings_parsed l fs : Forall (λ p, flag_name p.1 = true) l → flag_parse flags (write_setting <$> l) = Ok fs →
  ∀ n v, flag_get flags n = Some v → flag_get fs n = match last_value l n with Some s => set_value v s | None => Some v end.
Proof. intros Hl H n v. rewrite parse_settings in H by done. by apply settings_assigned. Qed.

Lemma settings_string l fs n d : Forall (λ p, flag_name p.1 = true) l → flag_parse flags (write_setting <$> l) = Ok fs →
  flag_get flags n = Some (FStr d) → flag_text fs n = default d (last_value l n).
Proof. intros Hl H Hn. unfold flag_text. rewrite (settings_parsed _ _ Hl H _ _ Hn). by destruct (last_value l n). Qed.

Lemma settings_number env l fs key n d : Forall (λ p, flag_name p.1 = true) l → flag_parse flags (write_setting <$> l) = Ok fs →
  flag_get flags n = Some (FInt d) → int64_min <= d <= int64_max →
  atoi (envOr env key (flag_text fs n)) = given_number env l key n d.
Proof.
  intros Hl H Hn Hd. unfold given_number, envOr. case_decide; [done|]. unfold flag_text.
  pose proof (settings_parsed _ _ Hl H _ _ Hn) as E. cbn [set_value] in E. destruct (last_value l n) as [s|].
  - assert (∃ w, flag_get fs n = Some w) as (w & Hw).
    { destruct (flag_parse_type _ _ _ _ _ H Hn) as [Hw|(w & Hw & _)]; eauto. }
    rewrite Hw in E |- *. destruct (parseInt0 s) as [z|] eqn:Ez; [|done]. injection E as ->.
    apply atoi_fmt_d. by eapply parseInt0_range.
  - rewrite E. by apply atoi_fmt_d.
Qed.

Lemma settings_switch env l fs key n d : Forall (λ p, flag_name p.1 = true) l → flag_parse flags (write_setting <$> l) = Ok fs →
  flag_get flags n = Some (FBool d) → parseBoolLoose (envOr env key (flag_text fs n)) = given_switch env l key n d.
Proof.
  intros Hl H Hn. unfold given_switch, envOr. case_decide; [done|]. unfold flag_text.
  assert (∀ b : bool, parseBoolLoose (format_flag (FBool b)) = Some b) as Hb by (intros []; vm_compute; reflexivity).
  pose proof (settings_parsed _ _ Hl H _ _ Hn) as E. cbn [set_value] in E. destruct (last_value l n) as [s|].
  - assert (∃ w, flag_get fs n = Some w) as (w & Hw).
    { destruct (flag_parse_type _ _ _ _ _ H Hn) as [Hw|(w & Hw & _)]; eauto. }
    rewrite Hw in E |- *. destruct (parseBool s) as [b|]; [|done]. injection E as ->. apply Hb.
  - rewrite E. apply Hb.
Qed.

Lemma read_settings_ok v c : read_settings v = Ok c →
  config_ok c ∧ parseDurationLoose (v "ASSIST_INTERVAL" "interval") = Some (cfg_Interval c) ∧
  atoi (v "ASSIST_QUEUE_MAX_BATCHES" "queue-max-batches") = Some (cfg_QueueMaxBatches c) ∧
  atoi (v "ASSIST_QUEUE_MAX_EVENTS" "queue-max-events") = Some (cfg_QueueMaxEvents c) ∧
  parseBoolLoose (v "ASSIST_GZIP" "gzip") = Some (cfg_Gzip c) ∧
  cfg_HubURL c = trim_right "/" (v "ASSIST_HUB_URL" "hub-url") ∧ cfg_SourceKey c = v "ASSIST_SOURCE_KEY" "source-key" ∧
  cfg_QueueDir c = v "ASSIST_QUEUE_DIR" "queue-dir" ∧ cfg_Hostname c = v "ASSIST_HOSTNAME" "hostname" ∧
  cfg_DockerHost c = v "ASSIST_DOCKER_HOST" "docker-host" ∧ cfg_Smart c = to_lower (v "ASSIST_SMART" "smart") ∧
  cfg_LogLevel c = to_lower (v "ASSIST_LOG_LEVEL" "log-level").
Proof.
  unfold read_settings. cbn zeta. destruct (parseDurationLoose _) as [d|] eqn:Ed; [|done].
  destruct (atoi (v "ASSIST_QUEUE_MAX_BATCHES"%string _)) as [b|] eqn:Eb; [|done]. case_decide as Hb; [done|].
  destruct (atoi (v "ASSIST_QUEUE_MAX_EVENTS"%string _)) as [n|] eqn:En; [|done]. case_decide as Hn; [done|].
  destruct (parseBoolLoose _) as [g|] eqn:Eg; [|done]. case_decide as Hs; [done|]. case_decide as Hl; [done|].
  intros [= <-]. pose proof (parseDurationLoose_range _ _ Ed). pose proof (atoi_range _ _ Eb). pose proof (atoi_range _ _ En).
  split; [|done]. split; cbn [cfg_QueueMaxBatches cfg_QueueMaxEvents cfg_Interval cfg_Smart cfg_LogLevel]; [lia..|done| |];
    assumption.
Qed.

Lemma check_hub_ok url_parse raw c v : check_hub url_parse raw c = Ok () → cfg_HubURL c = trim_right "/" v → hub_ok url_parse c.
Proof.
  unfold check_hub, hub_ok. intros H Hv. case_decide as Hne; [done|]. destruct (url_parse _) as [u|] eqn:Eu; [|done].
  case_decide as Hu; [done|]. destruct (matches sourceKeyRe (cfg_SourceKey c)) eqn:Em; [|done]. split_and!; [|done| |].
  - exists u. apply Decidable.not_or in Hu as [Hs Hh].
    split_and!; [done| |done]. destruct (decide (u_Scheme u = "http"%string)) as [->|]; [left|].
    destruct (decide (u_Scheme u = "https"%string)) as [->|]; [right; left|]. by destruct Hs.
  - intros a. rewrite Hv. apply trim_right_last.
  - by apply matches_iff.
Qed.

(** What is accepted, whatever the command line looks like. *)
Lemma parse_ok url_parse args env r : Parse url_parse args env = Ok r → res_Mode r ≠ ModeVersion →
  config_ok (res_Cfg r) ∧ (res_Mode r = ModeRun → hub_ok url_parse (res_Cfg r)).
Proof.
  unfold Parse. destruct (flag_parse flags _) as [fs|]; [|done]. destruct (flag_on fs "version"); [by intros [= <-]|].
  destruct (read_settings _) as [cfg|] eqn:Es; [|done]. apply read_settings_ok in Es as (Hok & _ & _ & _ & _ & Eh & _).
  destruct (flag_on fs "check"); [by intros [= <-] _|]. destruct (check_hub _ _ _) as [[]|] eqn:Ec; [|done].
  intros [= <-] _. split; [done|]. intros _. by eapply check_hub_ok.
Qed.

(** ** Properties *)


Definition demo_address (s : string) : option URL :=
  if has_prefix "https://" s
  then Some {| u_Scheme := "https"; u_Host := trim_prefix "https://" s; u_Path := ""; u_User := false; u_RawQuery := ""; u_Fragment := "" |}
  else None.
Definition demo_environment (key : string) : string :=
  if decide (key = "ASSIST_SOURCE_KEY") then "ask_0123456789abcdef0123456789abcdef0123456789abcdef"
  else if decide (key = "ASSIST_QUEUE_MAX_EVENTS") then "2000" else "".
Definition demo_settings : list (string * string) :=
  [("hub-url", "https://hub.example//"); ("interval", "1m"); ("queue-max-batches", "0x10"); ("interval", "12.5")]%string.


(** An interval that is no number of seconds is accepted: not a number, or too long for 64
    bits, it is the least of them. *)
Example interval_out_of_range :
  parseDurationLoose "nan" = Some int64_min ∧ parseDurationLoose "1e300" = Some int64_min ∧ parseDurationLoose "-5" = Some (-5 * Second).
Proof. vm_compute. by split_and!. Qed.

(** A number in another base is accepted as a flag but not as a variable. *)
Example number_bases : parseInt0 "0x10" = Some 16 ∧ atoi "0x10" = None.
Proof. vm_compute. by split_and!. Qed.
