(* ===== verification/Admin.v ===== *)
(** Management ([hub/admin.go]): sources and their keys, the rules and the settings with their
    version check.  Requests are decoded; a [json.RawMessage] is the value it holds.

    The rules and settings are read on the database's other connections while the transaction
    has not issued a statement yet: SQLite's transactions are deferred, so it holds no lock
    then and sees the tables as they are at its first statement ([before_tx]). *)

From S2P Require Import Prelude GoBase GoTime HubTypes HubStore Fault Retention Handlers Messages Sha256 Auth Regex Install.
From Stdlib Require Import Ascii.
Local Open Scope Z_scope.

(** ** Requests *)

(** The value of a [json.RawMessage]. *)
Inductive raw_json := RNull | RString (s : string) | RBool (b : bool) | ROther.

(** [json.Unmarshal] into a string and into a bool: null leaves the zero value. *)
Definition unmarshal_string (v : raw_json) : option string :=
  match v with RNull => Some EmptyString | RString s => Some s | _ => None end.
Definition unmarshal_bool (v : raw_json) : option bool :=
  match v with RNull => Some false | RBool b => Some b | _ => None end.

(* @src hub/admin.go 62-67 !handleSourceCreate *)
Record sourceCreateReq := {
  sc_Name : string;
  sc_Kind : string;
  sc_AttachmentBaseURL : option string;
  sc_MgmtKey : option raw_json }.

(* @src hub/admin.go 160-160 !handleSourcePatch *)
(** The keys of the object that the handler looks at. *)
Record sourcePatchReq := {
  sp_name : option raw_json;
  sp_enabled : option raw_json;
  sp_attachmentBaseUrl : option raw_json;
  sp_mgmtKey : option raw_json }.

(* @src hub/admin.go 447-451 !handleRulesPut *)
Record rulesPutReq := { rp_ExpectedVersion : option Z; rp_HeartbeatSeconds : option Z; rp_Rules : list rule }.

(* @src hub/admin.go 533-537 !handleSettingsPatch *)
Record settingsPatchReq := { st_ExpectedVersion : option Z; st_DND : option dndConfig; st_ReportIntervalSeconds : option Z }.

(** ** Validation *)

Definition id_cls : regex := Cls [("A", "Z"); ("a", "z"); ("0", "9"); just "."; just "_"; just ":"; just "-"]%char.
(* @src hub/admin.go 401-401 !ruleIDRe *)
Definition ruleIDRe : regex := between 1 63 id_cls.

(* @src hub/admin.go 530-530 !dndTimeRe *)
Definition dndTimeRe : regex :=
  Cat (Alt (Cat (Cls [("0", "1")]%char) digit_cls) (Cat (Lit "2") (Cls [("0", "3")]%char)))
    (Cat (Lit ":") (Cat (Cls [("0", "5")]%char) digit_cls)).

(* @src hub/admin.go 406-441 !validateRulesDoc *)
(** The body of the loop: the message that refuses a rule. *)
Definition validate_rule (seen : list string) (r : rule) : option string :=
  if negb (matches ruleIDRe (rl_ID r)) then Some "rule.id 缺失或非法"
  else if decide (rl_ID r ∈ seen) then Some "rule.id 重复"
  else if decide (rl_Severity r ≠ "warning" ∧ rl_Severity r ≠ "critical") then Some "severity 只允许 warning/critical"
  else if decide (rl_Kind r = "threshold") then
    if decide (rl_Metric r ∉ seriesMetrics) then Some "threshold 需要合法 metric"
    else match rl_Value r with
    | None => Some "threshold 需要 value"
    | Some _ =>
      if decide (rl_Op r ∉ [""; "gt"; "gte"; "lt"; "lte"]) then Some "op 非法"
      else if decide (rl_ForSeconds r < 0) then Some "forSeconds 非法"
      else if decide (rl_RecoverForSeconds r < 0) then Some "recoverForSeconds 非法"
      else None
    end
  else if decide (rl_Kind r ∈ ["container_exit"; "smart"; "pool"]) then None
  else Some "kind 非法（threshold|container_exit|smart|pool）"%string.

(* @src hub/admin.go 404-444 !validateRulesDoc *)
Fixpoint validate_rules (seen : list string) (rules : list rule) : option string :=
  match rules with
  | [] => None
  | r :: rules =>
    match validate_rule seen r with
    | Some msg => Some msg
    | None => validate_rules (rl_ID r :: seen) rules
    end
  end.

(* @src hub/admin.go 403-444 validateRulesDoc *)
(** [None] is the empty message. *)
Definition validateRulesDoc (rules : list rule) : option string := validate_rules [] rules.

(* @src hub/admin.go 202-216 !handleSourcePatch *)
(** The check of a management key that is present: plain text and hint, or the message. *)
Definition mgmt_key (kind : string) (v : raw_json) : string + (string * string) :=
  if decide (kind ≠ "feedback") then inl "mgmtKey 仅 feedback 类来源可配置"
  else match v with
  | RNull => inr ("", "")
  | _ =>
    match unmarshal_string v with
    | Some mk => if decide (mk = "" ∨ 200 < str_len mk) then inl "mgmtKey 需为非空字符串（≤200 字符）" else inr (mk, hintTail mk)
    | None => inl "mgmtKey 需为非空字符串（≤200 字符）"
    end
  end%string.

(** ** Sources *)

(** The answer to a creation and to a rotation. *)
(* @src hub/admin.go 137-141 !handleSourceCreate *)
Record created := { cr_source : sourceJSON; cr_accessKey : string; cr_install : install_block }.

(* @src hub/admin.go 223-227 !handleSourcePatch *)
(** The columns each [UPDATE] sets. *)
Definition patch_columns (s r : sourceRow) : sourceRow :=
  set_s_Name (s_Name s) (set_s_Enabled (s_Enabled s) (set_s_AttachmentBaseURL (s_AttachmentBaseURL s)
    (set_s_MgmtKeyPlain (s_MgmtKeyPlain s) (set_s_MgmtKeyHint (s_MgmtKeyHint s) (set_s_UpdatedAt (s_UpdatedAt s) r))))).
(* @src hub/admin.go 274-276 !handleSourceRotateKey *)
Definition key_columns (s r : sourceRow) : sourceRow :=
  set_s_KeyHash (s_KeyHash s) (set_s_KeyPlain (s_KeyPlain s) (set_s_KeyHint (s_KeyHint s) (set_s_UpdatedAt (s_UpdatedAt s) r))).
(* @src hub/admin.go 330-332 !handleSourceRotateMgmtKey *)
Definition mgmt_columns (s r : sourceRow) : sourceRow :=
  set_s_MgmtKeyPlain (s_MgmtKeyPlain s) (set_s_MgmtKeyHint (s_MgmtKeyHint s) (set_s_UpdatedAt (s_UpdatedAt s) r)).
(* @src hub/admin.go 363-367 !handleSourceDelete *)
Definition deleted_columns (now : string) (r : sourceRow) : sourceRow :=
  set_s_DeletedAt (Some now) (set_s_KeyHash "" (set_s_KeyPlain "" (set_s_MgmtKeyPlain "" (set_s_MgmtKeyHint ""
    (set_s_UpdatedAt now r))))).

(** The answer to a change: the new document, or the version on record. *)
Inductive doc_answer (D : Type) :=
| Doc (d : D)
| VersionConflict (message : string) (version : Z).
Arguments Doc {D} d.
Arguments VersionConflict {D} message version.

Section admin.
Context `{HE : HubEnv}.
Notation HM := (stM World herr).

(** [net/url.Parse]; [None] is its error. *)
Variable url_parse : string → option URL.

(* @src hub/attachments.go 22-29 validAttachmentBaseURL *)
Definition validAttachmentBaseURL (raw : string) : bool :=
  match url_parse raw with
  | None => false
  | Some u => negb (String.eqb (u_Host u) "") && (String.eqb (u_Scheme u) "http" || String.eqb (u_Scheme u) "https")
  end.

(* @src hub/admin.go 14-26 handleSources *)
Definition handleSources : HM (reply (list sourceJSON)) :=
  r ← st_try listSources;
  match r with
  | Err _ => mret errInternal
  | Ok sources =>
    hb ← heartbeatSeconds;
    out ← st_foldl (λ acc s, now ← nowUTC; mret (acc ++ [toSourceJSON s hb now])) [] sources;
    mret (Reply 200 out)
  end.

(** The row of a new source. *)
(* @src hub/admin.go 80-99 !handleSourceCreate *)
Definition new_source (id name kind key now : string) (base : option string) (mgmt : string * string) : sourceRow :=
  {| s_ID := id; s_Name := name; s_Kind := kind; s_Enabled := true; s_KeyHash := hashToken key; s_KeyPlain := key;
     s_KeyHint := last4 key; s_MgmtKeyPlain := mgmt.1; s_MgmtKeyHint := mgmt.2; s_AttachmentBaseURL := base;
     s_AgentVersion := None; s_AgentOS := None; s_AgentArch := None; s_Hostname := None; s_Capabilities := None;
     s_LastSeenAt := None; s_LastMetricsSeq := 0; s_LastEventSeq := 0; s_LastBootTime := None; s_LastSummary := None;
     s_PrevSample := None; s_DeletedAt := None; s_CreatedAt := now; s_UpdatedAt := now |}.

(* @src hub/admin.go 118-130 !handleSourceCreate *)
Definition create_tx (src : sourceRow) : HM (list changeEntry) :=
  tx_insert (λ d, (λ l, set_d_sources l d) <$> tbl_insert src (d_sources d)) ;;
  emitSourceChangeTx src [].

(* @src hub/admin.go 61-142 handleSourceCreate *)
Definition handleSourceCreate (cfg : config) (req : sourceCreateReq) : HM (reply created) :=
  if decide (sc_Name req = "") then mret (errInvalid "name 必填")
  else if decide (sc_Kind req ≠ "device" ∧ sc_Kind req ≠ "feedback") then mret (errInvalid "kind 非法（device|feedback）")
  else
    now ← nowUTC;
    id ← newID "src_";
    key ← randToken "ask_";
    let base := match sc_AttachmentBaseURL req with Some u => nullStr u | None => None end in
    if negb (match base with Some u => validAttachmentBaseURL u | None => true end) then
      mret (errInvalid "attachmentBaseUrl 必须为 http/https URL")
    else
    match match sc_MgmtKey req with Some v => mgmt_key (sc_Kind req) v | None => inr ("", "") end with
    | inl msg => mret (errInvalid msg)
    | inr mgmt =>
      let src := new_source id (sc_Name req) (sc_Kind req) key (fmtTS now) base mgmt in
      r ← st_try (withTx (create_tx src));
      match r with
      | Err _ => mret errInternal
      | Ok changes =>
        publish changes ;;
        hb ← heartbeatSeconds;
        t ← nowUTC;
        mret (Reply 201 {| cr_source := toSourceJSON src hb t; cr_accessKey := key;
                           cr_install := installBlock url_parse (cfg_baseURL cfg) key (sc_Kind req) false |})
      end
    end%string.

(* @src hub/admin.go 144-155 handleSourceGet *)
Definition handleSourceGet (id : string) : HM (reply sourceJSON) :=
  r ← st_try (loadSource id);
  match r with
  | Err ENoRows => mret errNotFound
  | Err _ => mret errInternal
  | Ok src =>
    if decide (is_Some (s_DeletedAt src)) then mret errNotFound
    else hb ← heartbeatSeconds; t ← nowUTC; mret (Reply 200 (toSourceJSON src hb t))
  end.

(* @src hub/admin.go 263-279 !handleSourceRotateKey *)
(** A change of one live source: its row after [edit], the columns of [cols] stored, one
    change of the log. *)
Definition edit_source (id : string) (only : sourceRow → bool) (edit : sourceRow → HM sourceRow)
    (cols : sourceRow → sourceRow → sourceRow) : HM (list changeEntry * sourceRow) :=
  src ← loadSourceTx id;
  if decide (is_Some (s_DeletedAt src)) then st_throw ENoRows
  else if negb (only src) then st_throw ENoRows
  else
    src ← edit src;
    tx_exec (λ d, set_d_sources (tbl_update (s_ID src) (cols src) (d_sources d)) d) ;;
    changes ← emitSourceChangeTx src [];
    mret (changes, src).

(** The fields of a patch, one after the other; [inl] is the refusal. *)
(* @src hub/admin.go 174-180 !handleSourcePatch *)
Definition patch_name (v : raw_json) (s : sourceRow) : string + sourceRow :=
  match unmarshal_string v with
  | Some name => if decide (name = "") then inl "name 非法" else inr (set_s_Name name s)
  | None => inl "name 非法"
  end%string.
(* @src hub/admin.go 181-187 !handleSourcePatch *)
Definition patch_enabled (v : raw_json) (s : sourceRow) : string + sourceRow :=
  match unmarshal_bool v with Some en => inr (set_s_Enabled en s) | None => inl "enabled 非法"%string end.
(* @src hub/admin.go 188-201 !handleSourcePatch *)
Definition patch_base (v : raw_json) (s : sourceRow) : string + sourceRow :=
  match v with
  | RNull => inr (set_s_AttachmentBaseURL None s)
  | _ =>
    match unmarshal_string v with
    | None => inl "attachmentBaseUrl 非法"
    | Some u => if decide (u ≠ "" ∧ validAttachmentBaseURL u = false) then inl "attachmentBaseUrl 必须为 http/https URL"
                else inr (set_s_AttachmentBaseURL (nullStr u) s)
    end
  end%string.
(* @src hub/admin.go 202-217 !handleSourcePatch *)
Definition patch_mgmt (v : raw_json) (s : sourceRow) : string + sourceRow :=
  match mgmt_key (s_Kind s) v with
  | inl msg => inl msg
  | inr p => inr (set_s_MgmtKeyPlain p.1 (set_s_MgmtKeyHint p.2 s))
  end.

Definition patch_field (f : raw_json → sourceRow → string + sourceRow) (v : option raw_json) (s : string + sourceRow)
    : string + sourceRow :=
  match s, v with inr s, Some v => f v s | _, _ => s end.

(* @src hub/admin.go 174-217 !handleSourcePatch *)
Definition patch_source (req : sourcePatchReq) (s : sourceRow) : string + sourceRow :=
  patch_field patch_mgmt (sp_mgmtKey req)
    (patch_field patch_base (sp_attachmentBaseUrl req)
      (patch_field patch_enabled (sp_enabled req)
        (patch_field patch_name (sp_name req) (inr s)))).

(* @src hub/admin.go 166-235 !handleSourcePatch *)
Definition patch_tx (id : string) (req : sourcePatchReq) : HM (list changeEntry * sourceJSON) :=
  r ← edit_source id (λ _, true)
        (λ src, match patch_source req src with
                | inl msg => st_throw (EInvalid msg)
                | inr src => now ← nowUTC; mret (set_s_UpdatedAt (fmtTS now) src)
                end) patch_columns;
  hb ← heartbeatSeconds;
  t ← nowUTC;
  mret (r.1, toSourceJSON r.2 hb t).

(* @src hub/admin.go 157-251 handleSourcePatch *)
Definition handleSourcePatch (id : string) (req : sourcePatchReq) : HM (reply sourceJSON) :=
  r ← st_try (withTx (patch_tx id req));
  match r with
  | Err (EInvalid msg) => mret (errInvalid msg)
  | Err ENoRows => mret errNotFound
  | Err _ => mret errInternal
  | Ok (changes, out) => publish changes ;; mret (Reply 200 out)
  end.

(* @src hub/admin.go 262-280 !handleSourceRotateKey *)
Definition rotate_tx (id key : string) : HM (list changeEntry * sourceRow) :=
  edit_source id (λ _, true)
    (λ src, now ← nowUTC;
            mret (set_s_KeyPlain key (set_s_KeyHash (hashToken key) (set_s_KeyHint (last4 key)
                    (set_s_UpdatedAt (fmtTS now) src))))) key_columns.

(* @src hub/admin.go 259-299 handleSourceRotateKey *)
Definition handleSourceRotateKey (cfg : config) (id : string) : HM (reply (string * install_block)) :=
  key ← randToken "ask_";
  r ← st_try (withTx (rotate_tx id key));
  match r with
  | Err ENoRows => mret errNotFound
  | Err _ => mret errInternal
  | Ok (changes, _) =>
    publish changes ;;
    r ← st_try (loadSource id);
    match r with
    | Err _ => mret errNotFound
    | Ok src =>
      mret (if decide (is_Some (s_DeletedAt src)) then errNotFound
            else Reply 200 (key, installBlock url_parse (cfg_baseURL cfg) key (s_Kind src) true))
    end
  end.

(* @src hub/admin.go 319-336 !handleSourceRotateMgmtKey *)
Definition rotate_mgmt_tx (id key : string) : HM (list changeEntry * sourceRow) :=
  edit_source id (λ src, bool_decide (s_Kind src = "feedback"%string))
    (λ src, now ← nowUTC;
            mret (set_s_MgmtKeyPlain key (set_s_MgmtKeyHint (last4 key) (set_s_UpdatedAt (fmtTS now) src)))) mgmt_columns.

(* @src hub/admin.go 314-350 handleSourceRotateMgmtKey *)
Definition handleSourceRotateMgmtKey (id : string) : HM (reply (string * mgmt_block)) :=
  key ← randToken "amk_";
  r ← st_try (withTx (rotate_mgmt_tx id key));
  match r with
  | Err ENoRows => mret errNotFound
  | Err _ => mret errInternal
  | Ok (changes, _) => publish changes ;; mret (Reply 200 (key, mgmtInstallBlock key))
  end.

(* @src hub/admin.go 355-377 !handleSourceDelete *)
Definition delete_tx (id : string) : HM (list changeEntry) :=
  src ← loadSourceTx id;
  if decide (is_Some (s_DeletedAt src)) then st_throw ENoRows
  else
    now ← nowUTC;
    tx_exec (λ d, set_d_sources (tbl_update (s_ID src) (deleted_columns (fmtTS now)) (d_sources d)) d) ;;
    entry ← insertTombstone "source" (s_ID src);
    mret [entry].

(* @src hub/admin.go 352-388 handleSourceDelete *)
Definition handleSourceDelete (id : string) : HM (reply ()) :=
  r ← st_try (withTx (delete_tx id));
  match r with
  | Err ENoRows => mret errNotFound
  | Err _ => mret errInternal
  | Ok changes => publish changes ;; mret (Reply 204 ())
  end.

(** ** Documents with a version *)

(** Calls outside the transaction before its first statement. *)
Definition before_tx {A} (m : HM A) : HM A := λ w,
  let '(r, w1) := m (wset_tx None w) in (r, wset_tx (Some (w_db w1)) w1).

(** What the two documents have in common: their row, what an empty table is filled with, and
    their number. *)
Class Versioned (D : Type) := {
  vd_row : db → option D;
  vd_set : option D → db → db;
  vd_default : D;
  vd_load : HM D;
  vd_version : D → Z;
  vd_type : string;
  vd_data : D → change_data;
  vd_message : string }.

(* @src hub/admin.go 472-479 !handleRulesPut *)
Definition put_check `{Versioned D} (expected : Z) : HM D :=
  doc ← vd_load;
  if decide (vd_version doc = expected) then mret doc else st_throw (EConflict (vd_version doc)).

(* @src hub/admin.go 488-500 !handleRulesPut *)
Definition put_write `{Versioned D} (doc : D) : HM (list changeEntry * D) :=
  tx_exec (λ d, vd_set ((λ _, doc) <$> vd_row d) d) ;;
  entry ← insertChangeObj vd_type vd_type (λ _, vd_data doc) None;
  mret ([entry], doc).

(* @src hub/admin.go 502-514 !handleRulesPut *)
Definition answer_put `{Versioned D} (r : outcome herr (list changeEntry * D)) : HM (reply (doc_answer D)) :=
  match r with
  | Err (EConflict v) => mret (Reply 409 (VersionConflict vd_message v))
  | Err _ => mret errInternal
  | Ok (changes, out) => publish changes ;; mret (Reply 200 (Doc out))
  end.

(* @src hub/admin.go 471-514 !handleRulesPut *)
(** The transaction of both handlers: [bump] gives the next document. *)
Definition put_doc `{Versioned D} (expected : Z) (bump : D → D) : HM (reply (doc_answer D)) :=
  r ← st_try (withTx (doc ← before_tx (put_check expected); put_write (bump doc)));
  answer_put r.

#[export] Instance rules_versioned : Versioned rulesDoc := {
  vd_row := d_rules; vd_set := set_d_rules;
  vd_default := {| rd_Version := 1; rd_HeartbeatSeconds := 180; rd_Rules := defaultRules |};
  vd_load := loadRules; vd_version := rd_Version; vd_type := "rules"; vd_data := DRules;
  vd_message := "规则版本不匹配" }.

#[export] Instance settings_versioned : Versioned settingsDoc := {
  vd_row := d_settings; vd_set := set_d_settings;
  vd_default := {| sd_Version := 1;
                   sd_DND := {| dnd_Enabled := false; dnd_Start := "23:00"; dnd_End := "08:00"; dnd_Timezone := "Asia/Shanghai" |};
                   sd_ReportIntervalSeconds := 30 |};
  vd_load := loadSettings; vd_version := sd_Version; vd_type := "settings"; vd_data := DSettings;
  vd_message := "设置版本不匹配" }.

Definition get_doc `{Versioned D} : HM (reply D) :=
  r ← st_try vd_load;
  mret match r with Ok doc => Reply 200 doc | Err _ => errInternal end.

(* @src hub/admin.go 392-399 handleRulesGet *)
Definition handleRulesGet : HM (reply rulesDoc) := get_doc.

(* @src hub/admin.go 480-487 !handleRulesPut *)
(** The document a request asks for. *)
Definition next_rules (req : rulesPutReq) (doc : rulesDoc) : rulesDoc :=
  {| rd_Version := wrap64 (rd_Version doc + 1);
     rd_HeartbeatSeconds := default (rd_HeartbeatSeconds doc) (rp_HeartbeatSeconds req);
     rd_Rules := rp_Rules req |}.

(* @src hub/admin.go 446-515 handleRulesPut *)
Definition handleRulesPut (req : rulesPutReq) : HM (reply (doc_answer rulesDoc)) :=
  match rp_ExpectedVersion req with
  | None => mret (errInvalid "expectedVersion 必填")
  | Some expected =>
    match validateRulesDoc (rp_Rules req) with
    | Some msg => mret (errInvalid msg)
    | None =>
      if match rp_HeartbeatSeconds req with Some hb => bool_decide (hb < 60 ∨ 3600 < hb) | None => false end then
        mret (errInvalid "heartbeatSeconds 需在 60..3600")
      else put_doc expected (next_rules req)
    end
  end%string.

(* @src hub/admin.go 521-528 handleSettingsGet *)
Definition handleSettingsGet : HM (reply settingsDoc) := get_doc.

(* @src hub/admin.go 573-579 !handleSettingsPatch *)
Definition next_settings (req : settingsPatchReq) (doc : settingsDoc) : settingsDoc :=
  {| sd_Version := wrap64 (sd_Version doc + 1);
     sd_DND := default (sd_DND doc) (st_DND req);
     sd_ReportIntervalSeconds := default (sd_ReportIntervalSeconds doc) (st_ReportIntervalSeconds req) |}.

(* @src hub/admin.go 546-553 !handleSettingsPatch *)
(** Quiet hours that are present must be well-formed. *)
Definition validate_dnd (dnd : dndConfig) : option string :=
  if negb (matches dndTimeRe (dnd_Start dnd)) || negb (matches dndTimeRe (dnd_End dnd)) then Some "dnd.start/end 需为 HH:mm"
  else if decide (dnd_Timezone dnd = "") then Some "dnd.timezone 必填" else None%string.

(* @src hub/admin.go 532-607 handleSettingsPatch *)
Definition handleSettingsPatch (req : settingsPatchReq) : HM (reply (doc_answer settingsDoc)) :=
  match st_ExpectedVersion req with
  | None => mret (errInvalid "expectedVersion 必填")
  | Some expected =>
    match st_DND req ≫= validate_dnd with
    | Some msg => mret (errInvalid msg)
    | None =>
      if match st_ReportIntervalSeconds req with Some n => bool_decide (n < 10 ∨ 600 < n) | None => false end then
        mret (errInvalid "reportIntervalSeconds 需在 10..600")
      else put_doc expected (next_settings req)
    end
  end%string.
End admin.

(** ** Lemmas on versioned documents *)

Section versioned.
Context `{HE : HubEnv} {D : Type} `{V : !Versioned D}.

(** The document on record: the default one before it was first read. *)
Definition on_record (d : db) : D := default vd_default (vd_row d).
Definition ensured (d : db) : db := vd_set (Some (on_record d)) d.

(** What [vd_load] does without a transaction. *)
Definition loads_doc : Prop := ∀ w, w_tx w = None →
  match vd_load (D := D) w with
  | (Ok doc, w') => doc = on_record (w_db w) ∧ w_db w' = ensured (w_db w) ∧ w_broker w' = w_broker w ∧ w_tx w' = None
  | (Err e, w') => e = EIO ∧ untouched w w' ∧ w_tx w' = None
  end.

(** The document's table is a table of its own. *)
Class VersionedLaws : Prop := {
  vl_load : loads_doc;
  vl_row_set o d : vd_row (vd_set o d) = o;
  vl_set_set o o' d : vd_set o (vd_set o' d) = vd_set o d;
  vl_set_row d : vd_set (vd_row d) d = d;
  vl_log o d : d_changes (vd_set o d) = d_changes d ∧ d_meta (vd_set o d) = d_meta d;
  vl_events o d : d_events (vd_set o d) = d_events d;
  vl_row_log typ ref data n t d : vd_row (log_change typ ref data n t d) = vd_row d;
  vl_ok o d : db_ok d → db_ok (vd_set o d) }.

Context `{L : !VersionedLaws}.

Lemma put_write_Ok doc w d ch out w' :
  w_tx w = Some d → is_Some (vd_row d) → put_write doc w = (Ok (ch, out), w') →
  ∃ t, out = doc ∧ ch = [entry_of (logged vd_type vd_type (vd_data doc) t d)] ∧ same_outside w w' ∧
    w_tx w' = Some (log_change vd_type vd_type (vd_data doc) None t (vd_set (Some doc) d)).
Proof.
  intros Hd [row Hrow] H. unfold put_write in H. mrun H. apply (tx_exec_Ok _ _ _ _ _ Hd) in Hrun as [Hd1 S1].
  rewrite Hrow in Hd1. cbn in Hd1. mrun H. apply (insertChangeObj_Ok _ _ _ _ _ _ _ _ Hd1) in Hrun as (t & Hd2 & S2 & ->).
  injection H as <- <- <-. exists t. split; [done|]. split; [|split; [by etransitivity|exact Hd2]].
  unfold entry_of, logged, change_seq. destruct (vl_log (Some doc) d) as [_ ->]. done.
Qed.

Lemma put_check_spec expected w :
  w_tx w = None →
  match put_check (D := D) expected w with
  | (Ok doc, w') => doc = on_record (w_db w) ∧ vd_version doc = expected ∧ w_db w' = ensured (w_db w) ∧
      w_broker w' = w_broker w
  | (Err e, w') => w_broker w' = w_broker w ∧
      (e = EIO ∧ w_db w' = w_db w ∨
       e = EConflict (vd_version (on_record (w_db w))) ∧ vd_version (on_record (w_db w)) ≠ expected ∧ w_db w' = ensured (w_db w))
  end.
Proof.
  intros Ht. unfold put_check, mbind, stM_bind. pose proof (vl_load w Ht) as Hl.
  destruct (vd_load w) as [[doc|e] w1].
  - destruct Hl as (-> & Hd & Hb & _). case_decide as Hv; cbn; [done|]. split; [done|]. by right.
  - destruct Hl as (-> & [Hd Hb] & _). split; [done|]. by left.
Qed.

Lemma before_tx_eq {A} (m : stM World herr A) w :
  before_tx m w = ((m (wset_tx None w)).1, wset_tx (Some (w_db (m (wset_tx None w)).2)) (m (wset_tx None w)).2).
Proof. unfold before_tx. by destruct (m _). Qed.

Lemma errs_put_write doc : errs (λ e, ∀ v, e ≠ EConflict v) (put_write (D := D) doc).
Proof. unfold put_write. errs_steps. Qed.

(** A change of the document: all or nothing, and only of the version it was made from. *)
Lemma put_doc_spec expected (bump : D → D) w :
  match put_doc expected bump w with
  | (Err _, _) => False
  | (Ok (Fail st _ _), w') => st = 500 ∧ w_broker w' = w_broker w ∧ (w_db w' = w_db w ∨ w_db w' = ensured (w_db w))
  | (Ok (Reply st (VersionConflict _ v)), w') => st = 409 ∧ v = vd_version (on_record (w_db w)) ∧ v ≠ expected ∧
      w_broker w' = w_broker w ∧ w_db w' = ensured (w_db w)
  | (Ok (Reply st (Doc doc)), w') => st = 200 ∧ vd_version (on_record (w_db w)) = expected ∧
      doc = bump (on_record (w_db w)) ∧
      ∃ t, w_db w' = log_change vd_type vd_type (vd_data doc) None t (vd_set (Some doc) (w_db w)) ∧
        w_broker w' = Publish (entry_of (logged vd_type vd_type (vd_data doc) t (w_db w))) (w_broker w)
  end.
Proof.
  unfold put_doc, st_try. unfold mbind at 1, stM_bind at 1. unfold withTx.
  destruct (h_io (w_calls w)); [cbn; split; [done|]; split; [done|by left]|].
  set (w0 := wset_tx (Some (w_db w)) _). unfold mbind, stM_bind. rewrite before_tx_eq.
  pose proof (put_check_spec expected (wset_tx None w0) eq_refl) as Hc.
  destruct (put_check expected (wset_tx None w0)) as [[doc|e] w1]; cbn [fst snd].
  2:{ destruct Hc as [Hb [[-> Hd]|(-> & Hne & Hd)]]; cbn; [split; [done|]; split; [done|by left]|done]. }
  destruct Hc as (-> & Hv & Hd & Hb). change (w_db (wset_tx None w0)) with (w_db w) in *. change (w_broker (wset_tx None w0)) with (w_broker w) in Hb.
  set (w2 := wset_tx (Some (w_db w1)) w1).
  destruct (put_write (bump (on_record (w_db w))) w2) as [[[ch out]|e] w3] eqn:Ew.
  - assert (is_Some (vd_row (w_db w1))) as Hrow by (rewrite Hd; unfold ensured; rewrite vl_row_set; by eexists).
    apply (put_write_Ok _ w2 (w_db w1) _ _ _ eq_refl Hrow) in Ew as (t & -> & -> & (Hs1 & _ & Hs3 & _) & Ht3).
    destruct (h_io (w_calls w3)); [cbn; split; [done|]; split; [rewrite Hs3; exact Hb|right; rewrite Hs1; exact Hd]|].
    rewrite Ht3. cbn. split_and!; [done..|]. exists t.
    assert (ensured (w_db w) = w_db w1) as <- by done.
    unfold ensured. rewrite vl_set_set. split; [done|].
    unfold entry_of, logged, change_seq. cbn. destruct (vl_log (Some (on_record (w_db w))) (w_db w)) as [_ ->]. rewrite Hs3. by rewrite <-Hb.
  - assert (∀ d0 b0, preserves (inside d0 b0) (put_write (bump (on_record (w_db w))))) as Hp by (intros; unfold put_write; pres).
    assert (inside (w_db w1) (w_broker w1) (put_write (bump (on_record (w_db w))) w2).2) as (_ & Hd3 & Hb3)
      by (apply Hp; repeat split; by eexists).
    rewrite Ew in Hd3, Hb3. cbn in Hd3, Hb3. assert (∀ v, e ≠ EConflict v) as Hne by (intros v; by apply (errs_put_write _ _ _ _ Ew)).
    destruct e; try (exfalso; by eapply Hne); cbn; (split; [done|]; split; [congruence|right; congruence]).
Qed.
End versioned.

(** ** The two documents *)

Ltac doc_laws := split; [|by intros o []|by intros o o' []|by intros []|by intros o []|by intros o []|by intros|by intros o d [K1 K2 K3 K4 K5 K6 K7]; split];
  intros w Ht; unfold vd_load; cbn; unfold loadRules, loadSettings, db_exec, db_query, db_call, mbind, stM_bind, mret, stM_ret;
  rewrite ?Ht; destruct (h_io _); [by repeat split|];
  unfold ensured, on_record; cbn.

#[export] Instance rules_laws `{HE : HubEnv} : VersionedLaws (D := rulesDoc).
Proof.
  doc_laws. destruct (d_rules (w_db w)) as [doc|] eqn:Er; cbn.
  - split; [done|]. split; [|by split]. rewrite <-Er. by destruct (w_db w).
  - rewrite Ht. destruct (h_io _); by repeat split.
Qed.

#[export] Instance settings_laws `{HE : HubEnv} : VersionedLaws (D := settingsDoc).
Proof.
  doc_laws. destruct (d_settings (w_db w)) as [doc|] eqn:Er; cbn.
  - split; [done|]. split; [|by split]. rewrite <-Er. by destruct (w_db w).
  - rewrite Ht. destruct (h_io _); by repeat split.
Qed.

(** ** Well-formed documents *)

(** A rule the engine can evaluate. *)
Definition rule_ok (r : rule) : Prop :=
  ((1 <= String.length (rl_ID r) <= 64)%nat ∧
   str_all (in_cls [("A", "Z"); ("a", "z"); ("0", "9"); just "."; just "_"; just ":"; just "-"]%char) (rl_ID r) = true) ∧
  (rl_Severity r = "warning" ∨ rl_Severity r = "critical")%string ∧
  (rl_Kind r = "threshold" ∧ rl_Metric r ∈ seriesMetrics ∧ is_Some (rl_Value r) ∧
     rl_Op r ∈ [""; "gt"; "gte"; "lt"; "lte"] ∧ 0 <= rl_ForSeconds r ∧ 0 <= rl_RecoverForSeconds r ∨
   rl_Kind r ∈ ["container_exit"; "smart"; "pool"])%string.

Definition rules_typed (doc : rulesDoc) : Prop :=
  NoDup (rl_ID <$> rd_Rules doc) ∧ Forall rule_ok (rd_Rules doc) ∧ 60 <= rd_HeartbeatSeconds doc <= 3600.

(** A time of day. *)
Definition clock_time (s : string) : Prop :=
  ∃ h m, 0 <= h < 24 ∧ 0 <= m < 60 ∧ s = (pad 2 h +:+ ":" +:+ pad 2 m)%string.

Definition settings_typed (doc : settingsDoc) : Prop :=
  clock_time (dnd_Start (sd_DND doc)) ∧ clock_time (dnd_End (sd_DND doc)) ∧ dnd_Timezone (sd_DND doc) ≠ EmptyString ∧
  10 <= sd_ReportIntervalSeconds doc <= 600.

(** Every document on record is well-formed. *)
Definition typed_db (d : db) : Prop :=
  (∀ doc, d_rules d = Some doc → rules_typed doc) ∧ (∀ doc, d_settings d = Some doc → settings_typed doc).

Lemma validate_rule_iff seen r : validate_rule seen r = None ↔ rule_ok r ∧ rl_ID r ∉ seen.
Proof.
  assert (matches ruleIDRe (rl_ID r) = true ↔ (1 <= String.length (rl_ID r) <= 64)%nat ∧
    str_all (in_cls [("A", "Z"); ("a", "z"); ("0", "9"); just "."; just "_"; just ":"; just "-"]%char) (rl_ID r) = true) as Hid
    by (rewrite matches_iff; unfold ruleIDRe, id_cls; apply (in_between _ 1 63)).
  unfold validate_rule, rule_ok. rewrite <-Hid. destruct (matches _ _); cbn [negb]; [|split; [done|by intros [[? _] _]]].
  case_decide as H1; [split; [done|by intros [_ ?]]|].
  case_decide as H2; [split; [done|]; intros [(_ & [?|?] & _) _]; tauto|].
  assert (rl_Severity r = "warning" ∨ rl_Severity r = "critical")%string as H2'.
  { destruct (decide (rl_Severity r = "warning"%string)); [by left|]. destruct (decide (rl_Severity r = "critical"%string)); [by right|tauto]. }
  case_decide as H3; [rewrite H3|].
  - assert ("threshold"%string ∉ ["container_exit"; "smart"; "pool"]%string) as Hno by (by vm_compute; set_solver).
    case_decide as H4; [split; [done|]; intros [(_ & _ & [(_ & ? & _)|?]) _]; done|].
    destruct (rl_Value r) as [v|]; [|split; [done|]; intros [(_ & _ & [(_ & _ & [? [=]] & _)|?]) _]; done].
    case_decide as H5; [split; [done|]; intros [(_ & _ & [(_ & _ & _ & ? & _)|?]) _]; done|].
    case_decide as H6; [split; [done|]; intros [(_ & _ & [(_ & _ & _ & _ & ? & ?)|?]) _]; [lia|done]|].
    case_decide as H7; [split; [done|]; intros [(_ & _ & [(_ & _ & _ & _ & ? & ?)|?]) _]; [lia|done]|].
    split; [intros _|done]. split; [|done]. split; [done|]. split; [done|]. left. 
    split_and!; try done; lia.
  - case_decide as H4; [|split; [done|]; intros [(_ & _ & [(? & _)|?]) _]; done].
    split; [intros _|done]. split; [|done]. split; [done|]. split; [done|]. by right.
Qed.

Lemma validate_rules_iff seen rules :
  validate_rules seen rules = None ↔ NoDup (rl_ID <$> rules) ∧ Forall rule_ok rules ∧ Forall (λ r, rl_ID r ∉ seen) rules.
Proof.
  revert seen. induction rules as [|r rules IH]; intros seen; cbn [validate_rules fmap list_fmap].
  - split; [|done]. intros _. split_and!; constructor.
  - rewrite NoDup_cons, !Forall_cons. pose proof (validate_rule_iff seen r) as Hr. destruct (validate_rule seen r) as [msg|].
    + split; [done|]. intros (_ & [? _] & [? _]). by apply Hr.
    + destruct Hr as [Hr _]. destruct (Hr eq_refl) as [H1 H2]. rewrite IH. split.
      * intros (Hn & Ho & Hs). split_and!; try done.
        -- intros (r' & Heq & Hr')%list_elem_of_fmap. rewrite Forall_forall in Hs. apply (Hs r' Hr'). rewrite Heq. left.
        -- eapply Forall_impl; [exact Hs|]. cbn. intros r' Hn' Hin. apply Hn'. by right.
      * intros ([Hn1 Hn2] & [_ Ho] & [_ Hs]). split_and!; try done. rewrite Forall_forall in Hs |- *. intros r' Hr' [Heq|Hin]%elem_of_cons.
        -- apply Hn1. rewrite <-Heq. by apply list_elem_of_fmap_2.
        -- by apply (Hs r').
Qed.

Lemma validateRulesDoc_iff rules : validateRulesDoc rules = None ↔ NoDup (rl_ID <$> rules) ∧ Forall rule_ok rules.
Proof.
  unfold validateRulesDoc. rewrite validate_rules_iff. split; [naive_solver|]. intros [? ?]. split_and!; [done..|].
  apply Forall_forall. intros r _. apply not_elem_of_nil.
Qed.

Lemma in_digits lo hi s :
  0 <= lo <= hi → hi < 10 → in_re (Cls [(digit lo, digit hi)]) s → ∃ d, lo <= d <= hi ∧ s = String (digit d) "".
Proof.
  intros Hlo Hhi H. inversion H as [|? c Hc| | | | |]; subst. cbn in Hc. rewrite orb_false_r, andb_true_iff, !N.leb_le in Hc.
  unfold digit in Hc. rewrite !N_ascii_embedding in Hc by lia. exists (Z.of_N (N_of_ascii c) - 48). split; [lia|].
  unfold digit. rewrite <-(ascii_N_embedding c) at 1. do 2 f_equal. lia.
Qed.

Lemma dnd_time s : matches dndTimeRe s = true → clock_time s.
Proof.
  rewrite matches_iff. unfold dndTimeRe. intros (hh & t & -> & Hh & Ht)%in_cat_iff.
  apply in_cat_iff in Ht as (sep & mm & -> & ->%in_lit & Hm). apply in_cat_iff in Hm as (m1 & m2 & -> & Hm1 & Hm2).
  apply (in_digits 0 5) in Hm1 as (d1 & ? & ->); [|lia..]. apply (in_digits 0 9) in Hm2 as (d2 & ? & ->); [|lia..].
  assert (∃ h, 0 <= h < 24 ∧ hh = pad 2 h) as (h & Hr & ->).
  { assert (∀ a b, 0 <= b < 10 → String (digit a) (String (digit b) "") = pad 2 (10 * a + b)) as Hp.
    { intros a b Hb. rewrite pad_2. f_equal; [f_equal; apply Z.div_unique with b; lia|].
      f_equal. f_equal. rewrite Z.div_1_r. apply Z.mod_unique with a; lia. }
    apply in_alt_iff in Hh as [(h1 & h2 & -> & H1 & H2)%in_cat_iff|(h1 & h2 & -> & ->%in_lit & H2)%in_cat_iff].
    - apply (in_digits 0 1) in H1 as (a & ? & ->); [|lia..]. apply (in_digits 0 9) in H2 as (b & ? & ->); [|lia..].
      exists (10 * a + b). split; [lia|]. by rewrite <-Hp by lia.
    - apply (in_digits 0 3) in H2 as (b & ? & ->); [|lia..]. exists (10 * 2 + b). split; [lia|]. by rewrite <-Hp by lia. }
  exists h, (10 * d1 + d2). split; [done|]. split; [lia|]. do 2 f_equal. rewrite pad_2.
  change (String (digit d1) "" +:+ String (digit d2) "")%string with (String (digit d1) (String (digit d2) "")).
  f_equal; [f_equal; apply Z.div_unique with d2; lia|]. f_equal. f_equal. rewrite Z.div_1_r. apply Z.mod_unique with d1; lia.
Qed.

Lemma next_rules_typed req doc :
  validateRulesDoc (rp_Rules req) = None →
  match rp_HeartbeatSeconds req with Some hb => bool_decide (hb < 60 ∨ 3600 < hb) | None => false end = false →
  rules_typed doc → rules_typed (next_rules req doc).
Proof.
  intros [Hn Ho]%validateRulesDoc_iff Hhb (_ & _ & H). split; [done|]. split; [done|]. cbn.
  destruct (rp_HeartbeatSeconds req) as [hb|]; [|done]. apply bool_decide_eq_false in Hhb. cbn. lia.
Qed.

Lemma next_settings_typed req doc :
  st_DND req ≫= validate_dnd = None →
  match st_ReportIntervalSeconds req with Some n => bool_decide (n < 10 ∨ 600 < n) | None => false end = false →
  settings_typed doc → settings_typed (next_settings req doc).
Proof.
  intros Hd Hn (Hs & He & Ht & Hi). unfold settings_typed, next_settings. cbn.
  assert (10 <= default (sd_ReportIntervalSeconds doc) (st_ReportIntervalSeconds req) <= 600) as Hint.
  { destruct (st_ReportIntervalSeconds req) as [n|]; [|done]. apply bool_decide_eq_false in Hn. cbn. lia. }
  destruct (st_DND req) as [dnd|]; [|done]. cbn in Hd |- *. unfold validate_dnd in Hd.
  destruct (matches _ (dnd_Start dnd)) eqn:E1; [|done]. destruct (matches _ (dnd_End dnd)) eqn:E2; [|done]. cbn in Hd.
  case_decide; [done|]. split; [by apply dnd_time|]. split; [by apply dnd_time|]. done.
Qed.

(** ** Properties of the documents *)

Definition rules_acceptable (req : rulesPutReq) : Prop :=
  is_Some (rp_ExpectedVersion req) ∧ NoDup (rl_ID <$> rp_Rules req) ∧ Forall rule_ok (rp_Rules req) ∧
  ∀ hb, rp_HeartbeatSeconds req = Some hb → 60 <= hb <= 3600.

(** Which requests reach the database. *)
Lemma rules_put_cases `{HE : HubEnv} req w :
  (∃ msg, handleRulesPut req w = (Ok (errInvalid msg), w) ∧ ¬ rules_acceptable req) ∨
  (∃ expected, rp_ExpectedVersion req = Some expected ∧ rules_acceptable req ∧
     handleRulesPut req w = put_doc expected (next_rules req) w ∧
     (∀ doc, rules_typed doc → rules_typed (next_rules req doc))).
Proof.
  unfold handleRulesPut, rules_acceptable. destruct (rp_ExpectedVersion req) as [v|]; [|left; eexists; split; [reflexivity|by intros [[? [=]] _]]].
  destruct (validateRulesDoc (rp_Rules req)) as [msg|] eqn:Ev.
  { left. exists msg. split; [done|]. intros (_ & Hn & Ho & _). 
    assert (validateRulesDoc (rp_Rules req) = None) by (by apply validateRulesDoc_iff). congruence. }
  pose proof Ev as [Hn Ho]%validateRulesDoc_iff.
  destruct (match rp_HeartbeatSeconds req with Some hb => _ | None => _ end) eqn:Eh.
  - left. eexists. split; [reflexivity|]. intros (_ & _ & _ & Hhb). destruct (rp_HeartbeatSeconds req) as [hb|]; [|done].
    apply bool_decide_eq_true in Eh. specialize (Hhb hb eq_refl). lia.
  - right. exists v. split; [done|]. split; [|split; [done|]].
    + split; [by eexists|]. split; [done|]. split; [done|]. intros hb E. rewrite E in Eh. apply bool_decide_eq_false in Eh. lia.
    + intros doc. by apply next_rules_typed.
Qed.

Lemma settings_patch_cases `{HE : HubEnv} req w :
  (∃ msg, handleSettingsPatch req w = (Ok (errInvalid msg), w)) ∨
  (∃ expected, st_ExpectedVersion req = Some expected ∧
     handleSettingsPatch req w = put_doc expected (next_settings req) w ∧
     (∀ doc, settings_typed doc → settings_typed (next_settings req doc))).
Proof.
  unfold handleSettingsPatch. destruct (st_ExpectedVersion req) as [v|]; [|left; by eexists].
  destruct (st_DND req ≫= validate_dnd) as [msg|] eqn:Ev; [left; by eexists|].
  destruct (match st_ReportIntervalSeconds req with Some n => _ | None => _ end) eqn:Eh; [left; by eexists|].
  right. exists v. split; [done|]. split; [done|]. intros doc. by apply next_settings_typed.
Qed.

Lemma on_record_typed `{HE : HubEnv} d :
  typed_db d → rules_typed (on_record d) ∧ settings_typed (on_record d).
Proof.
  intros [Hr Hs]. unfold on_record. cbn. split.
  - destruct (d_rules d) as [doc|]; [by apply Hr|]. cbn.
    assert (validateRulesDoc defaultRules = None) as [? ?]%validateRulesDoc_iff by (vm_compute; reflexivity). done.
  - destruct (d_settings d) as [doc|]; [by apply Hs|]. cbn. unfold settings_typed. cbn.
    split; [by apply dnd_time; vm_compute|]. split; [by apply dnd_time; vm_compute|]. done.
Qed.

Lemma ensured_typed `{HE : HubEnv} d :
  typed_db d → typed_db (ensured (D := rulesDoc) d) ∧ typed_db (ensured (D := settingsDoc) d).
Proof.
  intros Ht. destruct (on_record_typed d Ht) as [H1 H2]. destruct Ht as [Hr Hs]. split; split; try done.
  - by intros doc [= <-].
  - by intros doc [= <-].
Qed.


(** C29: every rules and settings document the hub stores or answers is well-formed, whatever
    requests it gets: rules the engine can evaluate under distinct names, a heartbeat within
    60..3600 s, quiet hours that are times of day in a named zone, an interval in 10..600 s. *)
Theorem documents_typed `{HE : HubEnv} w (Hw : typed_db (w_db w)) (Htx : w_tx w = None) rreq sreq :
  (∀ r w', handleRulesGet w = (r, w') → typed_db (w_db w') ∧ ∀ st doc, r = Ok (Reply st doc) → rules_typed doc) ∧
  (∀ r w', handleSettingsGet w = (r, w') → typed_db (w_db w') ∧ ∀ st doc, r = Ok (Reply st doc) → settings_typed doc) ∧
  (∀ r w', handleRulesPut rreq w = (r, w') → typed_db (w_db w') ∧ ∀ st doc, r = Ok (Reply st (Doc doc)) → rules_typed doc) ∧
  (∀ r w', handleSettingsPatch sreq w = (r, w') → typed_db (w_db w') ∧ ∀ st doc, r = Ok (Reply st (Doc doc)) → settings_typed doc).
Proof.
  destruct (on_record_typed _ Hw) as [Hr Hs]. destruct (ensured_typed _ Hw) as [Her Hes].
  assert (∀ D (V : Versioned D) (L : VersionedLaws), typed_db (ensured (D := D) (w_db w)) →
    ∀ r w', get_doc (D := D) w = (r, w') → typed_db (w_db w') ∧ ∀ st doc, r = Ok (Reply st doc) → doc = on_record (w_db w)) as Hget.
  { intros D V L He r w'. unfold get_doc, st_try, mbind, stM_bind. pose proof (vl_load w Htx) as Hl.
    destruct (vd_load w) as [[doc|e] w1]; intros [= <- <-].
    - destruct Hl as (-> & -> & _). split; [done|]. by intros st doc [= _ <-].
    - destruct Hl as (_ & [-> _] & _). done. }
  split; [|split; [|split]].
  - intros r w' E. destruct (Hget _ _ _ Her _ _ E) as [H1 H2]. split; [done|]. by intros st doc ->%H2.
  - intros r w' E. destruct (Hget _ _ _ Hes _ _ E) as [H1 H2]. split; [done|]. by intros st doc ->%H2.
  - intros r w' E. destruct (rules_put_cases rreq w) as [(msg & E' & _)|(v & _ & _ & E' & Hn)]; rewrite E' in E.
    + by injection E as <- <-.
    + pose proof (put_doc_spec v (next_rules rreq) w) as H. rewrite E in H.
      destruct r as [[st [doc|msg v']|st c msg]|e]; [| | |done].
      * destruct H as (_ & _ & -> & t & -> & _). pose proof (Hn _ Hr) as Hd. split; [|by intros st' doc' [= _ <-]].
        split; [by intros d [= <-]|apply Hw].
      * destruct H as (_ & _ & _ & _ & ->). done.
      * destruct H as (_ & _ & [-> | ->]); done.
  - intros r w' E. destruct (settings_patch_cases sreq w) as [(msg & E')|(v & _ & E' & Hn)]; rewrite E' in E.
    + by injection E as <- <-.
    + pose proof (put_doc_spec v (next_settings sreq) w) as H. rewrite E in H.
      destruct r as [[st [doc|msg v']|st c msg]|e]; [| | |done].
      * destruct H as (_ & _ & -> & t & -> & _). pose proof (Hn _ Hs) as Hd. split; [|by intros st' doc' [= _ <-]].
        split; [apply Hw|by intros d [= <-]].
      * destruct H as (_ & _ & _ & _ & ->). done.
      * destruct H as (_ & _ & [-> | ->]); done.
Qed.

Definition demo_rule : rule :=
  {| rl_ID := "cpu"; rl_Kind := "threshold"; rl_Metric := "cpu_percent"; rl_Label := None; rl_Op := "gt";
     rl_Value := Some (f64_of_Z 95); rl_ForSeconds := 60; rl_RecoverValue := None; rl_RecoverForSeconds := 0;
     rl_Match := None; rl_Severity := "critical"; rl_Enabled := true |}.
Definition demo_rules_req (hb : Z) : rulesPutReq :=
  {| rp_ExpectedVersion := Some 1; rp_HeartbeatSeconds := Some hb; rp_Rules := [demo_rule] |}.
Definition demo_settings_req : settingsPatchReq :=
  {| st_ExpectedVersion := Some 1; st_ReportIntervalSeconds := Some 60;
     st_DND := Some {| dnd_Enabled := true; dnd_Start := "22:30"; dnd_End := "07:00"; dnd_Timezone := "Europe/Berlin" |} |}.

Lemma documents_typed_witness :
  let w := world_of demo_db in
  ∃ st doc, (handleSettingsPatch (HE := demo_env) demo_settings_req w).1 = Ok (Reply st (Doc doc)) ∧ settings_typed doc.
Proof.
  intros w. destruct (handleSettingsPatch (HE := demo_env) demo_settings_req w) as [r w'] eqn:E.
  assert (∃ st doc, r = Ok (Reply st (Doc doc))) as (st & doc & Hr) by (vm_compute in E; injection E as <- _; by eexists _, _).
  exists st, doc. split; [done|].
  assert (typed_db (w_db w)) as Ht by (split; by intros d).
  destruct (documents_typed (HE := demo_env) w Ht eq_refl (demo_rules_req 60) demo_settings_req) as (_ & _ & _ & H).
  destruct (H r w' E) as [_ Hd]. by apply (Hd st).
Defined.

(** Two clients that change the same version, the request of the second handled between the
    first one's version check, which reads outside the transaction, and its first write. *)
Definition overlapping_puts `{HE : HubEnv} (expected : Z) (first second : rulesPutReq)
    : stM World herr (reply (doc_answer rulesDoc) * rulesDoc) :=
  withTx (r ← before_tx (doc ← put_check (D := rulesDoc) expected; a ← handleRulesPut second; mret (doc, a));
          out ← put_write (next_rules first r.1); mret (r.2, out.2)).

(** Both are answered 200, with the same new version, and the second client's document is lost. *)
Lemma put_race :
  let w := world_of (set_d_rules (Some (vd_default (D := rulesDoc) (Versioned := rules_versioned (HE := demo_env)))) demo_db) in
  match overlapping_puts (HE := demo_env) 1 (demo_rules_req 60) (demo_rules_req 120) w with
  | (Ok (Reply st (Doc doc2), doc1), w') =>
      st = 200 ∧ rd_Version doc1 = 2 ∧ rd_Version doc2 = 2 ∧ rd_HeartbeatSeconds doc2 = 120 ∧
      d_rules (w_db w') = Some doc1 ∧ rd_HeartbeatSeconds doc1 = 60
  | _ => False
  end.
Proof. vm_compute. repeat split. Qed.

(** ** Sources *)

(** The source a token is the key of. *)
Definition key_source (tok : string) (d : db) : option sourceRow :=
  head (filter (λ s, s_KeyHash s = hashToken tok ∧ s_DeletedAt s = None) (d_sources d)).

(** One source stored as [cols] says, logged as [sj]. *)
Definition edited (id : string) (f : sourceRow → sourceRow) (typ : string) (data : change_data) (t : Z) (d : db) : db :=
  log_change typ id data None t (set_d_sources (tbl_update id f (d_sources d)) d).

Section sources.
Context `{HE : HubEnv}.
Notation HM := (stM World herr).

(** An edit of the row in hand: nothing else of the world, and the row keeps its id. *)
Definition edits (edit : sourceRow → HM sourceRow) (P : sourceRow → sourceRow → Prop) : Prop :=
  ∀ s w s' w', edit s w = (Ok s', w') → P s s' ∧ s_ID s' = s_ID s ∧ w_tx w' = w_tx w ∧ same_outside w w'.

Lemma edit_source_Ok id only edit cols P w d ch src w' :
  edits edit P → w_tx w = Some d → edit_source id only edit cols w = (Ok (ch, src), w') →
  same_outside w w' ∧ ∃ old sj t, tbl_lookup id (d_sources d) = Some old ∧ s_DeletedAt old = None ∧ only old = true ∧
    P old src ∧ ch = [entry_of (logged "source" id (DSource sj) t d)] ∧
    w_tx w' = Some (edited id (cols src) "source" (DSource sj) t d).
Proof.
  intros Hedit Hd H. unfold edit_source in H. mrun H. apply (tx_row_Ok _ _ _ _ _ Hd) in Hrun as (Hold & Hd1 & S1).
  pose proof (tbl_lookup_Some _ _ _ Hold) as [_ Hid]. unfold pkey, source_key in Hid.
  destruct (decide (is_Some (s_DeletedAt a))) as [|Hdel]; [done|]. destruct (only a) eqn:Eo; [|done]. cbn [negb] in H.
  mrun H. apply Hedit in Hrun as (HP & Hid' & Hd2 & S2). rewrite Hd1 in Hd2.
  mrun H. apply (tx_exec_Ok _ _ _ _ _ Hd2) in Hrun as [Hd3 S3].
  mrun H. apply (emitSourceChangeTx_Ok _ _ _ _ _ _ Hd3) in Hrun as (sj & t & Hd4 & S4 & ->). injection H as <- <- <-.
  split; [by do 3 (etransitivity; [eassumption|])|]. exists a, sj, t. rewrite Hid', Hid in Hd4.
  split; [done|]. split; [by apply eq_None_not_Some|]. split_and!; done.
Qed.

Lemma sealed_edit id only edit cols : (∀ s, sealed (edit s)) → sealed (edit_source id only edit cols).
Proof. intros He d0 b0. unfold edit_source. pres. Qed.

(** A transaction that succeeds commits and, with [publish], announces. *)
Lemma withTx_publish {A} (fn : HM (list changeEntry * A)) w ch a w1 :
  withTx fn w = (Ok (ch, a), w1) →
  ∃ w0 w2, w_tx w0 = Some (w_db w) ∧ same_outside w w0 ∧ fn w0 = (Ok (ch, a), w2) ∧ w_tx w2 = Some (w_db w1) ∧
    w_broker w1 = w_broker w2.
Proof. intros (w0 & w2 & d' & Ht & Ho & Hf & Ht2 & <- & _ & _ & Hb)%withTx_Ok. exists w0, w2. done. Qed.

(** A committed edit. *)
Lemma edit_committed id only edit cols P w ch src w1 :
  edits edit P → withTx (edit_source id only edit cols) w = (Ok (ch, src), w1) →
  ∃ old sj t, tbl_lookup id (d_sources (w_db w)) = Some old ∧ s_DeletedAt old = None ∧ only old = true ∧ P old src ∧
    w_db w1 = edited id (cols src) "source" (DSource sj) t (w_db w) ∧
    ch = [entry_of (logged "source" id (DSource sj) t (w_db w))] ∧ w_broker w1 = w_broker w.
Proof.
  intros He (w0 & w2 & Ht & (_ & _ & Hb0 & _) & Hf & Ht2 & Hb)%withTx_publish.
  apply (edit_source_Ok _ _ _ _ P _ _ _ _ _ He Ht) in Hf as ((_ & _ & Hb1 & _) & old & sj & t & H1 & H2 & H3 & H4 & H5 & H6).
  exists old, sj, t. split_and!; try done; congruence.
Qed.
End sources.

Section source_answers.
Context `{HE : HubEnv}.
Notation HM := (stM World herr).

Lemma withTx_Err_body {A} (fn : HM A) w e w' :
  withTx fn w = (Err e, w') → e ≠ EIO → ∃ w0 w1, w_tx w0 = Some (w_db w) ∧ fn w0 = (Err e, w1).
Proof.
  unfold withTx. destruct (h_io (w_calls w)); [by intros [= <- _]|]. set (w0 := wset_tx _ _).
  destruct (fn w0) as [[a|e1] w1] eqn:Ef.
  - destruct (h_io _); [by intros [= <- _]|]. destruct (w_tx w1); [done|]. by intros [= <- _].
  - intros [= -> _] _. by exists w0, w1.
Qed.

(** A source that can be managed. *)
Definition live (id : string) (d : db) (s : sourceRow) : Prop := tbl_lookup id (d_sources d) = Some s ∧ s_DeletedAt s = None.

(** How an edit of a source fails. *)
Lemma edit_source_Err id only edit cols w d e w' :
  w_tx w = Some d → edit_source id only edit cols w = (Err e, w') →
  (e = ENoRows → errs (λ e, e ≠ ENoRows) (edit (default demo_source (tbl_lookup id (d_sources d)))) →
     ¬ ∃ s, live id d s ∧ only s = true) ∧
  (∀ msg, e = EInvalid msg → ∃ s w1 w2, live id d s ∧ only s = true ∧ edit s w1 = (Err (EInvalid msg), w2)).
Proof.
  intros Hd. unfold edit_source, loadSourceTx, mbind, stM_bind, tx_row at 1, tx_call at 1. rewrite Hd.
  destruct (h_io _); [by intros [= <- _]|]. destruct (tbl_lookup id (d_sources d)) as [s|] eqn:El.
  2:{ intros [= <- _]. split; [|done]. intros _ _ (s & [Hs _] & _). congruence. }
  assert (∀ s', live id d s' → s' = s) as Huniq by (intros s' [Hs _]; congruence). change (default demo_source (Some s)) with s.
  destruct (decide (is_Some (s_DeletedAt s))) as [[t Ht]|Hdel].
  { intros [= <- _]. split; [|done]. intros _ _ (s' & Hs' & _). pose proof (Huniq s' Hs') as ->. destruct Hs'. congruence. }
  apply eq_None_not_Some in Hdel. destruct (only s) eqn:Eo; cbn [negb].
  2:{ intros [= <- _]. split; [|done]. intros _ _ (s' & Hs' & Ho). pose proof (Huniq s' Hs') as ->. congruence. }
  match goal with |- context [edit s ?w0] => destruct (edit s w0) as [[s1|e1] w1] eqn:Ee end.
  - intros H. assert (errs (λ e, e ≠ ENoRows ∧ ∀ m, e ≠ EInvalid m)
      (tx_exec (λ d, set_d_sources (tbl_update (s_ID s1) (cols s1) (d_sources d)) d) ;;
       changes ← emitSourceChangeTx s1 []; mret (changes, s1))) as Herr by errs_steps.
    apply Herr in H as [H1 H2]. split; [done|]. intros msg Hm. by apply H2 in Hm.
  - intros [= -> _]. split; [|intros msg ->; by eexists _, _, _]. intros -> He. by apply He in Ee.
Qed.

Lemma edits_rotate key : edits (λ src : sourceRow, now ← nowUTC;
    mret (set_s_KeyPlain key (set_s_KeyHash (hashToken key) (set_s_KeyHint (last4 key) (set_s_UpdatedAt (fmtTS now) src)))))
  (λ old src, s_KeyHash src = hashToken key ∧ s_KeyPlain src = key ∧ s_KeyHint src = last4 key).
Proof. intros s w s' w' [= <- <-]. by repeat split. Qed.

Lemma elem_of_update {K R} `{EqDecision K} `{!Keyed K R} (k : K) (f : R → R) t x :
  x ∈ tbl_update k f t ↔ ∃ y, y ∈ t ∧ x = if decide (pkey y = k) then f y else y.
Proof. unfold tbl_update. rewrite list_elem_of_fmap. naive_solver. Qed.

Lemma head_filter_update {K R} `{EqDecision K} `{!Keyed K R} (k : K) (f : R → R) (P : R → Prop)
    `{!∀ x, Decision (P x)} t row :
  (∀ y, pkey y = k → ¬ P (f y)) → head (filter P t) = Some row → pkey row ≠ k →
  head (filter P (tbl_update k f t)) = Some row.
Proof.
  intros Hf. unfold tbl_update. induction t as [|y t IH]; [done|]. rewrite fmap_cons, !filter_cons. intros Hh Hrow.
  destruct (decide (pkey y = k)) as [Hy|Hy].
  - rewrite decide_False by (by apply Hf). destruct (decide (P y)); [|by apply IH].
    cbn in Hh. injection Hh as ->. done.
  - destruct (decide (P y)); [done|by apply IH].
Qed.

Lemma head_filter_in {R} (P : R → Prop) `{!∀ x, Decision (P x)} t row : head (filter P t) = Some row → P row ∧ row ∈ t.
Proof.
  intros Hh. assert (row ∈ filter P t) as Hin by (destruct (filter P t); [done|]; injection Hh as ->; left).
  by apply list_elem_of_filter in Hin.
Qed.

(** What an edit of one source's key means for the keys. *)
Lemma edited_keys id f typ data t d h :
  (∀ s, s_ID s = id → s_ID (f s) = id ∧ (s_DeletedAt (f s) = None → s_KeyHash (f s) = h)) →
  (∀ tok row, key_source tok (edited id f typ data t d) = Some row → s_ID row = id → hashToken tok = h ∧ s_DeletedAt row = None) ∧
  (∀ tok row, key_source tok d = Some row → s_ID row ≠ id → hashToken tok ≠ h →
     key_source tok (edited id f typ data t d) = Some row).
Proof.
  intros Hf. unfold key_source. change (d_sources (edited id f typ data t d)) with (tbl_update id f (d_sources d)). split.
  - intros tok row ([Hh Hdel] & (y & Hy & ->)%elem_of_update)%head_filter_in Hid.
    destruct (decide (pkey y = id)) as [Hk|Hk]; [|done]. split; [|done]. rewrite <-Hh. apply Hf; done.
  - intros tok row Hrow Hne Hh. apply head_filter_update; [|done|done]. intros y Hy [H1 H2]. apply Hh. rewrite <-H1. by apply Hf.
Qed.
End source_answers.

Section source_handlers.
Context `{HE : HubEnv} (url_parse : string → option URL).

(** A rotation that is answered with a key has committed and announced it. *)
Lemma rotate_answer cfg id w st key block w' :
  handleSourceRotateKey url_parse cfg id w = (Ok (Reply st (key, block)), w') →
  st = 200 ∧ ∃ old new sj t, live id (w_db w) old ∧ s_KeyHash new = hashToken key ∧ s_KeyPlain new = key ∧
    s_KeyHint new = last4 key ∧
    w_db w' = edited id (key_columns new) "source" (DSource sj) t (w_db w) ∧
    w_broker w' = Publish (entry_of (logged "source" id (DSource sj) t (w_db w))) (w_broker w).
Proof.
  unfold handleSourceRotateKey. intros H. mrun H. injection Hrun as <- <-. set (k := ("ask_" +:+ _)%string) in *.
  set (w0 := wset_rands _ _) in *. mrun H. unfold st_try in Hrun.
  destruct (withTx (rotate_tx id k) w0) as [[[ch src]|e] w1] eqn:E; injection Hrun as <- <-; [|by destruct e].
  apply (edit_committed _ _ _ _ _ _ _ _ _ (edits_rotate k)) in E as (old & sj & t & Hold & Hdel & _ & (Hh & Hp & Hhint) & Hd & -> & Hb).
  mrun H. injection Hrun as <- <-. mrun H. apply db_row_try_Ok in Hrun as [_ (Hd2 & _ & Hb2 & _)].
  destruct a as [row|]; [|done]. injection H as Hr <-. case_decide; [done|]. injection Hr as <- <- _.
  split; [done|]. exists old, src, sj, t. split; [done|]. split_and!; try done.
  - rewrite Hd2. exact Hd.
  - rewrite Hb2. cbn. by rewrite Hb.
Qed.

Lemma delete_tx_Ok id w d ch w' :
  w_tx w = Some d → delete_tx id w = (Ok ch, w') →
  same_outside w w' ∧ ∃ old now t, live id d old ∧ ch = [entry_of (logged "tombstone" id (DTombstone "source" id) t d)] ∧
    w_tx w' = Some (edited id (deleted_columns now) "tombstone" (DTombstone "source" id) t d).
Proof.
  intros Hd H. unfold delete_tx in H. mrun H. apply (tx_row_Ok _ _ _ _ _ Hd) in Hrun as (Hold & Hd1 & S1).
  pose proof (tbl_lookup_Some _ _ _ Hold) as [_ Hid]. unfold pkey, source_key in Hid.
  destruct (decide (is_Some (s_DeletedAt a))) as [|Hdel]; [done|]. mrun H. apply nowUTC_Ok in Hrun as [Hd2 S2].
  rewrite Hd1 in Hd2. mrun H. apply (tx_exec_Ok _ _ _ _ _ Hd2) in Hrun as [Hd3 S3].
  mrun H. apply (insertChange_Ok _ _ _ _ _ _ _ _ Hd3) in Hrun as (t & Hd4 & S4 & ->). injection H as <- <-.
  rewrite Hid in *. split; [by do 3 (etransitivity; [eassumption|])|]. eexists a, _, t.
  split; [split; [done|by apply eq_None_not_Some]|]. split; [done|exact Hd4].
Qed.

Lemma delete_answer id w st w' :
  handleSourceDelete id w = (Ok (Reply st ()), w') →
  st = 204 ∧ ∃ old now t, live id (w_db w) old ∧
    w_db w' = edited id (deleted_columns now) "tombstone" (DTombstone "source" id) t (w_db w) ∧
    w_broker w' = Publish (entry_of (logged "tombstone" id (DTombstone "source" id) t (w_db w))) (w_broker w).
Proof.
  unfold handleSourceDelete, st_try, mbind, stM_bind. destruct (withTx (delete_tx id) w) as [[ch|e] w1] eqn:E; [|by destruct e].
  apply withTx_Ok in E as (w0 & w2 & d' & Ht & (_ & _ & Hb0 & _) & Hf & Ht2 & Hd & _ & _ & Hb).
  apply (delete_tx_Ok _ _ _ _ _ Ht) in Hf as ((_ & _ & Hb1 & _) & old & now & t & Hlive & -> & Hd2).
  intros [= <- <-]. split; [done|]. exists old, now, t. split; [done|]. split.
  - cbn. congruence.
  - cbn. by rewrite Hb, Hb1, Hb0.
Qed.
End source_handlers.

(** C30: keys of sources.  When a rotation is answered, the key in the answer is the only one
    that opens the source (any token that does has its hash), and it does open it unless
    another source already has that hash; after a deletion no token opens the source.  The
    tokens of the other sources open what they opened.  Either change is announced once. *)
Theorem source_keys `{HE : HubEnv} (url_parse : string → option URL) cfg id w :
  (∀ st key block w', handleSourceRotateKey url_parse cfg id w = (Ok (Reply st (key, block)), w') →
     st = 200 ∧ (∃ old, live id (w_db w) old) ∧ (∃ e, w_broker w' = Publish e (w_broker w) ∧ ce_Type e = "source"%string) ∧
     (∀ tok row, key_source tok (w_db w') = Some row → s_ID row = id → hashToken tok = hashToken key) ∧
     ((∀ s, s ∈ d_sources (w_db w) → s_ID s ≠ id → s_KeyHash s ≠ hashToken key) →
        ∃ row, key_source key (w_db w') = Some row ∧ s_ID row = id) ∧
     (∀ tok row, key_source tok (w_db w) = Some row → s_ID row ≠ id → hashToken tok ≠ hashToken key →
        key_source tok (w_db w') = Some row)) ∧
  (∀ st w', handleSourceDelete id w = (Ok (Reply st ()), w') →
     st = 204 ∧ (∃ old, live id (w_db w) old) ∧ (∃ e, w_broker w' = Publish e (w_broker w) ∧ ce_Data e = DTombstone "source" id) ∧
     (∀ tok row, key_source tok (w_db w') = Some row → s_ID row ≠ id) ∧
     (∀ tok row, key_source tok (w_db w) = Some row → s_ID row ≠ id → key_source tok (w_db w') = Some row)).
Proof.
  split.
  - intros st key block w' (-> & old & new & sj & t & Hlive & Hh & _ & _ & Hd & Hb)%rotate_answer.
    destruct (edited_keys id (key_columns new) "source" (DSource sj) t (w_db w) (hashToken key)) as [H1 H2];
      [intros s Hs; by rewrite <-Hh|]. rewrite <-Hd in H1, H2.
    split; [done|]. split; [by exists old|]. split; [by eexists|]. split; [intros tok row Hr Hi; by destruct (H1 tok row Hr Hi)|].
    split; [|done]. intros Hfresh. rewrite Hd. unfold key_source, edited. cbn [d_sources log_change set_d_changes bump_seq set_d_meta set_d_sources].
    destruct Hlive as [Hold Hdel]. pose proof (tbl_lookup_Some _ _ _ Hold) as [Hin Hid]. unfold pkey, source_key in Hid.
    assert (key_columns new old ∈ filter (λ s, s_KeyHash s = hashToken key ∧ s_DeletedAt s = None)
      (tbl_update id (key_columns new) (d_sources (w_db w)))) as Hrow.
    { apply list_elem_of_filter. split; [by rewrite <-Hh|]. apply elem_of_update. exists old. split; [done|].
      unfold pkey, source_key. by rewrite decide_True. }
    destruct (filter _ (tbl_update _ _ _)) as [|row rows] eqn:Ef; [by apply elem_of_nil in Hrow|].
    exists row. split; [done|]. assert (row ∈ row :: rows) as Hr by left. rewrite <-Ef in Hr.
    apply list_elem_of_filter in Hr as [[Hk _] (y & Hy & ->)%elem_of_update]. unfold pkey, source_key in *.
    destruct (decide (s_ID y = id)) as [|Hne]; [done|]. by destruct (Hfresh y Hy Hne).
  - intros st w' (-> & old & now & t & Hlive & Hd & Hb)%delete_answer.
    assert (∀ tok row, key_source tok (w_db w') = Some row → s_ID row ≠ id) as Hgone.
    { intros tok row Hr Hi. rewrite Hd in Hr. unfold key_source, edited in Hr.
      cbn [d_sources log_change set_d_changes bump_seq set_d_meta set_d_sources] in Hr.
      apply head_filter_in in Hr as [[_ Hdel] (y & Hy & ->)%elem_of_update]. unfold pkey, source_key in *.
      destruct (decide (s_ID y = id)); done. }
    split; [done|]. split; [by exists old|]. split; [by eexists|]. split; [done|].
    intros tok row Hr Hne. rewrite Hd. unfold key_source, edited.
    cbn [d_sources log_change set_d_changes bump_seq set_d_meta set_d_sources].
    apply head_filter_update; [|done|done]. by intros y _ [_ [=]].
Qed.

(** A parser of addresses for the examples: everything is on one host. *)
Definition demo_parse (s : string) : option URL :=
  Some {| u_Scheme := "https"; u_Host := "feedback.example.org"; u_Path := "/"; u_User := false; u_RawQuery := ""; u_Fragment := "" |}.

Definition demo_cfg_url (url : string) : config :=
  {| cfg_bind := ""; cfg_dbPath := ""; cfg_adminUser := "admin"; cfg_adminPassword := ""; cfg_baseURL := url;
     cfg_rawDays := 7; cfg_rollupDays := 90; cfg_messagesDays := 90; cfg_changesDays := 30; cfg_changesMinSeq := 1000;
     cfg_heartbeatInterval := Minute; cfg_rollupInterval := Minute; cfg_retentionInterval := Hour; cfg_agentVersion := "";
     cfg_agentCacheDir := ""; cfg_agentCacheMaxBytes := 0 |}.

Lemma source_keys_witness :
  let w := world_of demo_db in
  ∃ key block w', handleSourceRotateKey (HE := demo_env) demo_parse (demo_cfg_url "https://hub.example.org") "src_1" w =
    (Ok (Reply 200 (key, block)), w') ∧ ∃ row, key_source key (w_db w') = Some row ∧ s_ID row = "src_1"%string.
Proof.
  intros w. set (cfg := demo_cfg_url "https://hub.example.org").
  assert (∃ key block w', handleSourceRotateKey (HE := demo_env) demo_parse cfg "src_1" w = (Ok (Reply 200 (key, block)), w'))
    as (key & block & w' & E) by (eexists _, _, _; vm_compute; reflexivity).
  exists key, block, w'. split; [exact E|].
  destruct (source_keys (HE := demo_env) demo_parse cfg "src_1" w) as [H _].
  destruct (H _ _ _ _ E) as (_ & _ & _ & _ & Hopen & _). apply Hopen.
  intros s [->|Hs]%elem_of_cons Hne; [done|]. by apply elem_of_nil in Hs.
Defined.

(** ** Patching a source *)

Lemma patch_source_absent `{HE : HubEnv} url_parse req s s' :
  patch_source url_parse req s = inr s' →
  (sp_name req = None → s_Name s' = s_Name s) ∧ (sp_enabled req = None → s_Enabled s' = s_Enabled s) ∧
  (sp_attachmentBaseUrl req = None → s_AttachmentBaseURL s' = s_AttachmentBaseURL s) ∧
  (sp_mgmtKey req = None → s_MgmtKeyPlain s' = s_MgmtKeyPlain s ∧ s_MgmtKeyHint s' = s_MgmtKeyHint s) ∧
  s_ID s' = s_ID s ∧ s_Kind s' = s_Kind s ∧ s_KeyHash s' = s_KeyHash s ∧ s_DeletedAt s' = s_DeletedAt s.
Proof.
  assert (∀ f v (x : string + sourceRow) y, patch_field f v x = inr y → ∃ x', x = inr x' ∧ match v with Some v => f v x' = inr y | None => y = x' end) as Hfield.
  { intros f v [x|x] y; [by destruct v|]. destruct v as [v|]; cbn; intros Hf; exists x; [done|]. split; [done|congruence]. }
  unfold patch_source. intros (s3 & (s2 & (s1 & (s0 & [= <-] & H1)%Hfield & H2)%Hfield & H3)%Hfield & H4)%Hfield.
  assert (match sp_name req with Some v => ∃ n, s1 = set_s_Name n s | None => s1 = s end) as H1'.
  { destruct (sp_name req) as [v|]; [|done]. unfold patch_name in H1. destruct (unmarshal_string v) as [n|]; [|done].
    case_decide; [done|]. injection H1 as <-. by exists n. }
  assert (match sp_enabled req with Some v => ∃ b, s2 = set_s_Enabled b s1 | None => s2 = s1 end) as H2'.
  { destruct (sp_enabled req) as [v|]; [|done]. unfold patch_enabled in H2. destruct (unmarshal_bool v) as [b|]; [|done].
    injection H2 as <-. by exists b. }
  assert (match sp_attachmentBaseUrl req with Some v => ∃ b, s3 = set_s_AttachmentBaseURL b s2 | None => s3 = s2 end) as H3'.
  { destruct (sp_attachmentBaseUrl req) as [v|]; [|done]. unfold patch_base in H3.
    destruct v; cbn in H3; try case_decide; try done; injection H3 as <-; by eexists. }
  assert (match sp_mgmtKey req with Some v => ∃ p h, s' = set_s_MgmtKeyPlain p (set_s_MgmtKeyHint h s3) | None => s' = s3 end) as H4'.
  { destruct (sp_mgmtKey req) as [v|]; [|done]. unfold patch_mgmt in H4. destruct (mgmt_key _ _) as [|[p h]]; [done|].
    injection H4 as <-. by exists p, h. }
  clear H1 H2 H3 H4 Hfield.
  destruct (sp_name req); [destruct H1' as [? ->]|subst s1]; (destruct (sp_enabled req); [destruct H2' as [? ->]|subst s2]);
    (destruct (sp_attachmentBaseUrl req); [destruct H3' as [? ->]|subst s3]);
    (destruct (sp_mgmtKey req); [destruct H4' as (? & ? & ->)|subst s']); by repeat split.
Qed.

Section patching.
Context `{HE : HubEnv} (url_parse : string → option URL).

(** The edit of a patch. *)
Lemma edits_patch req : edits (λ src : sourceRow,
    match patch_source url_parse req src with
    | inl msg => st_throw (EInvalid msg)
    | inr src => now ← nowUTC; mret (set_s_UpdatedAt (fmtTS now) src)
    end)
  (λ old src, ∃ new now, patch_source url_parse req old = inr new ∧ src = set_s_UpdatedAt (fmtTS now) new).
Proof.
  intros s w s' w' H. destruct (patch_source url_parse req s) as [msg|new] eqn:E; [done|]. mrun H. injection H as <- <-.
  apply nowUTC_Ok in Hrun as [H1 H2]. split; [by eexists _, _|]. split; [|done].
  destruct (patch_source_absent _ _ _ _ E) as (_ & _ & _ & _ & Hid & _). exact Hid.
Qed.

Lemma sealed_patch id req : sealed (patch_tx url_parse id req).
Proof. intros d0 b0. unfold patch_tx, edit_source. pres. Qed.

Lemma errs_tail (r : list changeEntry * sourceRow) :
  errs (λ e, e ≠ ENoRows ∧ ∀ m, e ≠ EInvalid m) (hb ← heartbeatSeconds; t ← nowUTC; mret (r.1, toSourceJSON r.2 hb t)).
Proof. errs_steps. Qed.

Lemma patch_tx_Err id req w d e w' :
  w_tx w = Some d → patch_tx url_parse id req w = (Err e, w') →
  (e = ENoRows → ¬ ∃ s, live id d s) ∧
  (∀ msg, e = EInvalid msg → ∃ s, live id d s ∧ patch_source url_parse req s = inl msg).
Proof.
  intros Hd H. unfold patch_tx in H. unfold mbind at 1, stM_bind at 1 in H.
  destruct (edit_source _ _ _ _ w) as [[r|e1] w1] eqn:E.
  - apply (errs_tail r) in H as [H1 H2]. split; [done|]. by intros msg ?%H2.
  - injection H as -> _. apply (edit_source_Err _ _ _ _ _ d _ _ Hd) in E as [H1 H2]. split.
    + intros He (s & Hs). apply (H1 He); [|by exists s]. intros w2 e2 w3. destruct (patch_source _ _ _); [by intros [= <- _]|done].
    + intros msg (s & w2 & w3 & Hs & _ & Hedit)%H2. exists s. split; [done|].
      destruct (patch_source url_parse req s) as [m|new]; [|done]. by injection Hedit as -> _.
Qed.
End patching.

