(* ===== verification/Nas.v ===== *)
(** Disks and storage pools of a server ([agent/internal/collect/smartctl.go], [pools.go], the
    NAS half of [provider.go]).

    What the provider is given (sub-processes, the search path, files) is a record of
    functions; the commands it runs are logged, because which ones it may run is part of what
    it promises: a sleeping disk is never woken.  Probes that run in parallel write to places
    of their own, so they are run one after the other.  [encoding/json] into the two types
    of smartctl's output is a parameter. *)

From S2P Require Import Prelude GoBase GoTime Regex Pattern Collect Handlers.
From Stdlib Require Import Ascii.
Local Open Scope Z_scope.

(** ** The provider *)

(** A command: its name and arguments. *)
Definition command : Type := string * list string.

(* @src agent/internal/collect/provider.go 18-31 sysProvider *)
(** [sy_run]: the output of a command and the text of its error. *)
Record sysProvider := {
  sy_SmartMode : string;
  sy_run : command → string * option string;
  sy_lookPath : string → bool;
  sy_readFile : string → option string;
  sy_listDir : string → option (list string);
  sy_enableMdadm : bool;
  sy_disks : list DiskUsage }.

(** Computations that run commands: the log of the commands so far. *)
Notation CM := (stM (list command) Empty_set).

Section nas.
Variable p : sysProvider.

Definition Run (name : string) (args : list string) : CM (string * option string) := λ log,
  (Ok (sy_run p (name, args)), log ++ [(name, args)]).

(** ** Pools *)

(* @src agent/internal/collect/pools.go 12-18 !btrfsLabelRe *)
Definition btrfsLabelRe : pattern :=
  PSeq (PLit "Label:") (PSeq (PMany1 space_cls)
    (PSeq (POr (PSeq (PLit "'") (PSeq (PGroup 1 (PMany (λ c, negb (is_char "'" c)))) (PLit "'"))) (PGroup 2 (PMany1 nonspace_cls)))
      (PSeq (PMany1 space_cls) (PSeq (PLit "uuid:") (PSeq (PMany1 space_cls) (PGroup 3 (PMany1 nonspace_cls))))))).
Definition mdadmArrayRe : pattern :=
  PSeq (PGroup 1 (PSeq (PLit "md") (PMany1 digit_byte)))
    (PSeq (PMany space_cls) (PSeq (PLit ":") (PSeq (PMany space_cls) (PGroup 2 (PMany1 word_cls))))).
Definition mdadmStatusRe : pattern :=
  PSeq (PLit "[") (PSeq (PGroup 1 (PMany1 (λ c, is_char "U" c || is_char "_" c))) (PLit "]")).
Definition zpoolNoPoolsRe : pattern := PFold "no pools available".
Definition btrfsNoneRe : pattern := POr (PFold "no btrfs") (POr (PFold "no valid btrfs") (PFold "can't read")).

(** [flush] *)
Definition flush_pool (pools : list NASPool) (cur : option NASPool) : list NASPool :=
  match cur with Some q => pools ++ [q] | None => pools end.

Definition btrfs_line (st : list NASPool * option NASPool) (line : string) : list NASPool * option NASPool :=
  match pfind btrfsLabelRe line with
  | Some m =>
    let name := if decide (group 1 m = "" ∨ group 1 m = "none") then group 3 m else group 1 m in
    (flush_pool st.1 st.2, Some {| np_Name := name; np_State := "ok" |})
  | None =>
    match st.2 with
    | Some q => if contains "Some devices missing" line then (st.1, Some {| np_Name := np_Name q; np_State := "degraded" |}) else st
    | None => st
    end
  end%string.

Definition lines (s : string) : list string := split_on (ascii_of_nat 10) s.

(* @src agent/internal/collect/pools.go 77-108 parseBtrfsShow *)
Definition parseBtrfsShow (out : string) : list NASPool :=
  let st := foldl btrfs_line ([], None) (lines out) in flush_pool st.1 st.2.

(* @src agent/internal/collect/pools.go 147-158 zpoolHealth *)
Definition zpoolHealth (h : string) : string :=
  let u := to_upper h in
  if decide (u = "ONLINE") then "ok"
  else if decide (u = "DEGRADED") then "degraded"
  else if decide (u ∈ ["FAULTED"; "UNAVAIL"; "REMOVED"; "SUSPENDED"]) then "error"
  else "unknown"%string.

(** The body of the loop. *)
Definition zpool_row (line : string) : list NASPool :=
  let line := trim_space line in
  if decide (line = EmptyString) then []
  else match fields line with
       | name :: health :: _ => [{| np_Name := name; np_State := zpoolHealth health |}]
       | _ => []
       end.

(* @src agent/internal/collect/pools.go 130-145 parseZpoolList *)
Definition parseZpoolList (out : string) : list NASPool := concat (zpool_row <$> lines out).

Definition mdstat_line (st : list NASPool * option NASPool) (line : string) : list NASPool * option NASPool :=
  match pmatch_here mdadmArrayRe line with
  | Some m =>
    let act := to_lower (group 2 m) in
    (flush_pool st.1 st.2,
     Some {| np_Name := group 1 m;
             np_State := if decide (act = "active") then "ok" else if decide (act = "inactive") then "error" else "unknown" |})
  | None =>
    match st.2 with
    | Some q =>
      match pfind mdadmStatusRe line with
      | Some m =>
        if contains "_" (group 1 m) then (st.1, Some {| np_Name := np_Name q; np_State := "degraded" |})
        else if decide (np_State q = "unknown") then (st.1, Some {| np_Name := np_Name q; np_State := "ok" |})
        else st
      | None => st
      end
    | None => st
    end
  end%string.

(* @src agent/internal/collect/pools.go 169-207 parseMdstat *)
Definition parseMdstat (content : string) : list NASPool :=
  let st := foldl mdstat_line ([], None) (lines content) in flush_pool st.1 st.2.

(* @src agent/internal/collect/pools.go 209-226 wrapRunErr *)
(** The text of the wrapped error. *)
Definition wrapRunErr (what out err : string) : string :=
  let msg := trim_space out in
  if decide (msg = "") then err else (what +:+ ": " +:+ err +:+ ": " +:+ msg)%string.

(* @src agent/internal/collect/pools.go 68-75 btrfsPools *)
Definition btrfsPools : CM (outcome string (list NASPool)) :=
  r ← Run "btrfs" ["filesystem"; "show"]%string;
  mret match r.2 with
       | Some err => Err (wrapRunErr "btrfs filesystem show" r.1 err)
       | None => Ok (parseBtrfsShow r.1)
       end.

(* @src agent/internal/collect/pools.go 110-119 btrfsMountPools *)
Definition btrfsMountPools : list NASPool :=
  (λ d, {| np_Name := du_Mount d; np_State := "ok" |}) <$> filter (λ d, du_Fstype d = "btrfs"%string) (sy_disks p).

(* @src agent/internal/collect/pools.go 121-128 zpoolPools *)
Definition zpoolPools : CM (outcome string (list NASPool)) :=
  r ← Run "zpool" ["list"; "-H"; "-o"; "name,health"]%string;
  mret match r.2 with
       | Some err => Err (wrapRunErr "zpool list" r.1 err)
       | None => Ok (parseZpoolList r.1)
       end.

(* @src agent/internal/collect/pools.go 160-167 mdadmPools *)
(** It never fails. *)
Definition mdadmPools : list NASPool :=
  match sy_readFile p "/proc/mdstat" with Some b => parseMdstat b | None => [] end.

(** The pools of one tool and whether it failed. *)
Definition pool_result (none : pattern) (r : outcome string (list NASPool)) : list NASPool * bool :=
  match r with
  | Err err => ([], negb (pfound none err))
  | Ok pools => (pools, false)
  end.

(* @src agent/internal/collect/pools.go 20-66 probePools *)
Definition probePools : CM (list NASPool * CapStatus) :=
  b ← (if sy_lookPath p "btrfs" then r ← btrfsPools; mret (pool_result btrfsNoneRe r) else mret (btrfsMountPools, false));
  z ← (if sy_lookPath p "zpool" then r ← zpoolPools; mret (pool_result zpoolNoPoolsRe r) else mret ([], false));
  let m := if sy_enableMdadm p then mdadmPools else [] in
  let pools := b.1 ++ z.1 ++ m in
  mret (if decide (0 < length pools)%nat then (pools, CapOK)
        else if b.2 || z.2 then ([], CapFailed) else ([], CapUnsupported)).

(** ** SMART *)

(* @src agent/internal/collect/smartctl.go 43-43 !sysBlockDiskRe *)
Definition letters : regex := Cls [("a", "z")]%char.
Definition sysBlockDiskRe : regex :=
  Alt (Cat (Lit "sd") (Plus letters))
    (Alt (Cat (Lit "hd") (Plus letters)) (Cat (Lit "nvme") (Cat (Plus digit_cls) (Cat (Lit "n") (Plus digit_cls))))).

Definition standbyMsgRe : pattern :=
  POr (PFold "in standby") (POr (PFold "in sleep") (POr (PFold "sleep mode") (PFold "is sleeping"))).
Definition smartUnsupRe : pattern :=
  POr (PFold "unknown usb bridge") (POr (PFold "unable to detect device type")
    (POr (PFold "lacks smart") (POr (PFold "smart not supported") (PFold "please specify device type")))).

(* @src agent/internal/collect/smartctl.go 48-67 smartctlJSON *)
Record smartctlJSON := {
  sc_Smartctl : option (Z * list string);       (* exit status, messages *)
  sc_PowerMode : string;
  sc_SmartStatus : option (option bool);        (* passed *)
  sc_Temperature : option (option float64);     (* current *)
  sc_NvmeLog : option (option float64 * option Z) }.  (* temperature in K, critical warning *)

(** [json.Unmarshal] of [smartctl --scan -j] (the names of its devices) and of [-A -j]. *)
Variable decode_scan : string → option (list string).
Variable decode_smartctl : string → option smartctlJSON.

(* @src agent/internal/collect/smartctl.go 125-156 discoverSmartDevices *)
Definition discoverSmartDevices : CM (list string) :=
  r ← Run "smartctl" ["--scan"; "-j"]%string;
  let devs := match r.2 with
              | Some _ => []
              | None => filter (λ d, d ≠ EmptyString) (default [] (decode_scan r.1))
              end in
  mret (if decide (0 < length devs)%nat then merge_sort str_le devs
        else merge_sort str_le
          (match sy_listDir p "/sys/block" with
           | Some es => (λ e, "/dev/" +:+ e)%string <$> filter (λ e, matches sysBlockDiskRe e = true) es
           | None => []
           end)).

(* @src agent/internal/collect/smartctl.go 232-246 smartTemp *)
Definition smartTemp (j : smartctlJSON) : option Z :=
  match sc_Temperature j with
  | Some (Some current) => Some (f64_to_int (f64_add current (f64_of_dec 5 (-1))))
  | _ =>
    match sc_NvmeLog j with
    | Some (Some kelvin, _) =>
      if f64_lt (f64_of_Z 0) kelvin then
        let v := f64_to_int (f64_add (f64_sub kelvin (f64_of_dec 27315 (-2))) (f64_of_dec 5 (-1))) in
        if decide (v < -50 ∨ 200 < v) then None else Some v
      else None
    | _ => None
    end
  end.

(** The loop over smartctl's messages: whether one says the disk sleeps, and whether one says
    the device is not supported. *)
Definition read_messages (msgs : list string) : bool * bool :=
  foldl (λ st s, (st.1 || (pfound standbyMsgRe s && negb (contains "not in" (to_lower s))), st.2 || pfound smartUnsupRe s))
    (false, false) msgs.

(* @src agent/internal/collect/smartctl.go 170-230 parseSmartctlA *)
Definition parseSmartctlA (out : string) : string * option Z :=
  if decide (trim_space out = EmptyString) then (EmptyString, None)
  else match decode_smartctl out with
  | None => (EmptyString, None)
  | Some j =>
    let pm := to_upper (sc_PowerMode j) in
    if contains "STANDBY" pm || contains "SLEEP" pm then ("asleep", None)
    else
    let '(standby, unsup) := match sc_Smartctl j with Some sc => read_messages sc.2 | None => (false, false) end in
    if standby then ("asleep", None)
    else
    let temp := smartTemp j in
    match sc_SmartStatus j with
    | Some (Some passed) => (if passed then "ok" else "failing", temp)
    | _ =>
      match sc_NvmeLog j with
      | Some (_, Some warning) => (if decide (warning = 0) then "ok" else "failing", temp)
      | _ =>
        if match sc_Smartctl j with Some sc => bool_decide (Z.land sc.1 8 ≠ 0) | None => false end then ("failing", temp)
        else if unsup then ("unsupported", temp) else ("failed", temp)
      end
    end
  end%string.

(* @src agent/internal/collect/smartctl.go 248-251 shortDev *)
Definition shortDev (dev : string) : string := trim_prefix "/dev/" dev.

(* @src agent/internal/collect/smartctl.go 158-168 smartOne *)
Definition smartOne (dev : string) : CM NASDisk :=
  r ← Run "smartctl" ["-n"; "standby"; "-A"; "-j"; dev]%string;
  let '(state, temp) := parseSmartctlA r.1 in
  let state := if decide (state = "") then
                 (match r.2 with None => if decide (r.1 = "") then "unsupported" else "failed" | Some _ => "failed" end)
               else state in
  mret {| nd_Dev := shortDev dev; nd_Smart := state; nd_TempC := temp |}%string.

(** What the disks found say about the capability. *)
Definition smart_cap (results : list NASDisk) : CapStatus :=
  let count s := length (filter (λ d, nd_Smart d = s) results) in
  if decide (count "failed" = length results) then CapFailed
  else if decide (count "unsupported" = length results) then CapUnsupported
  else if decide (0 < count "asleep")%nat then CapAsleep
  else CapOK%string.

(* @src agent/internal/collect/smartctl.go 69-123 probeSmart *)
Definition probeSmart : CM (list NASDisk * CapStatus) :=
  let mode := if decide (sy_SmartMode p = "") then "auto" else sy_SmartMode p in
  if decide (mode = "off") then mret ([], CapUnsupported)
  else if negb (sy_lookPath p "smartctl") then mret ([], if decide (mode = "on") then CapFailed else CapUnsupported)
  else
    devs ← discoverSmartDevices;
    if decide (devs = []) then mret ([], CapUnsupported)
    else
      results ← st_foldl (λ acc dev, d ← smartOne dev; mret (acc ++ [d])) [] devs;
      mret (results, smart_cap results)%string.

(* @src agent/internal/collect/provider.go 129-150 collectNAS *)
(** Capabilities of disks and pools, and the block of the sample. *)
Definition collectNAS : CM (CapStatus * CapStatus * option NAS) :=
  s ← probeSmart;
  q ← probePools;
  mret (s.2, q.2,
        if decide (0 < length s.1 ∨ 0 < length q.1)%nat then Some {| nas_Disks := s.1; nas_Pools := q.1 |} else None).
End nas.

(** ** The formats, on the outputs of the tools *)

Definition tab : string := String (ascii_of_nat 9) "".
Definition nl : string := String (ascii_of_nat 10) "".
Definition text (ls : list string) : string := concat_str ((λ l, (l +:+ nl)%string) <$> ls).

Example btrfs_example :
  parseBtrfsShow (text ["Label: 'storage1'  uuid: 550e8400"; tab +:+ "Total devices 2 FS bytes used 1.20TiB"; "";
                        "Label: none  uuid: 660e8400"; tab +:+ "*** Some devices missing"]%string) =
  [{| np_Name := "storage1"; np_State := "ok" |}; {| np_Name := "660e8400"; np_State := "degraded" |}].
Proof. vm_compute. reflexivity. Qed.

Example mdstat_example :
  parseMdstat (text ["Personalities : [raid1]"; "md0 : active raid1 sdb1[1] sda1[0]"; "      9767424 blocks [2/2] [UU]";
                     "md1 : active raid1 sdc1[0] sdd1[1]"; "      1953266304 blocks super 1.2 [2/1] [U_]";
                     "md2 : inactive sde1[0](S)"; "unused devices: <none>"]%string) =
  [{| np_Name := "md0"; np_State := "ok" |}; {| np_Name := "md1"; np_State := "degraded" |};
   {| np_Name := "md2"; np_State := "error" |}].
Proof. vm_compute. reflexivity. Qed.

(** ** Running commands *)

(** Every command [m] runs satisfies [P]. *)
Definition runs_only {A} (P : command → Prop) (m : stM (list command) Empty_set A) : Prop :=
  ∀ log, ∃ new, (m log).2 = log ++ new ∧ Forall P new.

Lemma runs_ret {A} P (a : A) : runs_only P (mret a).
Proof. intros log. exists []. by rewrite app_nil_r. Qed.

Lemma runs_bind {A B} P (m : stM (list command) Empty_set A) (k : A → stM (list command) Empty_set B) :
  runs_only P m → (∀ a, runs_only P (k a)) → runs_only P (m ≫= k).
Proof.
  intros Hm Hk log. unfold mbind, stM_bind. destruct (Hm log) as (n1 & E1 & H1).
  destruct (m log) as [[a|[]] log1]. cbn in E1. subst log1. destruct (Hk a (log ++ n1)) as (n2 & E2 & H2).
  exists (n1 ++ n2). rewrite E2, app_assoc. split; [done|by apply Forall_app].
Qed.

Lemma runs_foldl {A B} P (body : A → B → stM (list command) Empty_set A) a xs :
  (∀ a x, x ∈ xs → runs_only P (body a x)) → runs_only P (st_foldl body a xs).
Proof.
  revert a. induction xs as [|x xs IH]; intros a Hb; [apply runs_ret|]. cbn [st_foldl]. apply runs_bind.
  - apply Hb. left.
  - intros a'. apply IH. intros a'' y Hy. apply Hb. by right.
Qed.

Lemma runs_Run p (P : command → Prop) name args : P (name, args) → runs_only P (Run p name args).
Proof. intros HP log. exists [(name, args)]. split; [done|by constructor]. Qed.

(** The commands the collector may run: [-n standby] is what keeps a sleeping disk asleep. *)
Inductive harmless : command → Prop :=
| h_btrfs : harmless ("btrfs", ["filesystem"; "show"])%string
| h_zpool : harmless ("zpool", ["list"; "-H"; "-o"; "name,health"])%string
| h_scan : harmless ("smartctl", ["--scan"; "-j"])%string
| h_smart dev : harmless ("smartctl", ["-n"; "standby"; "-A"; "-j"; dev])%string.

Lemma runs_smart p ds dc : runs_only harmless (probeSmart p ds dc).
Proof.
  unfold probeSmart. generalize (if decide (sy_SmartMode p = "")%string then "auto"%string else sy_SmartMode p). intros mode.
  case_decide; [apply runs_ret|]. destruct (negb _); [apply runs_ret|].
  apply runs_bind; [apply runs_bind; [apply runs_Run; constructor|intros; apply runs_ret]|intros devs].
  case_decide; [apply runs_ret|]. apply runs_bind; [|intros; apply runs_ret]. apply runs_foldl. intros acc dev _.
  apply runs_bind; [|intros; apply runs_ret]. unfold smartOne. apply runs_bind; [apply runs_Run; constructor|].
  intros r. destruct (parseSmartctlA _ _) as [state temp]. apply runs_ret.
Qed.

Lemma runs_pools p : runs_only harmless (probePools p).
Proof.
  unfold probePools, btrfsPools, zpoolPools. apply runs_bind; [|intros b; apply runs_bind; [|intros; apply runs_ret]];
    (case_match; [|apply runs_ret]); (apply runs_bind; [|intros; apply runs_ret]);
    (apply runs_bind; [apply runs_Run; constructor|intros; apply runs_ret]).
Qed.

(** ** What a frame can say *)

Definition disk_ok (d : NASDisk) : Prop :=
  nd_Smart d ∈ ["ok"; "failing"; "asleep"; "unsupported"; "failed"]%string ∧
  (nd_Smart d = "asleep"%string → nd_TempC d = None).
Definition pool_ok (q : NASPool) : Prop := np_State q ∈ ["ok"; "degraded"; "error"; "unknown"]%string.

Lemma parse_smart_ok dc out state temp :
  parseSmartctlA dc out = (state, temp) → state ≠ EmptyString →
  disk_ok {| nd_Dev := ""; nd_Smart := state; nd_TempC := temp |}.
Proof.
  unfold parseSmartctlA, disk_ok. intros H Hne. cbn. revert H.
  repeat (case_decide || case_match); intros [= <- <-]; try done; (split; [|done]); set_solver.
Qed.

Lemma smartOne_ok p dc dev log : ∃ d log', smartOne p dc dev log = (Ok d, log') ∧ disk_ok d ∧ nd_Dev d = shortDev dev.
Proof.
  unfold smartOne, Run, mbind, stM_bind. destruct (sy_run p _) as [out err]. cbn [fst snd].
  destruct (parseSmartctlA dc out) as [state temp] eqn:E. eexists _, _. split; [reflexivity|]. split; [|done].
  case_decide as Hs; [|by apply (parse_smart_ok dc out)].
  unfold disk_ok. cbn. split; [|repeat case_match; try case_decide; done]. repeat case_match; try case_decide; set_solver.
Qed.

Lemma zpool_state h : zpoolHealth h ∈ ["ok"; "degraded"; "error"; "unknown"]%string.
Proof. unfold zpoolHealth. repeat case_decide; set_solver. Qed.

(** A parser that goes line by line keeps its pools well-formed. *)
Lemma flush_pool_ok (pools : list NASPool) cur :
  Forall pool_ok pools → (∀ q, cur = Some q → pool_ok q) → Forall pool_ok (flush_pool pools cur).
Proof. intros Hp Hc. destruct cur as [q|]; [|done]. apply Forall_app. split; [done|]. constructor; [by apply Hc|done]. Qed.

Lemma fold_lines_ok (step : list NASPool * option NASPool → string → list NASPool * option NASPool) ls :
  (∀ st line, Forall pool_ok st.1 → (∀ q, st.2 = Some q → pool_ok q) →
     Forall pool_ok (step st line).1 ∧ ∀ q, (step st line).2 = Some q → pool_ok q) →
  let st := foldl step ([], None) ls in Forall pool_ok (flush_pool st.1 st.2).
Proof.
  intros Hstep. assert (∀ st, Forall pool_ok st.1 → (∀ q, st.2 = Some q → pool_ok q) →
    Forall pool_ok (foldl step st ls).1 ∧ ∀ q, (foldl step st ls).2 = Some q → pool_ok q) as Hf.
  { induction ls as [|l ls IH]; intros st H1 H2; [done|]. cbn [foldl]. destruct (Hstep st l H1 H2). by apply IH. }
  destruct (Hf ([], None)) as [H1 H2]; [constructor|done|]. by apply flush_pool_ok.
Qed.

Lemma btrfs_ok out : Forall pool_ok (parseBtrfsShow out).
Proof.
  apply fold_lines_ok. intros st line H1 H2. unfold btrfs_line. destruct (pfind _ _).
  - split; [by apply flush_pool_ok|]. intros q [= <-]. unfold pool_ok. cbn. set_solver.
  - destruct (st.2) as [q|] eqn:E; [|by rewrite E]. destruct (contains _ _); [|by rewrite E].
    split; [done|]. intros q' [= <-]. unfold pool_ok. cbn. set_solver.
Qed.

Lemma mdstat_ok out : Forall pool_ok (parseMdstat out).
Proof.
  apply fold_lines_ok. intros st line H1 H2. unfold mdstat_line. destruct (pmatch_here _ _).
  - split; [by apply flush_pool_ok|]. intros q [= <-]. unfold pool_ok. cbn. repeat case_decide; set_solver.
  - destruct (st.2) as [q|] eqn:E; [|by rewrite E]. destruct (pfind _ _); [|by rewrite E].
    destruct (contains _ _); [split; [done|]; intros q' [= <-]; unfold pool_ok; cbn; set_solver|].
    case_decide; [split; [done|]; intros q' [= <-]; unfold pool_ok; cbn; set_solver|by rewrite E].
Qed.

Lemma zpool_list_ok out : Forall pool_ok (parseZpoolList out).
Proof.
  unfold parseZpoolList. apply Forall_concat. apply Forall_fmap, Forall_forall. intros line _. cbn. unfold zpool_row.
  case_decide; [constructor|]. destruct (fields _) as [|name [|health rest]]; try constructor; [|done]. apply zpool_state.
Qed.

Lemma smart_loop p dc devs acc log :
  Forall disk_ok acc → ∃ res log', st_foldl (λ acc dev, d ← smartOne p dc dev; mret (acc ++ [d])) acc devs log = (Ok res, log') ∧
    Forall disk_ok res ∧ nd_Dev <$> res = (nd_Dev <$> acc) ++ (shortDev <$> devs).
Proof.
  revert acc log. induction devs as [|dev devs IH]; intros acc log Hacc; cbn [st_foldl].
  - exists acc, log. by rewrite app_nil_r.
  - destruct (smartOne_ok p dc dev log) as (d & log1 & E & Hd & Hn).
    destruct (IH (acc ++ [d]) log1) as (res & log2 & E2 & Hres & Hnames); [by apply Forall_app_2; [|constructor]|].
    exists res, log2. split; [|split; [done|]].
    + rewrite (st_bind_Ok_step _ _ log (acc ++ [d]) log1); [exact E2|]. by rewrite (st_bind_Ok_step _ _ _ _ _ E).
    + rewrite Hnames, fmap_app, <-app_assoc. cbn. by rewrite Hn.
Qed.

Lemma probeSmart_ok p ds dc log : ∃ disks cap log', probeSmart p ds dc log = (Ok (disks, cap), log') ∧
  Forall disk_ok disks ∧ cap ≠ CapNone ∧ (cap = CapAsleep → ∃ d, d ∈ disks ∧ nd_Smart d = "asleep"%string) ∧
  (cap = CapOK → disks ≠ [] ∧ ∀ d, d ∈ disks → nd_Smart d ≠ "asleep"%string).
Proof.
  unfold probeSmart. generalize (if decide (sy_SmartMode p = "")%string then "auto"%string else sy_SmartMode p). intros mode.
  case_decide; [by eexists _, _, _|]. destruct (negb _).
  { eexists _, _, _. split; [reflexivity|]. split; [done|]. by case_decide. }
  assert (∃ devs log1, discoverSmartDevices p ds log = (Ok devs, log1)) as (devs & log1 & E) by (by eexists _, _).
  rewrite (st_bind_Ok_step _ _ _ _ _ E). case_decide as Hdevs; [by eexists _, _, _|].
  destruct (smart_loop p dc devs [] log1) as (res & log2 & E2 & Hres & Hnames); [constructor|].
  rewrite (st_bind_Ok_step _ _ _ _ _ E2). eexists res, _, log2. split; [reflexivity|]. split; [done|].
  assert (res ≠ []) as Hne by (intros ->; by destruct devs). unfold smart_cap.
  case_decide; [done|]. case_decide; [done|]. case_decide as Ha; (split; [done|]; split; [try done|try done; intros _]).
  - intros _. destruct (filter (λ d, nd_Smart d = "asleep"%string) res) as [|d l] eqn:Ef; [cbn in Ha; lia|].
    assert (d ∈ filter (λ d, nd_Smart d = "asleep"%string) res) as Hd by (rewrite Ef; left).
    apply list_elem_of_filter in Hd as [? ?]. by exists d.
  - split; [done|]. intros d Hd Hs. apply Ha.
    assert (d ∈ filter (λ d, nd_Smart d = "asleep"%string) res) as Hin by (by apply list_elem_of_filter).
    destruct (filter (λ d, nd_Smart d = "asleep"%string) res); [by apply elem_of_nil in Hin|cbn; lia].
Qed.

Lemma probePools_ok p log : ∃ pools cap log', probePools p log = (Ok (pools, cap), log') ∧
  Forall pool_ok pools ∧ (cap = CapOK ∧ pools ≠ [] ∨ (cap = CapFailed ∨ cap = CapUnsupported) ∧ pools = []).
Proof.
  assert (∃ b log1, (if sy_lookPath p "btrfs" then r ← btrfsPools p; mret (pool_result btrfsNoneRe r) else mret (btrfsMountPools p, false)) log
    = (Ok b, log1) ∧ Forall pool_ok b.1) as (b & log1 & E1 & H1).
  { destruct (sy_lookPath p "btrfs"); eexists _, _; (split; [reflexivity|]); cbn.
    - unfold btrfsPools, pool_result. cbn. destruct (sy_run p _) as [out [err|]]; cbn; [constructor|apply btrfs_ok].
    - apply Forall_fmap, Forall_forall. intros d _. unfold pool_ok. cbn. set_solver. }
  assert (∃ z log2, (if sy_lookPath p "zpool" then r ← zpoolPools p; mret (pool_result zpoolNoPoolsRe r) else mret ([], false)) log1
    = (Ok z, log2) ∧ Forall pool_ok z.1) as (z & log2 & E2 & H2).
  { clear E1. destruct (sy_lookPath p "zpool"); eexists _, _; (split; [reflexivity|]); cbn; [|constructor].
    unfold zpoolPools, pool_result. cbn. destruct (sy_run p _) as [out [err|]]; cbn; [constructor|apply zpool_list_ok]. }
  unfold probePools. rewrite (st_bind_Ok_step _ _ _ _ _ E1), (st_bind_Ok_step _ _ _ _ _ E2).
  set (m := if sy_enableMdadm p then mdadmPools p else []).
  assert (Forall pool_ok m) as Hm.
  { unfold m, mdadmPools. destruct (sy_enableMdadm p); [|constructor]. destruct (sy_readFile p _); [apply mdstat_ok|constructor]. }
  case_decide as Hn; [eexists _, _, _; split; [reflexivity|]|].
  - split; [by repeat apply Forall_app_2|]. left. split; [done|]. intros Hnil. rewrite Hnil in Hn. cbn in Hn. lia.
  - destruct (b.2 || z.2); eexists _, _, _; (split; [reflexivity|]); (split; [constructor|]); right; auto.
Qed.

(** ** Reading back a list of pools *)

(** Printable characters: no rune of theirs is a space. *)
Definition word_char (c : ascii) : bool := byte_in 33 126 c.
Definition word (s : string) : Prop := s ≠ EmptyString ∧ str_all word_char s = true.

Definition singles (s : string) : list string := (λ c, String c EmptyString) <$> String.list_ascii_of_string s.

Lemma chunks_ascii s : str_all (byte_in 0 127) s = true → chunks s = singles s.
Proof.
  unfold chunks. induction s as [|c s IH]; [done|]. cbn [str_all]. intros [Hc Hs]%andb_true_iff.
  cbn [String.length chunks_fuel]. assert (Nat.max 1 (rune_width (String c s)) = 1%nat) as ->.
  { cbn [rune_width]. by rewrite Hc. }
  assert (String.substring 0 1 (String c s) = String c "") as -> by (cbn; by destruct s).
  assert (String.substring 1 (S (String.length s)) (String c s) = s) as -> by (cbn [String.substring]; apply substring_all; lia).
  by rewrite IH.
Qed.

Lemma singles_app a b : singles (a +:+ b) = singles a ++ singles b.
Proof. unfold singles. induction a as [|c a IH]; [done|]. exact (f_equal (cons (String c "")) IH). Qed.

Lemma concat_singles s : concat_str (singles s) = s.
Proof. induction s as [|c s IH]; [done|]. exact (f_equal (String c) IH). Qed.

Lemma word_not_space c : word_char c = true → is_space (String c "") = false.
Proof.
  intros Hc. pose proof (for_all_ascii (λ c, negb (word_char c) || negb (is_space (String c ""))) ltac:(vm_compute; reflexivity) c) as H.
  cbn beta in H. rewrite Hc in H. by apply negb_true_iff in H.
Qed.

Lemma fields_word w rest cur :
  str_all word_char w = true → fields_loop (singles w ++ rest) cur = fields_loop rest (cur +:+ w)%string.
Proof.
  revert cur. induction w as [|c w IH]; intros cur; [by rewrite str_app_empty|]. cbn [str_all]. intros [Hc Hw]%andb_true_iff.
  change (singles (String c w) ++ rest) with (String c "" :: (singles w ++ rest)). cbn [fields_loop].
  rewrite word_not_space by done. rewrite IH by done. f_equal. clear. induction cur as [|x cur IH]; [done|]. exact (f_equal (String x) IH).
Qed.

Lemma drop_spaces_word w rest : word w → drop_spaces (singles w ++ rest) = singles w ++ rest.
Proof. intros [Hne Hw]. destruct w as [|c w]; [done|]. cbn in Hw. apply andb_true_iff in Hw as [Hc _]. cbn. by rewrite word_not_space. Qed.

Lemma drop_spaces_end w rest : word w → drop_spaces (rev (rest ++ singles w)) = rev (rest ++ singles w).
Proof.
  intros [Hne Hw]. assert (∃ w' c, w = w' +:+ String c "" ∧ word_char c = true)%string as (w' & c & -> & Hc).
  { clear rest. induction w as [|c w IH]; [done|]. cbn in Hw. apply andb_true_iff in Hw as [Hc Hw].
    destruct w as [|c' w]; [by exists ""%string, c|]. destruct IH as (w' & x & E & Hx); [done|done|]. rewrite E. by exists (String c w'), x. }
  rewrite singles_app, app_assoc, rev_app_distr. cbn. by rewrite word_not_space.
Qed.

(** A line of [zpool list -H]: name, tab, health. *)
Definition zpool_line (q : string * string) : string := (q.1 +:+ tab +:+ q.2)%string.

Lemma ascii_word w : str_all word_char w = true → str_all (byte_in 0 127) w = true.
Proof.
  induction w as [|c w IH]; [done|]. cbn. intros [Hc Hw]%andb_true_iff. rewrite IH by done. rewrite andb_true_r.
  unfold word_char, byte_in in *. apply andb_true_iff in Hc as [H1%Z.leb_le H2%Z.leb_le]. apply andb_true_iff. rewrite !Z.leb_le. lia.
Qed.

Lemma zpool_line_fields q : word q.1 → word q.2 → trim_space (zpool_line q) = zpool_line q ∧ fields (zpool_line q) = [q.1; q.2].
Proof.
  intros H1 H2. assert (chunks (zpool_line q) = singles q.1 ++ singles tab ++ singles q.2) as Hc.
  { unfold zpool_line. rewrite chunks_ascii; [by rewrite !singles_app|]. rewrite !str_all_app.
    rewrite (ascii_word q.1), (ascii_word q.2) by (by destruct H1, H2). reflexivity. }
  split.
  - unfold trim_space. rewrite Hc, drop_spaces_word, app_assoc, drop_spaces_end, rev_involutive, <-!singles_app, concat_singles by done.
    unfold zpool_line. clear. induction q.1 as [|x a IH]; [done|]. exact (f_equal (String x) IH).
  - unfold fields. rewrite Hc, fields_word by apply H1. cbn [singles tab]. 
    change (singles tab ++ singles q.2) with (tab :: singles q.2). cbn [fields_loop].
    assert (is_space tab = true) as -> by reflexivity. change ("" +:+ q.1)%string with q.1.
    rewrite decide_False by apply H1. rewrite <-(app_nil_r (singles q.2)), fields_word by apply H2.
    change ("" +:+ q.2)%string with q.2. cbn [fields_loop]. rewrite decide_False by apply H2. reflexivity.
Qed.

Lemma split_line c s rest :
  str_all (λ x, negb (bool_decide (x = c))) s = true → split_on c (s +:+ String c rest) = s :: split_on c rest.
Proof.
  induction s as [|x s IH]; cbn [str_all].
  - intros _. change ("" +:+ String c rest)%string with (String c rest). cbn [split_on]. by rewrite decide_True.
  - intros [Hx Hs]%andb_true_iff. change (String x s +:+ String c rest)%string with (String x (s +:+ String c rest)).
    cbn [split_on]. apply negb_true_iff, bool_decide_eq_false in Hx. rewrite decide_False by done. by rewrite IH.
Qed.

Lemma lines_text ls :
  Forall (λ l, str_all (λ x, negb (bool_decide (x = ascii_of_nat 10))) l = true) ls → lines (text ls) = ls ++ [EmptyString].
Proof.
  unfold lines, text. induction ls as [|l ls IH]; intros Hls; [done|]. apply Forall_cons in Hls as [Hl Hls].
  rewrite fmap_cons. cbn [concat_str].
  assert (∀ a b, ((a +:+ nl) +:+ b)%string = (a +:+ String (ascii_of_nat 10) b)%string) as Happ.
  { intros a b. induction a as [|x a IHa]; [done|]. exact (f_equal (String x) IHa). }
  rewrite Happ, split_line by done. by rewrite IH.
Qed.

(** ** Properties *)

(** What [zpool list -H -o name,health] prints for a list of pools is read back: every pool
    once, in order, under its name, in the state its health stands for. *)
Theorem zpool_roundtrip (l : list (string * string)) (Hl : Forall (λ q, word q.1 ∧ word q.2) l) :
  parseZpoolList (text (zpool_line <$> l)) = (λ q, {| np_Name := q.1; np_State := zpoolHealth q.2 |}) <$> l.
Proof.
  unfold parseZpoolList. rewrite lines_text.
  - rewrite fmap_app, concat_app. change (concat (zpool_row <$> [EmptyString])) with (@nil NASPool). rewrite app_nil_r.
    induction Hl as [|q l [H1 H2] _ IH]; [done|]. rewrite !fmap_cons. cbn [concat]. rewrite IH.
    unfold zpool_row. destruct (zpool_line_fields q H1 H2) as [-> ->]. rewrite decide_False; [done|].
    unfold zpool_line. destruct H1 as [Hne _]. by destruct q.1.
  - apply Forall_fmap. eapply Forall_impl; [exact Hl|]. intros q [[_ H1] [_ H2]]. cbn. unfold zpool_line. rewrite !str_all_app.
    assert (∀ c, word_char c = true → negb (bool_decide (c = ascii_of_nat 10)) = true) as Hw.
    { intros c Hc. destruct (decide (c = ascii_of_nat 10)) as [->|Hne]; [by vm_compute in Hc|]. by rewrite bool_decide_false. }
    assert (∀ s, str_all word_char s = true → str_all (λ x, negb (bool_decide (x = ascii_of_nat 10))) s = true) as Hs.
    { induction s as [|c s IH]; [done|]. cbn. intros [Hc Hs]%andb_true_iff. by rewrite IH, Hw. }
    rewrite (Hs q.1), (Hs q.2) by done. reflexivity.
Qed.

Lemma zpool_roundtrip_witness :
  parseZpoolList (text (zpool_line <$> [("tank", "ONLINE"); ("bad", "FAULTED")]%string)) =
  [{| np_Name := "tank"; np_State := "ok" |}; {| np_Name := "bad"; np_State := "error" |}].
Proof.
  rewrite (zpool_roundtrip [("tank", "ONLINE"); ("bad", "FAULTED")]%string); [vm_compute; reflexivity|].
  repeat constructor; done.
Defined.


(** Whatever the tools answer, the collector runs nothing but the four harmless commands;
    in particular smartctl never touches a disk without [-n standby]. *)
Lemma nas_harmless p ds dc : runs_only harmless (collectNAS p ds dc).
Proof.
  unfold collectNAS. apply runs_bind; [apply runs_smart|intros s]. apply runs_bind; [apply runs_pools|intros q]. apply runs_ret.
Qed.

(** Whatever the tools and files hold, a probe ends with a well-formed result: every disk
    is in one of the five states the hub knows, without a temperature when it sleeps, every
    pool in one of the four; the capabilities are set, say asleep only if a disk is, ok for
    pools exactly if there are some; and the block is there exactly if it holds something. *)
Lemma nas_typed p ds dc log :
  ∃ smart pool nas log', collectNAS p ds dc log = (Ok (smart, pool, nas), log') ∧ smart ≠ CapNone ∧
    (pool = CapOK ∨ pool = CapFailed ∨ pool = CapUnsupported) ∧
    (pool = CapOK ↔ ∃ n, nas = Some n ∧ nas_Pools n ≠ []) ∧
    (smart = CapAsleep → ∃ n d, nas = Some n ∧ d ∈ nas_Disks n ∧ nd_Smart d = "asleep"%string) ∧
    (smart = CapOK → ∃ n, nas = Some n ∧ nas_Disks n ≠ [] ∧ ∀ d, d ∈ nas_Disks n → nd_Smart d ≠ "asleep"%string) ∧
    ∀ n, nas = Some n → Forall disk_ok (nas_Disks n) ∧ Forall pool_ok (nas_Pools n) ∧ (nas_Disks n ≠ [] ∨ nas_Pools n ≠ []).
Proof.
  destruct (probeSmart_ok p ds dc log) as (disks & cap & log1 & E1 & Hd & Hcap & Hasleep & Hok).
  destruct (probePools_ok p log1) as (pools & pcap & log2 & E2 & Hp & Hpc).
  unfold collectNAS. rewrite (st_bind_Ok_step _ _ _ _ _ E1), (st_bind_Ok_step _ _ _ _ _ E2).
  eexists _, _, _, _. split; [reflexivity|]. cbn [fst snd].
  assert (∀ n, (if decide (0 < length disks ∨ 0 < length pools)%nat then Some {| nas_Disks := disks; nas_Pools := pools |} else None) = Some n ↔
    (disks ≠ [] ∨ pools ≠ []) ∧ n = {| nas_Disks := disks; nas_Pools := pools |}) as Hnas.
  { intros n. case_decide as Hn; split.
    - intros [= <-]. split; [|done]. destruct Hn as [Hn|Hn]; [left|right]; intros ->; cbn in Hn; lia.
    - by intros [_ ->].
    - done.
    - intros [[H|H] _]; exfalso; apply Hn; [left|right]; (destruct disks, pools; cbn; (congruence || lia)). }
  setoid_rewrite Hnas. split; [done|]. split; [destruct Hpc as [[? _]|[[?|?] _]]; auto|]. split; [|split; [|split]].
  - split.
    + intros Hpool. destruct Hpc as [[_ Hne]|[[?|?] _]]; [|congruence..]. eexists. split; [split; [by right|reflexivity]|done].
    + intros (n & [_ ->] & Hne). cbn in Hne. by destruct Hpc as [[? _]|[_ ?]].
  - intros (d & Hin & Hs)%Hasleep. eexists _, d. split; [split; [left|reflexivity]|done]. intros ->. by apply elem_of_nil in Hin.
  - intros [Hne Hno]%Hok. eexists. split; [split; [by left|reflexivity]|done].
  - intros n [Hne ->]. done.
Qed.

(** Mixed failures: no disk could be read, and the capability says ok. *)
Example smart_cap_mixed :
  smart_cap [{| nd_Dev := "sda"; nd_Smart := "failed"; nd_TempC := None |}; {| nd_Dev := "sdb"; nd_Smart := "unsupported"; nd_TempC := None |}] = CapOK.
Proof. reflexivity. Qed.
