(* ===== verification/Collectors.v ===== *)
(** One frame of the agent ([agent/internal/collect/docker.go], [basic.go], [provider.go]):
    containers through the Docker API, the host's counters, and the frame put together.

    What gopsutil reads, what the Docker endpoint answers and which files exist is given as
    values; [net/url.Parse] is a parameter. *)

From S2P Require Import Prelude GoBase GoTime Regex Pattern Collect Handlers Nas Install.
From Stdlib Require Import Ascii SpecFloat.
Local Open Scope Z_scope.

(** ** Containers *)

(* @src agent/internal/collect/docker.go 20-26 DockerClient *)
Record DockerClient := { dc_base : string; dc_sockPath : string }.

(** [ErrDockerAbsent] and other errors. *)
Inductive docker_err := DockerAbsent | DockerFailed.

(* @src agent/internal/collect/docker.go 67-73 dockerListEntry *)
Record dockerListEntry := { dl_ID : string; dl_Names : list string; dl_State : string; dl_Status : string }.

(* @src agent/internal/collect/docker.go 75-84 dockerInspect *)
Record dockerInspect := {
  di_Name : string;
  di_RestartCount : Z;
  di_Status : string;
  di_ExitCode : Z;
  di_StartedAt : string }.

(** A byte that [url.PathEscape] leaves as it is. *)
Definition path_safe (c : ascii) : bool :=
  in_cls [("a", "z"); ("A", "Z"); ("0", "9"); just "-"; just "_"; just "."; just "~"; just "$"; just "&"; just "+"; just "=";
          just ":"; just "@"]%char c.
Definition path_escape : string → string := percent_escape path_safe.

(* @src agent/internal/collect/docker.go 130-135 dockerName *)
Definition dockerName (names : list string) : string :=
  match names with [] => EmptyString | n :: _ => trim_prefix "/" n end.

(** The year a timestamp names, in its own offset ([t.Year()]): its first four digits. *)
Definition text_year (s : string) : Z := digits_val 0 (String.substring 0 4 s).

(* @src agent/internal/collect/docker.go 137-147 parseDockerTime *)
Definition parseDockerTime (s : string) : option Z :=
  if decide (s = EmptyString) then None
  else match parseTS s with
       | None => None
       | Some t => if decide (text_year s <= 1) then None else Some (NewISOTime t)
       end.

Section docker.
Variable url_parse : string → option URL.
(** [u.String()] *)
Variable url_string : string → string.
(** The answers of the Docker endpoint, decoded, by address; [None] is any failure. *)
Variable docker_list : string → option (list dockerListEntry).
Variable docker_inspect : string → option dockerInspect.
(** [os.Stat]: whether the socket is there. *)
Variable stat : string → bool.

(* @src agent/internal/collect/docker.go 28-65 NewDockerClient *)
Definition NewDockerClient (host : string) : outcome docker_err DockerClient :=
  if decide (trim_space host = "") then Err DockerAbsent
  else match url_parse host with
  | None => Err DockerFailed
  | Some u =>
    if decide (u_Scheme u = "unix") then
      if decide (u_Path u = "") then Err DockerAbsent else Ok {| dc_base := "http://docker.sock"; dc_sockPath := u_Path u |}
    else if decide (u_Scheme u = "tcp") then Ok {| dc_base := "http://" +:+ u_Host u; dc_sockPath := "" |}
    else if decide (u_Scheme u = "http" ∨ u_Scheme u = "https") then
      Ok {| dc_base := trim_right "/" (url_string host); dc_sockPath := "" |}
    else Err DockerFailed
  end%string.

(** The body of the loop. *)
Definition container_of (c : DockerClient) (e : dockerListEntry) : Container :=
  let name := dockerName (dl_Names e) in
  match docker_inspect (dc_base c +:+ "/containers/" +:+ path_escape (dl_ID e) +:+ "/json") with
  | None => {| ct_Name := name; ct_State := dl_State e; ct_ExitCode := None; ct_StartedAt := None; ct_RestartCount := 0 |}
  | Some ins =>
    let state := if decide (di_Status ins ≠ "") then di_Status ins else dl_State e in
    {| ct_Name := if decide (name = "") then trim_prefix "/" (di_Name ins) else name;
       ct_State := state;
       ct_ExitCode := if decide (state = "running" ∨ state = "created") then None else Some (di_ExitCode ins);
       ct_StartedAt := parseDockerTime (di_StartedAt ins);
       ct_RestartCount := di_RestartCount ins |}
  end%string.

(* @src agent/internal/collect/docker.go 86-128 Containers *)
Definition Containers (c : DockerClient) : outcome docker_err (list Container) :=
  if decide (dc_sockPath c ≠ "" ∧ stat (dc_sockPath c) = false) then Err DockerAbsent
  else match docker_list (dc_base c +:+ "/containers/json?all=1") with
  | None => Err DockerFailed
  | Some entries => Ok (container_of c <$> entries)
  end%string.

(* @src agent/internal/collect/provider.go 107-126 collectContainers *)
(** [client] is what [NewDockerClient] returned when the provider was made. *)
Definition collectContainers (client : outcome docker_err DockerClient) : CapStatus * option (list Container) :=
  match client with
  | Err _ => (CapUnsupported, None)
  | Ok c =>
    match Containers c with
    | Err DockerAbsent => (CapUnsupported, None)
    | Err DockerFailed => (CapFailed, None)
    | Ok cs => (CapOK, Some cs)
    end
  end.
End docker.

(** ** Counters *)

(** What gopsutil reads, each part on its own: the CPU's total and idle time (idle and iowait),
    the interfaces' counters, memory, load, uptime and boot time (seconds), partitions and the
    usage of a mount point. *)
Record host_stats := {
  hs_now : Z;
  hs_cpu : option (float64 * float64 * float64);   (* total, idle, iowait *)
  hs_net : option (list (string * Z * Z));         (* name, received, sent *)
  hs_mem : option (float64 * Z * Z);               (* percent, used, total *)
  hs_load1 : option float64;
  hs_uptime : option Z;
  hs_boot : option Z;
  hs_parts : option (list (string * string));      (* mount point, type *)
  hs_usage : string → option (float64 * Z * Z) }.  (* percent, used, total *)

(* @src agent/internal/collect/basic.go 16-22 counterState *)
Record counterState := {
  co_cpuTotal : float64;
  co_cpuIdle : float64;
  co_netRx : Z;
  co_netTx : Z;
  co_netAt : Z }.

(** uint64 arithmetic. *)
Definition wrap_u64 (z : Z) : Z := z mod 2 ^ 64.

(* @src agent/internal/collect/basic.go 43-45 isLoopback *)
Definition isLoopback (name : string) : bool := String.eqb name "lo" || has_prefix "lo" name.

(** The loop over the interfaces: bytes received and sent, but not by the loopback. *)
Definition sum_net (ios : list (string * Z * Z)) : Z * Z :=
  foldl (λ acc io, if isLoopback io.1.1 then acc else (wrap_u64 (acc.1 + io.1.2), wrap_u64 (acc.2 + io.2))) (0, 0) ios.

(* @src agent/internal/collect/basic.go 24-41 readCounters *)
Definition readCounters (h : host_stats) : counterState :=
  let cpu := match hs_cpu h with Some (total, idle, iowait) => (total, f64_add idle iowait) | None => (f64_of_Z 0, f64_of_Z 0) end in
  let net := match hs_net h with Some ios => sum_net ios | None => (0, 0) end in
  {| co_cpuTotal := cpu.1; co_cpuIdle := cpu.2; co_netRx := net.1; co_netTx := net.2; co_netAt := hs_now h |}.

(* @src agent/internal/collect/basic.go 151-153 round2 *)
Definition round2 (v : float64) : float64 :=
  f64_div (f64_of_Z (f64_to_int (f64_add (f64_mul v (f64_of_Z 100)) (f64_of_dec 5 (-1))))) (f64_of_Z 100).

(** [d.Seconds()] *)
Definition duration_seconds (d : Z) : float64 :=
  f64_add (f64_of_Z (Z.quot d Second)) (f64_div (f64_of_Z (Z.rem d Second)) (f64_of_Z Second)).

(** [uint64(x)] for a float that is not negative; out of range as amd64 gives it. *)
Definition f64_to_uint (x : float64) : Z :=
  match x with
  | S754_zero _ => 0
  | S754_finite false m e =>
    let v := if decide (0 <= e) then Z.pos m * 2 ^ e else Z.pos m / 2 ^ (- e) in
    if decide (v < 2 ^ 64) then v else 2 ^ 63
  | _ => 2 ^ 63
  end.

(** The CPU's share of time since the last frame. *)
Definition cpu_percent (prev : counterState) (total idle : float64) : option float64 :=
  if f64_lt (f64_of_Z 0) (co_cpuTotal prev) then
    let dt := f64_sub total (co_cpuTotal prev) in
    let db := f64_sub dt (f64_sub idle (co_cpuIdle prev)) in
    if f64_lt (f64_of_Z 0) dt && f64_le (f64_of_Z 0) db then
      let v := round2 (f64_mul (f64_div db dt) (f64_of_Z 100)) in
      Some (if f64_lt (f64_of_Z 100) v then f64_of_Z 100 else v)
    else None
  else None.

(** The network's rates since the last frame. *)
Definition net_rates (prev : counterState) (now rx tx : Z) : option NetRate :=
  if decide (0 < co_netAt prev / Second) then
    let dt := duration_seconds (time_sub now (co_netAt prev)) in
    if f64_lt (f64_of_Z 0) dt then
      Some {| nr_RxBps := f64_to_uint (f64_div (f64_of_Z (wrap_u64 (rx - co_netRx prev))) dt);
              nr_TxBps := f64_to_uint (f64_div (f64_of_Z (wrap_u64 (tx - co_netTx prev))) dt) |}
    else None
  else None.

(** The loop of [collectDisks]: mount points already seen, and the disks so far. *)
Definition disk_step (h : host_stats) (st : list string * list DiskUsage) (pt : string * string) : list string * list DiskUsage :=
  let mount := pt.1 in
  if decide (mount = EmptyString ∨ mount ∈ st.1) then st
  else
    (mount :: st.1,
     match hs_usage h mount with
     | Some (percent, used, total) =>
       if decide (total = 0) then st.2
       else st.2 ++ [{| du_Mount := mount; du_Percent := round2 percent; du_UsedBytes := used; du_TotalBytes := total;
                        du_Fstype := pt.2 |}]
     | None => st.2
     end).

(* @src agent/internal/collect/basic.go 122-149 collectDisks *)
Definition collectDisks (h : host_stats) : list DiskUsage :=
  match hs_parts h with
  | None => []
  | Some parts => (foldl (disk_step h) ([], []) parts).2
  end.

(* @src agent/internal/collect/basic.go 47-120 collectBasics *)
(** The sample's own fields, and the capability of the network. *)
Definition collectBasics (h : host_stats) (prev : counterState) (ts : Z) : CapStatus * Sample :=
  let net := match hs_net h with
             | Some ios => let '(rx, tx) := sum_net ios in (CapOK, net_rates prev (hs_now h) rx tx)
             | None => (CapFailed, None)
             end in
  (net.1,
   {| sm_TS := ts;
      sm_CPUPercent := match hs_cpu h with Some (total, idle, iowait) => cpu_percent prev total (f64_add idle iowait) | None => None end;
      sm_MemPercent := (λ m, round2 m.1.1) <$> hs_mem h;
      sm_MemUsedBytes := (λ m, m.1.2) <$> hs_mem h;
      sm_MemTotalBytes := (λ m, m.2) <$> hs_mem h;
      sm_Load1 := hs_load1 h;
      sm_UptimeSeconds := hs_uptime h;
      sm_BootTime := match hs_boot h with
                     | Some bt => if decide (0 < bt) then Some (NewISOTime (bt * Second)) else None
                     | None => None
                     end;
      sm_Disks := collectDisks h;
      sm_Net := net.2;
      sm_Containers := None;
      sm_NAS := None |}).

(** ** The frame *)

(** The provider with the partitions of this moment: [btrfsMountPools] lists them again. *)
Definition with_disks (p : sysProvider) (disks : list DiskUsage) : sysProvider :=
  {| sy_SmartMode := sy_SmartMode p; sy_run := sy_run p; sy_lookPath := sy_lookPath p; sy_readFile := sy_readFile p;
     sy_listDir := sy_listDir p; sy_enableMdadm := sy_enableMdadm p; sy_disks := disks |}.

Section frame.
Variable p : sysProvider.
Variable decode_scan : string → option (list string).
Variable decode_smartctl : string → option smartctlJSON.
Variable docker_list : string → option (list dockerListEntry).
Variable docker_inspect : string → option dockerInspect.
Variable stat : string → bool.

(* @src agent/internal/collect/provider.go 97-105 swapCounters *)
Definition swapCounters (h : host_stats) (prev : counterState) : counterState * counterState := (prev, readCounters h).

(* @src agent/internal/collect/provider.go 74-95 Collect *)
(** The counters are read first ([h0]), the basics after ([h1]); containers and NAS, which run
    beside the basics, fill fields of their own.  The frame and the counters for the next. *)
Definition Collect (client : outcome docker_err DockerClient) (h0 h1 : host_stats) (now : Z) (prev : counterState)
    : stM (list command) Empty_set (Result * counterState) :=
  let ts := NewISOTime now in
  let '(old, cur) := swapCounters h0 prev in
  let containers := collectContainers docker_list docker_inspect stat client in
  nas ← collectNAS (with_disks p (collectDisks h1)) decode_scan decode_smartctl;
  let basics := collectBasics h1 old ts in
  let s := basics.2 in
  mret ({| res_Capabilities := {| cap_Containers := containers.1; cap_Smart := nas.1.1; cap_StoragePool := nas.1.2;
                                  cap_Network := basics.1 |};
           res_Sample := {| sm_TS := sm_TS s; sm_CPUPercent := sm_CPUPercent s; sm_MemPercent := sm_MemPercent s;
                            sm_MemUsedBytes := sm_MemUsedBytes s; sm_MemTotalBytes := sm_MemTotalBytes s; sm_Load1 := sm_Load1 s;
                            sm_UptimeSeconds := sm_UptimeSeconds s; sm_BootTime := sm_BootTime s; sm_Disks := sm_Disks s;
                            sm_Net := sm_Net s; sm_Containers := containers.2; sm_NAS := nas.2 |} |}, cur).
End frame.

(** ** What a frame promises *)

(** A container: an exit code is not given for one that runs or was only created. *)
Definition container_ok (c : Container) : Prop :=
  ct_State c = "running"%string ∨ ct_State c = "created"%string → ct_ExitCode c = None.

(** The mount points differ, none is empty, and every size is a real one. *)
Definition disks_ok (ds : list DiskUsage) : Prop :=
  NoDup (du_Mount <$> ds) ∧ Forall (λ d, du_Mount d ≠ EmptyString ∧ du_TotalBytes d ≠ 0) ds.

(** A block is there exactly if its capability says so. *)
Definition containers_ok (cap : CapStatus) (cs : option (list Container)) : Prop :=
  (cap = CapOK ∨ cap = CapFailed ∨ cap = CapUnsupported) ∧ (cap = CapOK ↔ is_Some cs) ∧
  ∀ l, cs = Some l → Forall container_ok l.

Definition nas_ok (smart pool : CapStatus) (nas : option NAS) : Prop :=
  smart ≠ CapNone ∧ (pool = CapOK ∨ pool = CapFailed ∨ pool = CapUnsupported) ∧
  (pool = CapOK ↔ ∃ n, nas = Some n ∧ nas_Pools n ≠ []) ∧
  (smart = CapAsleep → ∃ n d, nas = Some n ∧ d ∈ nas_Disks n ∧ nd_Smart d = "asleep"%string) ∧
  (smart = CapOK → ∃ n, nas = Some n ∧ nas_Disks n ≠ [] ∧ ∀ d, d ∈ nas_Disks n → nd_Smart d ≠ "asleep"%string) ∧
  ∀ n, nas = Some n → Forall disk_ok (nas_Disks n) ∧ Forall pool_ok (nas_Pools n) ∧ (nas_Disks n ≠ [] ∨ nas_Pools n ≠ []).

Lemma container_of_ok docker_inspect c e : container_ok (container_of docker_inspect c e).
Proof.
  unfold container_ok, container_of. destruct (docker_inspect _) as [ins|]; [|done].
  cbn [ct_State ct_ExitCode]. intros Hs. destruct (decide (_ ∨ _)) as [|Hn]; [done|]. by destruct Hn.
Qed.

Lemma containers_typed docker_list docker_inspect stat client :
  let r := collectContainers docker_list docker_inspect stat client in containers_ok r.1 r.2.
Proof.
  unfold collectContainers, Containers, containers_ok. destruct client as [c|e]; [|by split_and!; [auto|split; [done|intros []]|]].
  case_decide; [by split_and!; [auto|split; [done|intros []]|]|].
  destruct (docker_list _) as [es|]; [|by split_and!; [auto|split; [done|intros []]|]].
  split_and!; [auto|done|]. intros l [= <-]. apply Forall_fmap, Forall_forall. intros e _. apply container_of_ok.
Qed.

Lemma disk_step_ok h st pt : disks_ok st.2 → (∀ d, d ∈ st.2 → du_Mount d ∈ st.1) →
  disks_ok (disk_step h st pt).2 ∧ (∀ d, d ∈ (disk_step h st pt).2 → du_Mount d ∈ (disk_step h st pt).1).
Proof.
  intros [Hn Hf] Hin. unfold disk_step. case_decide as Hs; [done|]. apply Decidable.not_or in Hs as [Hne Hnew].
  assert (∀ d, d ∈ st.2 → du_Mount d ∈ pt.1 :: st.1) as Hin' by (intros d ?; right; auto).
  destruct (hs_usage h pt.1) as [[[pc used] total]|]; [|done]. case_decide as Ht; [done|]. cbn [fst snd]. split.
  - split.
    + rewrite fmap_app. apply NoDup_app. split_and!; [done| |apply NoDup_singleton].
      intros m (d & -> & Hd)%list_elem_of_fmap. cbn. rewrite list_elem_of_singleton. intros He. by apply Hnew; rewrite <- He; apply Hin.
    + apply Forall_app. split; [done|]. by repeat constructor.
  - intros d [?|Hd]%elem_of_app; [auto|]. apply list_elem_of_singleton in Hd as ->. left.
Qed.

Lemma collectDisks_ok h : disks_ok (collectDisks h).
Proof.
  unfold collectDisks. destruct (hs_parts h) as [parts|]; [|split; constructor].
  assert (∀ st, disks_ok st.2 → (∀ d, d ∈ st.2 → du_Mount d ∈ st.1) → disks_ok (foldl (disk_step h) st parts).2) as Hl.
  { induction parts as [|q parts IH]; intros st Ho Hi; [done|]. cbn. by apply IH; apply disk_step_ok. }
  apply Hl; [split; constructor|]. intros d []%not_elem_of_nil.
Qed.

(** The counters of the network are 64-bit integers: the CPU's are guarded against running
    backwards, the network's are not, so an interface that was reset or removed, or whose
    counters could not be read once, gives a rate out of this world. *)
Example net_rate_wraps (prev : counterState) :
  co_netAt prev = 10 * Second → co_netRx prev = 1000 → co_netTx prev = 1000 →
  net_rates prev (20 * Second) 900 1500 = Some {| nr_RxBps := 1844674407370955264; nr_TxBps := 50 |}.
Proof. intros Ha Hr Ht. unfold net_rates. rewrite Ha, Hr, Ht. vm_compute. reflexivity. Qed.

Example net_rate_after_failure (prev : counterState) :
  co_netAt prev = 10 * Second → co_netRx prev = 0 → co_netTx prev = 0 →
  net_rates prev (20 * Second) (10 ^ 12) 0 = Some {| nr_RxBps := 10 ^ 11; nr_TxBps := 0 |}.
Proof. intros Ha Hr Ht. unfold net_rates. rewrite Ha, Hr, Ht. vm_compute. reflexivity. Qed.

(** C36: collecting a frame never fails: whatever gopsutil, Docker, the tools and the files
    answer, it runs nothing but the harmless commands and ends with a frame that carries its
    time, whose container, NAS and network blocks are there as their capabilities say, whose
    containers, disks and pools are well-formed, and whose mount points differ. *)
Theorem Collect_typed p ds dc list inspect stat client h0 h1 now prev :
  runs_only harmless (Collect p ds dc list inspect stat client h0 h1 now prev) ∧
  ∀ log, ∃ r log', Collect p ds dc list inspect stat client h0 h1 now prev log = (Ok (r, readCounters h0), log') ∧
    let c := res_Capabilities r in let s := res_Sample r in
    sm_TS s = truncate_to Millisecond now ∧
    containers_ok (cap_Containers c) (sm_Containers s) ∧
    nas_ok (cap_Smart c) (cap_StoragePool c) (sm_NAS s) ∧
    (cap_Network c = CapOK ∨ cap_Network c = CapFailed ∧ sm_Net s = None) ∧
    disks_ok (sm_Disks s).
Proof.
  unfold Collect. cbn [swapCounters]. split.
  - apply runs_bind; [apply nas_harmless|]. intros. apply runs_ret.
  - intros log. destruct (nas_typed (with_disks p (collectDisks h1)) ds dc log) as (smart & pool & nas & log' & E & H).
    rewrite (st_bind_Ok_step _ _ _ _ _ E). eexists _, _. split; [reflexivity|]. cbn. split_and!; [done|apply containers_typed|exact H| |].
    + destruct (hs_net h1) as [ios|]; [destruct (sum_net ios); by left|by right].
    + apply collectDisks_ok.
Qed.
