(* ===== verification/Start.v ===== *)
(** The agent's start ([agent/cmd/assistant-agent/main.go]) with the constructors it calls:
    the queue's directory and file ([queue.Open]), the provider ([collect.New]) and the client
    of the hub ([report.NewHubClient]); what [--check] prints, and what is logged of an address.

    File system and database are an environment that may refuse every call.  [Reporter.Run]
    itself is in [AgentReport]: here is what it is started with. *)

From S2P Require Import Prelude GoBase Text Regex GoTime Queue Collect AgentReport Install Flags Config Nas Collectors.
From Stdlib Require Import Ascii.
Local Open Scope Z_scope.

(** The calls that touch the machine, and their outcomes. *)
Inductive action := MkdirAll (dir : string) | CreateTemp (dir : string) | RemoveFile (name : string) | OpenFile (dir : string)
  | ExecSchema (dir : string) (stmt : nat) | CloseFile (dir : string)
  | CollectFrame (host smart : string).   (* a [Collect]: what it runs and reads is in [Collectors] and [Nas] *)
Class Machine := {
  su_mkdirAll : string → bool;
  su_createTemp : string → option string;
  su_remove : string → bool;
  su_sqlOpen : string → bool;
  su_exec : string → nat → bool;
  su_file : string → qdb payload;     (* what the queue file of a directory holds *)
  su_hostname : string;
  su_GOOS : string;
  su_GOARCH : string }.

Notation SM := (stM (list action) Empty_set).

Section start.
Context `{MA : Machine}.

Definition act (a : action) : SM () := λ log, (Ok (), log ++ [a]).

(** ** The queue's directory *)

(* @src agent/cmd/assistant-agent/main.go 153-164 probeDir *)
(** [true] is the nil error. *)
Definition probeDir (dir : string) : SM bool :=
  act (MkdirAll dir) ;;
  if negb (su_mkdirAll dir) then mret false
  else
    act (CreateTemp dir) ;;
    match su_createTemp dir with
    | None => mret false
    | Some name => act (RemoveFile name) ;; mret (su_remove name)
    end.

(* @src agent/cmd/assistant-agent/main.go 137-151 resolveQueueDir *)
Definition resolveQueueDir (dir : string) : SM (option string) :=
  ok ← probeDir dir;
  if ok : bool then mret (Some dir)
  else if decide (dir = DefaultQueueDir) then
    fok ← probeDir FallbackQueueDir;
    if fok : bool then mret (Some FallbackQueueDir) else mret None
  else mret None.

(* @src agent/internal/queue/queue.go 67-97 !Open *)
(** The six statements that find or make the tables; the file is closed again if one fails. *)
Fixpoint exec_schema (dir : string) (stmts : list nat) : SM bool :=
  match stmts with
  | [] => mret true
  | i :: stmts' =>
    act (ExecSchema dir i) ;;
    if su_exec dir i then exec_schema dir stmts' else act (CloseFile dir) ;; mret false
  end.
(* @src agent/internal/queue/queue.go 57-104 !Open *)
(** Directory, file and tables. *)
Definition OpenQueue (dir : string) (maxBatches maxEvents : Z) : SM (option (Queue payload)) :=
  act (MkdirAll dir) ;;
  if negb (su_mkdirAll dir) then mret None
  else
    act (OpenFile dir) ;;
    if negb (su_sqlOpen dir) then mret None
    else
      ok ← exec_schema dir (seq 0 6);
      mret (if ok : bool then Some (Open (su_file dir) maxBatches maxEvents) else None).

(** ** The client of the hub *)

(* @src agent/internal/report/client.go 71-79 HubClient *)
Record HubClient := { hc_base : string; hc_key : string; hc_gzip : bool; hc_timeout : Z; hc_ua : string; hc_maxBody : Z }.

(* @src agent/internal/report/client.go 81-90 NewHubClient *)
Definition NewHubClient (base key : string) (gzip : bool) (timeout : Z) : HubClient :=
  {| hc_base := trim_right "/" base; hc_key := key; hc_gzip := gzip; hc_timeout := timeout; hc_ua := ""; hc_maxBody := 2 * 2 ^ 20 |}.

(* @src agent/internal/report/client.go 92-93 SetUserAgent *)
Definition SetUserAgent (ua : string) (c : HubClient) : HubClient :=
  {| hc_base := hc_base c; hc_key := hc_key c; hc_gzip := hc_gzip c; hc_timeout := hc_timeout c; hc_ua := ua; hc_maxBody := hc_maxBody c |}.

(** ** The provider *)

(* @src agent/internal/collect/types.go 137-145 ProviderConfig *)
(** What a provider may be given; [None] is the real thing. *)
Record ProviderConfig := {
  pc_DockerHost : string;
  pc_SmartMode : string;
  pc_Runner : option (command → string * option string);
  pc_LookPath : option (string → bool);
  pc_ReadFile : option (string → option string);
  pc_ListDir : option (string → option (list string)) }.

(** What became of a command: what it printed, [cmd.Output]'s error, and whether its ten
    seconds were over. *)
Record process := { pr_out : string; pr_stderr : string; pr_err : option string; pr_deadline : bool }.

(* @src agent/internal/collect/smartctl.go 23-40 Run *)
(** [execRunner.Run]: what it printed comes back with an error, too. *)
Definition execRun (os_process : command → process) (c : command) : string * option string :=
  let p := os_process c in
  if pr_deadline p then (pr_out p, Some (c.1 +:+ ": context deadline exceeded")%string)
  else (pr_out p,
        match pr_err p with
        | None => None
        | Some err => let s := trim_space (pr_stderr p) in Some (if decide (s = EmptyString) then err else err +:+ ": " +:+ s)%string
        end).

(* @src agent/internal/collect/docker.go 149-163 getJSON *)
(** [get]: the status and body of an answer, [None] if there is none. *)
Definition getJSON {V} (decode : string → option V) (get : string → option (Z * string)) (url : string) : option V :=
  match get url with
  | None => None
  | Some (status, body) => if decide (status < 200 ∨ 300 <= status) then None else decode body
  end.

(** The real ones. *)
Record system := {
  os_process : command → process;
  os_lookPath : string → bool;
  os_readFile : string → option string;
  os_listDir : string → option (list string) }.

(* @src agent/internal/collect/provider.go 33-59 newSysProvider *)
(** The probes, the Docker client and the counters the first frame is measured against. *)
Definition newSysProvider (url_parse : string → option URL) (url_string : string → string) (os : system) (h : host_stats)
    (cfg : ProviderConfig) (enableMdadm : bool) : sysProvider * outcome docker_err DockerClient * counterState :=
  ({| sy_SmartMode := pc_SmartMode cfg;
      sy_run := default (execRun (os_process os)) (pc_Runner cfg); sy_lookPath := default (os_lookPath os) (pc_LookPath cfg);
      sy_readFile := default (os_readFile os) (pc_ReadFile cfg); sy_listDir := default (os_listDir os) (pc_ListDir cfg);
      sy_enableMdadm := enableMdadm; sy_disks := [] |},
   NewDockerClient url_parse url_string (pc_DockerHost cfg), readCounters h).

(** [collect.New] on Linux and elsewhere. *)
(* @src agent/internal/collect/provider_linux.go 5-8 New *)
Definition New_linux url_parse url_string os h cfg := newSysProvider url_parse url_string os h cfg true.
(* @src agent/internal/collect/provider_other.go 5-12 New *)
Definition New_other url_parse url_string os h cfg := newSysProvider url_parse url_string os h cfg false.

(** ** Logging *)

Inductive Level := LevelDebug | LevelInfo | LevelWarn | LevelError.

(* @src agent/cmd/assistant-agent/main.go 166-180 newLogger *)
Definition newLogger (level : string) : Level :=
  if decide (level = "debug")%string then LevelDebug
  else if decide (level = "warn")%string then LevelWarn
  else if decide (level = "error")%string then LevelError
  else LevelInfo.

(** [strings.Index] and [strings.IndexAny] for [?#]: what is before the first match. *)
Fixpoint before (sub s : string) : option string :=
  if has_prefix sub s then Some EmptyString
  else match s with EmptyString => None | String c s' => String c <$> before sub s' end.
Fixpoint until_query (s : string) : string :=
  match s with
  | String c s' => if decide (c = "?"%char ∨ c = "#"%char) then EmptyString else String c (until_query s')
  | EmptyString => EmptyString
  end.

(* @src agent/cmd/assistant-agent/main.go 182-192 redactURL *)
Definition redactURL (raw : string) : string :=
  let raw :=
    match before "@" raw with
    | None => raw
    | Some user =>
      match before "://" raw with
      | None => raw
      | Some scheme =>
        if decide (String.length scheme < String.length user)%nat
        then scheme +:+ "://***" +:+ String.substring (String.length user) (String.length raw) raw
        else raw
      end
    end%string in
  until_query raw.

(** ** The program *)

Variable version : string.
Variable url_parse : string → option URL.
(** The text [json.Marshal] writes for a frame, and [json.MarshalIndent] of what decoding it
    gives. *)
Variable marshal : payload → string.
Variable indent : string → option string.

Definition agent_info (cfg : Config) : AgentInfo :=
  {| ai_Version := version; ai_OS := su_GOOS; ai_Arch := su_GOARCH;
     ai_Hostname := if decide (cfg_Hostname cfg = EmptyString) then su_hostname else cfg_Hostname cfg |}.

Definition provider_config (cfg : Config) : ProviderConfig :=
  {| pc_DockerHost := cfg_DockerHost cfg; pc_SmartMode := cfg_Smart cfg; pc_Runner := None; pc_LookPath := None;
     pc_ReadFile := None; pc_ListDir := None |}.

(* @src agent/cmd/assistant-agent/main.go 94-135 runCheck *)
(** Two collections, of which the first one's outcome does not matter; [frame] is the outcome
    of the second, [now] the time after it: the exit code and what is printed. *)
Definition runCheck (cfg : Config) (frame : option Collect.Result) (now : Z) : SM (Z * option string) :=
  let prov := provider_config cfg in
  act (CollectFrame (pc_DockerHost prov) (pc_SmartMode prov)) ;;
  act (CollectFrame (pc_DockerHost prov) (pc_SmartMode prov)) ;;
  match frame with
  | None => mret (1, None)
  | Some res =>
    match BuildMetrics 0 (agent_info cfg) res now with
    | None => mret (1, None)
    | Some frame => let body := marshal frame in mret (0, Some (default body (indent body)))
    end
  end.

(** What the process comes to: it ends with a code and what it printed, or reports with a
    client of the hub, and a log. *)
Inductive running :=
| Exit (code : Z) (out : option string)
| Reporting (rep : Reporter) (client : HubClient) (provider : ProviderConfig) (log : Level) (hub_logged : string).

(* @src agent/cmd/assistant-agent/main.go 34-90 run *)
(** [rep.Run] always returns nil, when it is cancelled: the code is 0 then. *)
Definition run (args : list string) (env : string → string) (frame : option Collect.Result) (now : Z) : SM running :=
  match Parse url_parse args env with
  | Err _ => mret (Exit 2 None)
  | Ok res =>
    match res_Mode res with
    | ModeVersion => mret (Exit 0 (Some ("assistant-agent " +:+ version +:+ " (" +:+ su_GOOS +:+ "/" +:+ su_GOARCH +:+ ")")))%string
    | ModeCheck => r ← runCheck (res_Cfg res) frame now; mret (Exit r.1 r.2)
    | ModeRun =>
      let cfg := res_Cfg res in
      let log := newLogger (cfg_LogLevel cfg) in
      dir ← resolveQueueDir (cfg_QueueDir cfg);
      match dir with
      | None => mret (Exit 1 None)
      | Some dir =>
        q ← OpenQueue dir (cfg_QueueMaxBatches cfg) (cfg_QueueMaxEvents cfg);
        match q with
        | None => mret (Exit 1 None)
        | Some q =>
          let hc := SetUserAgent ("assistant-agent/" +:+ version)%string
                      (NewHubClient (cfg_HubURL cfg) (cfg_SourceKey cfg) (cfg_Gzip cfg) (15 * Second)) in
          mret (Reporting (AgentReport.New q (agent_info cfg) (cfg_Interval cfg)) hc (provider_config cfg) log (redactURL (cfg_HubURL cfg)))
        end
      end
    end
  end.
End start.

(** ** Specification *)

(** A directory the agent can write to. *)
Definition usable `{Machine} (dir : string) : Prop :=
  su_mkdirAll dir = true ∧ ∃ name, su_createTemp dir = Some name ∧ su_remove name = true.
(** A queue file that opens. *)
Definition opens_queue `{Machine} (dir : string) : Prop :=
  su_mkdirAll dir = true ∧ su_sqlOpen dir = true ∧ ∀ i, (i < 6)%nat → su_exec dir i = true.
(** The directory a configuration comes to. *)
Definition queue_dir `{Machine} (cfg : Config) (dir : string) : Prop :=
  usable dir ∧ (dir = cfg_QueueDir cfg ∨ cfg_QueueDir cfg = DefaultQueueDir ∧ ¬ usable DefaultQueueDir ∧ dir = FallbackQueueDir).

(** ** Lemmas *)

Section lemmas.
Context `{MA : Machine}.

Lemma probeDir_spec dir log : ∃ acts, match probeDir dir log with
  | (Ok ok, log') => log' = log ++ acts ∧ (ok = true ↔ usable dir)
  | (Err _, _) => False
  end.
Proof.
  unfold probeDir, usable, act. unfold mbind, stM_bind, mret, stM_ret. cbv beta iota.
  destruct (su_mkdirAll dir); cbn [negb]; [|by eexists; split; [reflexivity|split; [|intros [? _]]]].
  destruct (su_createTemp dir) as [name|].
  - exists [MkdirAll dir; CreateTemp dir; RemoveFile name]. split; [by rewrite <-!app_assoc|]. split.
    + intros H. split; [done|]. by exists name.
    + intros (_ & n & [= <-] & H). exact H.
  - exists [MkdirAll dir; CreateTemp dir]. split; [by rewrite <-!app_assoc|]. split; [done|]. by intros (_ & n & ? & _).
Qed.

Lemma resolveQueueDir_spec dir log : match resolveQueueDir dir log with
  | (Ok (Some d), _) => usable d ∧ (d = dir ∨ dir = DefaultQueueDir ∧ ¬ usable DefaultQueueDir ∧ d = FallbackQueueDir)
  | (Ok None, _) => ¬ usable dir ∧ (dir = DefaultQueueDir → ¬ usable FallbackQueueDir)
  | (Err _, _) => False
  end.
Proof.
  unfold resolveQueueDir. unfold mbind, stM_bind, mret, stM_ret. cbv beta.
  destruct (probeDir_spec dir log) as [acts H]. destruct (probeDir dir log) as [[ok|[]] log1].
  destruct H as [_ Hok]. destruct ok; [split; [by apply Hok|by left]|].
  assert (¬ usable dir) as Hu by (by intros H%Hok). case_decide as Hd; [|done]. subst dir.
  destruct (probeDir_spec FallbackQueueDir log1) as [acts1 H]. destruct (probeDir FallbackQueueDir log1) as [[fok|[]] log2].
  destruct H as [_ Hf]. destruct fok; [split; [by apply Hf|by right]|]. split; [done|]. by intros _ H%Hf.
Qed.

Lemma exec_schema_spec dir stmts log : match exec_schema dir stmts log with
  | (Ok ok, _) => ok = true ↔ ∀ i, i ∈ stmts → su_exec dir i = true
  | (Err _, _) => False
  end.
Proof.
  revert log. induction stmts as [|i stmts IH]; intros log; cbn [exec_schema].
  - split; [|done]. intros _ i Hi. by apply elem_of_nil in Hi.
  - unfold act, mbind, stM_bind. cbv beta iota. destruct (su_exec dir i) eqn:Ei.
    + specialize (IH (log ++ [ExecSchema dir i])). destruct (exec_schema dir stmts _) as [[ok|[]] log']. rewrite IH. split.
      * intros H j [->|Hj]%elem_of_cons; [done|by apply H].
      * intros H j Hj. apply H. by right.
    + split; [done|]. intros H. rewrite <-Ei. apply H. left.
Qed.

Lemma OpenQueue_spec dir a b log : match OpenQueue dir a b log with
  | (Ok (Some q), _) => opens_queue dir ∧ q = Open (su_file dir) a b
  | (Ok None, _) => ¬ opens_queue dir
  | (Err _, _) => False
  end.
Proof.
  unfold OpenQueue, opens_queue. unfold act, mbind, stM_bind, mret, stM_ret. cbv beta iota.
  destruct (su_mkdirAll dir); cbn [negb]; [|by intros [? _]].
  destruct (su_sqlOpen dir); cbn [negb]; [|by intros (_ & ? & _)].
  pose proof (exec_schema_spec dir (seq 0 6) ((log ++ [MkdirAll dir]) ++ [OpenFile dir])) as H.
  destruct (exec_schema dir (seq 0 6) _) as [[ok|[]] log'].
  assert (ok = true ↔ ∀ i, (i < 6)%nat → su_exec dir i = true) as H'.
  { rewrite H. split; intros Hi i; specialize (Hi i); rewrite elem_of_seq in *; intros; apply Hi; lia. }
  destruct ok; [split; [split_and!; [done|done|by apply H']|done]|]. intros (_ & _ & He). by apply H' in He.
Qed.
End lemmas.

Lemma trim_right_id c s : (∀ a, s ≠ (a +:+ String c "")%string) → trim_right c s = s.
Proof.
  induction s as [|x s IH]; intros H; [done|]. cbn [trim_right].
  rewrite IH by (intros a E; apply (H (String x a)); by rewrite E, append_cons). case_decide as Hd; [|done].
  destruct Hd as [-> ->]. by destruct (H "").
Qed.

(** What is started is what was configured. *)
Record started `{Machine} (version : string) (cfg : Config) (rep : Reporter) (client : HubClient) (dir : string) : Prop := {
  sd_dir : queue_dir cfg dir;
  sd_file : rp_q rep = Open (su_file dir) (cfg_QueueMaxBatches cfg) (cfg_QueueMaxEvents cfg);
  sd_interval : rp_interval rep = if decide (0 < cfg_Interval cfg) then cfg_Interval cfg else 30 * Second;
  sd_fresh : rp_posts rep = [] ∧ rp_wake rep = false;
  sd_batch : rp_maxEventSend rep = 100 ∧ rp_maxReplay rep = 100;
  sd_hub : hc_base client = cfg_HubURL cfg ∧ hc_key client = cfg_SourceKey cfg ∧ hc_gzip client = cfg_Gzip cfg }.

(** Reopened within its capacity, a sound queue file is a sound queue. *)
Lemma started_queue `{Machine} version cfg rep client dir : config_ok cfg → started version cfg rep client dir →
  qdb_wf (su_file dir) → count_rows metrics_q (su_file dir) <= cfg_QueueMaxBatches cfg → queue_ok (rp_q rep).
Proof.
  intros Hc Hs Hwf Hn. unfold queue_ok. rewrite (sd_file _ _ _ _ _ Hs). apply queue_inv_reopen; [done|done|].
  pose proof (co_events _ Hc). lia.
Qed.

(** ** Properties *)

(** C32: how the agent starts.  It always ends with a code or starts to report.  The code is 2
    exactly if the configuration is refused, and then, as for [--version], nothing on the
    machine was touched; [--check] collects twice, with the configured docker host and smartctl
    mode, and does nothing else: no directory, no queue file; the code is 1 if no directory or no queue file can be used, or
    [--check] has nothing to print.  If it reports, its configuration was accepted in full, its
    queue is the file of the configured directory with all it held ([./data] only in place of
    the default one, when that cannot be written), its interval is positive, and it posts to the
    hub and with the key that were configured. *)
Theorem start_spec `{Machine} version url_parse marshal indent args env frame now :
  match run version url_parse marshal indent args env frame now [] with
  | (Ok (Exit code out), acts) =>
    (code = 2 ↔ ∃ e, Parse url_parse args env = Err e) ∧ code ∈ [0; 1; 2] ∧
    ((∀ r, Parse url_parse args env = Ok r → res_Mode r = ModeVersion) → acts = []) ∧
    (∀ r, Parse url_parse args env = Ok r → res_Mode r = ModeCheck →
      acts = replicate 2 (CollectFrame (cfg_DockerHost (res_Cfg r)) (cfg_Smart (res_Cfg r)))) ∧
    (∀ r, Parse url_parse args env = Ok r → res_Mode r = ModeRun →
      code = 1 ∧ ∀ dir, queue_dir (res_Cfg r) dir → ¬ opens_queue dir)
  | (Ok (Reporting rep client _ _ _), _) =>
    ∃ cfg dir, Parse url_parse args env = Ok {| res_Cfg := cfg; res_Mode := ModeRun |} ∧
      config_ok cfg ∧ hub_ok url_parse cfg ∧ opens_queue dir ∧ started version cfg rep client dir ∧ 0 < rp_interval rep ∧
      in_re sourceKeyRe (hc_key client)
  | (Err _, _) => False
  end.
Proof.
  unfold run. destruct (Parse url_parse args env) as [r|e] eqn:Ep.
  2:{ cbn. split_and!; [split; [by exists e|done]|set_solver|done|done|done]. }
  destruct (res_Mode r) eqn:Em.
  2:{ cbn. split_and!; [split; [done|by intros [? ?]]|set_solver|done|intros r' [= <-]; by rewrite Em|intros r' [= <-]; by rewrite Em]. }
  2:{ unfold runCheck. destruct frame as [res|]; [destruct (BuildMetrics _ _ _ _)|]; cbn;
      (split_and!; [split; [done|by intros [? ?]]|set_solver| |by intros r' [= <-]|intros r' [= <-]; by rewrite Em]);
      intros Hv; specialize (Hv _ eq_refl); by rewrite Em in Hv. }
  destruct (parse_ok _ _ _ _ Ep) as [Hc Hh]; [by rewrite Em|]. specialize (Hh Em).
  destruct r as [cfg m]. cbn [res_Cfg res_Mode] in *. subst m. unfold mbind, stM_bind, mret, stM_ret. cbv beta zeta.
  pose proof (resolveQueueDir_spec (cfg_QueueDir cfg) []) as Hd.
  destruct (resolveQueueDir (cfg_QueueDir cfg) []) as [[[dir|]|[]] log1].
  2:{ destruct Hd as [Hu Hf]. split_and!; [split; [done|by intros [? ?]]|set_solver| | |].
    - intros Hr. by specialize (Hr _ eq_refl).
    - by intros r' [= <-].
    - intros r' [= <-] _. split; [done|]. intros d [Hd [->|(E & _ & ->)]]; [done|]. by apply Hf in E. }
  pose proof (OpenQueue_spec dir (cfg_QueueMaxBatches cfg) (cfg_QueueMaxEvents cfg) log1) as Hq.
  destruct (OpenQueue dir _ _ log1) as [[[q|]|[]] log2].
  2:{ split_and!; [split; [done|by intros [? ?]]|set_solver| | |].
    - intros Hr. by specialize (Hr _ eq_refl).
    - by intros r' [= <-].
    - intros r' [= <-] _. split; [done|]. intros d [Hd' Hor]. cbn [res_Cfg] in Hor. destruct Hd as [Hu Hdir].
      assert (d = dir) as ->; [|done]. destruct Hor as [->|(E & Hn & ->)], Hdir as [->|(E' & Hn' & ->)]; try done.
      + by rewrite E' in Hd'.
      + by rewrite E in Hu. }
  destruct Hq as [Ho ->]. exists cfg, dir. split_and!; [done..| | |].
  - destruct Hh as (_ & _ & Hslash & _). split; try done; cbn; [|by rewrite trim_right_id].
    destruct (decide (cfg_Interval cfg <= 0)); [by rewrite decide_False by lia|by rewrite decide_True by lia].
  - cbn. case_decide; [|lia]. unfold Second. lia.
  - cbn. by destruct Hh as (_ & _ & _ & ?).
Qed.

(** ** What is logged of the hub's address *)

Fixpoint free_of (c : ascii) (s : string) : bool :=
  match s with String a s' => negb (Ascii.eqb a c) && free_of c s' | EmptyString => true end.

Lemma before_at s t : free_of "@" s = true → before "@" (s +:+ String "@" t) = Some s.
Proof.
  induction s as [|a s IH]; [intros _; by destruct t|]. cbn [free_of]. intros [Ha Hs]%andb_true_iff. rewrite append_cons. cbn [before has_prefix String.prefix].
  destruct (ascii_dec "@" a) as [<-|]; [done|]. by rewrite IH.
Qed.
Lemma before_scheme s t : free_of ":" s = true → before "://" (s +:+ "://" +:+ t) = Some s.
Proof.
  induction s as [|a s IH]; [intros _; by destruct t|]. cbn [free_of]. intros [Ha Hs]%andb_true_iff. rewrite append_cons. cbn [before has_prefix String.prefix].
  destruct (ascii_dec ":" a) as [<-|]; [done|]. by rewrite IH.
Qed.
Lemma free_of_app c s t : free_of c (s +:+ t) = free_of c s && free_of c t.
Proof. induction s as [|a s IH]; [done|]. rewrite append_cons. cbn [free_of]. by rewrite IH, andb_assoc. Qed.
Lemma substring_drop s t : String.substring (String.length s) (String.length (s +:+ t)) (s +:+ t) = t.
Proof.
  assert (∀ n, (String.length t <= n)%nat → String.substring (String.length s) n (s +:+ t) = t) as H; [|apply H; rewrite length_append; lia].
  induction s as [|a s IH]; intros n Hn; [by apply substring_all|]. by apply IH.
Qed.
Lemma append_assoc (s t u : string) : ((s +:+ t) +:+ u = s +:+ (t +:+ u))%string.
Proof. induction s as [|a s IH]; [done|]. by rewrite !append_cons, IH. Qed.
Lemma until_query_app s t : free_of "?" s = true → free_of "#" s = true → until_query (s +:+ t) = (s +:+ until_query t)%string.
Proof.
  induction s as [|a s IH]; [done|]. cbn [free_of]. intros [Ha Hs]%andb_true_iff [Hb Ht]%andb_true_iff.
  rewrite append_cons. cbn [until_query]. rewrite decide_False by (intros [->| ->]; discriminate). by rewrite IH.
Qed.

(** A user and password without [@] are not logged, nor is anything after [?] or [#]. *)
Lemma redactURL_hides scheme user rest :
  free_of ":" scheme = true → free_of "@" scheme = true → free_of "?" scheme = true → free_of "#" scheme = true →
  free_of "@" user = true →
  redactURL (scheme +:+ "://" +:+ user +:+ String "@" rest) = (scheme +:+ "://***@" +:+ until_query rest)%string.
Proof.
  intros Hc Ha Hq Hh Hu. unfold redactURL. set (head := (scheme +:+ "://" +:+ user)%string).
  assert (scheme +:+ "://" +:+ user +:+ String "@" rest = head +:+ String "@" rest)%string as E.
  { unfold head. by rewrite !append_assoc. }
  assert (before "@" (head +:+ String "@" rest) = Some head) as Hat.
  { apply before_at. unfold head. rewrite !free_of_app, Ha, Hu. done. }
  rewrite E at 1. rewrite Hat, before_scheme by done.
  rewrite decide_True by (unfold head; rewrite !length_append; cbn [String.length]; lia).
  rewrite E, substring_drop, until_query_app by done. f_equal.
Qed.

(** One with [@] in it is, in part. *)
Example redactURL_leaks : redactURL "https://user:pa@ssword@hub.example" = "https://***@ssword@hub.example"%string.
Proof. reflexivity. Qed.
