(* ===== verification/Release.v ===== *)
(** The cache of agent releases ([hub/agent_release.go]): what the hub downloads, verifies,
    keeps within its capacity and serves.

    The cache directory is a map from names to files; a system call may fail, in which case
    it does nothing but for a write, which may be cut short.  What the release server answers
    is an environment, [encoding/json] a parameter.  [c.gate] lets one [openAgentAsset] at a
    time into the cache; the end of a lease is a step of its own between them. *)

From S2P Require Import Prelude GoBase GoTime HubTypes HubStore Regex Handlers Sha256 Auth.
From Stdlib Require Import Ascii.
Local Open Scope Z_scope.

(** ** Names *)

Definition agentRepo : string := "SakuraLoveSmile/Sakura-Assistant".
(* @src hub/agent_release.go 25-29 !agentMaxAssetBytes *)
Definition agentMaxAssetBytes : Z := 128 * 1024 * 1024.
Definition agentMaxMetadataBytes : Z := 1024 * 1024.

(* @src hub/agent_release.go 31-31 !agentVersionRE *)
Definition agentVersionRE : regex :=
  Cat (Plus digit_cls) (Cat (Lit ".") (Cat (Plus digit_cls) (Cat (Lit ".") (Plus digit_cls)))).
(* @src hub/agent_release.go 32-32 !agentHashRE *)
Definition agentHashRE : regex := between 64 0 (Cls [("0", "9"); ("a", "f")]%char).

(** [strings.HasSuffix], [TrimSuffix], [Cut]. *)
Definition has_suffix (suf s : string) : bool :=
  (String.length suf <=? String.length s)%nat &&
  String.eqb (String.substring (String.length s - String.length suf) (String.length suf) s) suf.
Definition trim_suffix (suf s : string) : string :=
  if has_suffix suf s then String.substring 0 (String.length s - String.length suf) s else s.
Fixpoint cut_at (c : ascii) (s : string) : option (string * string) :=
  match s with
  | EmptyString => None
  | String c' s' => if decide (c' = c) then Some (EmptyString, s') else (λ p, (String c' p.1, p.2)) <$> cut_at c s'
  end.

(* @src hub/agent_release.go 63-63 validAgentVersion *)
Definition validAgentVersion (v : string) : bool := (str_len v <=? 64) && matches agentVersionRE v.

Definition manifest_name : string := "agent-manifest.json".
Definition sums_name : string := "agent-SHA256SUMS.txt".
Definition asset_name (version arch : string) : string := "assistant-agent_" +:+ version +:+ "_linux_" +:+ arch.

(* @src hub/agent_release.go 64-76 validAgentAssetName *)
(** The first architecture whose affixes fit decides. *)
Definition validAgentAssetName (name : string) : bool :=
  if String.eqb name manifest_name || String.eqb name sums_name then true
  else
    let try_ arch := has_prefix "assistant-agent_" name && has_suffix ("_linux_" +:+ arch) name in
    let version arch := trim_suffix ("_linux_" +:+ arch) (trim_prefix "assistant-agent_" name) in
    if try_ "amd64" then validAgentVersion (version "amd64")
    else if try_ "arm64" then validAgentVersion (version "arm64")
    else false%string.

(* @src hub/agent_release.go 77-80 managedAgentCacheKey *)
Definition managedAgentCacheKey (key : string) : bool :=
  match cut_at "_" key with
  | Some (version, asset) => validAgentVersion version && validAgentAssetName asset
  | None => false
  end.

(** ** Manifests *)

(* @src hub/agent_release.go 39-45 agentAsset *)
Record agentAsset := { as_OS : string; as_Arch : string; as_Name : string; as_Size : Z; as_SHA256 : string }.

(* @src hub/agent_release.go 34-38 agentManifest *)
Record agentManifest := { mf_SchemaVersion : Z; mf_Version : string; mf_Assets : list agentAsset }.

(** The checks of one asset, given the architectures seen. *)
Definition asset_ok (version : string) (seen : list string) (x : agentAsset) : bool :=
  String.eqb (as_OS x) "linux" && (String.eqb (as_Arch x) "amd64" || String.eqb (as_Arch x) "arm64") &&
  negb (bool_decide (as_Arch x ∈ seen)) && (0 <? as_Size x) && (as_Size x <=? agentMaxAssetBytes) &&
  matches agentHashRE (as_SHA256 x) && String.eqb (as_Name x) (asset_name version (as_Arch x)).

Fixpoint assets_ok (version : string) (seen : list string) (l : list agentAsset) : bool :=
  match l with
  | [] => true
  | x :: l' => asset_ok version seen x && assets_ok version (as_Arch x :: seen) l'
  end.

(* @src hub/agent_release.go 94-100 validAgentChecksums *)
Definition checksum_line (x : agentAsset) : string :=
  as_SHA256 x +:+ "  " +:+ as_Name x +:+ String (ascii_of_N 10) EmptyString.
(* @src hub/agent_release.go 94-100 validAgentChecksums *)
Definition validAgentChecksums (b : string) (m : agentManifest) : bool :=
  String.eqb b (concat_str (checksum_line <$> mf_Assets m)).

(* @src hub/agent_release.go 101-101 hexDigest *)
Definition hexDigest (b : string) : string := hex_string (sum256 (bytes_of b)).

(** ** The directory and the cache *)

(** What a name of the directory stands for: a regular file with its modification time, or a
    directory, link or device. *)
Inductive node := Regular (content : string) (mtime : Z) | Other.

Definition node_size (n : node) : Z := match n with Regular b _ => str_len b | Other => 0 end.

(* @src hub/agent_release.go 47-57 agentCache *)
(** With the directory itself, and the number of system calls so far. *)
Record agentCache := {
  ac_dir : gmap string node;
  ac_max : Z;
  ac_refs : gmap string Z;
  ac_initialized : bool;
  ac_calls : nat }.

Definition set_dir (d : gmap string node) (c : agentCache) : agentCache :=
  {| ac_dir := d; ac_max := ac_max c; ac_refs := ac_refs c; ac_initialized := ac_initialized c; ac_calls := ac_calls c |}.
Definition set_refs (r : gmap string Z) (c : agentCache) : agentCache :=
  {| ac_dir := ac_dir c; ac_max := ac_max c; ac_refs := r; ac_initialized := ac_initialized c; ac_calls := ac_calls c |}.
Definition set_initialized (c : agentCache) : agentCache :=
  {| ac_dir := ac_dir c; ac_max := ac_max c; ac_refs := ac_refs c; ac_initialized := true; ac_calls := ac_calls c |}.
Definition next_call (c : agentCache) : agentCache :=
  {| ac_dir := ac_dir c; ac_max := ac_max c; ac_refs := ac_refs c; ac_initialized := ac_initialized c; ac_calls := S (ac_calls c) |}.

(* @src hub/agent_release.go 59-61 newAgentCache *)
(** [d]: what the directory holds when the hub starts. *)
Definition newAgentCache (d : gmap string node) (max : Z) : agentCache :=
  {| ac_dir := d; ac_max := max; ac_refs := ∅; ac_initialized := false; ac_calls := 0 |}.

(** [c.refs[key]] *)
Definition refs_of (c : agentCache) (key : string) : Z := default 0 (ac_refs c !! key).

(** An answer of the release server: the body is what arrives before the connection ends, or
    breaks. *)
Record response := { rs_StatusCode : Z; rs_ContentLength : Z; rs_body : string; rs_broken : bool }.

(** What the cache cannot control, by the number of the call: which calls fail (a context that
    is done counts as such), how much of a failing write is done, the clock, the names of temporary files, whether the cache
    path is a directory, and the answers. *)
Class CacheEnv := {
  ce_fail : nat → bool;
  ce_partial : nat → nat;
  ce_now : nat → Z;
  ce_random : nat → string;
  ce_is_dir : nat → bool;
  ce_fetch : nat → string → option response }.

Inductive cerr := EFs | ENotExist | EUpstream (status : Z) | ECache (msg : string).

(** A candidate for eviction. *)
Record candidate := { cd_name : string; cd_size : Z; cd_mtime : Z }.

(** [sort.Slice] by modification time. *)
Class CandidateSort := {
  sort_candidates : list candidate → list candidate;
  sort_candidates_perm l : sort_candidates l ≡ₚ l;
  sort_candidates_sorted l : StronglySorted Z.le (cd_mtime <$> sort_candidates l) }.

Definition temp_prefix : string := ".agent-download-".

Section cache.
Context `{CE : CacheEnv} `{CS : CandidateSort}.
Notation CM := (stM agentCache cerr).

(** ** System calls *)

(** A call that may fail and does nothing else; its number. *)
Definition sys : CM nat := λ c, (if ce_fail (ac_calls c) then Err EFs else Ok (ac_calls c), next_call c).

Definition name_le (a b : string * node) : Prop := str_le a.1 b.1.
#[global] Instance name_le_dec a b : Decision (name_le a b).
Proof. unfold name_le. apply _. Defined.

Definition ReadDir : CM (list (string * node)) :=
  _ ← sys; st_gets (λ c, merge_sort name_le (map_to_list (ac_dir c))).

Definition Lstat (key : string) : CM node :=
  _ ← sys; n ← st_gets (λ c, ac_dir c !! key);
  match n with Some n => mret n | None => st_throw ENotExist end.

(** [os.Open] and [io.ReadAll] of a regular file. *)
Definition ReadFile (key : string) : CM string :=
  n ← Lstat key; _ ← sys;
  match n with Regular b _ => mret b | Other => st_throw EFs end.

Definition Remove (key : string) : CM () :=
  _ ← Lstat key; st_modify (λ c, set_dir (delete key (ac_dir c)) c).

(** [os.CreateTemp]: the random name must be a new one. *)
Definition CreateTemp : CM string :=
  n ← sys;
  let tmp := (temp_prefix +:+ ce_random n)%string in
  d ← st_gets ac_dir;
  match d !! tmp with
  | Some _ => st_throw EFs
  | None => st_modify (set_dir (<[tmp := Regular EmptyString (ce_now n)]> d)) ;; mret tmp
  end.

(** A write that fails may have written a part. *)
Definition Write (tmp b : string) : CM () := λ c,
  let n := ac_calls c in
  let written := if ce_fail n then String.substring 0 (ce_partial n) b else b in
  (if ce_fail n then Err EFs else Ok (),
   set_dir (<[tmp := Regular written (ce_now n)]> (ac_dir c)) (next_call c)).

Definition Rename (tmp key : string) : CM () :=
  n ← Lstat tmp; st_modify (λ c, set_dir (<[key := n]> (delete tmp (ac_dir c))) c).

(** The deferred [os.Remove] of a temporary file, whose error nobody sees. *)
Definition with_temp (body : string → CM ()) : CM () :=
  tmp ← CreateTemp;
  r ← st_try (body tmp);
  _ ← st_try (Remove tmp);
  match r with Ok _ => mret () | Err e => st_throw e end.

(** ** Room *)

(** What the loop over the entries carries: the total and the candidates. *)
Definition scan_entry (c : agentCache) (acc : Z * list candidate) (e : string * node) : Z * list candidate :=
  match e.2 with
  | Regular b t =>
    (acc.1 + str_len b,
     if managedAgentCacheKey e.1 && (refs_of c e.1 =? 0)
     then acc.2 ++ [{| cd_name := e.1; cd_size := str_len b; cd_mtime := t |}] else acc.2)
  | Other => acc
  end.

(** The loop over the candidates, after which there is room or none are left. *)
Definition evict (extra max : Z) (total : Z) (f : candidate) : CM Z :=
  if decide (total + extra <= max) then mret total
  else Remove (cd_name f) ;; mret (total - cd_size f).

(* @src hub/agent_release.go 270-315 makeRoom *)
Definition makeRoom (extra : Z) : CM () :=
  c ← st_gets id;
  let max := ac_max c in
  if decide (max < extra ∨ max <= 0) then st_throw (ECache "cache capacity too small")
  else
    entries ← ReadDir;
    found ← st_foldl (λ acc e, _ ← sys; mret (scan_entry c acc e)) (0, []) entries;
    total ← st_foldl (evict extra max) found.1 (sort_candidates found.2);
    if decide (max < total + extra) then st_throw (ECache "cache capacity exhausted by active files") else mret ().

(** The directory is there. *)
Definition check_dir : CM () :=
  _ ← sys; n ← sys;
  if ce_is_dir n then mret () else st_throw (ECache "cache is not a directory").

(* @src hub/agent_release.go 241-266 prepare *)
(** Temporary files of an earlier run are removed once. *)
Definition prepare : CM () :=
  check_dir ;;
  ini ← st_gets ac_initialized;
  (if (ini : bool) then mret ()
   else
     entries ← ReadDir;
     st_foldl (λ _ e, match e.2 with
                      | Regular _ _ => if has_prefix temp_prefix e.1 then Remove e.1 else mret ()
                      | Other => mret ()
                      end) () entries ;;
     st_modify set_initialized) ;;
  makeRoom 0.

(* @src hub/agent_release.go 316-327 discard *)
Definition discard (key : string) : CM () :=
  refs ← st_gets (λ c, refs_of c key);
  if decide (refs ≠ 0) then st_throw (ECache "invalid cache entry currently served")
  else
    r ← st_try (Remove key);
    match r with Ok _ => mret () | Err ENotExist => mret () | Err e => st_throw e end.

(** ** Downloads *)

Definition endpoint (version asset : string) : string :=
  "https://github.com/" +:+ agentRepo +:+ "/releases/download/v" +:+ version +:+ "/" +:+ asset.

(* @src hub/agent_release.go 446-461 fetchAgentAsset *)
Definition fetchAgentAsset (version asset : string) : CM response :=
  n ← sys;
  match ce_fetch n (endpoint version asset) with
  | None => st_throw EFs
  | Some resp => if decide (rs_StatusCode resp = 200) then mret resp else st_throw (EUpstream (rs_StatusCode resp))
  end.

(* @src hub/agent_release.go 328-346 readSmallAgentFile *)
Definition readSmallAgentFile (key : string) : CM string :=
  n ← Lstat key;
  match n with
  | Other => st_throw (ECache "invalid metadata cache file")
  | Regular b _ =>
    if decide (agentMaxMetadataBytes < str_len b) then st_throw (ECache "invalid metadata cache file")
    else ReadFile key
  end.

(** What is stored of an answer: in a temporary file that takes the key's place once it is
    complete. *)
Definition store_file (key b : string) : CM () :=
  with_temp (λ tmp, Write tmp b ;; _ ← sys; _ ← sys; Rename tmp key).

(* @src hub/agent_release.go 347-393 agentMetadata *)
Definition agentMetadata (version name : string) (valid : string → bool) : CM string :=
  let key := (version +:+ "_" +:+ name)%string in
  cached ← st_try (readSmallAgentFile key);
  match (match cached with Ok b => if valid b then Some b else None | Err _ => None end) with
  | Some b => mret b
  | None =>
    discard key ;;
    resp ← fetchAgentAsset version name;
    if decide (agentMaxMetadataBytes < rs_ContentLength resp) then st_throw (ECache "metadata too large")
    else match read_limited (agentMaxMetadataBytes + 1) (rs_body resp) (rs_broken resp) with
    | None => st_throw EFs
    | Some b =>
      if decide (agentMaxMetadataBytes < str_len b) then st_throw (ECache "invalid metadata")
      else if negb (valid b) then st_throw (ECache "invalid metadata")
      else makeRoom (str_len b) ;; store_file key b ;; mret b
    end
  end.

(* @src hub/agent_release.go 394-407 validAgentBinary *)
Definition validAgentBinary (key : string) (x : agentAsset) : CM bool :=
  n ← st_try (Lstat key);
  match n with
  | Ok (Regular b _) =>
    if decide (str_len b ≠ as_Size x) then mret false
    else
      r ← st_try (ReadFile key);
      mret match r with Ok b => (str_len b =? as_Size x) && String.eqb (hexDigest b) (as_SHA256 x) | Err _ => false end
  | _ => mret false
  end.

(** Copying into the temporary file and checking, one byte past the end included. *)
Definition fill_temp (x : agentAsset) (resp : response) (key tmp : string) : CM () :=
  let body := rs_body resp in
  Write tmp (String.substring 0 (Z.to_nat (as_Size x)) body) ;;
  if decide (str_len body < as_Size x) then st_throw (ECache "incomplete asset")
  else if decide (as_Size x < str_len body) then st_throw (ECache "asset size mismatch")
  else if rs_broken resp then st_throw (ECache "asset size mismatch")
  else if decide (hexDigest body ≠ as_SHA256 x) then st_throw (ECache "asset digest mismatch")
  else _ ← sys; _ ← sys; Rename tmp key.

(* @src hub/agent_release.go 408-445 agentBinary *)
Definition agentBinary (version : string) (x : agentAsset) : CM () :=
  let key := (version +:+ "_" +:+ as_Name x)%string in
  ok ← validAgentBinary key x;
  if (ok : bool) then mret ()
  else
    discard key ;;
    makeRoom (as_Size x) ;;
    resp ← fetchAgentAsset version (as_Name x);
    if decide (0 <= rs_ContentLength resp ∧ rs_ContentLength resp ≠ as_Size x) then st_throw (ECache "asset size mismatch")
    else with_temp (fill_temp x resp key).

Section open.
(** [json.Unmarshal] into an [agentManifest]; [None] is its error. *)
Variable decode_manifest : string → option agentManifest.

(* @src hub/agent_release.go 81-93 parseAgentManifest *)
Definition parseAgentManifest (b version : string) : option agentManifest :=
  if decide (agentMaxMetadataBytes < str_len b) then None
  else if negb (validAgentVersion version) then None
  else match decode_manifest b with
  | None => None
  | Some m =>
    if decide (mf_SchemaVersion m ≠ 1 ∨ mf_Version m ≠ version ∨ length (mf_Assets m) ≠ 2%nat) then None
    else if assets_ok version [] (mf_Assets m) then Some m else None
  end.

(** The key of an asset, once the cache holds it verified. *)
Definition ensure_asset (version asset : string) (manifest : agentManifest) : CM string :=
  let key := (version +:+ "_" +:+ asset)%string in
  if decide (asset = manifest_name) then mret key
  else if decide (asset = sums_name) then
    agentMetadata version asset (λ b, validAgentChecksums b manifest) ;; mret key
  else match head (filter (λ x, as_Name x = asset) (mf_Assets manifest)) with
  | None => st_throw (ECache "asset not in manifest")
  | Some x => agentBinary version x ;; mret key
  end.

(* @src hub/agent_release.go 164-240 openAgentAsset *)
(** The content and time of the file that is opened, under a lease. *)
Definition openAgentAsset (version asset : string) : CM (string * Z) :=
  if negb (validAgentVersion version && validAgentAssetName asset) then st_throw (ECache "invalid asset")
  else
    _ ← sys; _ ← sys;
    prepare ;;
    mb ← agentMetadata version manifest_name (λ b, bool_decide (is_Some (parseAgentManifest b version)));
    match parseAgentManifest mb version with
    | None => st_throw (ECache "invalid agent manifest")
    | Some manifest =>
      key ← ensure_asset version asset manifest;
      f ← Lstat key;
      match f with
      | Regular b t => st_modify (λ c, set_refs (<[key := refs_of c key + 1]> (ac_refs c)) c) ;; mret (b, t)
      | Other => st_throw EFs
      end
    end.

(** The function [openAgentAsset] returns beside the file. *)
Definition release (version asset : string) (c : agentCache) : agentCache :=
  let key := (version +:+ "_" +:+ asset)%string in
  if decide (refs_of c key - 1 = 0) then set_refs (delete key (ac_refs c)) c
  else set_refs (<[key := refs_of c key - 1]> (ac_refs c)) c.

(** ** Handlers *)

(** A file as it is answered. *)
Record served := { sv_ContentType : string; sv_CacheControl : option string; sv_content : string }.

(* @src hub/agent_release.go 484-486 agentReleaseErr *)
Definition agentReleaseErr {B} : reply B :=
  Fail 502 "agent_release_unavailable" "Agent 发布资产暂不可用，请检查版本、上游连接和缓存空间".

Definition content_type (asset : string) : string :=
  if decide (asset = manifest_name) then "application/json; charset=utf-8"
  else if decide (asset = sums_name) then "text/plain; charset=utf-8"
  else "application/octet-stream".

(* @src hub/agent_release.go 137-161 serveAgentAsset *)
(** When nothing else happens before the file has been sent. *)
Definition serveAgentAsset (version asset : string) (cacheControl : option string) : CM (reply served) :=
  r ← st_try (openAgentAsset version asset);
  match r with
  | Err _ => mret agentReleaseErr
  | Ok (b, _) =>
    st ← st_try sys;
    st_modify (release version asset) ;;
    mret match st with
         | Ok _ => Reply 200 {| sv_ContentType := content_type asset; sv_CacheControl := cacheControl; sv_content := b |}
         | Err _ => agentReleaseErr
         end
  end.

(* @src hub/agent_release.go 103-112 handleAgentInstallScript *)
(** [script]: the embedded file. *)
Definition handleAgentInstallScript (script : option string) : reply served :=
  match script with
  | None => errInternal
  | Some b => Reply 200 {| sv_ContentType := "application/x-sh; charset=utf-8"; sv_CacheControl := Some "no-cache"; sv_content := b |}
  end%string.

(* @src hub/agent_release.go 113-120 handleAgentStable *)
Definition handleAgentStable (agentVersion : string) : CM (reply served) :=
  if negb (validAgentVersion agentVersion) then mret agentReleaseErr
  else serveAgentAsset agentVersion manifest_name (Some "no-cache"%string).

(* @src hub/agent_release.go 121-132 handleAgentAsset *)
Definition handleAgentAsset (version asset : string) : CM (reply served) :=
  if negb (validAgentVersion version && validAgentAssetName asset) then mret errNotFound
  else if decide (has_prefix "assistant-agent_" asset = true ∧ asset ≠ asset_name version "amd64" ∧ asset ≠ asset_name version "arm64")
  then mret errNotFound
  else serveAgentAsset version asset None.
End open.
End cache.

(** ** Redirects *)

(** What the check reads of a request's address. *)
Record redirect_url := { ru_Scheme : string; ru_User : bool; ru_Fragment : string; ru_Port : string; ru_Hostname : string }.

(* @src hub/agent_release.go 462-476 agentRedirectAllowed *)
(** [via]: how many requests came before. *)
Definition agentRedirectAllowed (u : redirect_url) (via : nat) : bool :=
  if decide (5 <= via)%nat then false
  else if decide (ru_Scheme u ≠ "https" ∨ ru_User u = true ∨ ru_Fragment u ≠ "" ∨ ru_Port u ≠ "" ∧ ru_Port u ≠ "443") then false
  else bool_decide (to_lower (ru_Hostname u) ∈
    ["github.com"; "release-assets.githubusercontent.com"; "objects.githubusercontent.com"; "github-releases.githubusercontent.com"])%string.

(** ** The agent's own status *)

Section status.
Context `{HE : HubEnv}.
Notation HM := (stM World herr).

(** The answer of [handleAgentStatus]. *)
Record agent_status := { ags_sourceId : string; ags_lastSeenAt : option string; ags_lastMetricsSeq : Z; ags_agentVersion : option string }.

(* @src hub/agent_release.go 496-506 handleAgentStatus *)
Definition handleAgentStatus (src : sourceRow) : HM (reply agent_status) :=
  mret (Reply 200 {| ags_sourceId := s_ID src; ags_lastSeenAt := s_LastSeenAt src; ags_lastMetricsSeq := s_LastMetricsSeq src;
                     ags_agentVersion := s_AgentVersion src |}).

(* @src hub/agent_release.go 487-495 agentStatusAuth *)
Definition agentStatusAuth {B} (next : sourceRow → HM (reply B)) : string → HM (reply B) :=
  sourceKeyAuth (λ src, if decide (s_Kind src ≠ "device") then mret (errForbidden "forbidden" "该来源不支持 Agent 状态查询")
                        else next src)%string.
End status.

(** ** Names, again *)

Lemma has_prefix_app p t : has_prefix p (p +:+ t)%string = true.
Proof.
  unfold has_prefix. induction p as [|c p IH]; [by destruct t|].
  change (String c p +:+ t)%string with (String c (p +:+ t)). cbn. by destruct (ascii_dec c c).
Qed.

Definition version_byte (c : ascii) : bool := is_digit c || Ascii.eqb c ".".

Lemma version_bytes v : validAgentVersion v = true → str_all version_byte v = true.
Proof.
  intros [_ Hm]%andb_prop. apply matches_iff in Hm. revert Hm. apply re_all_sound.
  unfold agentVersionRE, Plus, digit_cls. cbn [re_all Lit].
  split_and!; try exact I; apply cls_within; vm_compute; reflexivity.
Qed.

Lemma cut_at_app c s t : str_all (λ c', negb (Ascii.eqb c' c)) s = true → cut_at c (s +:+ String c t)%string = Some (s, t).
Proof.
  induction s as [|c' s IH]; [change ("" +:+ String c t)%string with (String c t); cbn [cut_at]; by rewrite decide_True|]. cbn [str_all]. intros [Hc Hs]%andb_prop.
  change (String c' s +:+ String c t)%string with (String c' (s +:+ String c t)). cbn [cut_at]. rewrite decide_False.
  - by rewrite IH.
  - intros ->. by rewrite Ascii.eqb_refl in Hc.
Qed.

(** The keys the cache uses are its own. *)
Lemma managed_key v a : validAgentVersion v = true → validAgentAssetName a = true →
  managedAgentCacheKey (v +:+ "_" +:+ a)%string = true.
Proof.
  intros Hv Ha. unfold managedAgentCacheKey. change ("_" +:+ a)%string with (String "_" a). rewrite cut_at_app.
  - by rewrite Hv, Ha.
  - apply (str_all_impl version_byte); [|by apply version_bytes]. intros c Hc. apply negb_true_iff, Ascii.eqb_neq. by intros ->.
Qed.

(** A temporary file is not. *)
Lemma managed_not_temp k : managedAgentCacheKey k = true → has_prefix temp_prefix k = false.
Proof.
  destruct (has_prefix temp_prefix k) eqn:E; [|done]. destruct k as [|c k]; [done|]. unfold has_prefix, temp_prefix in E. cbn [String.prefix] in E.
  destruct (ascii_dec "." c) as [<-|]; [|done]. unfold managedAgentCacheKey. cbn [cut_at]. rewrite decide_False by done.
  destruct (cut_at "_" k) as [[v a]|]; [|done]. cbn. intros [[_ Hm]%andb_prop _]%andb_prop. exfalso. revert Hm.
  assert (deriv "." agentVersionRE = Void) as Hd by (vm_compute; reflexivity). cbn [matches]. rewrite Hd.
  rewrite matches_iff. apply in_void.
Qed.

(** ** Bytes in use *)

Definition usage (d : gmap string node) : Z := map_fold (λ _ n acc, node_size n + acc) 0 d.

Lemma node_size_nonneg n : 0 <= node_size n.
Proof. destruct n; cbn; unfold str_len; lia. Qed.

Lemma usage_insert k n d : d !! k = None → usage (<[k := n]> d) = node_size n + usage d.
Proof. intros Hk. unfold usage. apply (map_fold_insert_L (λ (_ : string) n acc, node_size n + acc)); [intros; lia|done]. Qed.

Lemma usage_delete k n d : d !! k = Some n → usage d = node_size n + usage (delete k d).
Proof. intros Hk. rewrite <-(insert_delete_id d k n Hk) at 1. apply usage_insert, lookup_delete_eq. Qed.

Lemma usage_replace k n d : usage (<[k := n]> d) = node_size n + usage (delete k d).
Proof. rewrite <-insert_delete_eq. apply usage_insert, lookup_delete_eq. Qed.

Lemma usage_delete_le k d : usage (delete k d) <= usage d.
Proof.
  destruct (d !! k) as [n|] eqn:E; [|by rewrite delete_id].
  rewrite (usage_delete k n d E). pose proof (node_size_nonneg n). lia.
Qed.

(** The sum over the entries, in whatever order they come. *)
Lemma usage_entries (l : list (string * node)) d : l ≡ₚ map_to_list d → foldr (λ e acc, node_size e.2 + acc) 0 l = usage d.
Proof.
  intros Hl. transitivity (foldr (λ e acc, node_size e.2 + acc) 0 (map_to_list d)).
  - clear -Hl. revert Hl. generalize (map_to_list d). intros l'. induction 1; cbn; lia.
  - clear Hl. unfold usage. rewrite map_fold_foldr. induction (map_to_list d) as [|[k n] r IH]; [done|]. exact (f_equal (Z.add (node_size n)) IH).
Qed.

(** ** What every part of the cache keeps *)

(** Files the cache did not make: they count but are never touched. *)
Definition foreign (k : string) : Prop := managedAgentCacheKey k = false ∧ has_prefix temp_prefix k = false.

(** Files that stay as they are: those, and the ones being served. *)
Definition protected (c : agentCache) (k : string) : Prop :=
  foreign k ∨ managedAgentCacheKey k = true ∧ refs_of c k ≠ 0.

(** From [c0], work on the cache leads to [c]. *)
Record evolves (c0 c : agentCache) : Prop := {
  ev_max : ac_max c = ac_max c0;
  ev_refs : ac_refs c = ac_refs c0;
  ev_kept k : protected c0 k → ac_dir c !! k = ac_dir c0 !! k;
  ev_usage : usage (ac_dir c) <= Z.max (usage (ac_dir c0)) (ac_max c0) }.

Lemma evolves_refl c : evolves c c.
Proof. split; [done..|lia]. Qed.

Lemma temp_unprotected c k : has_prefix temp_prefix k = true → ¬ protected c k.
Proof. intros Ht [[_ Hf]|[Hm _]]; [congruence|]. apply managed_not_temp in Hm. congruence. Qed.

(** A change of the directory that spares what is protected and does not grow. *)
Lemma evolves_dir c0 c d : evolves c0 c →
  (∀ k, protected c0 k → d !! k = ac_dir c !! k) → usage d <= Z.max (usage (ac_dir c)) (ac_max c0) → evolves c0 (set_dir d c).
Proof. intros [Hm Hr Hk Hu] Hd Hus. split; cbn; [done|done| |lia]. intros k Hp. by rewrite Hd, Hk. Qed.

Section evolution.
Context `{CE : CacheEnv} `{CS : CandidateSort} (c0 : agentCache).
Notation CM := (stM agentCache cerr).
Notation E := (evolves c0).

(** The directory is [d]: what a call that only looks leaves. *)
Definition at_dir (d : gmap string node) (c : agentCache) : Prop := E c ∧ ac_dir c = d.

Definition looks {A} (m : CM A) : Prop := ∀ d, preserves (at_dir d) m.

Lemma looks_keeps {A} (m : CM A) : looks m → preserves E m.
Proof. intros H c Hc. by destruct (H (ac_dir c) c (conj Hc eq_refl)). Qed.

Lemma looks_sys : looks sys.
Proof. intros d c [[????] Hd]. by split. Qed.

Lemma looks_ReadDir : looks ReadDir.
Proof. intros d. unfold ReadDir. pres. apply looks_sys. Qed.

Lemma looks_Lstat key : looks (Lstat key).
Proof. intros d. unfold Lstat. pres. apply looks_sys. Qed.

Lemma looks_ReadFile key : looks (ReadFile key).
Proof. intros d. unfold ReadFile. pres; [apply looks_Lstat|apply looks_sys]. Qed.

Lemma looks_readSmall key : looks (readSmallAgentFile key).
Proof. intros d. unfold readSmallAgentFile. pres; [apply looks_Lstat|apply looks_ReadFile]. Qed.

Lemma looks_fetch v a : looks (fetchAgentAsset v a).
Proof. intros d. unfold fetchAgentAsset. pres. apply looks_sys. Qed.

Lemma looks_check_dir : looks check_dir.
Proof. intros d. unfold check_dir. pres; apply looks_sys. Qed.

Lemma looks_validAgentBinary key x : looks (validAgentBinary key x).
Proof. intros d. unfold validAgentBinary. pres; [apply looks_Lstat|apply looks_ReadFile]. Qed.

Lemma weaken {A} d P (m : CM A) Q : triple P m Q (λ _, at_dir d) → triple P m Q (λ _, E).
Proof. intros H. by eapply triple_conseq; [exact H|..|intros _ c [Hc _]]. Qed.

Lemma keeps_set_dir d c : E c → (∀ k, protected c0 k → d !! k = ac_dir c !! k) → usage d <= usage (ac_dir c) → E (set_dir d c).
Proof. intros Hc Hk Hu. apply evolves_dir; [done|done|]. destruct Hc. lia. Qed.

(** What a call that reads a file says of it. *)
Lemma Lstat_spec key d : triple (at_dir d) (Lstat key) (λ n c, at_dir d c ∧ d !! key = Some n) (λ _, at_dir d).
Proof.
  unfold Lstat. eapply triple_bind; [apply triple_preserves, looks_sys|]. intros _ c [Hc Hd]. unfold mbind, stM_bind, st_gets.
  cbv beta iota. rewrite Hd. by destruct (d !! key).
Qed.

Lemma ReadFile_spec key d : triple (at_dir d) (ReadFile key) (λ b c, at_dir d c ∧ ∃ t, d !! key = Some (Regular b t)) (λ _, at_dir d).
Proof.
  unfold ReadFile. eapply triple_bind; [apply Lstat_spec|]. intros n. apply triple_pure. intros Hn.
  eapply triple_bind; [apply triple_preserves, looks_sys|]. intros _ c Hc. destruct n as [b t|]; [|done].
  split; [done|]. by exists t.
Qed.

Lemma Remove_spec key d : ¬ protected c0 key →
  triple (at_dir d) (Remove key) (λ _ c, at_dir (delete key d) c ∧ is_Some (d !! key)) (λ _, at_dir d).
Proof.
  intros Hp. unfold Remove. eapply triple_bind; [apply Lstat_spec|]. intros n c [[Hc Hd] Hn]. cbn.
  split; [|by eexists]. rewrite <-Hd. split; [|done]. apply keeps_set_dir; [done| | apply usage_delete_le].
  intros k Hk. apply lookup_delete_ne. by intros <-.
Qed.

(** ** Room *)

(** A file of the directory that may go. *)
Definition evictable (d : gmap string node) (f : candidate) : Prop :=
  managedAgentCacheKey (cd_name f) = true ∧ refs_of c0 (cd_name f) = 0 ∧
  ∃ b, d !! cd_name f = Some (Regular b (cd_mtime f)) ∧ cd_size f = str_len b.

(** The scan finds the bytes in use and the files that may go. *)
Lemma scan_ok d c entries acc : ac_refs c = ac_refs c0 → (∀ e, e ∈ entries → d !! e.1 = Some e.2) →
  let r := foldl (scan_entry c) acc entries in
  r.1 = acc.1 + foldr (λ e a, node_size e.2 + a) 0 entries ∧
  ∃ new, r.2 = acc.2 ++ new ∧ sublist (cd_name <$> new) (entries.*1) ∧ Forall (evictable d) new.
Proof.
  intros Hr. revert acc. induction entries as [|[k n] es IH]; intros acc Hd.
  - cbn. split; [lia|]. exists []. by rewrite app_nil_r.
  - cbn [foldl foldr]. destruct (IH (scan_entry c acc (k, n))) as (Ht & new & Hn & Hs & Hf); [set_solver|].
    specialize (Hd (k, n) ltac:(left)). cbn in Hd. rewrite Ht, Hn. clear Ht Hn IH.
    assert (scan_entry c acc (k, n) = (acc.1 + node_size n, acc.2) ∨
      ∃ b t, n = Regular b t ∧ managedAgentCacheKey k = true ∧ refs_of c0 k = 0 ∧
        scan_entry c acc (k, n) = (acc.1 + node_size n, acc.2 ++ [{| cd_name := k; cd_size := str_len b; cd_mtime := t |}])) as Hstep.
    { unfold scan_entry, refs_of. cbn [fst snd]. rewrite Hr. destruct n as [b t|]; [|left; rewrite Z.add_0_r; by destruct acc].
      destruct (managedAgentCacheKey k && _) eqn:E; [|by left]. apply andb_prop in E as [Hm Hz%Z.eqb_eq]. right. by exists b, t. }
    rewrite fmap_cons. destruct Hstep as [->|(b & t & -> & Hm & Hz & ->)]; cbn [fst snd]; (split; [lia|]).
    + exists new. split_and!; [done|by constructor|done].
    + exists ({| cd_name := k; cd_size := str_len b; cd_mtime := t |} :: new). rewrite <-app_assoc, fmap_cons. split_and!; [done|by constructor|].
      constructor; [|done]. split_and!; [done..|by exists b].
Qed.

Lemma scan_run d c1 entries acc :
  triple (at_dir d) (st_foldl (λ acc e, _ ← sys; mret (scan_entry c1 acc e)) acc entries)
    (λ r c, at_dir d c ∧ r = foldl (scan_entry c1) acc entries) (λ _, at_dir d).
Proof.
  revert acc. induction entries as [|e es IH]; intros acc; [by apply triple_ret|]. cbn [st_foldl foldl].
  apply (triple_bind _ _ (λ r c, at_dir d c ∧ r = scan_entry c1 acc e)); [|intros a; apply triple_pure; intros ->; apply IH]. eapply triple_bind; [apply triple_preserves, looks_sys|].
  intros ?. by apply triple_ret.
Qed.

(** Evicting goes on from a directory whose size is known. *)
Lemma evict_run extra max fs total d : NoDup (cd_name <$> fs) → Forall (evictable d) fs → total = usage d →
  triple (at_dir d) (st_foldl (evict extra max) total fs) (λ r c, E c ∧ r = usage (ac_dir c)) (λ _, E).
Proof.
  revert total d. induction fs as [|f fs IH]; intros total d Hnd Hf ->; cbn [st_foldl].
  - apply triple_ret. intros c [Hc <-]. done.
  - rewrite fmap_cons in Hnd. apply NoDup_cons in Hnd as [Hx Hnd]. apply Forall_cons in Hf as [(Hm & Hz & b & Hb & Hs) Hf].
    apply (triple_bind _ _ (λ t c, ∃ d', at_dir d' c ∧ t = usage d' ∧ Forall (evictable d') fs)).
    2:{ intros t c (d' & Hc & -> & Hf'). by apply (IH _ d'). }
    unfold evict. case_decide; [apply triple_ret; intros c Hc; by exists d|].
    eapply triple_bind.
    + eapply weaken, Remove_spec. intros [[Hp _]|[_ Hp]]; congruence.
    + intros ?. apply triple_ret. intros c [Hc _]. exists (delete (cd_name f) d). split_and!; [done| |].
      * rewrite (usage_delete _ _ _ Hb). cbn. lia.
      * rewrite Forall_forall in Hf |- *. intros g Hg. destruct (Hf g Hg) as (Hm' & Hz' & b' & Hb' & Hs').
        split_and!; [done..|]. exists b'. split; [|done]. rewrite lookup_delete_ne; [done|]. intros Heq. apply Hx. rewrite Heq.
        by apply list_elem_of_fmap_2.
Qed.

(** [makeRoom] succeeds only with the room that was asked for. *)
Lemma makeRoom_ok extra d :
  triple (at_dir d) (makeRoom extra) (λ _ c, E c ∧ usage (ac_dir c) + extra <= ac_max c0 ∧ 0 < ac_max c0) (λ _, E).
Proof.
  unfold makeRoom. apply (triple_bind _ _ (λ c' c, at_dir d c ∧ at_dir d c')); [by intros c Hc|]. intros c1.
  apply triple_pure. intros [[Hmax Hrefs _ _] Hd1]. rewrite Hmax. case_decide as Hx; [by intros c [Hc _]|]. apply Decidable.not_or in Hx as [Hx Hpos].
  eapply (triple_bind _ _ (λ es c, at_dir d c ∧ es ≡ₚ map_to_list d)).
  { apply (weaken d). unfold ReadDir. eapply triple_bind; [apply triple_preserves, looks_sys|]. intros _ c [Hc Hd]. cbn. split; [done|].
    rewrite Hd. apply merge_sort_Permutation. }
  intros es. apply triple_pure. intros Hes. eapply triple_bind; [eapply weaken, scan_run|]. intros found. apply triple_pure. intros ->.
  destruct (scan_ok d c1 es (0, [])) as (Ht & new & Hn & Hsub & Hf); [done| |].
  { intros [k n]. rewrite Hes. cbn. apply elem_of_map_to_list. }
  cbn in Ht, Hn. rewrite (usage_entries es d Hes) in Ht.
  eapply triple_bind.
  { apply evict_run; [|rewrite Hn, sort_candidates_perm; exact Hf|exact Ht].
    rewrite Hn, sort_candidates_perm. eapply sublist_NoDup; [|exact Hsub]. rewrite Hes. apply NoDup_fst_map_to_list. }
  intros total c [Hc ->]. case_decide; [done|]. split; [done|]. lia.
Qed.

Lemma keeps_makeRoom extra : preserves E (makeRoom extra).
Proof.
  intros c Hc. pose proof (makeRoom_ok extra (ac_dir c) c (conj Hc eq_refl)) as H.
  destruct (makeRoom extra c) as [[[]|e] c']; [apply H|exact H].
Qed.

Lemma keeps_Remove key : ¬ protected c0 key → preserves E (Remove key).
Proof.
  intros Hp c Hc. pose proof (Remove_spec key (ac_dir c) Hp c (conj Hc eq_refl)) as H.
  destruct (Remove key c) as [[[]|e] c']; [apply H|apply H].
Qed.

(** After [prepare] the cache is within its capacity. *)
Lemma prepare_ok : triple E prepare (λ _ c, E c ∧ usage (ac_dir c) <= ac_max c0) (λ _, E).
Proof.
  unfold prepare. eapply triple_bind; [apply triple_preserves, looks_keeps, looks_check_dir|]. intros ?.
  apply (triple_bind _ _ (λ _, E)); [apply triple_preserves, preserves_gets|]. intros ini.
  apply (triple_bind _ _ (λ _, E)).
  - destruct ini; [by apply triple_ret|]. apply triple_preserves.
    apply preserves_bind; [apply looks_keeps, looks_ReadDir|]. intros es. apply preserves_bind.
    + apply preserves_foldl. intros _ [k [b t|]]; cbn [fst snd]; [|apply preserves_ret].
      destruct (has_prefix temp_prefix k) eqn:Hk; [|apply preserves_ret]. apply keeps_Remove. by apply temp_unprotected.
    + intros _. apply preserves_modify. by intros c [????].
  - intros _ c Hc. pose proof (makeRoom_ok 0 (ac_dir c) c (conj Hc eq_refl)) as H.
    destruct (makeRoom 0 c) as [[[]|e] c']; [|done]. split; [apply H|]. destruct H as (_ & H & _). lia.
Qed.

(** A key that could be discarded is not being served. *)
Lemma discard_ok key : managedAgentCacheKey key = true →
  triple E (discard key) (λ _ c, E c ∧ ¬ protected c0 key) (λ _, E).
Proof.
  intros Hm. unfold discard. apply (triple_bind _ _ (λ r c, E c ∧ r = refs_of c0 key)).
  - intros c Hc. split; [done|]. unfold refs_of. by rewrite (ev_refs _ _ Hc).
  - intros r. apply triple_pure. intros ->. case_decide as Hr; [by intros c|].
    assert (refs_of c0 key = 0) as Hz by (destruct (decide (refs_of c0 key = 0)); [done|by destruct Hr]).
    assert (¬ protected c0 key) as Hp by (intros [[? _]|[_ ?]]; congruence).
    eapply triple_bind; [apply triple_preserves, preserves_try, keeps_Remove, Hp|]. intros [[]|[]] c Hc; cbn; auto.
Qed.

(** ** Downloads *)

(** [key] holds [b]. *)
Definition holds (key b : string) (c : agentCache) : Prop := ∃ t, ac_dir c !! key = Some (Regular b t).

(** A temporary file may be filled as far as there is room, and then put in [key]'s place. *)
Definition filling (tmp : string) (room : Z) (c : agentCache) : Prop :=
  E c ∧ usage (ac_dir c) + room <= ac_max c0 ∧ ∃ t, ac_dir c !! tmp = Some (Regular EmptyString t).

Definition filled (tmp b : string) (c : agentCache) : Prop :=
  E c ∧ usage (ac_dir c) <= ac_max c0 ∧ ∃ t, ac_dir c !! tmp = Some (Regular b t).

Lemma Write_ok tmp b room : has_prefix temp_prefix tmp = true → str_len b <= room →
  triple (filling tmp room) (Write tmp b) (λ _, filled tmp b) (λ _, E).
Proof.
  intros Ht Hb c (Hc & Hr & t & Hl). unfold Write.
  assert (∀ w, str_len w <= room → E (set_dir (<[tmp := Regular w (ce_now (ac_calls c))]> (ac_dir c)) (next_call c)) ∧
    usage (<[tmp := Regular w (ce_now (ac_calls c))]> (ac_dir c)) <= ac_max c0) as Hw.
  { intros w Hw. assert (usage (<[tmp := Regular w (ce_now (ac_calls c))]> (ac_dir c)) <= ac_max c0) as Hu.
    { rewrite usage_replace. rewrite (usage_delete _ _ _ Hl) in Hr. cbn in Hr |- *. unfold str_len in *. cbn in Hr. lia. }
    split; [|done]. apply evolves_dir; [by destruct Hc; split| |cbn; lia].
    intros k Hk. cbn. apply lookup_insert_ne. intros <-. by apply (temp_unprotected c0 tmp). }
  destruct (ce_fail (ac_calls c)).
  - apply Hw. unfold str_len in *. pose proof (substring_length_le 0 (ce_partial (ac_calls c)) b). lia.
  - destruct (Hw b Hb) as [He Hu]. split_and!; [done..|]. eexists. cbn. apply lookup_insert_eq.
Qed.

Lemma filled_sys tmp b : preserves (filled tmp b) sys.
Proof. intros c ([????] & Hu & Ht). by split_and!. Qed.


Lemma Rename_ok tmp b key : ¬ protected c0 key → has_prefix temp_prefix tmp = true → tmp ≠ key →
  triple (filled tmp b) (Rename tmp key) (λ _ c, E c ∧ usage (ac_dir c) <= ac_max c0 ∧ holds key b c) (λ _, E).
Proof.
  intros Hp Ht Hne c (Hc & Hu & t & Hl). unfold Rename.
  pose proof (Lstat_spec tmp (ac_dir c) c (conj Hc eq_refl)) as H. unfold mbind, stM_bind.
  destruct (Lstat tmp c) as [[n|e] c1]; [|apply H]. destruct H as [[Hc1 Hd1] Hn]. rewrite Hl in Hn. injection Hn as <-. cbn.
  rewrite Hd1. rewrite (usage_delete _ _ _ Hl) in Hu. cbn in Hu. pose proof (usage_delete_le key (delete tmp (ac_dir c))).
  assert (usage (<[key:=Regular b t]> (delete tmp (ac_dir c))) <= ac_max c0) as Hu'.
  { rewrite usage_replace. cbn. lia. }
  split_and!; [|done|exists t; apply lookup_insert_eq]. apply evolves_dir; [done| |lia].
  intros k Hk. rewrite lookup_insert_ne, lookup_delete_ne, Hd1; [done| |]; intros <-; [|done].
  by apply (temp_unprotected c0 tmp).
Qed.

(** A file that is complete is in its place, whatever becomes of the temporary one. *)
Lemma with_temp_ok room key (P : string → Prop) body :
  managedAgentCacheKey key = true →
  (∀ tmp, has_prefix temp_prefix tmp = true →
    triple (filling tmp room) (body tmp) (λ _ c, E c ∧ ∃ b, P b ∧ holds key b c) (λ _, E)) →
  triple (λ c, E c ∧ usage (ac_dir c) + room <= ac_max c0) (with_temp body) (λ _ c, E c ∧ ∃ b, P b ∧ holds key b c) (λ _, E).
Proof.
  intros Hm Hb. unfold with_temp.
  apply (triple_bind _ _ (λ tmp c, filling tmp room c ∧ has_prefix temp_prefix tmp = true)).
  - intros c [Hc Hr]. unfold CreateTemp, mbind, stM_bind. pose proof (looks_sys (ac_dir c) c (conj Hc eq_refl)) as Hs.
    destruct (sys c) as [[n|e] c1]; [|apply Hs]. destruct Hs as [Hc1 Hd1]. cbn -[lookup insert]. unfold fst, snd in *.
    destruct (ac_dir c1 !! _) eqn:El; [done|]. cbn -[insert lookup]. split; [|apply has_prefix_app].
    assert (usage (<[(temp_prefix +:+ ce_random n)%string:=Regular "" (ce_now n)]> (ac_dir c1)) = usage (ac_dir c1)) as Hu
      by (by rewrite usage_insert).
    split_and!; [|cbn -[insert]; rewrite Hu, Hd1; done|eexists; apply lookup_insert_eq].
    apply keeps_set_dir; [done| |lia]. intros k Hk. apply lookup_insert_ne. intros <-.
    eapply temp_unprotected; [apply has_prefix_app|exact Hk].
  - intros tmp. apply triple_pure. intros Ht.
    apply (triple_bind _ _ (λ r c, match r with Ok _ => E c ∧ ∃ b, P b ∧ holds key b c | Err _ => E c end)).
    + intros c Hc. pose proof (Hb tmp Ht c Hc) as H. unfold st_try. by destruct (body tmp c) as [[[]|e] c1].
    + intros r c Hc. assert (E c) as HE by (destruct r; [apply Hc|exact Hc]).
      pose proof (Remove_spec tmp (ac_dir c) (temp_unprotected _ _ Ht) c (conj HE eq_refl)) as H.
      unfold mbind, stM_bind, st_try. destruct (Remove tmp c) as [[[]|e] c1].
      * destruct H as [[Hc1 Hd1] _]. destruct r as [[]|e]; [|done]. destruct Hc as [_ (b & Hb' & t & Hh)]. split; [done|]. exists b. split; [done|]. exists t.
        rewrite Hd1, lookup_delete_ne; [done|]. intros <-. apply managed_not_temp in Hm. congruence.
      * destruct H as [Hc1 Hd1]. destruct r as [[]|e']; [|done]. destruct Hc as [_ (b & Hb' & t & Hh)]. split; [done|]. exists b. split; [done|]. exists t. by rewrite Hd1.
Qed.

Lemma store_file_ok key b : managedAgentCacheKey key = true → ¬ protected c0 key →
  triple (λ c, E c ∧ usage (ac_dir c) + str_len b <= ac_max c0) (store_file key b) (λ _ c, E c ∧ holds key b c) (λ _, E).
Proof.
  intros Hm Hp. unfold store_file.
  eapply triple_conseq; [apply (with_temp_ok (str_len b) key (λ b', b' = b)); [done|]|done|by intros _ c (? & ? & -> & ?)|done]. intros tmp Ht.
  assert (tmp ≠ key) as Hne by (intros ->; apply managed_not_temp in Hm; congruence).
  eapply triple_bind; [by apply Write_ok|]. intros ?.
  do 2 (eapply triple_bind; [eapply triple_conseq; [apply triple_preserves, filled_sys|done|done|by intros _ c [? _]]|]; intros ?).
  eapply triple_conseq; [by apply (Rename_ok tmp b)|done| |done].
  intros _ c (? & _ & ?). split; [done|]. by exists b.
Qed.

Lemma readSmall_spec key d :
  triple (at_dir d) (readSmallAgentFile key) (λ b c, at_dir d c ∧ ∃ t, d !! key = Some (Regular b t)) (λ _, at_dir d).
Proof.
  unfold readSmallAgentFile. eapply triple_bind; [apply Lstat_spec|]. intros n. apply triple_pure. intros _.
  destruct n as [b t|]; [|by intros c]. case_decide; [by intros c|apply ReadFile_spec].
Qed.

(** What the cache returns of a small file is valid and in its place. *)
Lemma agentMetadata_ok version name valid :
  managedAgentCacheKey (version +:+ "_" +:+ name)%string = true →
  triple E (agentMetadata version name valid)
    (λ b c, E c ∧ valid b = true ∧ holds (version +:+ "_" +:+ name)%string b c) (λ _, E).
Proof.
  intros Hm. unfold agentMetadata. set (key := (version +:+ "_" +:+ name)%string) in *.
  apply (triple_bind _ _ (λ r c, E c ∧ match r with Ok b => holds key b c | Err _ => True end)).
  { intros c Hc. pose proof (readSmall_spec key (ac_dir c) c (conj Hc eq_refl)) as H. unfold st_try.
    destruct (readSmallAgentFile key c) as [[b|e] c1]; [|by destruct H]. destruct H as [[H1 H2] [t Ht]]. split; [done|]. exists t. by rewrite H2. }
  intros r. destruct (match r with Ok b => if valid b then Some b else None | Err _ => None end) as [b|] eqn:Er.
  { apply triple_ret. destruct r as [b'|]; [|done]. destruct (valid b') eqn:Ev; [|done]. injection Er as <-. by intros c [??]. }
  eapply (triple_conseq _ E); [|by intros c [??]|intros ?? Hx; exact Hx|intros ?? Hx; exact Hx].
  eapply triple_bind; [by apply discard_ok|]. intros ?. apply triple_pure. intros Hp.
  eapply triple_bind; [apply triple_preserves, looks_keeps, looks_fetch|]. intros resp.
  case_decide; [by intros c|]. destruct (read_limited _ _ _) as [b|]; [|by intros c]. case_decide; [by intros c|].
  destruct (valid b) eqn:Ev; [|by intros c]. cbn [negb].
  apply (triple_bind _ _ (λ _ c, E c ∧ usage (ac_dir c) + str_len b <= ac_max c0)).
  { intros c Hc. pose proof (makeRoom_ok (str_len b) (ac_dir c) c (conj Hc eq_refl)) as Hroom.
    destruct (makeRoom (str_len b) c) as [[[]|e] c1]; [|exact Hroom]. split; apply Hroom. }
  intros ?. eapply triple_bind; [by apply store_file_ok|]. intros ?. apply triple_ret. by intros c [??].
Qed.

Definition binary_of (x : agentAsset) (b : string) : Prop := str_len b = as_Size x ∧ hexDigest b = as_SHA256 x.

Lemma validAgentBinary_spec key x d :
  triple (at_dir d) (validAgentBinary key x)
    (λ ok c, at_dir d c ∧ (ok = true → ∃ b t, d !! key = Some (Regular b t) ∧ binary_of x b)) (λ _, at_dir d).
Proof.
  intros c Hc. unfold validAgentBinary. pose proof (Lstat_spec key d c Hc) as H. unfold mbind, stM_bind, st_try.
  destruct (Lstat key c) as [[n|e] c1]; [|by split]. destruct H as [Hc1 Hn]. destruct n as [b t|]; [|by split].
  case_decide; [by split|]. pose proof (ReadFile_spec key d c1 Hc1) as H1.
  destruct (ReadFile key c1) as [[b'|e] c2]; [|by split]. destruct H1 as [H1 [t' Ht]]. cbn. split; [done|].
  intros [Hs%Z.eqb_eq Hh%String.eqb_eq]%andb_prop. exists b', t'. by repeat split.
Qed.

Lemma fill_temp_ok x resp key tmp room : ¬ protected c0 key → managedAgentCacheKey key = true →
  has_prefix temp_prefix tmp = true → as_Size x <= room → 0 <= as_Size x →
  triple (filling tmp room) (fill_temp x resp key tmp) (λ _ c, E c ∧ ∃ b, binary_of x b ∧ holds key b c) (λ _, E).
Proof.
  intros Hp Hm Ht Hr Hpos. unfold fill_temp. assert (tmp ≠ key) as Hne by (intros ->; apply managed_not_temp in Hm; congruence).
  eapply triple_bind; [apply (Write_ok _ _ room); [done|]|].
  { unfold str_len. pose proof (substring_length 0 (Z.to_nat (as_Size x)) (rs_body resp)). lia. }
  intros ?. case_decide as Hl; [by intros c [? _]|]. case_decide as Hg; [by intros c [? _]|].
  destruct (rs_broken resp); [by intros c [? _]|]. case_decide as Hh; [by intros c [? _]|].
  assert (str_len (rs_body resp) = as_Size x) as Hlen by lia.
  rewrite substring_all by (unfold str_len in Hlen; lia).
  do 2 (eapply triple_bind; [eapply triple_conseq; [apply triple_preserves, filled_sys|done|done|by intros _ c [? _]]|]; intros ?).
  eapply triple_conseq; [by apply (Rename_ok _ (rs_body resp))|done| |done]. intros _ c (? & _ & ?). split; [done|].
  exists (rs_body resp). split; [|done]. split; [done|]. by destruct (decide (hexDigest (rs_body resp) = as_SHA256 x)).
Qed.

Lemma agentBinary_ok version x : managedAgentCacheKey (version +:+ "_" +:+ as_Name x)%string = true → 0 <= as_Size x →
  triple E (agentBinary version x) (λ _ c, E c ∧ ∃ b, binary_of x b ∧ holds (version +:+ "_" +:+ as_Name x)%string b c) (λ _, E).
Proof.
  intros Hm Hpos. unfold agentBinary. set (key := (version +:+ "_" +:+ as_Name x)%string) in *.
  apply (triple_bind _ _ (λ ok c, E c ∧ (ok = true → ∃ b, binary_of x b ∧ holds key b c))).
  { intros c Hc. pose proof (validAgentBinary_spec key x (ac_dir c) c (conj Hc eq_refl)) as H.
    destruct (validAgentBinary key x c) as [[ok|e] c1]; [|apply H]. destruct H as [[H1 H2] Hok]. split; [done|].
    intros (b & t & Ht & Hb)%Hok. exists b. split; [done|]. exists t. by rewrite H2. }
  intros [|]; [apply triple_ret; intros c [Hc Hb]; split; [done|by apply Hb]|].
  eapply (triple_conseq _ E); [|by intros c [??]|intros ?? Hx; exact Hx|intros ?? Hx; exact Hx].
  eapply triple_bind; [by apply discard_ok|]. intros ?. apply triple_pure. intros Hp.
  apply (triple_bind _ _ (λ _ c, E c ∧ usage (ac_dir c) + as_Size x <= ac_max c0)).
  { intros c Hc. pose proof (makeRoom_ok (as_Size x) (ac_dir c) c (conj Hc eq_refl)) as Hroom.
    destruct (makeRoom (as_Size x) c) as [[[]|e] c1]; [|exact Hroom]. split; apply Hroom. }
  intros ?. apply (triple_bind _ _ (λ _ c, E c ∧ usage (ac_dir c) + as_Size x <= ac_max c0)).
  { intros c [Hc Hu]. pose proof (looks_fetch version (as_Name x) (ac_dir c) c (conj Hc eq_refl)) as H.
    destruct (fetchAgentAsset version (as_Name x) c) as [[r|e] c1]; [|apply H]. destruct H as [H1 H2]. cbn in *. by rewrite H2. }
  intros resp. case_decide; [by intros c [? _]|]. apply with_temp_ok; [done|]. intros tmp Ht. by apply fill_temp_ok.
Qed.
End evolution.

(** ** What is served *)

Lemma evolves_trans c0 c1 c2 : evolves c0 c1 → evolves c1 c2 → evolves c0 c2.
Proof.
  intros [Hm Hr Hk Hu] [Hm' Hr' Hk' Hu']. split; [congruence..| |lia]. intros k Hp. rewrite Hk', Hk; [done|done|].
  unfold protected, refs_of in *. by rewrite Hr.
Qed.

Section serving.
Context `{CE : CacheEnv} `{CS : CandidateSort} (decode_manifest : string → option agentManifest).
Notation CM := (stM agentCache cerr).

(** The bytes of an asset, against a manifest of the version. *)
Definition verified (version asset b : string) : Prop :=
  ∃ mb m, parseAgentManifest decode_manifest mb version = Some m ∧
    (asset = manifest_name ∧ b = mb ∨
     asset = sums_name ∧ validAgentChecksums b m = true ∨
     ∃ x, x ∈ mf_Assets m ∧ as_Name x = asset ∧ binary_of x b).

Definition key_of (version asset : string) : string := version +:+ "_" +:+ asset.

Lemma assets_sizes version l seen x : assets_ok version seen l = true → x ∈ l → 0 < as_Size x.
Proof.
  revert seen. induction l as [|y l IH]; intros seen; [by intros _ ?%elem_of_nil|]. cbn. intros [Hy Hl]%andb_prop.
  intros [->|Hin]%elem_of_cons; [|by eapply IH]. unfold asset_ok in Hy. rewrite !andb_true_iff in Hy.
  destruct Hy as [[[[_ Hs] _] _] _]. by apply Z.ltb_lt.
Qed.

Lemma manifest_sizes mb version m x : parseAgentManifest decode_manifest mb version = Some m → x ∈ mf_Assets m → 0 < as_Size x.
Proof.
  unfold parseAgentManifest. case_decide; [done|]. destruct (negb _); [done|]. destruct (decode_manifest mb) as [m'|]; [|done].
  case_decide; [done|]. destruct (assets_ok version [] (mf_Assets m')) eqn:E; [|done]. intros [= <-]. by eapply assets_sizes.
Qed.

Lemma ensure_asset_ok c0 version asset mb m :
  validAgentVersion version = true → validAgentAssetName asset = true → parseAgentManifest decode_manifest mb version = Some m →
  triple (λ c, evolves c0 c ∧ holds (key_of version manifest_name) mb c) (ensure_asset version asset m)
    (λ key c, evolves c0 c ∧ key = key_of version asset ∧ ∃ b, verified version asset b ∧ holds key b c) (λ _, evolves c0).
Proof.
  intros Hv Ha Hp. unfold ensure_asset. case_decide as Hman; [|case_decide as Hsums].
  - apply triple_ret. intros c [Hc Hh]. subst asset. split_and!; [done..|]. exists mb. split; [|done]. exists mb, m. split; [done|by left].
  - eapply triple_bind.
    + eapply triple_conseq; [by apply agentMetadata_ok, managed_key|by intros c [? _]|intros ?? Hx; exact Hx|done].
    + intros b. apply triple_ret. intros c (Hc & Hb & Hh). split_and!; [done..|]. exists b. split; [|done]. exists mb, m. split; [done|by right; left].
  - destruct (head _) as [x|] eqn:Eh; [|by intros c [? _]]. apply head_Some_elem_of, list_elem_of_filter in Eh as [Hx Hin].
    assert (0 < as_Size x) as Hpos by (by eapply manifest_sizes). rewrite <-Hx in Ha |- *. eapply triple_bind.
    + eapply triple_conseq; [apply (agentBinary_ok c0); [by apply managed_key|lia]|by intros c [? _]|intros ?? Hy; exact Hy|done].
    + intros ?. apply triple_ret. intros c (Hc & b & Hb & Hh). split_and!; [done..|]. exists b. split; [|done].
      exists mb, m. split; [done|]. right; right. by exists x.
Qed.

(** What [openAgentAsset] gives. *)
Definition opened (c : agentCache) (version asset : string) (r : string * Z) (c' : agentCache) : Prop :=
  ∃ c1, evolves c c1 ∧ usage (ac_dir c1) <= ac_max c ∧
    c' = set_refs (<[key_of version asset := refs_of c1 (key_of version asset) + 1]> (ac_refs c1)) c1 ∧
    ac_dir c1 !! key_of version asset = Some (Regular r.1 r.2) ∧
    validAgentVersion version = true ∧ validAgentAssetName asset = true ∧ verified version asset r.1.

Lemma openAgentAsset_ok c0 version asset :
  triple (evolves c0) (openAgentAsset decode_manifest version asset) (opened c0 version asset) (λ _, evolves c0).
Proof.
  unfold openAgentAsset. destruct (validAgentVersion version && _) eqn:E; [|by intros c]. cbn [negb]. apply andb_prop in E as [Hv Ha].
  do 2 (eapply triple_bind; [apply triple_preserves, looks_keeps, looks_sys|]; intros ?).
  eapply triple_bind; [apply prepare_ok|]. intros _ c1 [Hc1 Hu1].
  assert (triple (evolves c1) (
    mb ← agentMetadata version manifest_name (λ b, bool_decide (is_Some (parseAgentManifest decode_manifest b version)));
    match parseAgentManifest decode_manifest mb version with
    | None => st_throw (ECache "invalid agent manifest")
    | Some manifest =>
      key ← ensure_asset version asset manifest;
      f ← Lstat key;
      match f with
      | Regular b t => st_modify (λ c, set_refs (<[key := refs_of c key + 1]> (ac_refs c)) c) ;; mret (b, t)
      | Other => st_throw EFs
      end
    end) (opened c1 version asset) (λ _, evolves c1)) as H.
  { eapply triple_bind; [by apply agentMetadata_ok, managed_key|]. intros mb.
    destruct (parseAgentManifest decode_manifest mb version) as [m|] eqn:Em; [|by intros c [? _]].
    eapply triple_bind; [eapply triple_conseq; [by apply (ensure_asset_ok c1 version asset mb m)|by intros c (? & _ & ?)|intros ?? Hx; exact Hx|done]|].
    intros key c (Hc & -> & b & Hb & t & Hh).
    pose proof (Lstat_spec c1 (key_of version asset) (ac_dir c) c (conj Hc eq_refl)) as Hl. unfold mbind, stM_bind.
    destruct (Lstat (key_of version asset) c) as [[n|e] c2]; [|apply Hl]. destruct Hl as [[Hc2 Hd2] Hn]. rewrite Hh in Hn. injection Hn as <-.
    exists c2. split_and!; [done| |done|by rewrite Hd2|done..]. destruct Hc1, Hc2. lia. }
  specialize (H c1 (evolves_refl c1)). cbv beta in H |- *.
  lazymatch type of H with let (_, _) := ?x in _ => destruct x as [[r|e] c2] end; [|by eapply evolves_trans].
  destruct H as (c3 & He & Hu & Hr). exists c3. split; [by eapply evolves_trans|]. destruct Hc1 as [Hmax _ _ _]. by rewrite <-Hmax.
Qed.

(** ** Requests and the end of their leases *)

(** What a request does to the cache: open an asset; later, when the file has been sent, end
    the lease. *)
Inductive cache_op := OpOpen (version asset : string) | OpRelease (i : nat).

(** A file that is being served. *)
Record lease := { ls_version : string; ls_asset : string; ls_content : string; ls_mtime : Z }.

Definition ls_key (l : lease) : string := key_of (ls_version l) (ls_asset l).

Definition cache_step (st : agentCache * list lease) (o : cache_op) : agentCache * list lease :=
  match o with
  | OpOpen version asset =>
    match openAgentAsset decode_manifest version asset st.1 with
    | (Ok (b, t), c) => (c, st.2 ++ [{| ls_version := version; ls_asset := asset; ls_content := b; ls_mtime := t |}])
    | (Err _, c) => (c, st.2)
    end
  | OpRelease i =>
    match st.2 !! i with
    | Some l => (release (ls_version l) (ls_asset l) st.1, delete i st.2)
    | None => st
    end
  end.

(** The cache after any requests, from what the directory held at the start. *)
Definition cache_run (d : gmap string node) (max : Z) (ops : list cache_op) : agentCache * list lease :=
  foldl cache_step (newAgentCache d max, []) ops.

Definition lease_count (ls : list lease) (k : string) : Z := Z.of_nat (length (filter (λ l, ls_key l = k) ls)).

Record cache_ok (d : gmap string node) (max : Z) (st : agentCache * list lease) : Prop := {
  co_max : ac_max st.1 = max;
  co_foreign k : foreign k → ac_dir st.1 !! k = d !! k;
  co_usage : usage (ac_dir st.1) <= Z.max (usage d) max;
  co_refs k : refs_of st.1 k = lease_count st.2 k;
  co_leases l : l ∈ st.2 → verified (ls_version l) (ls_asset l) (ls_content l) ∧ managedAgentCacheKey (ls_key l) = true ∧
    ac_dir st.1 !! ls_key l = Some (Regular (ls_content l) (ls_mtime l)) }.

Lemma lease_count_app ls l k : lease_count (ls ++ [l]) k = lease_count ls k + (if decide (ls_key l = k) then 1 else 0).
Proof. unfold lease_count. rewrite filter_app, length_app, filter_cons. case_decide; cbn; lia. Qed.

Lemma lease_count_delete ls i l k : ls !! i = Some l →
  lease_count (delete i ls) k = lease_count ls k - (if decide (ls_key l = k) then 1 else 0).
Proof.
  intros Hi. rewrite <-(take_drop_middle ls i l Hi) at 2. rewrite delete_take_drop. unfold lease_count.
  rewrite !filter_app, filter_cons, !length_app. case_decide; cbn; lia.
Qed.

Lemma lease_count_pos ls l : l ∈ ls → lease_count ls (ls_key l) ≠ 0.
Proof.
  intros Hl. unfold lease_count. assert (l ∈ filter (λ l', ls_key l' = ls_key l) ls) as H by (by apply list_elem_of_filter).
  destruct (filter _ ls); [by apply elem_of_nil in H|cbn; lia].
Qed.

Lemma evolves_ok d max st c : cache_ok d max st → evolves st.1 c → cache_ok d max (c, st.2).
Proof.
  intros [Hm Hf Hu Hr Hl] [Hm' Hr' Hk' Hu']. split; cbn [fst snd].
  - congruence.
  - intros k Hk. rewrite Hk' by (by left). by apply Hf.
  - lia.
  - intros k. rewrite <-Hr. unfold refs_of. by rewrite Hr'.
  - intros l Hin. destruct (Hl l Hin) as (Hv & Hman & Hd). split_and!; [done..|]. rewrite Hk'; [done|].
    right. split; [done|]. rewrite Hr. by apply lease_count_pos.
Qed.

Lemma refs_of_insert c k v k' : refs_of (set_refs (<[k := v]> (ac_refs c)) c) k' = if decide (k = k') then v else refs_of c k'.
Proof. unfold refs_of. cbn. case_decide as Hk; [subst; by rewrite lookup_insert_eq|by rewrite lookup_insert_ne]. Qed.

Lemma refs_of_release v a c k :
  refs_of (release v a c) k = refs_of c k - (if decide (key_of v a = k) then 1 else 0).
Proof.
  unfold release. fold (key_of v a). case_decide as Hz; [|rewrite refs_of_insert; case_decide; [subst; lia|lia]].
  unfold refs_of at 1. cbn. case_decide as Hk; [subst; rewrite lookup_delete_eq; cbn; lia|].
  rewrite lookup_delete_ne by done. unfold refs_of. lia.
Qed.

Lemma release_rest v a c : ac_dir (release v a c) = ac_dir c ∧ ac_max (release v a c) = ac_max c.
Proof. unfold release. by case_decide. Qed.

Lemma cache_step_ok d max st o : cache_ok d max st → cache_ok d max (cache_step st o).
Proof.
  intros Hst. destruct o as [v a|i]; cbn [cache_step].
  - pose proof (openAgentAsset_ok st.1 v a st.1 (evolves_refl _)) as H.
    destruct (openAgentAsset decode_manifest v a st.1) as [[[b t]|e] c]; [|by apply evolves_ok].
    destruct H as (c1 & He & _ & -> & Hd & Hv & Ha & Hb). destruct (evolves_ok d max st c1 Hst He) as [Hm Hf Hu Hr Hl]. cbn [fst snd] in *.
    split; cbn [fst snd]; [exact Hm|exact Hf|exact Hu| |].
    + intros k. rewrite refs_of_insert, lease_count_app. unfold ls_key at 1. cbn [ls_version ls_asset].
      repeat case_decide; try done; [subst k|]; rewrite Hr; lia.
    + intros l [Hin|Hin]%elem_of_app; [by apply Hl|]. apply list_elem_of_singleton in Hin as ->. cbn. split_and!; [done|by apply managed_key|done].
  - destruct (st.2 !! i) as [l|] eqn:Ei; [|done]. destruct Hst as [Hm Hf Hu Hr Hl].
    destruct (release_rest (ls_version l) (ls_asset l) st.1) as [Hrd Hrm]. split; cbn [fst snd]; rewrite ?Hrd, ?Hrm; [done..| |].
    + intros k. rewrite refs_of_release, Hr. by rewrite (lease_count_delete _ _ _ _ Ei).
    + intros l' Hin. apply Hl. rewrite delete_take_drop in Hin. rewrite <-(take_drop_middle st.2 i l Ei). set_solver.
Qed.

(** C37: whatever requests come and end in whatever order, and whatever fails: the files the
    cache did not make are as they were; it never holds more than its capacity, or than was
    there at the start; the count of leases of a key is the number of its files being served;
    and every file being served is verified and still the one in the directory. *)
Theorem cache_invariant d max ops : cache_ok d max (cache_run d max ops).
Proof.
  unfold cache_run. assert (cache_ok d max (newAgentCache d max, [])) as H.
  { split; cbn; [done..|lia| |by intros l ?%elem_of_nil]. intros k. unfold refs_of. cbn. by rewrite lookup_empty. }
  revert H. generalize (newAgentCache d max, @nil lease). induction ops as [|o ops IH]; intros st H; [done|].
  cbn [foldl]. by apply IH, cache_step_ok.
Qed.

(** C38: an asset is answered only with bytes that match a valid manifest of its version: the
    manifest itself, its checksums, or a binary of the size and SHA-256 it names; names that
    are not an asset's are 404 and leave the cache alone; everything else is 502.  Afterwards
    the leases are as before. *)
Theorem served_verified version asset c :
  ∃ r c', handleAgentAsset decode_manifest version asset c = (Ok r, c') ∧ (∀ k, refs_of c' k = refs_of c k) ∧
    match r with
    | Reply status f => status = 200 ∧ validAgentVersion version = true ∧ validAgentAssetName asset = true ∧
        verified version asset (sv_content f)
    | Fail 404 code _ => code = "not_found"%string ∧ c' = c
    | Fail status code _ => status = 502 ∧ code = "agent_release_unavailable"%string ∧
        validAgentVersion version = true ∧ validAgentAssetName asset = true
    end.
Proof.
  unfold handleAgentAsset. destruct (validAgentVersion version && _) eqn:E; [|by eexists _, _].
  apply andb_prop in E as [Hv Ha]. cbn [negb]. case_decide; [by eexists _, _|].
  unfold serveAgentAsset, mbind, stM_bind, st_try.
  pose proof (openAgentAsset_ok c version asset c (evolves_refl c)) as Ho.
  destruct (openAgentAsset decode_manifest version asset c) as [[[b t]|e] c1].
  - destruct Ho as (c2 & He & _ & -> & _ & _ & _ & Hb). cbn [fst] in Hb.
    set (c3 := set_refs _ c2). assert (∀ k, refs_of (release version asset (sys c3).2) k = refs_of c k) as Hrefs.
    { intros k. rewrite refs_of_release. change (refs_of (sys c3).2 k) with (refs_of c3 k). unfold c3. rewrite refs_of_insert.
      assert (∀ k, refs_of c2 k = refs_of c k) as Hsame by (intros; unfold refs_of; by rewrite (ev_refs _ _ He)).
      rewrite !Hsame. repeat case_decide; try done; [subst k|]; lia. }
    unfold sys in Hrefs |- *. destruct (ce_fail (ac_calls c3)); eexists _, _; (split; [reflexivity|]); (split; [exact Hrefs|]); done.
  - eexists _, _. split; [reflexivity|]. split; [|done]. intros k. unfold refs_of. by rewrite (ev_refs _ _ Ho).
Qed.
End serving.

(** ** Eviction when no call fails *)

Section eviction.
Context `{CE : CacheEnv} `{CS : CandidateSort} (calm : ∀ n, ce_fail n = false).

(** Without the files named by [fs]. *)
Definition without (d : gmap string node) (fs : list candidate) : gmap string node :=
  foldl (λ d f, delete (cd_name f) d) d fs.

Definition candidates_of (c : agentCache) (l : list (string * node)) : list candidate :=
  sort_candidates (foldl (scan_entry c) (0, []) l).2.

(** Apart from the directory and the number of calls. *)
Definition similar (c c' : agentCache) : Prop := ac_max c' = ac_max c ∧ ac_refs c' = ac_refs c.

Lemma sys_calm c : sys c = (Ok (ac_calls c), next_call c).
Proof. unfold sys. by rewrite calm. Qed.

Lemma usage_without_le d fs : usage (without d fs) <= usage d.
Proof.
  revert d. induction fs as [|f fs IH]; intros d; [done|]. cbn. etransitivity; [apply IH|apply usage_delete_le].
Qed.

Lemma scan_calm c1 es acc c :
  ∃ c', st_foldl (λ acc e, _ ← sys; mret (scan_entry c1 acc e)) acc es c = (Ok (foldl (scan_entry c1) acc es), c') ∧
    ac_dir c' = ac_dir c ∧ similar c c'.
Proof.
  revert acc c. induction es as [|e es IH]; intros acc c; [by exists c|]. cbn [st_foldl foldl].
  destruct (IH (scan_entry c1 acc e) (next_call c)) as (c' & E & Hd & Hs).
  exists c'. split; [|done]. erewrite st_bind_Ok_step; [exact E|]. by rewrite (st_bind_Ok_step _ _ _ _ _ (sys_calm c)).
Qed.

Lemma Lstat_calm k n c : ac_dir c !! k = Some n → Lstat k c = (Ok n, next_call c).
Proof.
  intros Hk. unfold Lstat. rewrite (st_bind_Ok_step _ _ _ _ _ (sys_calm c)). unfold mbind, stM_bind, st_gets. cbv beta iota.
  change (ac_dir (next_call c)) with (ac_dir c). by rewrite Hk.
Qed.

Lemma Remove_calm k n c : ac_dir c !! k = Some n → Remove k c = (Ok (), set_dir (delete k (ac_dir c)) (next_call c)).
Proof. intros Hk. unfold Remove. by rewrite (st_bind_Ok_step _ _ _ _ _ (Lstat_calm k n c Hk)). Qed.

Lemma evict_calm c0 extra max fs c : NoDup (cd_name <$> fs) → Forall (evictable c0 (ac_dir c)) fs →
  ∃ gone kept c', st_foldl (evict extra max) (usage (ac_dir c)) fs c = (Ok (usage (ac_dir c')), c') ∧ similar c c' ∧
    fs = gone ++ kept ∧ ac_dir c' = without (ac_dir c) gone ∧ (kept = [] ∨ usage (ac_dir c') + extra <= max) ∧
    (∀ gone' f, gone = gone' ++ [f] → max < usage (without (ac_dir c) gone') + extra).
Proof.
  revert c. induction fs as [|f fs IH]; intros c Hnd Hf.
  - exists [], [], c. split_and!; try done; [by left|]. by intros [|] ? [=].
  - rewrite fmap_cons in Hnd. apply NoDup_cons in Hnd as [Hx Hnd]. apply Forall_cons in Hf as [(_ & _ & b & Hb & Hs) Hf]. cbn [st_foldl].
    destruct (decide (usage (ac_dir c) + extra <= max)) as [Hroom|Hroom].
    + exists [], (f :: fs), c. split_and!; try done; [|by right|by intros [|] ? [=]]. clear IH Hf Hnd Hx.
      assert (∀ g, evict extra max (usage (ac_dir c)) g c = (Ok (usage (ac_dir c)), c)) as Hev by (intros g; unfold evict; by rewrite decide_True).
      rewrite (st_bind_Ok_step _ _ _ _ _ (Hev f)). induction fs as [|g fs IH]; [done|]. cbn [st_foldl].
      rewrite (st_bind_Ok_step _ _ _ _ _ (Hev g)). exact IH.
    + set (c1 := set_dir (delete (cd_name f) (ac_dir c)) (next_call c)).
      destruct (IH c1 Hnd) as (gone & kept & c' & E & Hsim & -> & Hd & Hstop & Hmin).
      { rewrite Forall_forall in Hf |- *. intros g Hg. destruct (Hf g Hg) as (Hm' & Hz' & b' & Hb' & Hs'). split_and!; [done..|].
        exists b'. split; [|done]. cbn. rewrite lookup_delete_ne; [done|]. intros Heq. apply Hx. rewrite Heq. by apply list_elem_of_fmap_2. }
      exists (f :: gone), kept, c'. split_and!; try done.
      * erewrite st_bind_Ok_step; [exact E|]. unfold evict. rewrite decide_False by done.
        rewrite (st_bind_Ok_step _ _ _ _ _ (Remove_calm _ _ c Hb)).
        unfold mret, stM_ret. do 2 f_equal. cbn. rewrite (usage_delete _ _ _ Hb). cbn. lia.
      * intros [|g gone'] h Hh; [cbn; lia|]. injection Hh as -> ->. by apply (Hmin gone' h).
Qed.

Lemma without_app d l1 l2 : without d (l1 ++ l2) = without (without d l1) l2.
Proof. apply foldl_app. Qed.

(** When no call fails, [makeRoom] succeeds exactly if the room asked for is there once
    everything that may go is gone; what goes is the oldest, and no more of it than needed. *)
Theorem makeRoom_spec extra c :
  let cands := candidates_of c (merge_sort name_le (map_to_list (ac_dir c))) in
  ∃ r c' gone kept, makeRoom extra c = (r, c') ∧ similar c c' ∧
    cands = gone ++ kept ∧ StronglySorted Z.le (cd_mtime <$> cands) ∧ ac_dir c' = without (ac_dir c) gone ∧
    (r = Ok () ↔ extra <= ac_max c ∧ 0 < ac_max c ∧ usage (without (ac_dir c) cands) + extra <= ac_max c) ∧
    (r = Ok () → usage (ac_dir c') + extra <= ac_max c) ∧
    ∀ gone' f, gone = gone' ++ [f] → ac_max c < usage (without (ac_dir c) gone') + extra.
Proof.
  intros cands. assert (StronglySorted Z.le (cd_mtime <$> cands)) as Hsorted by apply sort_candidates_sorted.
  unfold makeRoom. rewrite (st_bind_Ok_step (st_gets id) _ c c c eq_refl). cbv zeta. case_decide as Hsmall.
  { eexists _, c, [], cands. split_and!; try done; [split; [done|lia]|by intros [|] ? [=]]. }
  set (es := merge_sort name_le (map_to_list (ac_dir c))) in *.
  rewrite (st_bind_Ok_step ReadDir _ c es (next_call c)); [|unfold ReadDir; by rewrite (st_bind_Ok_step _ _ _ _ _ (sys_calm c))].
  assert (es ≡ₚ map_to_list (ac_dir c)) as Hes by apply merge_sort_Permutation.
  destruct (scan_ok c (ac_dir c) c es (0, [])) as (Ht & new & Hn & Hsub & Hf); [done| |].
  { intros [k n]. rewrite Hes. cbn. apply elem_of_map_to_list. }
  cbn in Ht, Hn. rewrite (usage_entries es (ac_dir c) Hes) in Ht.
  destruct (scan_calm c es (0, []) (next_call c)) as (c1 & E1 & Hd1 & Hs1). rewrite (st_bind_Ok_step _ _ _ _ _ E1), Ht. fold cands.
  destruct (evict_calm c extra (ac_max c) cands c1) as (gone & kept & c' & E2 & Hs2 & Hg & Hd & Hstop & Hmin).
  { unfold cands, candidates_of. rewrite Hn, sort_candidates_perm. eapply sublist_NoDup; [|exact Hsub]. rewrite Hes. apply NoDup_fst_map_to_list. }
  { unfold cands, candidates_of. rewrite Hd1, Hn, sort_candidates_perm. exact Hf. }
  cbn in Hd1. unfold cands, candidates_of in E2. rewrite Hd1 in E2. erewrite st_bind_Ok_step; [|exact E2].
  rewrite Hd1 in Hd, Hmin. assert (similar c c') as Hsim by (unfold similar in *; cbn in *; intuition congruence).
  assert (usage (without (ac_dir c) cands) <= usage (ac_dir c')) as Hle.
  { rewrite Hg, without_app, <-Hd. apply usage_without_le. }
  assert (usage (ac_dir c') + extra <= ac_max c ↔ usage (without (ac_dir c) cands) + extra <= ac_max c) as Hiff.
  { split; [lia|]. destruct Hstop as [->|]; [|lia]. rewrite app_nil_r in Hg. by rewrite Hg, <-Hd. }
  assert (¬ ac_max c < extra ∧ ¬ ac_max c <= 0) as [Hx Hpos] by tauto.
  case_decide as Hover; eexists _, c', gone, kept; (split; [reflexivity|]); (do 4 (split; [done|])); rewrite <-Hiff.
  - split; [split; [done|lia]|done].
  - split; [split; [lia|done]|]. split; [lia|done].
Qed.
End eviction.

(** ** A release, for the examples *)

Definition mtime_order (a b : candidate) : Prop := cd_mtime a <= cd_mtime b.
#[export] Instance mtime_order_dec a b : Decision (mtime_order a b).
Proof. unfold mtime_order. apply _. Defined.

Lemma mtime_order_sorted l : StronglySorted Z.le (cd_mtime <$> merge_sort mtime_order l).
Proof.
  assert (StronglySorted mtime_order (merge_sort mtime_order l)) as H.
  { apply StronglySorted_merge_sort; [intros x y z; unfold mtime_order; lia|intros x y; unfold mtime_order; lia]. }
  induction H as [|x l' _ IH Hx]; cbn; constructor; [exact IH|]. by apply Forall_fmap.
Qed.

Definition merge_candidate_sort : CandidateSort :=
  {| sort_candidates := merge_sort mtime_order;
     sort_candidates_perm l := merge_sort_Permutation mtime_order l;
     sort_candidates_sorted := mtime_order_sorted |}.

(** The release 1.2.0, whose binaries are the three bytes "bin" and the two of "ok". *)
Definition demo_asset (arch hash : string) (size : Z) : agentAsset :=
  {| as_OS := "linux"; as_Arch := arch; as_Name := asset_name "1.2.0" arch; as_Size := size; as_SHA256 := hash |}.
Definition demo_manifest : agentManifest :=
  {| mf_SchemaVersion := 1; mf_Version := "1.2.0";
     mf_Assets := [demo_asset "amd64" (hexDigest "bin") 3; demo_asset "arm64" (hexDigest "ok") 2] |}%string.
Definition demo_decode (b : string) : option agentManifest := if String.eqb b "{m}" then Some demo_manifest else None.

(** An upstream whose amd64 binary is [bin]. *)
Definition demo_fetch (bin : string) (url : string) : option response :=
  let answer b := Some {| rs_StatusCode := 200; rs_ContentLength := str_len b; rs_body := b; rs_broken := false |} in
  if String.eqb url (endpoint "1.2.0" manifest_name) then answer "{m}"%string
  else if String.eqb url (endpoint "1.2.0" (asset_name "1.2.0" "amd64")) then answer bin
  else None.

Definition demo_cache_env (bin : string) : CacheEnv :=
  {| ce_fail := λ _, false; ce_partial := λ _, 0%nat; ce_now := λ n, Z.of_nat n; ce_random := λ n, fmt_d (Z.of_nat n);
     ce_is_dir := λ _, true; ce_fetch := λ _, demo_fetch bin |}.

(** A user's file of four bytes and an old release's binary of five. *)
Definition demo_dir : gmap string node :=
  {["notes.txt" := Regular "note" 1; "1.1.0_assistant-agent_1.1.0_linux_amd64" := Regular "older" 2]}%string.

Notation demo_get bin := (handleAgentAsset (CE := demo_cache_env bin) (CS := merge_candidate_sort) demo_decode
  "1.2.0" (asset_name "1.2.0" "amd64") (newAgentCache demo_dir 10)).

(** The right binary is downloaded, verified and served; an old release made room. *)
Example demo_serves :
  (demo_get "bin"%string).1 = Ok (Reply 200 {| sv_ContentType := "application/octet-stream"; sv_CacheControl := None; sv_content := "bin" |}) ∧
  ac_dir (demo_get "bin"%string).2 !! "notes.txt"%string = Some (Regular "note" 1) ∧
  ac_dir (demo_get "bin"%string).2 !! "1.1.0_assistant-agent_1.1.0_linux_amd64"%string = None.
Proof. split_and!; vm_compute; reflexivity. Qed.

(** A binary of the right size with other bytes is not, and leaves nothing behind. *)
Example demo_refuses :
  (demo_get "bad"%string).1 = Ok agentReleaseErr ∧
  ac_dir (demo_get "bad"%string).2 !! key_of "1.2.0" (asset_name "1.2.0" "amd64") = None.
Proof. split; vm_compute; reflexivity. Qed.

Lemma makeRoom_spec_witness :
  (makeRoom (CE := demo_cache_env "bin") (CS := merge_candidate_sort) 3 (newAgentCache demo_dir 10)).1 = Ok ().
Proof.
  destruct (makeRoom_spec (CE := demo_cache_env "bin") (CS := merge_candidate_sort) (λ _, eq_refl) 3 (newAgentCache demo_dir 10))
    as (r & c' & gone & kept & E & _ & _ & _ & _ & Hiff & _).
  rewrite E. apply Hiff. vm_compute. split_and!; congruence.
Defined.
