(* ===== verification/Proxy.v ===== *)
(** The proxy to the Feedback services ([hub/feedback_proxy.go], [hub/attachments.go]): what
    the hub asks them, with which credential, and what it makes of their answers.

    A handler runs over the hub's world and the list of requests it has sent; what a service
    answers to a request is a parameter, and so are [encoding/json] (values and their texts)
    and the decoding of a message's [ref].  Bodies are decoded ones, as elsewhere. *)

From S2P Require Import Prelude GoBase GoTime HubTypes HubStore Fault Regex Handlers.
From Stdlib Require Import Ascii SpecFloat.
Local Open Scope Z_scope.

(** ** Characters *)

Definition id_cls : list (ascii * ascii) := [("A", "Z"); ("a", "z"); ("0", "9"); just "_"; just "-"]%char.
(* @src hub/attachments.go 15-19 !upstreamIDRe *)
Definition upstreamIDRe : regex := between 1 127 (Cls id_cls).
(* @src hub/feedback_proxy.go 25-26 !fbRequestIDRe *)
Definition fbRequestIDRe : regex :=
  between 1 127 (Cls [("A", "Z"); ("a", "z"); ("0", "9"); just "."; just "_"; just ":"; just "-"]%char).

(* @src hub/feedback_proxy.go 28-32 fbLifecycleActions *)
Definition fbLifecycleActions : list string := ["archive"; "unarchive"; "trash"; "restore"; "resume_processing"]%string.
(* @src hub/feedback_proxy.go 34-34 !fbRevisionActions *)
Definition fbRevisionActions : list string := ["retry"; "recheck"]%string.
(* @src hub/feedback_proxy.go 35-41 fbPassThroughCodes *)
Definition fbPassThroughCodes : list string :=
  ["invalid_request"; "not_found"; "version_conflict"; "revision_conflict"; "invalid_state"; "busy"; "request_id_conflict";
   "request_in_flight"; "outcome_uncertain"]%string.

(* @src hub/feedback_proxy.go 43-46 !fbTimeoutRead *)
Definition fbTimeoutRead : Z := 10 * Second.
Definition fbTimeoutWrite : Z := 30 * Second.
(* @src hub/attachments.go 16-16 !maxAttachmentBytes *)
Definition maxAttachmentBytes : Z := 10 * 2 ^ 20.

(** ** Objects *)

(** [obj[k]] and [obj[k] = v] on a decoded object, whose keys are distinct. *)
Definition jget (k : string) (o : list (string * json)) : option json := snd <$> head (filter (λ p, p.1 = k) o).
Definition jset (k : string) (v : json) (o : list (string * json)) : list (string * json) :=
  filter (λ p, p.1 ≠ k) o ++ [(k, v)].

(** [v.(map[string]any)] and [v.(bool)]. *)
Definition as_obj (v : option json) : option (list (string * json)) := match v with Some (JObj o) => Some o | _ => None end.
Definition as_bool (v : option json) : bool := match v with Some (JBool b) => b | _ => false end.

(** [json.Unmarshal] of a value into a [string]: null leaves it empty. *)
Definition into_string (v : option json) : option string :=
  match v with Some (JStr s) => Some s | Some JNull => Some EmptyString | _ => None end.

(** The digits at the head of a text. *)
Fixpoint span_digits (s : string) : string * string :=
  match s with
  | String c s' => if is_digit c then let p := span_digits s' in (String c p.1, p.2) else (EmptyString, s)
  | EmptyString => (EmptyString, EmptyString)
  end.

(** The text of a JSON number as sign, digits and a power of ten. *)
Definition number_parts (s : string) : option (bool * Z * Z) :=
  let '(neg, s1) := match s with String "-" s' => (true, s') | _ => (false, s) end in
  let (ip, s2) := span_digits s1 in
  let '(fp, s3) := match s2 with String "." s' => span_digits s' | _ => (EmptyString, s2) end in
  let e := match s3 with
           | EmptyString => Some 0
           | String c s' =>
             if bool_decide (c = "e"%char ∨ c = "E"%char) then
               Some match s' with
                    | String "-" ds => - digits_val 0 ds
                    | String "+" ds => digits_val 0 ds
                    | ds => digits_val 0 ds
                    end
             else None
           end in
  (λ e, (neg : bool, digits_val 0 (ip +:+ fp)%string, e - str_len fp)) <$> e.

(** [f >= 0 && f == math.Trunc(f)] of the float the text stands for; [None] out of range. *)
Definition nonneg_integral (x : float64) : bool :=
  match x with
  | S754_zero _ => true
  | S754_finite false m e => bool_decide (0 <= e) || (Z.pos m mod 2 ^ (- e) =? 0)
  | _ => false
  end.

(** [n.Float64()] *)
Definition number_float (s : string) : option float64 :=
  match number_parts s with
  | None => None
  | Some (neg, m, e) =>
    match f64_of_dec (if neg then - m else m) e with
    | S754_infinity _ | S754_nan => None
    | x => Some x
    end
  end.

(** ** Requests and answers *)

(** A request to a Feedback service. *)
Record up_request := {
  uq_Method : string;
  uq_URL : string;
  uq_Bearer : string;
  uq_Payload : option string;
  uq_Timeout : Z }.

(** Its answer: the body is what arrives before the connection ends, or breaks. *)
Record up_response := { up_StatusCode : Z; up_Header : string → string; up_body : string; up_broken : bool }.

(** A body the hub answers with: JSON of its own, or bytes with headers. *)
Inductive proxied :=
| PJson (obj : list (string * json))
| PRaw (headers : list (string * string)) (body : string).

(** With the [Retry-After] header. *)
Record fb_answer := { fa_RetryAfter : option string; fa_reply : reply proxied }.
Definition answer (r : reply proxied) : fb_answer := {| fa_RetryAfter := None; fa_reply := r |}.

(** [q.Encode()] of the parameters in the order of their keys. *)
Definition query_safe (c : ascii) : bool :=
  in_cls [("a", "z"); ("A", "Z"); ("0", "9"); just "-"; just "_"; just "."; just "~"; just " "]%char c.
Definition query_escape (s : string) : string := replace_char " " "+" (percent_escape query_safe s).
Definition encode_query (q : list (string * string)) : string :=
  String.concat "&" ((λ p, query_escape p.1 +:+ "=" +:+ query_escape p.2)%string <$> q).

Definition ctype_json : string * string := ("Content-Type", "application/json; charset=utf-8")%string.

(* @src hub/feedback_proxy.go 87-90 fbBase *)
Definition fbBase (src : sourceRow) : string := trim_right "/" (default EmptyString (s_AttachmentBaseURL src)).

Section proxy.
Context `{HE : HubEnv}.
Notation PM := (stM (World * list up_request) herr).

(** What the services answer; [None] is a request that could not be made or timed out. *)
Variable upstream : up_request → option up_response.
(** [encoding/json] *)
Variable json_decode : string → option json.
Variable json_encode : list (string * json) → string.
Variable json_encode_raw : list (string * string) → option string.
(** The code of an error envelope; [None] when it is not one. *)
Variable error_code : string → option string.
(** The feedbackId of a [ref]. *)
Variable decode_ref : string → option string.

(** A step of the hub; a request. *)
Definition hub {A} (m : stM World herr A) : PM A := λ s, let (r, w) := m s.1 in (r, (w, s.2)).
Definition send (q : up_request) : PM (option up_response) := λ s, (Ok (upstream q), (s.1, s.2 ++ [q])).

(* @src hub/feedback_proxy.go 48-70 fbPrecond *)
Definition fbPrecond (srcId : string) : PM (outcome fb_answer sourceRow) :=
  r ← st_try (hub (loadSource srcId));
  mret match r with
       | Err ENoRows => Err (answer errNotFound)
       | Err _ => Err (answer errInternal)
       | Ok src =>
         if decide (s_DeletedAt src ≠ None ∨ s_Kind src ≠ "feedback"%string) then Err (answer errNotFound)
         else if decide (default EmptyString (s_AttachmentBaseURL src) = EmptyString) then
           Err (answer (Fail 409 "feedback_upstream_not_configured" "feedback 来源未配置 attachmentBaseUrl"))
         else Ok src
       end.

(* @src hub/feedback_proxy.go 72-85 fbPrecondMgmt *)
Definition fbPrecondMgmt (srcId : string) : PM (outcome fb_answer sourceRow) :=
  r ← fbPrecond srcId;
  mret match r with
       | Err e => Err e
       | Ok src => if decide (s_MgmtKeyPlain src = EmptyString) then
                     Err (answer (Fail 409 "feedback_mgmt_not_configured" "feedback 来源未配置 mgmtKey"))
                   else Ok src
       end.

(* @src hub/feedback_proxy.go 92-129 fbDo *)
(** The status, the headers and the body. *)
Definition fbDo (method url bearer : string) (payload : option string) (timeout : Z) : PM (option (up_response * string)) :=
  r ← send {| uq_Method := method; uq_URL := url; uq_Bearer := bearer; uq_Payload := payload; uq_Timeout := timeout |};
  mret match r with
       | None => None
       | Some resp => (λ body, (resp, body)) <$> read_limited (maxAttachmentBytes + 1) (up_body resp) (up_broken resp)
       end.

Definition unavailable (msg : string) : reply proxied := Fail 502 "feedback_unavailable" msg.

(* @src hub/feedback_proxy.go 131-172 fbWriteUpstreamErr *)
Definition fbWriteUpstreamErr (r : option (up_response * string)) : option fb_answer :=
  match r with
  | None => Some (answer (unavailable "反馈上游不可达或超时"))
  | Some (resp, body) =>
    let code := up_StatusCode resp in
    if decide (code = 429) then
      let ra := up_Header resp "Retry-After"%string in
      Some {| fa_RetryAfter := nullStr ra; fa_reply := Fail 429 "rate_limited" "反馈上游限流" |}
    else if decide (code = 401) then Some (answer (unavailable "反馈上游凭证失效"))
    else if decide (500 <= code) then Some (answer (unavailable "反馈上游返回错误"))
    else if decide (400 <= code) then
      match error_code body with
      | Some c => if decide (c ∈ fbPassThroughCodes) then Some (answer (Reply code (PRaw [ctype_json] body)))
                  else Some (answer (unavailable "反馈上游返回错误"))
      | None => Some (answer (unavailable "反馈上游返回错误"))
      end
    else None
  end.

(* @src hub/feedback_proxy.go 174-177 fbWriteBadUpstream *)
Definition fbWriteBadUpstream : fb_answer := answer (unavailable "反馈上游响应非法").

Definition status_is (code : Z) (r : option (up_response * string)) : bool :=
  match r with Some (resp, _) => up_StatusCode resp =? code | None => false end.

(** [json.Unmarshal] into a [map[string]any]: null makes a nil one. *)
Definition decode_obj (body : string) : option (list (string * json)) :=
  match json_decode body with Some (JObj o) => Some o | _ => None end.

Definition mgmt_unsupported : fb_answer :=
  answer (Fail 409 "feedback_mgmt_unsupported" "上游 Feedback 服务无管理面，需升级").

Definition with_source (src : sourceRow) (o : list (string * json)) : list (string * json) :=
  jset "sourceName" (JStr (s_Name src)) (jset "sourceId" (JStr (s_ID src)) o).

(** The parameters that are passed on, in the order of [Encode]. *)
Definition list_query (query : string → string) : list (string * string) :=
  filter (λ p, p.2 ≠ EmptyString) ((λ k, (k, query k)) <$> ["cursor"; "limit"; "q"; "view"]%string).

(* @src hub/feedback_proxy.go 179-221 handleFeedbackList *)
Definition handleFeedbackList (srcId : string) (query : string → string) : PM fb_answer :=
  p ← fbPrecondMgmt srcId;
  match p with
  | Err a => mret a
  | Ok src =>
    let base := (fbBase src +:+ "/api/assist/manage/feedback")%string in
    let q := list_query query in
    let url := if decide (q = []) then base else (base +:+ "?" +:+ encode_query q)%string in
    r ← fbDo "GET" url (s_MgmtKeyPlain src) None fbTimeoutWrite;
    mret (if status_is 404 r then mgmt_unsupported
          else match fbWriteUpstreamErr r with
               | Some a => a
               | None =>
                 match r with
                 | Some (resp, body) =>
                   if decide (up_StatusCode resp ≠ 200) then fbWriteBadUpstream
                   else match decode_obj body with
                        | None => fbWriteBadUpstream
                        | Some obj => answer (Reply 200 (PJson (with_source src obj)))
                        end
                 | None => fbWriteBadUpstream
                 end
               end)
  end.

(** The flag recomputed: the service manages and the hub has the key. *)
Definition recompute_manage (src : sourceRow) (detail : list (string * json)) : list (string * json) :=
  let caps := default [] (as_obj (jget "capabilities" detail)) in
  let upManage := as_bool (jget "manage" caps) in
  jset "capabilities" (JObj (jset "manage" (JBool (upManage && negb (String.eqb (s_MgmtKeyPlain src) EmptyString))) caps)) detail.

Definition detail_url (src : sourceRow) (fbID : string) : string := fbBase src +:+ "/api/assist/feedback/" +:+ fbID.

(* @src hub/feedback_proxy.go 223-267 handleFeedbackDetail *)
Definition handleFeedbackDetail (srcId fbID : string) : PM fb_answer :=
  p ← fbPrecond srcId;
  match p with
  | Err a => mret a
  | Ok src =>
    if negb (matches upstreamIDRe fbID) then mret (answer errNotFound)
    else
      r ← fbDo "GET" (detail_url src fbID) (s_KeyPlain src) None fbTimeoutRead;
      mret (if status_is 404 r then answer errNotFound
            else match fbWriteUpstreamErr r with
                 | Some a => a
                 | None =>
                   match r with
                   | Some (resp, body) =>
                     if decide (up_StatusCode resp ≠ 200) then fbWriteBadUpstream
                     else match decode_obj body with
                          | None => fbWriteBadUpstream
                          | Some detail => answer (Reply 200 (PJson (recompute_manage src (with_source src detail))))
                          end
                   | None => fbWriteBadUpstream
                   end
                 end)
  end.

(* @src hub/feedback_proxy.go 269-283 fbNonNegInt *)
(** [v]: the text of the value. *)
Definition fbNonNegInt (v : string) : bool :=
  match v with
  | EmptyString => false
  | String c _ =>
    if decide (c = ascii_of_N 34) then false
    else match json_decode v with
         | Some (JNum n) =>
           match atoi n with
           | Some i => bool_decide (0 <= i)
           | None => match number_float n with Some f => nonneg_integral f | None => false end
           end
         | _ => false
         end
  end.

(* @src hub/feedback_proxy.go 357-389 fbActionProbe *)
Definition fbActionProbe (src : sourceRow) (fbID : string) : PM fb_answer :=
  r ← fbDo "GET" (detail_url src fbID) (s_KeyPlain src) None fbTimeoutRead;
  mret match r with
       | None => answer (unavailable "反馈上游不可达或超时")
       | Some (resp, body) =>
         if decide (up_StatusCode resp = 404) then answer errNotFound
         else if decide (up_StatusCode resp ≠ 200) then answer (unavailable "反馈上游返回错误")
         else
           let caps := as_obj (jget "capabilities" (default [] (decode_obj body))) in
           if as_bool (jget "manage" (default [] caps)) then answer errNotFound else mgmt_unsupported
       end.

(** [req[k]], as its text; an absent key is an empty one. *)
Definition raw_of (k : string) (req : list (string * string)) : option string := snd <$> head (filter (λ p, p.1 = k) req).
Definition string_of_raw (v : option string) : option string := t ← v; into_string (json_decode t).

(** The checks of an action's body: the message of the first one that fails. *)
Definition action_invalid (req : list (string * string)) : option string :=
  let reqID := string_of_raw (raw_of "requestId" req) in
  let action := string_of_raw (raw_of "action" req) in
  if negb (match reqID with Some s => matches fbRequestIDRe s | None => false end) then
    Some "requestId 必填且须为 [A-Za-z0-9._:-]{1,128}"
  else match action with
       | None => Some "action 非法（archive|unarchive|trash|restore|resume_processing|retry|recheck）"
       | Some a =>
         if decide (a ∉ fbLifecycleActions ∧ a ∉ fbRevisionActions) then
           Some "action 非法（archive|unarchive|trash|restore|resume_processing|retry|recheck）"
         else if decide (a ∈ fbLifecycleActions ∧
                         fbNonNegInt (default EmptyString (raw_of "expectedLifecycleVersion" req)) = false) then
           Some "expectedLifecycleVersion 必填（≥0 整数）"
         else if decide (a ∈ fbRevisionActions ∧ fbNonNegInt (default EmptyString (raw_of "expectedRevision" req)) = false) then
           Some "expectedRevision 必填（≥0 整数）"
         else None
       end%string.

Definition action_url (src : sourceRow) (fbID : string) : string :=
  fbBase src +:+ "/api/assist/manage/feedback/" +:+ fbID +:+ "/action".

(** The body of a success: the source's fields go into the detail it carries. *)
Definition merge_detail (src : sourceRow) (body : string) : string :=
  match decode_obj body with
  | Some obj => match as_obj (jget "detail" obj) with
                | Some detail => json_encode (jset "detail" (JObj (with_source src detail)) obj)
                | None => body
                end
  | None => body
  end.

(* @src hub/feedback_proxy.go 285-355 handleFeedbackAction *)
(** [req]: the decoded body, or the error the decoder answered: status, code and message. *)
Definition handleFeedbackAction (srcId fbID : string) (req : outcome (Z * string * string) (list (string * string))) : PM fb_answer :=
  p ← fbPrecondMgmt srcId;
  match p with
  | Err a => mret a
  | Ok src =>
    if negb (matches upstreamIDRe fbID) then mret (answer errNotFound)
    else match req with
    | Err (status, code, msg) => mret (answer (Fail status code msg))
    | Ok req =>
      match action_invalid req with
      | Some msg => mret (answer (errInvalid msg))
      | None =>
        match json_encode_raw req with
        | None => mret (answer errInternal)
        | Some payload =>
          r ← fbDo "POST" (action_url src fbID) (s_MgmtKeyPlain src) (Some payload) fbTimeoutWrite;
          if status_is 404 r then fbActionProbe src fbID
          else mret match fbWriteUpstreamErr r, r with
               | Some a, _ => a
               | None, Some (resp, body) =>
                 let body := if decide (up_StatusCode resp = 200) then merge_detail src body else body in
                 answer (Reply (up_StatusCode resp) (PRaw [ctype_json] body))
               | None, None => fbWriteBadUpstream
               end
        end
      end
    end
  end.

(** ** Attachments *)

(** The path of an attachment below its feedback; [None] for a name that is not one. *)
Definition attachment_path (attID : string) : option string :=
  if decide (attID = "screenshot") then Some "/attachments/screenshot"
  else if has_prefix "logs/" attID then
    let logID := trim_prefix "logs/" attID in
    if matches upstreamIDRe logID then Some ("/attachments/logs/" +:+ logID) else None
  else None%string.

Definition attachment_unavailable (msg : string) : reply proxied := Fail 502 "attachment_unavailable" msg.

(** The headers a file is answered with; those that are empty are left out. *)
Definition attachment_headers (ct etag : string) (resp : up_response) (body : string) : list (string * string) :=
  let cl := up_Header resp "Content-Length" in
  filter (λ p, p.2 ≠ EmptyString)
    [("Content-Type", ct); ("Content-Length", if decide (cl = "") then fmt_d (str_len body) else cl);
     ("ETag", etag); ("Content-Disposition", up_Header resp "Content-Disposition")]
  ++ [("Cache-Control", "private, max-age=300")]%string.

(* @src hub/feedback_proxy.go 391-440 handleFeedbackAttachment *)
Definition handleFeedbackAttachment (srcId fbID attID : string) : PM fb_answer :=
  p ← fbPrecond srcId;
  match p with
  | Err a => mret a
  | Ok src =>
    if negb (matches upstreamIDRe fbID) then mret (answer errNotFound)
    else match attachment_path attID with
    | None => mret (answer errNotFound)
    | Some path =>
      r ← fbDo "GET" (detail_url src fbID +:+ path)%string (s_KeyPlain src) None fbTimeoutRead;
      mret match r with
           | None => answer (attachment_unavailable "附件上游不可达")
           | Some (resp, body) =>
             if decide (up_StatusCode resp = 404) then answer errNotFound
             else if decide (up_StatusCode resp ≠ 200) then answer (attachment_unavailable "附件上游返回错误")
             else if decide (maxAttachmentBytes < str_len body) then answer (attachment_unavailable "附件超出大小上限")
             else answer (Reply 200 (PRaw (attachment_headers (up_Header resp "Content-Type") (up_Header resp "ETag") resp body) body))
           end
    end
  end%string.

Definition quoted (s : string) : string := String (ascii_of_N 34) (s +:+ String (ascii_of_N 34) EmptyString).

(** The headers the descriptor fills in. *)
Definition described_headers (desc : attachmentDesc) (resp : up_response) (body : string) : list (string * string) :=
  let ct := up_Header resp "Content-Type" in
  let etag := up_Header resp "ETag" in
  attachment_headers (if decide (ct = "") then ad_Mime desc else ct)
    (if decide (etag = "" ∧ ad_SHA256 desc ≠ "") then quoted (ad_SHA256 desc) else etag) resp body.

(** The file of a message's attachment, once its source and feedback are known. *)
Definition fetch_attachment (src : sourceRow) (feedbackID path : string) (desc : attachmentDesc) : PM fb_answer :=
  r ← send {| uq_Method := "GET"; uq_URL := (detail_url src feedbackID +:+ path)%string; uq_Bearer := s_KeyPlain src;
              uq_Payload := None; uq_Timeout := fbTimeoutRead |};
  mret match r with
       | None => answer (attachment_unavailable "附件上游不可达")
       | Some resp =>
         if decide (up_StatusCode resp = 404) then answer errNotFound
         else if decide (up_StatusCode resp ≠ 200) then answer (attachment_unavailable "附件上游返回错误")
         else match read_limited (maxAttachmentBytes + 1) (up_body resp) (up_broken resp) with
              | None => answer (attachment_unavailable "读取附件失败")
              | Some body =>
                if decide (maxAttachmentBytes < str_len body) then answer (attachment_unavailable "附件超出大小上限")
                else answer (Reply 200 (PRaw (described_headers desc resp body) body))
              end
       end.

(* @src hub/attachments.go 31-171 handleAttachment *)
Definition handleAttachment (msgID attID : string) : PM fb_answer :=
  m ← st_try (hub (loadMessage msgID));
  match m with
  | Err ENoRows => mret (answer errNotFound)
  | Err _ => mret (answer errInternal)
  | Ok m =>
    match head (filter (λ d, ad_ID d = attID) (m_Attachments m)) with
    | None => mret (answer errNotFound)
    | Some desc =>
      s ← st_try (hub (loadSource (m_SourceID m)));
      match s with
      | Err _ => mret (answer errNotFound)
      | Ok src =>
        if decide (default EmptyString (s_AttachmentBaseURL src) = EmptyString) then mret (answer errNotFound)
        else
          let feedbackID := default EmptyString (ref ← m_Ref m; decode_ref ref) in
          if negb (matches upstreamIDRe feedbackID) then mret (answer errNotFound)
          else match attachment_path attID with
               | None => mret (answer errNotFound)
               | Some path => fetch_attachment src feedbackID path desc
               end
      end
    end
  end.
End proxy.

(** ** The requests of the group *)

(** A client's request to the proxy. *)
Inductive fb_request :=
| FbList (srcId : string) (query : string → string)
| FbDetail (srcId fbID : string)
| FbAction (srcId fbID : string) (req : outcome (Z * string * string) (list (string * string)))
| FbAttachment (srcId fbID attID : string)
| MsgAttachment (msgID attID : string).

(** Feedback ids and log ids: nothing that means something in an address. *)
Definition safe_id (s : string) : Prop := (1 <= String.length s <= 128)%nat ∧ str_all (in_cls id_cls) s = true.

Lemma upstream_id s : matches upstreamIDRe s = true ↔ safe_id s.
Proof. rewrite matches_iff. unfold upstreamIDRe. rewrite in_between. unfold safe_id. split; intros [? ?]; (split; [lia|done]). Qed.

(** What may follow the address of a feedback. *)
Definition safe_file (path : string) : Prop :=
  path = EmptyString ∨ path = "/attachments/screenshot"%string ∨
  ∃ logID, safe_id logID ∧ path = ("/attachments/logs/" +:+ logID)%string.

(** The bytes of an encoded query. *)
Definition query_byte (c : ascii) : bool :=
  in_cls [("a", "z"); ("A", "Z"); ("0", "9"); just "-"; just "_"; just "."; just "~"; just "+"; just "%"; just "="; just "&"]%char c.

(** A request with the read credential, to a read address. *)
Definition reading (src : sourceRow) (q : up_request) : Prop :=
  uq_Method q = "GET"%string ∧ uq_Payload q = None ∧ uq_Bearer q = s_KeyPlain src ∧
  ∃ fbID path, safe_id fbID ∧ safe_file path ∧ uq_URL q = (detail_url src fbID +:+ path)%string.

(** One with the management credential, to a management address. *)
Definition managing (src : sourceRow) (q : up_request) : Prop :=
  uq_Bearer q = s_MgmtKeyPlain src ∧ s_MgmtKeyPlain src ≠ EmptyString ∧
  (uq_Method q = "GET"%string ∧ uq_Payload q = None ∧
     (∃ rest, str_all query_byte rest = true ∧
       (uq_URL q = (fbBase src +:+ "/api/assist/manage/feedback")%string ∨
        uq_URL q = ((fbBase src +:+ "/api/assist/manage/feedback") +:+ "?" +:+ rest)%string)) ∨
   uq_Method q = "POST"%string ∧ ∃ fbID, safe_id fbID ∧ uq_URL q = action_url src fbID).

Definition live_feedback (d : db) (src : sourceRow) : Prop :=
  src ∈ d_sources d ∧ s_DeletedAt src = None ∧ s_Kind src = "feedback"%string ∧
  default EmptyString (s_AttachmentBaseURL src) ≠ EmptyString.

(** The requests a client's request may cause. *)
Definition asked (d : db) (r : fb_request) (q : up_request) : Prop :=
  match r with
  | FbList srcId _ => ∃ src, live_feedback d src ∧ s_ID src = srcId ∧ managing src q
  | FbDetail srcId _ => ∃ src, live_feedback d src ∧ s_ID src = srcId ∧ reading src q
  | FbAction srcId _ _ => ∃ src, live_feedback d src ∧ s_ID src = srcId ∧ (managing src q ∨ reading src q)
  | FbAttachment srcId _ _ => ∃ src, live_feedback d src ∧ s_ID src = srcId ∧ reading src q
  | MsgAttachment msgID _ => ∃ m src, m ∈ d_messages d ∧ m_ID m = msgID ∧ src ∈ d_sources d ∧ s_ID src = m_SourceID m ∧ reading src q
  end.

Definition query_or_space (c : ascii) : bool := query_byte c || Ascii.eqb c " ".

Lemma escape_bytes s : str_all query_or_space (percent_escape query_safe s) = true.
Proof.
  induction s as [|c s IH]; [done|]. cbn [percent_escape]. destruct (query_safe c) eqn:E; cbn [str_all]; rewrite IH, !andb_true_r.
  - revert E. revert c. apply (cls_within _ query_or_space). vm_compute. reflexivity.
  - apply andb_true_iff. split; [done|].
    exact (for_all_ascii (λ c, query_or_space (upper_hex (N_of_ascii c / 16)) && query_or_space (upper_hex (N_of_ascii c mod 16)))
      ltac:(vm_compute; reflexivity) c).
Qed.

Lemma query_escape_bytes s : str_all query_byte (query_escape s) = true.
Proof.
  unfold query_escape. pose proof (escape_bytes s) as H. revert H. generalize (percent_escape query_safe s). intros t.
  induction t as [|c t IH]; [done|]. cbn [str_all replace_char]. intros [Hc Ht]%andb_prop. case_decide as Hs.
  - change ("+" +:+ replace_char " " "+" t)%string with (String "+" (replace_char " " "+" t)). cbn [str_all]. by rewrite IH.
  - cbn [str_all]. rewrite IH by done. rewrite andb_true_r. unfold query_or_space in Hc. apply orb_prop in Hc as [?|Hc%Ascii.eqb_eq]; done.
Qed.

Lemma encode_query_bytes l : str_all query_byte (encode_query l) = true.
Proof.
  unfold encode_query. assert (∀ p : string * string, str_all query_byte (query_escape p.1 +:+ "=" +:+ query_escape p.2)%string = true) as Hp.
  { intros p. by rewrite !str_all_app, !query_escape_bytes. }
  induction l as [|p l IH]; [done|]. rewrite fmap_cons. destruct l as [|q l]; [apply Hp|].
  rewrite fmap_cons in *. cbn [String.concat]. rewrite str_all_app, Hp, str_all_app. exact IH.
Qed.

Lemma jget_jset k k' v o : jget k (jset k' v o) = if decide (k = k') then Some v else jget k o.
Proof.
  unfold jget, jset. rewrite filter_app, list_filter_filter, filter_cons. cbn [fst]. rewrite filter_nil. case_decide as Hk.
  - subst k'. rewrite decide_True by done. rewrite list_filter_none; [done|]. intros p _ [? ?]. congruence.
  - rewrite decide_False by congruence. rewrite app_nil_r. do 2 f_equal. apply list_filter_iff. intros p. naive_solver.
Qed.

(** The failures of the group and what they mean in [api-v1]. *)
Definition fb_failures : list (Z * string) :=
  [(400, "invalid_request"); (404, "not_found"); (409, "feedback_upstream_not_configured"); (409, "feedback_mgmt_not_configured");
   (409, "feedback_mgmt_unsupported"); (429, "rate_limited"); (500, "internal"); (502, "feedback_unavailable");
   (502, "attachment_unavailable")]%string.

Definition fails (a : fb_answer) : Prop :=
  match fa_reply a with Fail st code _ => (st, code) ∈ fb_failures | Reply _ _ => False end.

(** A failure of the table. *)
Ltac is_failure := unfold fails; cbn; set_solver.

Section proxy_lemmas.
Context `{HE : HubEnv}.
Notation PM := (stM (World * list up_request) herr).
Variable upstream : up_request → option up_response.
Variable json_decode : string → option json.
Variable json_encode : list (string * json) → string.
Variable json_encode_raw : list (string * string) → option string.
Variable error_code : string → option string.
Variable decode_ref : string → option string.

(** [m] answers, changes nothing of the hub, and sends requests that [post] knows. *)
Definition runs_to {A} (s : World * list up_request) (m : PM A) (post : A → list up_request → Prop) : Prop :=
  ∃ a w' new, m s = (Ok a, (w', s.2 ++ new)) ∧ untouched s.1 w' ∧ post a new.

Lemma runs_to_ret {A} s (a : A) (post : A → list up_request → Prop) : post a [] → runs_to s (mret a) post.
Proof. intros H. exists a, s.1, []. rewrite app_nil_r. split_and!; [by destruct s|done|done]. Qed.

Lemma runs_to_bind {A B} s (m : PM A) (k : A → PM B) R post :
  runs_to s m R →
  (∀ a w' new, untouched s.1 w' → R a new → runs_to (w', s.2 ++ new) (k a) (λ b new', post b (new ++ new'))) →
  runs_to s (m ≫= k) post.
Proof.
  intros (a & w1 & new & E & Hu & HR) Hk. destruct (Hk a w1 new Hu HR) as (b & w2 & new' & E' & Hu' & Hp).
  exists b, w2, (new ++ new'). rewrite (st_bind_Ok_step _ _ _ _ _ E), E', app_assoc. split_and!; [done|by etransitivity|done].
Qed.

Lemma runs_to_row {A} s (f : db → option A) :
  runs_to s (st_try (hub (db_row f))) (λ r new, new = [] ∧ ∀ a, r = Ok a → f (w_db s.1) = Some a).
Proof.
  pose proof (untouched_row f s.1) as Hu. unfold runs_to, st_try, hub. unfold db_row, db_call in Hu |- *.
  destruct (h_io _); [|destruct (f (w_db s.1)) as [a|] eqn:E]; eexists _, _, []; rewrite app_nil_r; (split; [reflexivity|]); (split; [exact Hu|]);
    (split; [done|]); by intros ? [= ?]; subst.
Qed.

Lemma runs_to_send s q : runs_to s (send upstream q) (λ r new, new = [q] ∧ r = upstream q).
Proof. by exists (upstream q), s.1, [q]. Qed.

(** What [fbDo] hands on. *)
Definition fetched (q : up_request) (r : option (up_response * string)) : Prop :=
  ∀ resp body, r = Some (resp, body) → upstream q = Some resp ∧ str_len body <= maxAttachmentBytes + 1.

Lemma runs_to_fbDo s method url bearer payload timeout :
  runs_to s (fbDo upstream method url bearer payload timeout)
    (λ r new, let q := {| uq_Method := method; uq_URL := url; uq_Bearer := bearer; uq_Payload := payload; uq_Timeout := timeout |} in
              new = [q] ∧ fetched q r).
Proof.
  unfold fbDo. eapply runs_to_bind; [apply runs_to_send|]. intros r w' new _ [-> ->]. apply runs_to_ret. split; [done|].
  intros resp body. destruct (upstream _) as [resp'|]; [|done]. unfold read_limited.
  case_decide; [|destruct (up_broken resp'); [done|]]; intros [= <- <-]; (split; [done|]); [|lia].
  unfold str_len. pose proof (substring_length 0 (Z.to_nat (maxAttachmentBytes + 1)) (up_body resp')). unfold maxAttachmentBytes in *. lia.
Qed.

(** The fields the hub adds to an object of a service. *)
Definition of_source (r : fb_request) (src : sourceRow) (o : list (string * json)) : Prop :=
  jget "sourceId" o = Some (JStr (s_ID src)) ∧ jget "sourceName" o = Some (JStr (s_Name src)) ∧
  match r with
  | FbDetail _ _ => ∃ caps b, jget "capabilities" o = Some (JObj caps) ∧ jget "manage" caps = Some (JBool b) ∧
                              (b = true → s_MgmtKeyPlain src ≠ EmptyString)
  | _ => True
  end.

(** An answer and the requests it rests on. *)
Definition answered (r : fb_request) (a : fb_answer) (new : list up_request) : Prop :=
  fails a ∨
  match fa_reply a, r with
  | Reply st (PJson o), (FbList _ _ | FbDetail _ _) =>
    st = 200 ∧ ∃ q resp src, q ∈ new ∧ upstream q = Some resp ∧ up_StatusCode resp = 200 ∧
      (managing src q ∨ reading src q) ∧ of_source r src o
  | Reply st (PRaw _ body), (FbAttachment _ _ _ | MsgAttachment _ _) =>
    st = 200 ∧ str_len body <= maxAttachmentBytes ∧ ∃ q resp, q ∈ new ∧ upstream q = Some resp ∧ up_StatusCode resp = 200
  | Reply st (PRaw _ body), _ =>
    (∃ q resp, q ∈ new ∧ upstream q = Some resp ∧ up_StatusCode resp = st) ∧ st < 500 ∧ st ∉ [401; 404; 429] ∧
    (400 <= st → ∃ c, error_code body = Some c ∧ c ∈ fbPassThroughCodes)
  | Fail status code msg, FbAction _ _ (Err e) => e = (status, code, msg)
  | _, _ => False
  end.

Lemma answered_fails r a new : fails a → answered r a new.
Proof. by left. Qed.

(** What the mapping of failures leaves: an answer that is not one. *)
Lemma upstream_err_spec r :
  match fbWriteUpstreamErr error_code r with
  | Some a => fails a ∨ ∃ resp body c, r = Some (resp, body) ∧ fa_reply a = Reply (up_StatusCode resp) (PRaw [ctype_json] body) ∧
      400 <= up_StatusCode resp < 500 ∧ up_StatusCode resp ≠ 401 ∧ up_StatusCode resp ≠ 429 ∧ error_code body = Some c ∧ c ∈ fbPassThroughCodes
  | None => ∃ resp body, r = Some (resp, body) ∧ up_StatusCode resp < 400
  end.
Proof.
  unfold fbWriteUpstreamErr. destruct r as [[resp body]|]; [|left; vm_compute; set_solver].
  case_decide; [left; is_failure|]. case_decide; [left; is_failure|].
  case_decide; [left; is_failure|]. case_decide; [|exists resp, body; split; [done|lia]].
  destruct (error_code body) as [c|] eqn:E; [|left; is_failure].
  case_decide; [|left; is_failure]. right. exists resp, body, c. split_and!; try done; lia.
Qed.

Lemma runs_to_precond s srcId :
  runs_to s (fbPrecond srcId) (λ r new, new = [] ∧
    match r with Ok src => live_feedback (w_db s.1) src ∧ s_ID src = srcId | Err a => fails a end).
Proof.
  unfold fbPrecond. eapply runs_to_bind; [apply runs_to_row|]. intros r w' new _ [-> Hr]. apply runs_to_ret. split; [done|].
  destruct r as [src|e].
  - destruct (tbl_lookup_Some _ _ _ (Hr src eq_refl)) as [Hin Hid]. case_decide as Hd; [is_failure|].
    apply Decidable.not_or in Hd as [Hd Hk]. case_decide as Hb; [is_failure|].
    split; [|done]. split_and!; [done| | |done].
    + by destruct (decide (s_DeletedAt src = None)).
    + by destruct (decide (s_Kind src = "feedback"%string)).
  - destruct e; is_failure.
Qed.

Lemma runs_to_precond_mgmt s srcId :
  runs_to s (fbPrecondMgmt srcId) (λ r new, new = [] ∧
    match r with Ok src => live_feedback (w_db s.1) src ∧ s_ID src = srcId ∧ s_MgmtKeyPlain src ≠ EmptyString | Err a => fails a end).
Proof.
  unfold fbPrecondMgmt. eapply runs_to_bind; [apply runs_to_precond|]. intros r w' new _ [-> Hr]. apply runs_to_ret. split; [done|].
  destruct r as [src|a]; [|done]. destruct Hr as [? ?]. case_decide; [is_failure|done].
Qed.

(** What a handler does, all in all. *)
Definition fb_post (d : db) (r : fb_request) (a : fb_answer) (new : list up_request) : Prop :=
  (length new <= 2)%nat ∧ Forall (asked d r) new ∧ answered r a new.

Lemma fb_post_refused d r a : fails a → fb_post d r a [].
Proof. intros H. split_and!; [cbn; lia|constructor|by left]. Qed.

Lemma fb_post_one d r a q : asked d r q → answered r a [q] → fb_post d r a [q].
Proof. intros Hq Ha. split_and!; [cbn; lia|by repeat constructor|done]. Qed.

(** An object answered after a request was accepted, or a failure. *)
Lemma object_answered r src q x notFound (f : list (string * json) → list (string * json)) :
  match r with FbList _ _ | FbDetail _ _ => True | _ => False end →
  fetched q x → (managing src q ∨ reading src q) → fails notFound → (∀ o, of_source r src (f o)) →
  answered r (if status_is 404 x then notFound
              else match fbWriteUpstreamErr error_code x with
                   | Some a => a
                   | None =>
                     match x with
                     | Some (resp, body) =>
                       if decide (up_StatusCode resp ≠ 200) then fbWriteBadUpstream
                       else match decode_obj json_decode body with
                            | None => fbWriteBadUpstream
                            | Some o => answer (Reply 200 (PJson (f o)))
                            end
                     | None => fbWriteBadUpstream
                     end
                   end) [q].
Proof.
  intros Hr Hf Hm Hn Ho. destruct (status_is 404 x) eqn:E404; [by left|]. pose proof (upstream_err_spec x) as Hs.
  destruct (fbWriteUpstreamErr error_code x) as [a|].
  - destruct Hs as [Hs|(resp & body & c & -> & Ha & Hst & H1 & H2 & Hc & Hin)]; [by left|]. right. rewrite Ha.
    cbn in E404. apply Z.eqb_neq in E404. destruct (Hf resp body eq_refl) as [Hu _].
    destruct r; try done; (split_and!; [exists q, resp; split_and!; [left|done|done]|lia|set_solver|intros _; by exists c]).
  - destruct Hs as (resp & body & -> & Hlt). case_decide as Hst; [left; is_failure|].
    destruct (decode_obj json_decode body) as [o|]; [|left; is_failure]. right.
    destruct (Hf resp body eq_refl) as [Hu _]. assert (up_StatusCode resp = 200) as H200 by lia.
    destruct r; try done; (split; [done|]); exists q, resp, src; (split_and!; [left|done|done|done|apply Ho..]).
Qed.

(** The services' address of a client's request. *)
Definition serve_fb (r : fb_request) : PM fb_answer :=
  match r with
  | FbList srcId query => handleFeedbackList upstream json_decode error_code srcId query
  | FbDetail srcId fbID => handleFeedbackDetail upstream json_decode error_code srcId fbID
  | FbAction srcId fbID req => handleFeedbackAction upstream json_decode json_encode json_encode_raw error_code srcId fbID req
  | FbAttachment srcId fbID attID => handleFeedbackAttachment upstream srcId fbID attID
  | MsgAttachment msgID attID => handleAttachment upstream decode_ref msgID attID
  end.

Lemma with_source_ok r src o : match r with FbDetail _ _ => False | _ => True end → of_source r src (with_source src o).
Proof. intros Hr. unfold of_source, with_source. rewrite !jget_jset. by destruct r. Qed.

Lemma recompute_ok srcId fbID src o : of_source (FbDetail srcId fbID) src (recompute_manage src (with_source src o)).
Proof.
  unfold of_source, recompute_manage, with_source. rewrite !jget_jset.
  repeat first [rewrite decide_True by done|rewrite decide_False by done]. split_and!; [done..|].
  eexists _, _. split; [reflexivity|]. rewrite jget_jset, decide_True by done. split; [reflexivity|].
  intros [_ Hk]%andb_prop. apply negb_true_iff, String.eqb_neq in Hk. done.
Qed.

Lemma list_ok s srcId query : runs_to s (serve_fb (FbList srcId query)) (fb_post (w_db s.1) (FbList srcId query)).
Proof.
  cbn [serve_fb]. unfold handleFeedbackList. eapply runs_to_bind; [apply runs_to_precond_mgmt|]. intros p w' new Hu [-> Hp].
  destruct p as [src|a]; [|by apply runs_to_ret, fb_post_refused]. destruct Hp as (Hl & Hid & Hk).
  eapply runs_to_bind; [apply runs_to_fbDo|]. intros x w2 new2 _ [-> Hf]. apply runs_to_ret.
  set (q := {| uq_Method := "GET" |}) in *.
  assert (managing src q) as Hm.
  { split_and!; [done|done|]. left. split_and!; [done..|]. exists (encode_query (list_query query)).
    split; [apply encode_query_bytes|]. unfold q. cbn [uq_URL]. case_decide; [by left|by right]. }
  apply fb_post_one; [by exists src|].
  apply (object_answered (FbList srcId query) src q x); [done|done|by left|is_failure|intros; by apply with_source_ok].
Qed.

Lemma str_app_nil_r (s : string) : (s +:+ "" = s)%string.
Proof. induction s as [|c s IH]; [done|]. change (String c s +:+ "")%string with (String c (s +:+ "")). by rewrite IH. Qed.

Lemma detail_reading src fbID path payload timeout : safe_id fbID → safe_file path → payload = None →
  reading src {| uq_Method := "GET"; uq_URL := (detail_url src fbID +:+ path)%string; uq_Bearer := s_KeyPlain src;
                 uq_Payload := payload; uq_Timeout := timeout |}.
Proof. intros Hi Hp ->. split_and!; [done..|]. by exists fbID, path. Qed.

Lemma reading_detail src fbID timeout : safe_id fbID →
  reading src {| uq_Method := "GET"; uq_URL := detail_url src fbID; uq_Bearer := s_KeyPlain src; uq_Payload := None; uq_Timeout := timeout |}.
Proof. intros Hi. rewrite <-(str_app_nil_r (detail_url src fbID)). apply detail_reading; [done|by left|done]. Qed.

Lemma detail_ok s srcId fbID : runs_to s (serve_fb (FbDetail srcId fbID)) (fb_post (w_db s.1) (FbDetail srcId fbID)).
Proof.
  cbn [serve_fb]. unfold handleFeedbackDetail. eapply runs_to_bind; [apply runs_to_precond|]. intros p w' new Hu [-> Hp].
  destruct p as [src|a]; [|by apply runs_to_ret, fb_post_refused]. destruct Hp as [Hl Hid].
  destruct (matches upstreamIDRe fbID) eqn:Em; cbn [negb]; [|apply runs_to_ret, fb_post_refused; is_failure].
  apply upstream_id in Em. eapply runs_to_bind; [apply runs_to_fbDo|]. intros x w2 new2 _ [-> Hf]. apply runs_to_ret.
  pose proof (reading_detail src fbID fbTimeoutRead Em) as Hread. apply fb_post_one; [by exists src|].
  apply (object_answered (FbDetail srcId fbID) src _ x); [done|done|by right|is_failure|intros; apply recompute_ok].
Qed.

Lemma attachment_path_safe attID path : attachment_path attID = Some path → safe_file path.
Proof.
  unfold attachment_path. case_decide; [intros [= <-]; right; by left|]. destruct (has_prefix _ _); [|done].
  destruct (matches upstreamIDRe _) eqn:E; [|done]. intros [= <-]. right; right. eexists. split; [by apply upstream_id|done].
Qed.

(** A file answered, or a failure. *)
Lemma file_answered r q resp hs body :
  match r with FbAttachment _ _ _ | MsgAttachment _ _ => True | _ => False end →
  upstream q = Some resp → up_StatusCode resp = 200 → str_len body <= maxAttachmentBytes →
  answered r (answer (Reply 200 (PRaw hs body))) [q].
Proof. intros Hr Hu Hs Hb. right. destruct r; try done; (split_and!; [done..|]); exists q, resp; (split_and!; [left|done|done]). Qed.

Lemma attachment_ok s srcId fbID attID :
  runs_to s (serve_fb (FbAttachment srcId fbID attID)) (fb_post (w_db s.1) (FbAttachment srcId fbID attID)).
Proof.
  cbn [serve_fb]. unfold handleFeedbackAttachment. eapply runs_to_bind; [apply runs_to_precond|]. intros p w' new Hu [-> Hp].
  destruct p as [src|a]; [|by apply runs_to_ret, fb_post_refused]. destruct Hp as [Hl Hid].
  destruct (matches upstreamIDRe fbID) eqn:Em; cbn [negb]; [|apply runs_to_ret, fb_post_refused; is_failure].
  apply upstream_id in Em. destruct (attachment_path attID) as [path|] eqn:Ep; [|apply runs_to_ret, fb_post_refused; is_failure].
  apply attachment_path_safe in Ep. eapply runs_to_bind; [apply runs_to_fbDo|]. intros x w2 new2 _ [-> Hf]. apply runs_to_ret.
  apply fb_post_one; [exists src; split_and!; [done..|]; by apply detail_reading|].
  destruct x as [[resp body]|]; [|left; is_failure]. destruct (Hf resp body eq_refl) as [Hup _].
  case_decide; [left; is_failure|]. case_decide; [left; is_failure|].
  case_decide; [left; is_failure|]. apply (file_answered _ _ resp); [done|done|lia|lia].
Qed.

Lemma message_attachment_ok s msgID attID :
  runs_to s (serve_fb (MsgAttachment msgID attID)) (fb_post (w_db s.1) (MsgAttachment msgID attID)).
Proof.
  cbn [serve_fb]. unfold handleAttachment. eapply runs_to_bind; [apply runs_to_row|]. intros m w' new Hu [-> Hm].
  destruct m as [m|[]]; try (apply runs_to_ret, fb_post_refused; is_failure). specialize (Hm m eq_refl).
  apply tbl_lookup_Some in Hm as [Hmin Hmid].
  destruct (head _) as [desc|]; [|apply runs_to_ret, fb_post_refused; is_failure].
  eapply runs_to_bind; [apply runs_to_row|]. intros p w2 new2 Hu2 [-> Hs].
  destruct p as [src|]; [|apply runs_to_ret, fb_post_refused; is_failure]. specialize (Hs src eq_refl).
  apply tbl_lookup_Some in Hs as [Hsin Hsid]. cbn [fst] in Hsin. assert (w_db w' = w_db s.1) as Hdb by apply Hu. rewrite Hdb in Hsin.
  case_decide; [apply runs_to_ret, fb_post_refused; is_failure|]. cbv zeta.
  destruct (matches upstreamIDRe _) eqn:Em; cbn [negb]; [|apply runs_to_ret, fb_post_refused; is_failure].
  apply upstream_id in Em. destruct (attachment_path attID) as [path|] eqn:Ep; [|apply runs_to_ret, fb_post_refused; is_failure].
  apply attachment_path_safe in Ep. unfold fetch_attachment. eapply runs_to_bind; [apply runs_to_send|]. intros x w3 new3 _ [-> ->]. apply runs_to_ret.
  apply fb_post_one; [exists m, src; split_and!; [done..|by apply detail_reading]|].
  destruct (upstream _) as [resp|] eqn:Eu; [|left; is_failure]. case_decide; [left; is_failure|]. case_decide; [left; is_failure|].
  destruct (read_limited _ _ _) as [body|]; [|left; is_failure]. case_decide; [left; is_failure|].
  apply (file_answered _ _ resp); [done|done|lia|lia].
Qed.

Lemma probe_ok s src srcId fbID req :
  safe_id fbID → live_feedback (w_db s.1) src → s_ID src = srcId →
  runs_to s (fbActionProbe upstream json_decode src fbID) (λ a new, ∃ q, new = [q] ∧ asked (w_db s.1) (FbAction srcId fbID req) q ∧ fails a).
Proof.
  intros Hi Hl Hid. unfold fbActionProbe. eapply runs_to_bind; [apply runs_to_fbDo|]. intros x w' new _ [-> _]. apply runs_to_ret.
  eexists. split; [reflexivity|]. split; [exists src; split_and!; [done..|]; right; by apply reading_detail|].
  destruct x as [[resp body]|]; [|is_failure]. case_decide; [is_failure|]. case_decide; [is_failure|]. case_match; is_failure.
Qed.

Lemma action_ok s srcId fbID req : runs_to s (serve_fb (FbAction srcId fbID req)) (fb_post (w_db s.1) (FbAction srcId fbID req)).
Proof.
  cbn [serve_fb]. unfold handleFeedbackAction. eapply runs_to_bind; [apply runs_to_precond_mgmt|]. intros p w' new Hu [-> Hp].
  destruct p as [src|a]; [|by apply runs_to_ret, fb_post_refused]. destruct Hp as (Hl & Hid & Hk).
  destruct (matches upstreamIDRe fbID) eqn:Em; cbn [negb]; [|apply runs_to_ret, fb_post_refused; is_failure]. apply upstream_id in Em.
  destruct req as [req|[[st code] msg]].
  2:{ apply runs_to_ret. split_and!; [cbn; lia|constructor|]. by right. }
  destruct (action_invalid json_decode req); [apply runs_to_ret, fb_post_refused; is_failure|].
  destruct (json_encode_raw req) as [payload|]; [|apply runs_to_ret, fb_post_refused; is_failure].
  eapply runs_to_bind; [apply runs_to_fbDo|]. intros x w2 new2 Hu2 [-> Hf]. set (q := {| uq_Method := "POST" |}) in *.
  assert (asked (w_db s.1) (FbAction srcId fbID (Ok req)) q) as Hq.
  { exists src. split_and!; [done..|]. left. split_and!; [done..|]. right. split; [done|]. by exists fbID. }
  destruct (status_is 404 x) eqn:E404.
  { destruct (probe_ok (w2, (w', s.2 ++ []).2 ++ [q]) src srcId fbID (Ok req) Em) as (a & w3 & new3 & E & Hu3 & q3 & -> & Hq3 & Hfail); [|done|].
    { cbn [fst]. replace (w_db w2) with (w_db s.1); [done|]. destruct Hu as [Hu _], Hu2 as [Hu2 _]. cbn in Hu2. congruence. }
    exists a, w3, [q3]. split; [exact E|]. split; [done|]. cbn [app]. split_and!; [cbn; lia| |by left].
    constructor; [done|]. constructor; [|done]. cbn [fst] in Hq3. replace (w_db s.1) with (w_db w2); [done|].
    destruct Hu as [Hu _], Hu2 as [Hu2 _]. cbn in Hu2. congruence. }
  apply runs_to_ret. cbn [app]. apply fb_post_one; [done|]. pose proof (upstream_err_spec x) as Hs.
  destruct (fbWriteUpstreamErr error_code x) as [a|].
  - destruct Hs as [?|(resp & body & c & -> & Ha & Hst & H1 & H2 & Hc & Hin)]; [by left|]. right. rewrite Ha.
    cbn in E404. apply Z.eqb_neq in E404. destruct (Hf resp body eq_refl) as [Hup _].
    split_and!; [exists q, resp; split_and!; [left|done|done]|lia|set_solver|intros _; by exists c].
  - destruct Hs as (resp & body & -> & Hlt). right. destruct (Hf resp body eq_refl) as [Hup _]. cbn [fa_reply answer].
    split_and!; [exists q, resp; split_and!; [left|done|done]|lia|set_solver by lia|lia].
Qed.

Lemma serve_ok s r : runs_to s (serve_fb r) (fb_post (w_db s.1) r).
Proof. destruct r; [apply list_ok|apply detail_ok|apply action_ok|apply attachment_ok|apply message_attachment_ok]. Qed.
End proxy_lemmas.

(** ** A service, for the examples *)

Definition feedback_source : sourceRow :=
  set_s_AttachmentBaseURL (Some "https://fb.example/"%string) (set_s_MgmtKeyPlain "mgmt"%string (set_s_KeyPlain "read"%string
    {| s_ID := "src_f"; s_Name := "F"; s_Kind := "feedback"; s_Enabled := true; s_KeyHash := ""; s_KeyPlain := ""; s_KeyHint := "";
       s_MgmtKeyPlain := ""; s_MgmtKeyHint := ""; s_AttachmentBaseURL := None; s_AgentVersion := None; s_AgentOS := None;
       s_AgentArch := None; s_Hostname := None; s_Capabilities := None; s_LastSeenAt := None; s_LastMetricsSeq := 0; s_LastEventSeq := 0;
       s_LastBootTime := None; s_LastSummary := None; s_PrevSample := None; s_DeletedAt := None; s_CreatedAt := ""; s_UpdatedAt := "" |}))%string.

(** It lists for the management key alone. *)
Definition demo_upstream (q : up_request) : option up_response :=
  Some {| up_StatusCode := if String.eqb (uq_Bearer q) "mgmt" then 200 else 401; up_Header := λ _, EmptyString; up_body := "{}";
          up_broken := false |}%string.
Definition demo_json (s : string) : option json := if String.eqb s "{}" then Some (JObj []) else None.

Notation demo_serve r := (serve_fb (HE := demo_env) demo_upstream demo_json (λ _, EmptyString) (λ _, Some EmptyString) (λ _, None) (λ _, None) r
  (world_of (set_d_sources [feedback_source] empty_db), [])).

Example demo_list :
  (demo_serve (FbList "src_f" (λ k, if String.eqb k "q" then "a b&c" else ""))).1 =
    Ok (answer (Reply 200 (PJson [("sourceId", JStr "src_f"); ("sourceName", JStr "F")]))) ∧
  uq_URL <$> (demo_serve (FbList "src_f" (λ k, if String.eqb k "q" then "a b&c" else ""))).2.2 =
    ["https://fb.example/api/assist/manage/feedback?q=a+b%26c"].
Proof. split; vm_compute; reflexivity. Qed.

(** A service that refuses the read key is not told apart from one that is down. *)
Example demo_refused_key :
  (demo_serve (FbDetail "src_f" "fb_1")).1 = Ok (answer (unavailable "反馈上游凭证失效")).
Proof. vm_compute. reflexivity. Qed.

(** An answer to an action that is not JSON is passed on as it is, under the content type of
    JSON; a list would be refused. *)
Definition html_upstream (q : up_request) : option up_response :=
  Some {| up_StatusCode := 200; up_Header := λ _, EmptyString; up_body := "<html>"; up_broken := false |}%string.
Definition demo_raw (s : string) : option json :=
  if String.eqb s "id" then Some (JStr "r1") else if String.eqb s "retry" then Some (JStr s)
  else if String.eqb s "0" then Some (JNum s) else None.
Example action_passes_html :
  let serve r := (serve_fb (HE := demo_env) html_upstream demo_raw (λ _, EmptyString) (λ _, Some EmptyString) (λ _, None) (λ _, None) r
    (world_of (set_d_sources [feedback_source] empty_db), [])).1 in
  serve (FbAction "src_f" "fb_1" (Ok [("requestId", "id"); ("action", "retry"); ("expectedRevision", "0")])) =
    Ok (answer (Reply 200 (PRaw [ctype_json] "<html>"))) ∧
  serve (FbList "src_f" (λ _, EmptyString)) = Ok fbWriteBadUpstream.
Proof. split; vm_compute; reflexivity. Qed.

(** ** Properties *)

Section properties.
Context `{HE : HubEnv}.
Variable upstream : up_request → option up_response.
Variable json_decode : string → option json.
Variable json_encode : list (string * json) → string.
Variable json_encode_raw : list (string * string) → option string.
Variable error_code : string → option string.
Variable decode_ref : string → option string.
Notation serve := (serve_fb upstream json_decode json_encode json_encode_raw error_code decode_ref).

(** C39: the two credentials of a service stay apart.  Whatever a client asks, the hub changes
    nothing of its own and sends at most two requests, each to the service of the source named:
    to a read address with the source's access key, or to a management address with its
    management key, which is one it has; the ids of the client that enter an address hold
    nothing but letters, digits, [_] and [-], and a query is escaped. *)
Theorem credentials_apart r s :
  ∃ a w' new, serve r s = (Ok a, (w', s.2 ++ new)) ∧ untouched s.1 w' ∧ (length new <= 2)%nat ∧ Forall (asked (w_db s.1) r) new.
Proof.
  destruct (serve_ok upstream json_decode json_encode json_encode_raw error_code decode_ref s r) as (a & w' & new & E & Hu & Hn & Ha & _).
  by exists a, w', new.
Qed.

(** C40: what a client is told.  A success is the service's: an object of a list or a detail with
    the source's fields put in (and [manage] only if the hub holds the key), a file of at most
    10 MiB, the answer to an action.  A client error of the service is passed on only with one
    of the known codes, and never its 401, 404 or 429; everything else is a failure from a
    fixed table, so neither a service's fault nor a wrong credential shows as it is. *)
Theorem fb_answers r s :
  ∃ a w' new, serve r s = (Ok a, (w', s.2 ++ new)) ∧ answered upstream error_code r a new.
Proof.
  destruct (serve_ok upstream json_decode json_encode json_encode_raw error_code decode_ref s r) as (a & w' & new & E & _ & _ & _ & Ha).
  by exists a, w', new.
Qed.
End properties.
