(* ===== verification/Conduct.v ===== *)
(** How the handlers and loops of the hub conduct themselves: each is orderly (see [Orderly])
    and answers whatever fails inside it.  The retention loop is the one that also shortens
    the change log. *)

From S2P Require Import Prelude GoBase GoTime HubTypes HubStore Fault Rules Ingest Retention Handlers Messages Sync.
From S2P Require Import Auth Orderly Install Admin.
Local Open Scope Z_scope.

(** ** The handlers are orderly *)

Section orderly_handlers.
Context `{HE : HubEnv} `{SS : SliceSort} `{SF : SqlFuns}.
Notation HM := (stM World herr).

Lemma produces_name ch id : produces ch (sourceName id) (λ _, ch).
Proof. apply produces_quiet. intros w. apply still_name. Qed.

Lemma produces_write ch f : (∀ d, tx_effect d (f d) []) → produces ch (tx_exec f) (λ _, ch).
Proof.
  intros Hf w d a w' Hd H. apply (tx_exec_Ok _ _ _ _ _ Hd) in H as [Hd' _].
  exists (f d), []. rewrite app_nil_r. done.
Qed.

(** Writes of other tables than the log keep what is logged. *)
Lemma quiet_effect (f : db → db) d :
  d_changes (f d) = d_changes d → change_seq (f d) = change_seq d → (db_ok d → db_ok (f d)) → tx_effect d (f d) [].
Proof. intros Hc Hq Hok. split; [done|]. exists []. split; [|done]. eapply log_grows_same; [apply log_grows_refl|done..]. Qed.

Lemma produces_messages ch id g :
  (∀ m, m_ID (g m) = m_ID m ∧ m_FaultID (g m) = m_FaultID m) →
  produces ch (tx_exec (λ d, set_d_messages (tbl_update id g (d_messages d)) d)) (λ _, ch).
Proof. intros Hg. apply produces_write. intros d. apply quiet_effect; [done..|]. by apply update_messages_ok. Qed.

Lemma produces_faults ch id g :
  (∀ f, f_ID (g f) = f_ID f ∧ fault_slot (g f) = fault_slot f ∧ (fault_ok f → fault_ok (g f))) →
  produces ch (tx_exec (λ d, set_d_faults (tbl_update id g (d_faults d)) d)) (λ _, ch).
Proof. intros Hg. apply produces_write. intros d. apply quiet_effect; [done..|]. by apply update_faults_ok. Qed.

Lemma produces_store_read ch m : produces ch (store_read m) (λ r, ch ++ [r.1]).
Proof.
  apply produces_step; [by apply produces_messages|intros _].
  apply produces_step; [apply produces_step; [apply produces_name|intros; by apply produces_ret]|intros mj].
  eapply produces_bind; [apply produces_changeObj|intros e].
  apply produces_step; [by apply produces_messages|intros _]. by apply produces_ret.
Qed.

Lemma produces_read_tx id read : produces [] (read_tx id read) fst.
Proof.
  apply produces_step; [apply produces_row|intros m]. case_decide.
  - apply produces_step; [apply produces_step; [apply produces_name|intros; by apply produces_ret]|intros mj]. by apply produces_ret.
  - apply produces_step; [destruct read; [apply produces_step; [apply produces_now|intros]|]; by apply produces_ret|intros r].
    eapply produces_bind; [apply produces_store_read|intros e]. by apply produces_ret.
Qed.

Lemma produces_read_all before : produces [] (read_all_tx before) fst.
Proof.
  apply produces_step; [apply produces_rows|intros ids]. apply produces_step; [apply produces_now|intros now].
  change (@nil changeEntry) with (fst (@nil changeEntry, 0)) at 1. generalize (@nil changeEntry, 0).
  induction ids as [|id ids IH]; intros acc; cbn [st_foldl]; [by apply produces_ret|].
  eapply produces_bind; [|intros acc'; apply IH].
  apply produces_step; [apply produces_row|intros m].
  eapply produces_bind; [apply produces_store_read|intros e]. by apply produces_ret.
Qed.

Lemma produces_flags id op : produces [] (flags_tx id op) fst.
Proof.
  apply produces_step; [apply produces_row|intros f]. apply produces_step; [apply produces_now|intros now].
  destruct (fault_flags op (fmtTS now) f) as [g|].
  - apply produces_step; [by apply produces_faults|intros _].
    apply produces_step; [apply produces_step; [apply produces_name|intros; by apply produces_ret]|intros fj].
    eapply produces_bind; [apply produces_changeObj|intros e].
    apply produces_step; [by apply produces_faults|intros _]. by apply produces_ret.
  - apply produces_step; [apply produces_step; [apply produces_name|intros; by apply produces_ret]|intros fj]. by apply produces_ret.
Qed.

Lemma orderly_answer {J} (fn : HM (list changeEntry * J)) :
  produces [] fn fst → sealed fn → orderly (r ← st_try (withTx fn); answer_marked r).
Proof.
  intros Hp Hs. eapply orderly_commit_now; [exact Hp|exact Hs| |].
  - intros e. unfold answer_marked. orderly_steps.
  - intros [ch out]. eexists. split; [reflexivity|]. orderly_steps.
Qed.

Lemma orderly_read id read : orderly (setMessageRead id read).
Proof. apply orderly_answer; [apply produces_read_tx|apply sealed_read_tx]. Qed.
Lemma orderly_flags id op : orderly (updateFaultFlags id op).
Proof. apply orderly_answer; [apply produces_flags|apply sealed_flags_tx]. Qed.
Lemma orderly_read_all before : orderly (handleMessagesReadAll before).
Proof.
  assert (∀ upto, orderly (r ← st_try (withTx (read_all_tx upto));
    match r with Err _ => mret errInternal | Ok (changes, updated) => publish changes ;; mret (Reply 200 updated) end)) as Hrun.
  { intros upto. eapply orderly_commit_now; [apply produces_read_all|apply sealed_read_all| |].
    - intros e. orderly_steps.
    - intros [ch n]. eexists. split; [reflexivity|]. orderly_steps. }
  unfold handleMessagesReadAll. destruct before as [s|]; [|apply Hrun]. case_decide; [apply Hrun|].
  destruct (parseTS s); [apply Hrun|]. orderly_steps.
Qed.

(** ** Reading handlers *)

Lemma still_message_json m : still (message_json m).
Proof. unfold message_json. still_steps. Qed.
Lemma still_fault_json f : still (fault_json f).
Proof. unfold fault_json. still_steps. Qed.
#[local] Hint Resolve still_message_json still_fault_json : orderlydb.
Lemma still_cut {R J} limit (json : R → HM J) cursor rows : (∀ r, still (json r)) → still (cut_page limit json cursor rows).
Proof. intros. unfold cut_page. still_steps. Qed.
#[local] Hint Resolve still_cut : orderlydb.

Lemma orderly_overview : orderly handleOverview.
Proof. unfold handleOverview. orderly_steps. Qed.
Lemma orderly_messages f l c s : orderly (handleMessages f l c s).
Proof. unfold handleMessages, messagesPage. orderly_steps. Qed.
Lemma orderly_detail id : orderly (handleMessageDetail id).
Proof. unfold handleMessageDetail, loadMessage, loadFault. orderly_steps. Qed.
Lemma orderly_faults s l c : orderly (handleFaults s l c).
Proof. unfold handleFaults, faultsPage. cbv zeta. orderly_steps. Qed.
Lemma orderly_series s m l st f t : orderly (handleMetricsSeries s m l st f t).
Proof. unfold handleMetricsSeries, series_rows. cbv zeta. orderly_steps. Qed.
Lemma orderly_sync s l : orderly (handleSync s l).
Proof. unfold handleSync, syncPage, sync_rows, sync_answer, maxChangeSeq. orderly_steps. Qed.

(** ** Sessions and sources *)

Lemma sessions_effect d l : tx_effect d (set_d_sessions l d) [].
Proof. apply (quiet_effect (set_d_sessions l)); [done..|]. by intros [K1 K2 K3 K4 K5 K6 K7]. Qed.

Lemma orderly_issue user label : orderly (issueSession user label).
Proof.
  unfold issueSession. orderly_steps. apply orderly_write. intros d u d'.
  destruct (tbl_insert _ _); [|done]. intros [= _ <-]. apply sessions_effect.
Qed.

Lemma orderly_login bm cfg h addr l req : orderly (handleLogin bm cfg h addr l req).
Proof.
  pose proof orderly_issue. unfold handleLogin. orderly_steps.
Qed.

Lemma orderly_refresh tok : orderly (handleRefresh tok).
Proof.
  assert (orderly (refresh_check tok)) as Hc.
  { unfold refresh_check. orderly_steps. apply orderly_still, still_read. intros d u d'. destruct (refresh_session tok d); [|done].
    by intros [= _ <-]. }
  unfold handleRefresh, refresh_rotate. orderly_steps. apply orderly_write. intros d n d' [= _ <-]. apply sessions_effect.
Qed.

Lemma still_session auth : still (clientSession auth).
Proof. unfold clientSession. still_steps. Qed.

Lemma orderly_client {B} (next : session → HM (reply B)) auth : (∀ s, orderly (next s)) → orderly (requireClient next auth).
Proof. pose proof (still_session auth). intros. unfold requireClient. orderly_steps. Qed.

Lemma orderly_source {B} (next : sourceRow → HM (reply B)) auth : (∀ s, orderly (next s)) → orderly (sourceKeyAuth next auth).
Proof. intros. unfold sourceKeyAuth. orderly_steps. Qed.

Lemma orderly_logout s : orderly (handleLogout s).
Proof. unfold handleLogout. orderly_steps. apply orderly_write. intros d u d' [= _ <-]. apply sessions_effect. Qed.

(** ** Ingest *)

Lemma orderly_metrics src req : orderly (handleIngestMetrics src req).
Proof.
  unfold handleIngestMetrics. orderly_steps.
  eapply orderly_commit_now; [apply produces_metrics_tx|apply sealed_metrics_tx| |].
  - intros e. orderly_steps.
  - intros [dup ch]. eexists. split; [reflexivity|]. orderly_steps.
Qed.

Lemma orderly_events src req : orderly (handleIngestEvents src req).
Proof.
  unfold handleIngestEvents. orderly_steps.
  eapply (orderly_commit_now _ (λ r, r.2.2)); [apply produces_events_tx|apply sealed_events_tx| |].
  - intros e. orderly_steps.
  - intros [tr [[last acc] ch]]. eexists. split; [reflexivity|]. orderly_steps.
Qed.

(** ** Management *)

Lemma produces_sources ch (f : db → list sourceRow) : produces ch (tx_exec (λ d, set_d_sources (f d) d)) (λ _, ch).
Proof. by apply produces_exec. Qed.

Lemma produces_create src : produces [] (create_tx src) (λ ch, ch).
Proof.
  apply produces_step; [|intros _; apply produces_sourceChange].
  intros w d a w' Hd H. apply (tx_insert_Ok _ _ _ _ _ Hd) in H as (d' & Hf & Hd' & _).
  destruct (tbl_insert src (d_sources d)) as [l|]; [|done]. injection Hf as <-. exists (set_d_sources l d), [].
  split; [done|]. split; [done|]. by apply (harmless_effect (set_d_sources l)).
Qed.

Lemma sealed_create src : sealed (create_tx src).
Proof. intros d0 b0. unfold create_tx. pres. Qed.

Lemma produces_edit id only edit cols :
  (∀ s, produces [] (edit s) (λ _, [])) → produces [] (edit_source id only edit cols) fst.
Proof.
  intros He. apply produces_step; [apply produces_row|intros s]. case_decide; [apply produces_throw|].
  destruct (negb _); [apply produces_throw|]. apply produces_step; [apply He|intros s'].
  apply produces_step; [apply produces_sources|intros _].
  eapply produces_bind; [apply produces_sourceChange|intros ch]. by apply produces_ret.
Qed.

Lemma produces_stamp ch (f : Z → sourceRow) : produces ch (now ← nowUTC; mret (f now)) (λ _, ch).
Proof. apply produces_step; [apply produces_now|intros now]. by apply produces_ret. Qed.

Lemma produces_patch url_parse id req : produces [] (patch_tx url_parse id req) fst.
Proof.
  unfold patch_tx. eapply produces_bind; [apply produces_edit|intros r].
  - intros s. destruct (patch_source _ _ _); [apply produces_throw|apply produces_stamp].
  - apply produces_step; [apply produces_heartbeat|intros hb]. apply produces_step; [apply produces_now|intros t].
    by apply produces_ret.
Qed.

Lemma produces_delete id : produces [] (delete_tx id) (λ ch, ch).
Proof.
  apply produces_step; [apply produces_row|intros s]. case_decide; [apply produces_throw|].
  apply produces_step; [apply produces_now|intros now]. apply produces_step; [apply produces_sources|intros _].
  eapply produces_bind; [apply produces_change|intros e]. by apply produces_ret.
Qed.

Lemma sealed_delete id : sealed (delete_tx id).
Proof. intros d0 b0. unfold delete_tx, insertTombstone. pres. Qed.

Lemma orderly_sources : orderly handleSources.
Proof. unfold handleSources. orderly_steps. Qed.
Lemma orderly_source_get id : orderly (handleSourceGet id).
Proof. unfold handleSourceGet. orderly_steps. Qed.

Lemma orderly_create url_parse cfg req : orderly (handleSourceCreate url_parse cfg req).
Proof.
  unfold handleSourceCreate. cbv zeta. orderly_steps.
  all: eapply orderly_commit_now; [apply produces_create|apply sealed_create| |];
    [intros e; orderly_steps|intros ch; eexists; split; [reflexivity|]; orderly_steps].
Qed.

Lemma orderly_patch url_parse id req : orderly (handleSourcePatch url_parse id req).
Proof.
  unfold handleSourcePatch. eapply orderly_commit_now; [apply produces_patch|apply sealed_patch| |].
  - intros e. orderly_steps.
  - intros [ch out]. eexists. split; [reflexivity|]. orderly_steps.
Qed.

Lemma orderly_rotate url_parse cfg id : orderly (handleSourceRotateKey url_parse cfg id).
Proof.
  unfold handleSourceRotateKey. orderly_steps.
  eapply (orderly_commit_now _ fst); [apply produces_edit; intros; apply produces_stamp|apply sealed_edit; intros s d0 b0; pres| |].
  - intros e. orderly_steps.
  - intros [ch out]. eexists. split; [reflexivity|]. orderly_steps.
Qed.

Lemma orderly_rotate_mgmt id : orderly (handleSourceRotateMgmtKey id).
Proof.
  unfold handleSourceRotateMgmtKey. orderly_steps.
  eapply (orderly_commit_now _ fst); [apply produces_edit; intros; apply produces_stamp|apply sealed_edit; intros s d0 b0; pres| |].
  - intros e. orderly_steps.
  - intros [ch out]. eexists. split; [reflexivity|]. orderly_steps.
Qed.

Lemma orderly_delete id : orderly (handleSourceDelete id).
Proof.
  unfold handleSourceDelete. eapply orderly_commit_now; [apply produces_delete|apply sealed_delete| |].
  - intros e. orderly_steps.
  - intros ch. eexists. split; [reflexivity|]. orderly_steps.
Qed.

(** ** Documents *)

Lemma ensured_effect {D} `{V : !Versioned D} `{L : !VersionedLaws (D := D)} d : tx_effect d (ensured (D := D) d) [].
Proof.
  destruct (vl_log (D := D) (Some (on_record d)) d) as [Hc Hm].
  apply (quiet_effect (ensured (D := D))); [exact Hc|unfold change_seq, ensured; by rewrite Hm|apply vl_ok].
Qed.

Lemma still_answer_put {D} `{V : !Versioned D} (r : outcome herr (list changeEntry * D)) w :
  w_tx (answer_put r w).2 = w_tx w.
Proof. by destruct r as [[ch out]|[]]. Qed.

Lemma orderly_put {D} `{V : !Versioned D} `{L : !VersionedLaws (D := D)} expected (bump : D → D) :
  orderly (put_doc expected bump).
Proof.
  intros w Hw. split.
  - unfold put_doc. set (fn := (doc ← before_tx _; _)). pose proof (withTx_closed fn w Hw) as Hc.
    unfold mbind, stM_bind, st_try. destruct (withTx fn w) as [r w1]. cbn in Hc. by rewrite still_answer_put.
  - pose proof (put_doc_spec expected bump w) as H. destruct (put_doc expected bump w) as [[[st [doc|msg v]|st c msg]|e] w']; [| | |done].
    + destruct H as (_ & _ & -> & t & Hd & Hb). cbn [snd].
      set (doc := bump (on_record (w_db w))) in *. exists [logged vd_type vd_type (vd_data doc) t (w_db w)].
      destruct (vl_log (D := D) (Some doc) (w_db w)) as [Hc Hm].
      rewrite Hd. split; [|split; [exact Hb|intros; by apply log_change_ok, vl_ok]].
      eapply log_grows_same_l; [exact Hc|unfold change_seq; by rewrite Hm|].
      unfold logged. assert (change_seq (w_db w) = change_seq (vd_set (Some doc) (w_db w))) as -> by (unfold change_seq; by rewrite Hm).
      apply log_change_grows.
    + destruct H as (_ & _ & _ & Hb & Hd). apply effect_delivered; [|done]. cbn [snd]. rewrite Hd. apply ensured_effect.
    + destruct H as (_ & Hb & [Hd|Hd]); (apply effect_delivered; [|done]); cbn [snd]; rewrite Hd; [apply tx_effect_refl|apply ensured_effect].
Qed.

Lemma orderly_rules_get : orderly handleRulesGet.
Proof. unfold handleRulesGet, get_doc, vd_load. cbn. orderly_steps. Qed.
Lemma orderly_settings_get : orderly handleSettingsGet.
Proof. unfold handleSettingsGet, get_doc, vd_load. cbn. orderly_steps. Qed.
Lemma orderly_rules_put req : orderly (handleRulesPut req).
Proof. unfold handleRulesPut. orderly_steps. apply orderly_put. Qed.
Lemma orderly_settings_patch req : orderly (handleSettingsPatch req).
Proof. unfold handleSettingsPatch. orderly_steps. apply orderly_put. Qed.

(** ** The loops *)

Lemma orderly_check now hb src : orderly (check_source now hb src).
Proof.
  unfold check_source, faultOpen. orderly_steps.
  eapply orderly_commit; [apply produces_heartbeat_tx|apply sealed_heartbeat_tx| |].
  - intros e. orderly_steps.
  - intros ch. exists (pauseSource (s_ID src)), (mret ()). split; [done|]. split; [done|]. split; [done|]. orderly_steps.
Qed.

Lemma orderly_heartbeats now : orderly (checkHeartbeats now).
Proof. pose proof orderly_check. unfold checkHeartbeats. orderly_steps. Qed.

Lemma orderly_rollup now : orderly (rollup_tick now).
Proof.
  unfold rollup_tick. apply orderly_bind; [|intros; orderly_steps]. apply orderly_try. intros w Hw.
  split; [by apply withTx_closed|]. pose proof (rollup_spec now w) as H. destruct (runRollup now w) as [[u|e] w'].
  - destruct H as (Hb & t & Hd & _). apply effect_delivered; [|done]. cbn [snd]. rewrite Hd.
    by apply (harmless_effect (set_d_5m t)).
  - by apply untouched_delivered.
Qed.

(** A retention run, which shortens the log after it has announced what it removed. *)
Lemma retention_tick_log cfg now w :
  w_tx w = None → db_ok (w_db w) →
  let w' := (retention_tick cfg now w).2 in
  w_tx w' = None ∧ db_ok (w_db w') ∧ ∃ rows,
    ch_seq <$> rows = seqZ (change_seq (w_db w) + 1) (Z.of_nat (length rows)) ∧
    change_seq (w_db w') = change_seq (w_db w) + Z.of_nat (length rows) ∧
    d_changes (w_db w') `sublist_of` d_changes (w_db w) ++ rows ∧
    w_broker w' = foldl (λ b e, Publish e b) (w_broker w) (entry_of <$> rows).
Proof.
  intros Hw Hok w'.
  assert (w' = (runRetention cfg now w).2) as Hw' by (unfold w', retention_tick, mbind, stM_bind, st_try; by destruct (runRetention cfg now w)).
  assert (w_tx w' = None) as Htx.
  { rewrite Hw'. unfold runRetention, mbind, stM_bind. pose proof (withTx_closed (retention_tx cfg now) w Hw) as Hc.
    by destruct (withTx _ w) as [[ch|e] w1]. }
  split; [done|]. destruct (runRetention cfg now w) as [[u|e] w1] eqn:E; cbn in Hw'; subst w'; rewrite Hw' in *.
  - destruct (runRetention_Ok _ _ _ _ _ Hok E) as (rows & d1 & fl & ms & Hp & Hfl & D & Hms & Hd & Hb).
    destruct (removal_ok _ _ _ _ _ _ _ _ _ (purge_ok _ _ _ _ Hok) Hp Hfl D Hms Hd) as (H3 & _). split; [done|].
    destruct (dr_log _ _ _ _ _ D) as (Hc & Hl & Hq). exists rows. split_and!; [exact Hl|by rewrite Hd|rewrite Hd; cbn|exact Hb].
    cbn in Hc. rewrite Hc. destruct (window_filter cfg now (d_changes (w_db w) ++ rows)) as (P & HP & ->). apply sublist_filter.
  - assert (untouched w w1) as [Hd Hb].
    { unfold runRetention, mbind, stM_bind in E. destruct (withTx _ _) as [[ch|e'] w2] eqn:Et; [done|].
      injection E as -> ->. by eapply withTx_failed; [apply sealed_retention|]. }
    rewrite Hd, Hb. split; [done|]. exists []. rewrite app_nil_r. split_and!; try done. cbn. lia.
Qed.

(** A retention run removes an event only once it is older than the keeping period. *)
Lemma retention_tick_events cfg now w r :
  w_tx w = None → db_ok (w_db w) → r ∈ d_events (w_db w) →
  r ∈ d_events (w_db (retention_tick cfg now w).2) ∨
  str_lt (e_received_at r) (fmtTS (days_before now (cfg_messagesDays cfg))).
Proof.
  intros Hw Hok Hr.
  assert ((retention_tick cfg now w).2 = (runRetention cfg now w).2) as ->
    by (unfold retention_tick, mbind, stM_bind, st_try; by destruct (runRetention cfg now w)).
  destruct (runRetention cfg now w) as [[u|e] w1] eqn:E; cbn [snd].
  - destruct (runRetention_Ok _ _ _ _ _ Hok E) as (rows & d1 & fl & ms & _ & _ & D & _ & Hd & _).
    assert (d_events (w_db w1) = d_events d1) as -> by (by rewrite Hd). rewrite (dr_events _ _ _ _ _ D).
    destruct (decide (str_lt (e_received_at r) (fmtTS (days_before now (cfg_messagesDays cfg))))) as [?|Hn]; [by right|left].
    apply list_elem_of_filter. by split.
  - left. assert (untouched w w1) as [-> _]; [|done].
    unfold runRetention, mbind, stM_bind in E. destruct (withTx _ _) as [[ch|e'] w2] eqn:Et; [done|].
    injection E as -> ->. by eapply withTx_failed; [apply sealed_retention|].
Qed.
End orderly_handlers.

(** ** The handlers answer *)

(** A call that always returns a value: whatever fails inside it becomes an answer. *)
Notation answers m := (errs (λ _, False) m).

Section answering_handlers.
Context `{HE : HubEnv} `{SS : SliceSort} `{SF : SqlFuns}.
Notation HM := (stM World herr).

Lemma answers_publish l : answers (publish l).
Proof. by intros w e w'. Qed.
#[local] Hint Resolve answers_publish : errsdb.

Lemma answers_interval : answers reportInterval.
Proof. unfold reportInterval. errs_steps. Qed.
Lemma answers_message_json m : answers (message_json m).
Proof. unfold message_json. errs_steps. Qed.
Lemma answers_fault_json f : answers (fault_json f).
Proof. unfold fault_json. errs_steps. Qed.
#[local] Hint Resolve answers_interval answers_message_json answers_fault_json : errsdb.

Lemma answers_marked {J} (r : outcome herr (list changeEntry * J)) : answers (answer_marked r).
Proof. unfold answer_marked. errs_steps. Qed.
Lemma answers_put {D} `{V : !Versioned D} expected (bump : D → D) : answers (put_doc expected bump).
Proof. unfold put_doc, answer_put. errs_steps. Qed.
#[local] Hint Resolve answers_marked answers_put : errsdb.
Lemma answers_get {D} `{V : !Versioned D} : answers (get_doc (D := D)).
Proof. unfold get_doc. errs_steps. Qed.

Lemma answers_refresh tok : answers (handleRefresh tok).
Proof. unfold handleRefresh, refresh_check, refresh_rotate. errs_steps. Qed.
Lemma answers_client {B} (next : session → HM (reply B)) auth : (∀ s, answers (next s)) → answers (requireClient next auth).
Proof. intros. unfold requireClient. errs_steps. Qed.
Lemma answers_source {B} (next : sourceRow → HM (reply B)) auth : (∀ s, answers (next s)) → answers (sourceKeyAuth next auth).
Proof. intros. unfold sourceKeyAuth. errs_steps. Qed.

Lemma answers_login bm cfg h addr l req : answers (handleLogin bm cfg h addr l req).
Proof. unfold handleLogin. errs_steps. Qed.
Lemma answers_metrics src req : answers (handleIngestMetrics src req).
Proof. unfold handleIngestMetrics. errs_steps. Qed.
Lemma answers_events src req : answers (handleIngestEvents src req).
Proof. unfold handleIngestEvents. cbv zeta. errs_steps. Qed.
Lemma answers_overview : answers handleOverview.
Proof. unfold handleOverview. errs_steps. Qed.
Lemma answers_sync s l : answers (handleSync s l).
Proof. unfold handleSync. errs_steps. Qed.
Lemma answers_messages f l c s : answers (handleMessages f l c s).
Proof. unfold handleMessages. cbv zeta. errs_steps. Qed.
Lemma answers_detail id : answers (handleMessageDetail id).
Proof. unfold handleMessageDetail. errs_steps. Qed.
Lemma answers_read id read : answers (setMessageRead id read).
Proof. unfold setMessageRead. errs_steps. Qed.
Lemma answers_read_all before : answers (handleMessagesReadAll before).
Proof. unfold handleMessagesReadAll. cbv zeta. errs_steps. Qed.
Lemma answers_flags id op : answers (updateFaultFlags id op).
Proof. unfold updateFaultFlags. errs_steps. Qed.
Lemma answers_faults s l c : answers (handleFaults s l c).
Proof. unfold handleFaults. cbv zeta. errs_steps. Qed.
Lemma answers_series s m l st f t : answers (handleMetricsSeries s m l st f t).
Proof. unfold handleMetricsSeries. cbv zeta. errs_steps. Qed.
Lemma answers_sources : answers handleSources.
Proof. unfold handleSources. errs_steps. Qed.
Lemma answers_source_get id : answers (handleSourceGet id).
Proof. unfold handleSourceGet. errs_steps. Qed.
Lemma answers_create up cfg req : answers (handleSourceCreate up cfg req).
Proof. unfold handleSourceCreate. cbv zeta. errs_steps. Qed.
Lemma answers_patch up id req : answers (handleSourcePatch up id req).
Proof. unfold handleSourcePatch. errs_steps. Qed.
Lemma answers_rotate up cfg id : answers (handleSourceRotateKey up cfg id).
Proof. unfold handleSourceRotateKey. errs_steps. Qed.
Lemma answers_rotate_mgmt id : answers (handleSourceRotateMgmtKey id).
Proof. unfold handleSourceRotateMgmtKey. errs_steps. Qed.
Lemma answers_delete id : answers (handleSourceDelete id).
Proof. unfold handleSourceDelete. errs_steps. Qed.
Lemma answers_rules_put req : answers (handleRulesPut req).
Proof. unfold handleRulesPut. errs_steps. Qed.
Lemma answers_settings_patch req : answers (handleSettingsPatch req).
Proof. unfold handleSettingsPatch. errs_steps. Qed.
Lemma answers_logout s : answers (handleLogout s).
Proof. unfold handleLogout. errs_steps. Qed.
End answering_handlers.

#[export] Hint Resolve orderly_refresh orderly_logout orderly_metrics orderly_events orderly_overview orderly_sync
  orderly_messages orderly_detail orderly_read orderly_read_all orderly_faults orderly_flags orderly_series orderly_sources
  orderly_create orderly_source_get orderly_patch orderly_rotate orderly_rotate_mgmt orderly_delete orderly_rules_get
  orderly_rules_put orderly_settings_get orderly_settings_patch : orderlydb.
#[export] Hint Resolve answers_refresh answers_logout answers_metrics answers_events answers_overview answers_sync
  answers_messages answers_detail answers_read answers_read_all answers_faults answers_flags answers_series answers_sources
  answers_create answers_source_get answers_patch answers_rotate answers_rotate_mgmt answers_delete answers_get
  answers_rules_put answers_settings_patch : errsdb.
