(* ===== verification/Lasting.v ===== *)
(** What the hub never forgets outside a retention run: the table of events only grows.  A
    calculus of [lasting] calls, in the manner of [orderly] ones: a transaction lasts when its
    body moves the tables so, a handler when its calls do. *)

From S2P Require Import Prelude GoBase GoTime HubTypes HubStore Fault Rules Ingest Retention Sse Handlers.
From S2P Require Import Stream Sync Messages Auth Admin Orderly Conduct.
Local Open Scope Z_scope.

(** The events on record stay, and new ones come after them. *)
Definition lasts (d d' : db) : Prop := d_events d `prefix_of` d_events d'.

#[export] Instance lasts_preorder : PreOrder lasts.
Proof. split; unfold lasts; [by intros d|]. intros x y z ??. by etransitivity. Qed.

Lemma lasts_same d d' : d_events d' = d_events d → lasts d d'.
Proof. unfold lasts. by intros ->. Qed.

Definition lasting `{HE : HubEnv} {A} (m : stM World herr A) : Prop :=
  ∀ w, w_tx w = None → w_tx (m w).2 = None ∧ lasts (w_db w) (w_db (m w).2).

Section lasting.
Context `{HE : HubEnv}.
Notation HM := (stM World herr).

Lemma lasting_still {A} (m : HM A) : still m → lasting m.
Proof. intros Hm w Ht. destruct (Hm w) as [Ht2 [Hd _]]. split; [by rewrite Ht2|by rewrite Hd]. Qed.
Lemma lasting_bind {A B} (m : HM A) (k : A → HM B) : lasting m → (∀ a, lasting (k a)) → lasting (m ≫= k).
Proof.
  intros Hm Hk w Hw. unfold mbind, stM_bind. destruct (Hm w Hw) as [Ht Hu]. destruct (m w) as [[a|e] w1]; [|done].
  cbn in Ht, Hu. destruct (Hk a w1 Ht) as [Ht2 Hu2]. split; [done|by etransitivity].
Qed.
Lemma lasting_try {A} (m : HM A) : lasting m → lasting (st_try m).
Proof. intros Hm w Hw. specialize (Hm w Hw). unfold st_try. by destruct (m w). Qed.
Lemma lasting_foldl {A B} (body : A → B → HM A) a xs : (∀ a x, lasting (body a x)) → lasting (st_foldl body a xs).
Proof.
  intros Hb. revert a. induction xs as [|x xs IH]; intros a; cbn; [apply lasting_still, still_ret|].
  apply lasting_bind; [apply Hb|]. intros. apply IH.
Qed.
Lemma lasting_publish l : lasting (publish l).
Proof. by intros w. Qed.
Lemma lasting_call {A} (f : db → outcome herr (A * db)) :
  (∀ d a d', f d = Ok (a, d') → lasts d d') → lasting (db_call f).
Proof.
  intros Hf w Hw. unfold db_call. destruct (h_io _); [by split|].
  destruct (f (w_db w)) as [[a d']|e] eqn:E; [|by split]. split; [exact Hw|by eapply Hf].
Qed.
Lemma lasting_write {A} (f : db → outcome herr (A * db)) :
  (∀ d a d', f d = Ok (a, d') → lasts d d') → lasting (db_write f).
Proof. intros Hf w Hw. unfold db_write. rewrite Hw. by apply lasting_call. Qed.
Lemma lasting_exec f : (∀ d, lasts d (f d)) → lasting (db_exec f).
Proof. intros Hf w Hw. unfold db_exec. rewrite Hw. apply lasting_call; [|done]. by intros d a d' [= _ <-]. Qed.

(** A transaction that fails leaves the tables, one that commits has moved them. *)
Lemma lasting_tx {A} (fn : HM A) : sealed fn → moves lasts fn → lasting (withTx fn).
Proof.
  intros Hs Hm w Hw. pose proof (withTx_closed fn w Hw) as Ht. destruct (withTx fn w) as [[a|e] w1] eqn:E; (split; [exact Ht|]); cbn.
  - apply withTx_Ok in E as (w0 & w2 & d' & Ht0 & _ & Hf & Ht2 & -> & _).
    destruct (Hm _ _ _ _ Ht0 Hf) as (d2 & E2 & H). rewrite Ht2 in E2. by injection E2 as <-.
  - apply withTx_Err in E as [-> _]; done.
Qed.

Lemma lasting_loadRules : lasting loadRules.
Proof.
  apply lasting_bind; [apply lasting_still, still_query|intros [doc|]; [apply lasting_still, still_ret|]].
  apply lasting_bind; [apply lasting_exec; intros d; by apply lasts_same|intros; apply lasting_still, still_ret].
Qed.
Lemma lasting_loadSettings : lasting loadSettings.
Proof.
  apply lasting_bind; [apply lasting_still, still_query|intros [doc|]; [apply lasting_still, still_ret|]].
  apply lasting_bind; [apply lasting_exec; intros d; by apply lasts_same|intros; apply lasting_still, still_ret].
Qed.

(** ** Inside a transaction *)

Lemma moves_insert R (f : db → option db) : (∀ d d', f d = Some d' → R d d') → moves R (tx_insert f).
Proof. intros Hf w d a w' Hd H. apply (tx_insert_Ok _ _ _ _ _ Hd) in H as (d' & E & Hd' & _). eauto. Qed.
Lemma moves_throw {A} R e : moves R (st_throw (A := A) e).
Proof. by intros w d a w' Hd H. Qed.
Lemma moves_still {A} R `{!PreOrder R} (m : HM A) : still m → moves R m.
Proof. intros Hm. apply moves_quiet; [done|]. intros w. apply Hm. Qed.

Lemma lasts_apply src ev internal ooo ch : moves lasts (applyEventTx src ev internal ooo ch).
Proof.
  intros w d a w' Hd H. apply (applyEventTx_Ok _ _ _ _ _ _ _ _ _ Hd) in H as (d' & new & Hd' & _ & _ & Ha).
  exists d'. split; [done|]. destruct Ha as (_ & _ & now & _ & _ & _ & _ & _ & _ & _ & Hev & _).
  unfold lasts. rewrite Hev. by apply prefix_app_r.
Qed.
Lemma lasts_emit src kind sev fk act title body at_ ch : moves lasts (emitHubEventTx src kind sev fk act title body at_ ch).
Proof.
  unfold emitHubEventTx, nextHubSeqTx. moves_steps; [| |apply lasts_apply];
    apply moves_exec; intros d; apply lasts_same; by case_match.
Qed.
Lemma lasts_changeObj typ ref obj n : moves lasts (insertChangeObj typ ref obj n).
Proof. intros w d a w' Hd H. apply (insertChangeObj_Ok _ _ _ _ _ _ _ _ Hd) in H as (t & Hd' & _). eexists. split; [exact Hd'|by apply lasts_same]. Qed.
Lemma lasts_change typ ref data n : moves lasts (insertChange typ ref data n).
Proof. intros w d a w' Hd H. apply (insertChange_Ok _ _ _ _ _ _ _ _ Hd) in H as (t & Hd' & _). eexists. split; [exact Hd'|by apply lasts_same]. Qed.
Lemma lasts_sourceChange src ch : moves lasts (emitSourceChangeTx src ch).
Proof. intros w d a w' Hd H. apply (emitSourceChangeTx_Ok _ _ _ _ _ _ Hd) in H as (sj & now & Hd' & _). eexists. split; [exact Hd'|by apply lasts_same]. Qed.
End lasting.

#[local] Hint Resolve lasts_apply lasts_emit lasts_changeObj lasts_change lasts_sourceChange lasting_loadRules
  lasting_loadSettings lasting_publish : core.

(** [moved] proves that the body of a transaction keeps the events. *)
Ltac moved := repeat first [ progress moves_steps | match goal with
  | |- moves lasts (tx_exec _) => apply moves_exec; intros ?; by apply lasts_same
  | |- moves lasts (tx_insert _) => apply moves_insert; intros ??; destruct (tbl_insert _ _); [|done]; intros [= <-]; by apply lasts_same
  | |- moves _ (st_throw _) => apply moves_throw
  | |- moves _ (sourceName _) => apply moves_still; [apply _|apply still_name]
  | |- moves _ heartbeatSeconds => apply moves_still; [apply _|apply still_heartbeat]
  end ].

(** [last_steps] does so for a handler, and stops at a transaction. *)
Ltac last_steps := repeat match goal with
  | |- lasting (mbind _ _) => apply lasting_bind; [|intros ?]
  | |- lasting (st_foldl _ _ _) => apply lasting_foldl; intros ??
  | |- lasting (st_try _) => apply lasting_try
  | |- lasting (withTx _) => apply lasting_tx; [eauto with presdb| ]
  | |- lasting (if ?b then _ else _) => destruct b
  | |- lasting (match ?x with _ => _ end) => destruct x
  | |- lasting (mret _) => apply lasting_still, still_ret
  | |- _ => progress eauto
  | |- lasting _ => apply lasting_still; solve [still_steps]
  end.

Section lasting_handlers.
Context `{HE : HubEnv} `{SS : SliceSort} `{SF : SqlFuns}.
Notation HM := (stM World herr).

(** ** Ingest *)

Lemma lasts_touch cur at_ ch : moves lasts (touchSourceSeenTx cur at_ ch).
Proof. unfold touchSourceSeenTx. moved. Qed.
#[local] Hint Resolve lasts_touch : core.

Lemma lasts_metrics_tx id req s at_ : moves lasts (metrics_tx id req s at_).
Proof.
  assert (∀ src doc s at_ ch, moves lasts (evalSample src doc s at_ ch)) as He
    by (intros; apply moves_evalSample; [apply _|auto]).
  unfold metrics_tx, insertRawMetrics, note_boot. moved.
Qed.

Lemma lasts_events_tx id evs at_ : moves lasts (events_tx id evs at_).
Proof. unfold events_tx, triage_step, apply_item, validateEvent. moved. Qed.

Lemma lasting_metrics src req : lasting (handleIngestMetrics src req).
Proof. unfold handleIngestMetrics. last_steps; [apply sealed_metrics_tx|apply lasts_metrics_tx]. Qed.
Lemma lasting_events src req : lasting (handleIngestEvents src req).
Proof. unfold handleIngestEvents. last_steps; [apply sealed_events_tx|apply lasts_events_tx]. Qed.

(** ** Messages and faults *)

Lemma lasts_message_json m : moves lasts (message_json m).
Proof. unfold message_json. moved. Qed.
Lemma lasts_fault_json f : moves lasts (fault_json f).
Proof. unfold fault_json. moved. Qed.
#[local] Hint Resolve lasts_message_json lasts_fault_json : core.
Lemma lasts_store_read m : moves lasts (store_read m).
Proof. unfold store_read. moved. Qed.
#[local] Hint Resolve lasts_store_read : core.

Lemma lasting_read id read : lasting (setMessageRead id read).
Proof. unfold setMessageRead, answer_marked. last_steps; [apply sealed_read_tx|]. unfold read_tx, loadMessageTx. moved. Qed.
Lemma lasting_flags id op : lasting (updateFaultFlags id op).
Proof. unfold updateFaultFlags, answer_marked. last_steps; [apply sealed_flags_tx|]. unfold flags_tx. moved. Qed.
Lemma lasting_read_all before : lasting (handleMessagesReadAll before).
Proof.
  unfold handleMessagesReadAll. cbv zeta. last_steps; try apply sealed_read_all;
    unfold read_all_tx, read_one, loadMessageTx; moved.
Qed.

(** ** Management *)

Lemma lasts_edit id only edit cols : (∀ s, moves lasts (edit s)) → moves lasts (edit_source id only edit cols).
Proof. intros. unfold edit_source. moved. Qed.

Lemma lasting_create up cfg req : lasting (handleSourceCreate up cfg req).
Proof. unfold handleSourceCreate. cbv zeta. last_steps; try apply sealed_create; unfold create_tx; moved. Qed.
Lemma lasting_patch up id req : lasting (handleSourcePatch up id req).
Proof.
  unfold handleSourcePatch. last_steps; [apply sealed_patch|]. unfold patch_tx.
  assert (∀ only edit cols, (∀ s, moves lasts (edit s)) → moves lasts (edit_source id only edit cols)) by (intros; by apply lasts_edit).
  moved. apply H. intros s. moved.
Qed.
Lemma lasting_rotate up cfg id : lasting (handleSourceRotateKey up cfg id).
Proof.
  unfold handleSourceRotateKey. last_steps; [apply sealed_edit; intros s d0 b0; pres|]. apply lasts_edit. intros s. moved.
Qed.
Lemma lasting_rotate_mgmt id : lasting (handleSourceRotateMgmtKey id).
Proof.
  unfold handleSourceRotateMgmtKey. last_steps; [apply sealed_edit; intros s d0 b0; pres|]. apply lasts_edit. intros s. moved.
Qed.
Lemma lasting_delete id : lasting (handleSourceDelete id).
Proof. unfold handleSourceDelete. last_steps; [apply sealed_delete|]. unfold delete_tx, insertTombstone. moved. Qed.

Lemma lasting_put {D} `{V : !Versioned D} `{L : !VersionedLaws (D := D)} expected (bump : D → D) :
  lasting (put_doc expected bump).
Proof.
  intros w Hw. split; [by apply orderly_put|].
  assert (lasts (w_db w) (ensured (D := D) (w_db w))) as He by (apply lasts_same, vl_events).
  pose proof (put_doc_spec expected bump w) as H. destruct (put_doc expected bump w) as [[[st [doc|msg v]|st c msg]|e] w']; [| | |done].
  - destruct H as (_ & _ & -> & t & Hd & _). cbn [snd]. rewrite Hd. apply lasts_same. cbn. by rewrite vl_events.
  - destruct H as (_ & _ & _ & _ & Hd). cbn [snd]. by rewrite Hd.
  - destruct H as (_ & _ & [Hd|Hd]); cbn [snd]; by rewrite Hd.
Qed.
Lemma lasting_rules_put req : lasting (handleRulesPut req).
Proof. unfold handleRulesPut. last_steps. apply lasting_put. Qed.
Lemma lasting_settings_patch req : lasting (handleSettingsPatch req).
Proof. unfold handleSettingsPatch. last_steps. apply lasting_put. Qed.
Lemma lasting_rules_get : lasting handleRulesGet.
Proof. unfold handleRulesGet, get_doc, vd_load. cbn. last_steps. Qed.
Lemma lasting_settings_get : lasting handleSettingsGet.
Proof. unfold handleSettingsGet, get_doc, vd_load. cbn. last_steps. Qed.

(** ** Sessions *)

Lemma lasting_issue user label : lasting (issueSession user label).
Proof.
  unfold issueSession. last_steps. apply lasting_write. intros d u d'.
  destruct (tbl_insert _ _); [|done]. intros [= _ <-]. by apply lasts_same.
Qed.
Lemma lasting_login bm cfg h addr l req : lasting (handleLogin bm cfg h addr l req).
Proof. pose proof lasting_issue. unfold handleLogin. last_steps. Qed.
Lemma lasting_refresh tok : lasting (handleRefresh tok).
Proof.
  assert (lasting (refresh_check tok)) as Hc.
  { unfold refresh_check. last_steps. apply lasting_still, still_read. intros d u d'. destruct (refresh_session tok d); [|done].
    by intros [= _ <-]. }
  unfold handleRefresh, refresh_rotate. last_steps. apply lasting_write. intros d n d' [= _ <-]. by apply lasts_same.
Qed.
Lemma lasting_client {B} (next : session → HM (reply B)) auth : (∀ s, lasting (next s)) → lasting (requireClient next auth).
Proof. pose proof (still_session auth). intros. unfold requireClient. last_steps. Qed.
Lemma lasting_source {B} (next : sourceRow → HM (reply B)) auth : (∀ s, lasting (next s)) → lasting (sourceKeyAuth next auth).
Proof. intros. unfold sourceKeyAuth. last_steps. Qed.
Lemma lasting_logout s : lasting (handleLogout s).
Proof. unfold handleLogout. last_steps. apply lasting_write. intros d u d' [= _ <-]. by apply lasts_same. Qed.

(** ** Reading *)

#[local] Hint Resolve still_message_json still_fault_json still_cut : orderlydb.
Lemma lasting_overview : lasting handleOverview.
Proof. unfold handleOverview. last_steps. Qed.
Lemma lasting_messages f l c s : lasting (handleMessages f l c s).
Proof. unfold handleMessages, messagesPage. last_steps. Qed.
Lemma lasting_detail id : lasting (handleMessageDetail id).
Proof. unfold handleMessageDetail, loadMessage, loadFault. last_steps. Qed.
Lemma lasting_faults s l c : lasting (handleFaults s l c).
Proof. unfold handleFaults, faultsPage. cbv zeta. last_steps. Qed.
Lemma lasting_series s m l st f t : lasting (handleMetricsSeries s m l st f t).
Proof. unfold handleMetricsSeries, series_rows. cbv zeta. last_steps. Qed.
Lemma lasting_sync s l : lasting (handleSync s l).
Proof. unfold handleSync, syncPage, sync_rows, sync_answer, maxChangeSeq. last_steps. Qed.
Lemma lasting_sources : lasting handleSources.
Proof. unfold handleSources. last_steps. Qed.
Lemma lasting_source_get id : lasting (handleSourceGet id).
Proof. unfold handleSourceGet. last_steps. Qed.

(** ** The loops *)

Lemma lasting_heartbeats now : lasting (checkHeartbeats now).
Proof.
  unfold checkHeartbeats, check_source, faultOpen, pauseSource. last_steps; [unfold heartbeat_tx; moved|by intros w].
Qed.
Lemma lasting_rollup now : lasting (rollup_tick now).
Proof.
  unfold rollup_tick, runRollup. cbv zeta. last_steps. apply moves_insert. intros d d' H.
  destruct (roll_up _ _ _); [|done]. injection H as <-. by apply lasts_same.
Qed.
End lasting_handlers.

#[export] Hint Resolve lasting_metrics lasting_events lasting_read lasting_flags lasting_read_all lasting_create lasting_patch
  lasting_rotate lasting_rotate_mgmt lasting_delete lasting_rules_put lasting_settings_patch lasting_logout lasting_rules_get
  lasting_settings_get lasting_refresh lasting_overview lasting_messages lasting_detail lasting_faults lasting_series
  lasting_sync lasting_sources lasting_source_get : orderlydb.
