(* ===== verification/Clock.v ===== *)
(** Which reading of the clock refused an event: the hub's clock counter only advances, so a
    refusal in an answer of handleIngestEvents goes back to a reading made while that very
    request was handled. *)

From S2P Require Import Prelude GoBase GoTime HubTypes HubStore Fault Ingest Auth.
Local Open Scope Z_scope.

Section clock.
Context `{HE : HubEnv} `{SS : SliceSort}.
Notation HM := (stM World herr).

(** ** The counter only advances *)

Definition since_tick (n : nat) (w : World) : Prop := (n <= w_ticks w)%nat.
Notation advances m := (∀ n, preserves (E:=herr) (since_tick n) m).

Lemma adv_tx_call {A} (f : db → outcome herr (A * db)) : advances (tx_call f).
Proof. intros n w H. unfold tx_call. destruct (w_tx w); [|exact H]. destruct (h_io _); [exact H|]. by destruct (f _) as [[]|]. Qed.
Lemma adv_db_call {A} (f : db → outcome herr (A * db)) : advances (db_call f).
Proof. intros n w H. unfold db_call. destruct (h_io _); [exact H|]. by destruct (f _) as [[]|]. Qed.
Lemma adv_query {A} (f : db → A) : advances (tx_query f).
Proof. apply adv_tx_call. Qed.
Lemma adv_exec f : advances (tx_exec f).
Proof. apply adv_tx_call. Qed.
Lemma adv_insert f : advances (tx_insert f).
Proof. apply adv_tx_call. Qed.
Lemma adv_row {A} (f : db → option A) : advances (tx_row f).
Proof. apply adv_tx_call. Qed.
Lemma adv_db_row {A} (f : db → option A) : advances (db_row f).
Proof. apply adv_db_call. Qed.
Lemma adv_now : advances nowUTC.
Proof. intros n w H. unfold since_tick in *. cbn. lia. Qed.
Lemma adv_id p : advances (newID p).
Proof. by intros n w H. Qed.
Lemma adv_publish l : advances (publish l).
Proof. by intros n w H. Qed.
#[local] Hint Resolve adv_tx_call adv_query adv_exec adv_insert adv_row adv_db_row adv_now adv_id adv_publish : presdb.

Lemma adv_withTx {A} (fn : HM A) : advances fn → advances (withTx fn).
Proof.
  intros Hf n w H. unfold withTx. destruct (h_io _); [exact H|]. set (w0 := wset_tx _ _).
  specialize (Hf n w0 H). destruct (fn w0) as [[a|e] w1]; [|exact Hf]. cbv zeta. destruct (h_io _); [exact Hf|].
  by destruct (w_tx w1).
Qed.

Lemma adv_validate ev : advances (validateEvent ev).
Proof. intros n. unfold validateEvent. pres. Qed.
Lemma adv_triage s tr iev : advances (triage_step s tr iev).
Proof. intros n. unfold triage_step. destruct iev. pres; apply adv_validate. Qed.
Lemma adv_apply src ev internal ooo ch : advances (applyEventTx src ev internal ooo ch).
Proof.
  intros n. unfold applyEventTx, record_message, store_fault, attach_messages, fault_transition, newFaultRow, loadFaultTx,
    findPendingResolve, upsertFaultTx, insertChangeObj, nextChangeSeq, insert_change_row. pres.
Qed.
Lemma adv_touch src at_ ch : advances (touchSourceSeenTx src at_ ch).
Proof.
  intros n. unfold touchSourceSeenTx, emitHubEventTx, nextHubSeqTx, loadFaultTx. pres. apply adv_apply.
Qed.

(** ** The reason of a refusal *)

(** An event is not among the valid ones and no duplicate: a validation between two readings
    of the counter refused it, and its message is in the answer. *)
Definition refused (lo hi : nat) (ev : eventPayload) (rejected : list rej) : Prop :=
  ∃ w0 msg w1, validateEvent ev w0 = (Ok msg, w1) ∧ (lo <= w_ticks w0)%nat ∧ (w_ticks w1 <= hi)%nat ∧
    msg ≠ EmptyString ∧ (ep_EventID ev, "invalid_request"%string, msg) ∈ rejected.

Definition sorted_out (lo hi : nat) (tr : triage) (it : nat * eventPayload) : Prop :=
  it ∈ tr_valid tr ∨ it.1 ∈ tr_dups tr ∨ refused lo hi it.2 (tr_rejected tr).

(** A later triage knows no less. *)
Definition triage_grows (tr tr' : triage) : Prop :=
  tr_valid tr ⊆ tr_valid tr' ∧ tr_dups tr ⊆ tr_dups tr' ∧ tr_rejected tr ⊆ tr_rejected tr'.

Lemma sorted_out_grows lo hi hi' tr tr' it :
  (hi <= hi')%nat → triage_grows tr tr' → sorted_out lo hi tr it → sorted_out lo hi' tr' it.
Proof.
  intros Hhi (H1 & H2 & H3) [H|[H|(w0 & msg & w1 & Hv & Hlo & Hh & Hne & Hin)]]; [left; auto|right; left; set_solver|].
  right. right. exists w0, msg, w1. split_and!; [done|done|lia|done|by apply H3].
Qed.

Lemma triage_step_sorts s tr it w tr' w' lo :
  (lo <= w_ticks w)%nat → triage_step s tr it w = (Ok tr', w') →
  triage_grows tr tr' ∧ sorted_out lo (w_ticks w') tr' it.
Proof.
  intros Hlo H. pose proof (adv_triage s tr it) as Hadv. destruct it as [i ev]. unfold triage_step in H. mrun H.
  assert (∀ a w2, validateEvent ev w = (Ok a, w2) → (w_ticks w2 <= w_ticks w')%nat → a ≠ EmptyString →
    refused lo (w_ticks w') ev (tr_rejected tr ++ [(ep_EventID ev, "invalid_request"%string, a)])) as Href.
  { intros a0 w2 Hv Hle Hne. exists w, a0, w2. split_and!; [done..|]. apply elem_of_app. right. by apply list_elem_of_singleton. }
  case_decide as Hm.
  - injection H as <- <-. split; [split_and!; cbn; set_solver|]. right. right. cbn. by eapply Href.
  - case_decide as Hseen; [injection H as <- <-; split; [split_and!; cbn; set_solver|right; left; cbn; set_solver]|].
    mrun H. case_match; injection H as <- <-; (split; [split_and!; cbn; set_solver|]);
      [right; left; cbn; set_solver|left; cbn; set_solver].
Qed.

Lemma triage_sorts s l tr w tr' w' lo :
  (lo <= w_ticks w)%nat → st_foldl (triage_step s) tr l w = (Ok tr', w') →
  triage_grows tr tr' ∧ ∀ it, it ∈ l → sorted_out lo (w_ticks w') tr' it.
Proof.
  revert tr w. induction l as [|it l IH]; intros tr w Hlo H; cbn in H.
  - injection H as <- <-. split; [by split_and!|]. by intros it ?%elem_of_nil.
  - mrun H. destruct (triage_step_sorts _ _ _ _ _ _ _ Hlo Hrun) as [Hg Hs].
    assert (lo <= w_ticks s0)%nat as Hlo1 by (pose proof (adv_triage s tr it lo w Hlo) as Ha; by rewrite Hrun in Ha).
    destruct (IH _ _ Hlo1 H) as [Hg2 Hs2]. split.
    + destruct Hg as (? & ? & ?), Hg2 as (? & ? & ?). split_and!; by etransitivity.
    + intros it' [->|Hin]%elem_of_cons; [|by apply Hs2]. eapply sorted_out_grows; [|exact Hg2|exact Hs].
      pose proof (preserves_foldl (since_tick (w_ticks s0)) (triage_step s) (λ tr it, adv_triage s tr it _) l a s0
        (Nat.le_refl _)) as Ha. by rewrite H in Ha.
Qed.

(** The counter between the two ends of a call. *)
Lemma adv_ticks {A} (m : HM A) w r w' : advances m → m w = (r, w') → (w_ticks w <= w_ticks w')%nat.
Proof. intros Hm E. pose proof (Hm (w_ticks w) w (Nat.le_refl _)) as H. by rewrite E in H. Qed.

Lemma adv_foldl {A B} (body : A → B → HM A) a l : (∀ a x, advances (body a x)) → advances (st_foldl body a l).
Proof. intros Hb n. apply preserves_foldl. intros. apply Hb. Qed.
Lemma adv_apply_item cur acc it : advances (apply_item cur acc it).
Proof. intros n. unfold apply_item. destruct acc as [[last accepted] ch], it. pres. apply adv_apply. Qed.
Lemma adv_sourceChange src ch : advances (emitSourceChangeTx src ch).
Proof. intros n. unfold emitSourceChangeTx, heartbeatSeconds, insertChangeObj, nextChangeSeq, insert_change_row. pres. Qed.

(** Every event of a batch that was applied is valid, a duplicate, or refused by a reading
    made meanwhile. *)
Lemma events_tx_sorts id evs at_ w tr last acc ch w' :
  events_tx id evs at_ w = (Ok (tr, (last, acc, ch)), w') →
  ∀ it, it ∈ imap pair evs → sorted_out (w_ticks w) (w_ticks w') tr it.
Proof.
  intros H it Hit. unfold events_tx in H. mrun H. apply adv_ticks in Hrun as T1; [|apply adv_row].
  mrun H. apply adv_ticks in Hrun0 as T2; [|apply adv_touch]. destruct a0 as [cur ch0].
  mrun H. assert (w_ticks w <= w_ticks s0)%nat as T0 by lia. destruct (triage_sorts _ _ _ _ _ _ _ T0 Hrun1) as [_ Hs].
  mrun H. apply adv_ticks in Hrun2 as T3; [|apply adv_foldl; intros; apply adv_apply_item]. destruct a1 as [[last1 acc1] ch1].
  mrun H. apply adv_ticks in Hrun3 as T4; [|apply adv_exec].
  mrun H. apply adv_ticks in Hrun4 as T5; [|apply adv_row].
  mrun H. apply adv_ticks in Hrun5 as T6; [|apply adv_sourceChange]. injection H as <- <- <- <- <-.
  eapply sorted_out_grows; [|by split_and!|exact (Hs _ Hit)]. lia.
Qed.

(** The transaction behind an acknowledged batch, with the counter at its ends. *)
Lemma events_reply_ticks src req w st b w' :
  handleIngestEvents src req w = (Ok (Reply st b), w') →
  st = 200 ∧ ∃ at_ w0 tr last acc ch w1, w_tx w0 = Some (w_db w) ∧
    events_tx (s_ID src) (ier_Events req) at_ w0 = (Ok (tr, (last, acc, ch)), w1) ∧ w_tx w1 = Some (w_db w') ∧
    vp_rejected b = tr_rejected tr ∧ (w_ticks w <= w_ticks w0)%nat ∧ (w_ticks w1 <= w_ticks w')%nat.
Proof.
  unfold handleIngestEvents. destruct (decide _); [done|]. intros H. mrun H. injection Hrun as <- <-.
  mrun H. unfold st_try in Hrun. destruct (withTx _ _) as [r w1] eqn:Etx. injection Hrun as -> ->.
  destruct a as [[tr [[last acc] ch]]|]; [|done]. unfold withTx in Etx. cbn [w_calls w_db wset_ticks] in Etx.
  destruct (h_io _); [done|]. destruct (events_tx _ _ _ _) as [[a|e] w2] eqn:Ef; [|done]. cbv zeta in Etx.
  destruct (h_io _); [done|]. destruct (w_tx w2) as [d|] eqn:Ed; [|done]. injection Etx as -> <-.
  mrun H. injection Hrun as <- <-. mrun H. injection Hrun as <- <-. injection H as <- <- <-.
  split; [done|]. eexists _, _, tr, last, acc, ch, w2.
  split; [|split; [exact Ef|split; [exact Ed|split; [done|cbn; lia]]]]. done.
Qed.

(** The key does not read the clock. *)
Lemma key_ticks {B} (h : sourceRow → HM (reply B)) auth :
  (∀ src, advances (h src)) → advances (sourceKeyAuth h auth).
Proof.
  intros Hh n. unfold sourceKeyAuth, loadSourceByKeyHash. pres.
Qed.
End clock.
