(* ===== verification/Hub.v ===== *)
(** The hub as a whole ([hub/api.go] routes, [hub/main.go]): the routes with what guards them,
    the background loops, and what holds of any run of them.

    A run takes its requests, the ticks of its loops and the turns of its open streams one after
    the other: a handler runs to its end before the next operation, a stream gets its turn
    between them.  What overlaps a handler is the subject of the handlers' own files, and of
    [Stream].  An answer is reduced to its status here. *)

From S2P Require Import Prelude GoBase GoTime HubTypes HubStore Fault Rules Ingest Retention Handlers Stream Messages Sync.
From S2P Require Import Sha256 Auth Orderly Regex Install Admin Conduct Lasting Release Proxy.
From Stdlib Require Import Ascii.
Local Open Scope Z_scope.

(** ** Configuration *)

(* @src hub/main.go 17-22 getenv *)
Definition getenv (env : string → string) (key def : string) : string :=
  let v := env key in if decide (v ≠ EmptyString) then v else def.

(* @src hub/main.go 26-44 !getenvInt *)
(** [getenvInt] and [getenvInt64]: [Atoi] and [ParseInt] with 64 bits agree. *)
Definition getenvInt (env : string → string) (key : string) (def : Z) : Z :=
  match atoi (env key) with Some n => if decide (0 < n) then n else def | None => def end.

(* @src hub/util.go 20-20 !hubVersion *)
Definition hubVersion : string := "1.2.0".

(* @src hub/main.go 48-69 loadConfig *)
(** [cacheDir] is the directory beside a database ([filepath.Join(filepath.Dir(p), "agent-cache")]). *)
Definition loadConfig (cacheDir : string → string) (env : string → string) : config :=
  let dbPath := getenv env "ASSIST_DB_PATH" "assistant-hub.db" in
  {| cfg_bind := getenv env "ASSIST_BIND" ":8795";
     cfg_dbPath := dbPath;
     cfg_adminUser := getenv env "ASSIST_ADMIN_USER" "admin";
     cfg_adminPassword := env "ASSIST_ADMIN_PASSWORD";
     cfg_baseURL := getenv env "ASSIST_BASE_URL" "http://localhost:8795";
     cfg_rawDays := getenvInt env "ASSIST_RETENTION_RAW_DAYS" 7;
     cfg_rollupDays := getenvInt env "ASSIST_RETENTION_ROLLUP_DAYS" 90;
     cfg_messagesDays := getenvInt env "ASSIST_RETENTION_MESSAGES_DAYS" 90;
     cfg_changesDays := getenvInt env "ASSIST_RETENTION_CHANGES_DAYS" 7;
     cfg_changesMinSeq := getenvInt env "ASSIST_RETENTION_CHANGES_MIN_SEQ" 100000;
     cfg_heartbeatInterval := 2 * Second;
     cfg_rollupInterval := Minute;
     cfg_retentionInterval := Hour;
     cfg_agentVersion := getenv env "ASSIST_AGENT_VERSION" hubVersion;
     cfg_agentCacheDir := getenv env "ASSIST_AGENT_CACHE_DIR" (cacheDir dbPath);
     cfg_agentCacheMaxBytes := getenvInt env "ASSIST_AGENT_CACHE_MAX_BYTES" (512 * 1024 * 1024) |}%string.

(** ** The application *)

(* @src hub/api.go 34-47 app *)
(** What the handlers share.  [ap_sent]: the requests to Feedback services so far.
    [ap_streams]: the streams that were opened, each with where it is and what it wrote. *)
Record app := {
  ap_world : World;
  ap_cfg : config;
  ap_adminHash : string;
  ap_limiter : loginLimiter;
  ap_cache : agentCache;
  ap_sent : list up_request;
  ap_streams : list (stream_at * list frame) }.

Definition with_world (w : World) (a : app) : app :=
  {| ap_world := w; ap_cfg := ap_cfg a; ap_adminHash := ap_adminHash a; ap_limiter := ap_limiter a; ap_cache := ap_cache a;
     ap_sent := ap_sent a; ap_streams := ap_streams a |}.

Definition with_streams (l : list (stream_at * list frame)) (a : app) : app :=
  {| ap_world := ap_world a; ap_cfg := ap_cfg a; ap_adminHash := ap_adminHash a; ap_limiter := ap_limiter a; ap_cache := ap_cache a;
     ap_sent := ap_sent a; ap_streams := l |}.

(** A request, decoded, with what the path and the query carry. *)
Inductive request :=
| PostLogin (remoteAddr : string) (req : loginReq)
| PostRefresh (refreshToken : string)
| GetSession
| PostLogout
| PostMetrics (req : ingestMetricsReq)
| PostEvents (req : ingestEventsReq)
| GetInstallScript
| GetStableRelease
| GetReleaseAsset (version asset : string)
| GetAgentStatus
| GetOverview
| GetSync (since limit : string)
| GetStream (since lastEventID : string)
| GetMessages (filter limit cursor source : string)
| GetMessage (id : string)
| PostMessageRead (id : string)
| PostMessageUnread (id : string)
| PostMessagesReadAll (before : option string)
| GetFaults (state limit cursor : string)
| PostFaultRead (id : string)
| PostFaultMute (id : string)
| PostFaultUnmute (id : string)
| GetSeries (source metric label step from to : string)
| GetSources
| PostSource (req : sourceCreateReq)
| GetSource (id : string)
| PatchSource (id : string) (req : sourcePatchReq)
| PostRotateKey (id : string)
| PostRotateMgmtKey (id : string)
| DeleteSource (id : string)
| Proxied (req : fb_request)
| GetRules
| PutRules (req : rulesPutReq)
| GetSettings
| PatchSettings (req : settingsPatchReq)
| GetHealth
| GetVersion.

Section hub.
Context `{HE : HubEnv} `{SS : SliceSort} `{SF : SqlFuns} `{CE : CacheEnv} `{CS : CandidateSort}.
Notation HM := (stM World herr).

(** The program's surroundings: [bcrypt], [net/url], [encoding/json], the services, the
    embedded installer. *)
Variable bcrypt_match : string → string → bool.
Variable url_parse : string → option URL.
Variable decode_manifest : string → option agentManifest.
Variable installer : option string.
Variable upstream : up_request → option up_response.
Variable json_decode : string → option json.
Variable json_encode : list (string * json) → string.
Variable json_encode_raw : list (string * string) → option string.
Variable error_code : string → option string.
Variable decode_ref : string → option string.

(** A handler over the world; [None] stands for one that gave no answer. *)
Definition on_world {B} (m : HM (reply B)) (a : app) : option Z * app :=
  match m (ap_world a) with
  | (Ok r, w) => (Some (status_of r), with_world w a)
  | (Err _, w) => (None, with_world w a)
  end.

Definition login (remoteAddr : string) (req : loginReq) (a : app) : option Z * app :=
  match handleLogin bcrypt_match (ap_cfg a) (ap_adminHash a) remoteAddr (ap_limiter a) req (ap_world a) with
  | (Ok (r, l), w) =>
    (Some (status_of r), {| ap_world := w; ap_cfg := ap_cfg a; ap_adminHash := ap_adminHash a; ap_limiter := l; ap_cache := ap_cache a;
                            ap_sent := ap_sent a; ap_streams := ap_streams a |})
  | (Err _, w) => (None, with_world w a)
  end.

Definition on_cache (m : stM agentCache cerr (reply served)) (a : app) : option Z * app :=
  let '(r, c) := m (ap_cache a) in
  (match r with Ok r => Some (status_of r) | Err _ => None end,
   {| ap_world := ap_world a; ap_cfg := ap_cfg a; ap_adminHash := ap_adminHash a; ap_limiter := ap_limiter a; ap_cache := c;
      ap_sent := ap_sent a; ap_streams := ap_streams a |}).

(** [a.requireClient] around a handler that needs more than the world. *)
Definition guarded (auth : string) (next : app → option Z * app) (a : app) : option Z * app :=
  match requireClient (λ _, mret (Reply 200 ())) auth (ap_world a) with
  | (Ok (Reply _ _), w) => next (with_world w a)
  | (Ok r, w) => (Some (status_of r), with_world w a)
  | (Err _, w) => (None, with_world w a)
  end.

Definition proxy (req : fb_request) (a : app) : option Z * app :=
  let '(r, (w, sent)) := serve_fb upstream json_decode json_encode json_encode_raw error_code decode_ref req (ap_world a, ap_sent a) in
  (match r with Ok ans => Some (status_of (fa_reply ans)) | Err _ => None end,
   {| ap_world := w; ap_cfg := ap_cfg a; ap_adminHash := ap_adminHash a; ap_limiter := ap_limiter a; ap_cache := ap_cache a;
      ap_sent := sent; ap_streams := ap_streams a |}).

(** A stream's request: refused for its cursor, or answered 200 and left running. *)
(* @src hub/sse.go 94-120 !handleStream *)
Definition open_stream (since lastEventID : string) (a : app) : option Z * app :=
  match stream_since since lastEventID with
  | None => (Some 400, a)
  | Some v => (Some 200, with_streams (ap_streams a ++ [(AtWindow v, [])]) a)
  end.

(** A route of the clients, and one of the sources. *)
Definition client {B} (auth : string) (m : HM (reply B)) : app → option Z * app := on_world (requireClient (λ _, m) auth).
Definition source {B} (auth : string) (h : sourceRow → HM (reply B)) : app → option Z * app := on_world (sourceKeyAuth h auth).

(* @src hub/api.go 49-112 routes *)
(** [auth] is the [Authorization] header. *)
Definition routes (auth : string) (r : request) (a : app) : option Z * app :=
  let cfg := ap_cfg a in
  match r with
  | PostLogin addr req => login addr req a
  | PostRefresh tok => on_world (handleRefresh tok) a
  | GetSession => on_world (requireClient handleSession auth) a
  | PostLogout => on_world (requireClient handleLogout auth) a
  | PostMetrics req => source auth (λ src, handleIngestMetrics src req) a
  | PostEvents req => source auth (λ src, handleIngestEvents src req) a
  | GetInstallScript => (Some (status_of (handleAgentInstallScript installer)), a)
  | GetStableRelease => on_cache (handleAgentStable decode_manifest (cfg_agentVersion cfg)) a
  | GetReleaseAsset v n => on_cache (handleAgentAsset decode_manifest v n) a
  | GetAgentStatus => on_world (agentStatusAuth handleAgentStatus auth) a
  | GetOverview => client auth handleOverview a
  | GetSync since limit => client auth (handleSync since limit) a
  | GetStream since id => guarded auth (open_stream since id) a
  | GetMessages f l c s => client auth (handleMessages f l c s) a
  | GetMessage id => client auth (handleMessageDetail id) a
  | PostMessageRead id => client auth (handleMessageRead id) a
  | PostMessageUnread id => client auth (handleMessageUnread id) a
  | PostMessagesReadAll before => client auth (handleMessagesReadAll before) a
  | GetFaults s l c => client auth (handleFaults s l c) a
  | PostFaultRead id => client auth (handleFaultRead id) a
  | PostFaultMute id => client auth (handleFaultMute id) a
  | PostFaultUnmute id => client auth (handleFaultUnmute id) a
  | GetSeries s m l st f t => client auth (handleMetricsSeries s m l st f t) a
  | GetSources => client auth handleSources a
  | PostSource req => client auth (handleSourceCreate url_parse cfg req) a
  | GetSource id => client auth (handleSourceGet id) a
  | PatchSource id req => client auth (handleSourcePatch url_parse id req) a
  | PostRotateKey id => client auth (handleSourceRotateKey url_parse cfg id) a
  | PostRotateMgmtKey id => client auth (handleSourceRotateMgmtKey id) a
  | DeleteSource id => client auth (handleSourceDelete id) a
  | Proxied req => guarded auth (proxy req) a
  | GetRules => client auth handleRulesGet a
  | PutRules req => client auth (handleRulesPut req) a
  | GetSettings => client auth handleSettingsGet a
  | PatchSettings req => client auth (handleSettingsPatch req) a
  | GetHealth | GetVersion => (Some 200, a)
  end.

(** What happens to a running hub: a request, a tick of one of its loops, or a turn of the
    [i]-th stream. *)
Inductive hub_op :=
| Request (auth : string) (r : request)
| HeartbeatTick (now : Z)
| RollupTick (now : Z)
| RetentionTick (now : Z)
| StreamTurn (i : nat) (c : stream_case).

Definition turn_stream (i : nat) (c : stream_case) (a : app) : app :=
  match ap_streams a !! i with
  | Some (at_, out) =>
    match stream_turn c at_ (ap_world a) with
    | (Ok (at', fs), w) => with_streams (<[i := (at', out ++ fs)]> (ap_streams a)) (with_world w a)
    | (Err _, w) => with_world w a
    end
  | None => a
  end.

Definition hub_step (a : app) (o : hub_op) : app :=
  match o with
  | Request auth r => (routes auth r a).2
  | HeartbeatTick now => with_world (checkHeartbeats now (ap_world a)).2 a
  | RollupTick now => with_world (rollup_tick now (ap_world a)).2 a
  | RetentionTick now => with_world (retention_tick (ap_cfg a) now (ap_world a)).2 a
  | StreamTurn i c => turn_stream i c a
  end.

Definition hub_run (a : app) (ops : list hub_op) : app := foldl hub_step a ops.

(* @src hub/main.go 72-123 newApp *)
(** [hash] is the result of [bcrypt.GenerateFromPassword] for the password of the
    configuration, or for a random one; [files] what the cache directory holds. *)
Definition newApp (cacheDir : string → string) (cfg : config) (hash : option string) (files : gmap string node) (d : db) : option app :=
  let cfg := {| cfg_bind := cfg_bind cfg; cfg_dbPath := cfg_dbPath cfg; cfg_adminUser := cfg_adminUser cfg;
                cfg_adminPassword := cfg_adminPassword cfg; cfg_baseURL := cfg_baseURL cfg; cfg_rawDays := cfg_rawDays cfg;
                cfg_rollupDays := cfg_rollupDays cfg; cfg_messagesDays := cfg_messagesDays cfg; cfg_changesDays := cfg_changesDays cfg;
                cfg_changesMinSeq := cfg_changesMinSeq cfg; cfg_heartbeatInterval := cfg_heartbeatInterval cfg;
                cfg_rollupInterval := cfg_rollupInterval cfg; cfg_retentionInterval := cfg_retentionInterval cfg;
                cfg_agentVersion := if decide (cfg_agentVersion cfg = EmptyString) then hubVersion else cfg_agentVersion cfg;
                cfg_agentCacheDir := if decide (cfg_agentCacheDir cfg = EmptyString) then cacheDir (cfg_dbPath cfg)
                                     else cfg_agentCacheDir cfg;
                cfg_agentCacheMaxBytes := if decide (cfg_agentCacheMaxBytes cfg <= 0) then 512 * 1024 * 1024
                                          else cfg_agentCacheMaxBytes cfg |} in
  match (_ ← loadRules; loadSettings) (world_of d), hash with
  | (Ok _, w), Some hash =>
    Some {| ap_world := w; ap_cfg := cfg; ap_adminHash := hash; ap_limiter := newLoginLimiter;
            ap_cache := newAgentCache files (cfg_agentCacheMaxBytes cfg); ap_sent := []; ap_streams := [] |}
  | _, _ => None
  end.
End hub.

(** ** Who may use a route *)

Inductive audience := Anyone | Clients | Sources | Devices.

(** The wrapper each route is registered with. *)
Definition audience_of (r : request) : audience :=
  match r with
  | PostLogin _ _ | PostRefresh _ | GetInstallScript | GetStableRelease | GetReleaseAsset _ _ | GetHealth | GetVersion => Anyone
  | PostMetrics _ | PostEvents _ => Sources
  | GetAgentStatus => Devices
  | _ => Clients
  end.

(** The source a key opens. *)
Definition opens (auth : string) (d : db) (src : sourceRow) : Prop :=
  bearerToken auth ≠ EmptyString ∧ src ∈ d_sources d ∧ s_KeyHash src = hashToken (bearerToken auth) ∧
  s_DeletedAt src = None ∧ s_Enabled src = true.

(** The credential of a request is good for its route: a live session, the key of an enabled
    source, the key of an enabled device. *)
Definition admitted `{HE : HubEnv} (auth : string) (w : World) (r : request) : Prop :=
  match audience_of r with
  | Anyone => True
  | Clients => ∃ s, stands_for auth (w_db w) (h_now (w_ticks w)) s
  | Sources => ∃ src, opens auth (w_db w) src
  | Devices => ∃ src, opens auth (w_db w) src ∧ s_Kind src = "device"%string
  end.

(** The hub is as it was, apart from the clock it read. *)
Definition app_untouched (a a' : app) : Prop :=
  untouched (ap_world a) (ap_world a') ∧ ap_cfg a' = ap_cfg a ∧ ap_adminHash a' = ap_adminHash a ∧
  ap_limiter a' = ap_limiter a ∧ ap_cache a' = ap_cache a ∧ ap_sent a' = ap_sent a ∧
  ap_streams a' = ap_streams a.

Section sessions.
Context `{HE : HubEnv}.

(** [requireClient]: refused without a session, and otherwise the handler runs. *)
Lemma client_session auth w :
  let '(r, w1) := requireClient (λ s, mret (Reply 200 s)) auth w in
  w_tx w1 = w_tx w ∧ untouched w w1 ∧
  match r with
  | Ok (Reply _ s) => stands_for auth (w_db w) (h_now (w_ticks w)) s ∧
      ∀ B (next : session → stM World herr (reply B)), requireClient next auth w = next s w1
  | Ok (Fail st c msg) => st ∈ [401; 500] ∧ ∀ B (next : session → stM World herr (reply B)), requireClient next auth w = (Ok (Fail st c msg), w1)
  | Err _ => False
  end.
Proof.
  pose proof (clientSession_spec auth w) as H. pose proof (still_session auth w) as [Ht _].
  unfold requireClient, st_try, mbind, stM_bind. destruct (clientSession auth w) as [[[s|]|e] w1]; destruct H as [Hu H];
    (split; [exact Ht|]); (split; [exact Hu|]).
  - by split.
  - split; [set_solver|done].
  - split; [set_solver|done].
Qed.

(** [sourceKeyAuth], likewise. *)
Lemma source_session auth w :
  let '(r, w1) := sourceKeyAuth (λ s, mret (Reply 200 s)) auth w in
  w_tx w1 = w_tx w ∧ untouched w w1 ∧
  match r with
  | Ok (Reply _ src) => opens auth (w_db w) src ∧ ∀ B (next : sourceRow → stM World herr (reply B)), sourceKeyAuth next auth w = next src w1
  | Ok (Fail st c msg) => st ∈ [401; 403; 500] ∧
      ∀ B (next : sourceRow → stM World herr (reply B)), sourceKeyAuth next auth w = (Ok (Fail st c msg), w1)
  | Err _ => False
  end.
Proof.
  unfold sourceKeyAuth. case_decide as Hne; [cbn; split; [done|]; split; [done|]; split; [set_solver|done]|].
  unfold loadSourceByKeyHash. set (f := λ d, head _). pose proof (still_row f w) as [Ht Hu].
  destruct (db_row_cases f w) as (r & E & Hr). unfold st_try, mbind, stM_bind. rewrite E in Ht, Hu |- *. cbn [snd] in Ht, Hu.
  destruct r as [src|e].
  - destruct Hr as [Hf _]. apply head_Some_elem_of, list_elem_of_filter in Hf as [[Hk Hd] Hin].
    destruct (s_Enabled src) eqn:Een; (split; [exact Ht|]); (split; [exact Hu|]); (split; [|done]); [|set_solver]. by split.
  - destruct e; (split; [exact Ht|]); (split; [exact Hu|]); (split; [set_solver|done]).
Qed.

End sessions.

Section hub_lemmas.
Context `{HE : HubEnv} `{SS : SliceSort} `{SF : SqlFuns} `{CE : CacheEnv} `{CS : CandidateSort}.
Notation HM := (stM World herr).
Variable bcrypt_match : string → string → bool.
Variable url_parse : string → option URL.
Variable decode_manifest : string → option agentManifest.
Variable installer : option string.
Variable upstream : up_request → option up_response.
Variable json_decode : string → option json.
Variable json_encode : list (string * json) → string.
Variable json_encode_raw : list (string * string) → option string.
Variable error_code : string → option string.
Variable decode_ref : string → option string.
Notation serve := (serve_fb upstream json_decode json_encode json_encode_raw error_code decode_ref).
Notation routes := (routes bcrypt_match url_parse decode_manifest installer upstream json_decode json_encode json_encode_raw error_code decode_ref).

(** A route is answered, and is orderly when no transaction is open. *)
Definition well_run (f : app → option Z * app) : Prop := ∀ a,
  is_Some (f a).1 ∧
  (w_tx (ap_world a) = None → w_tx (ap_world (f a).2) = None ∧ delivered (ap_world a) (ap_world (f a).2)).

Lemma world_runs {B} (m : HM (reply B)) : answers m → orderly m → well_run (on_world m).
Proof.
  intros Ha Ho a. unfold on_world. specialize (Ho (ap_world a)). destruct (m (ap_world a)) as [[r|e] w] eqn:E; cbn.
  - split; [by eexists|exact Ho].
  - exfalso. by eapply Ha.
Qed.

Lemma login_runs addr req : well_run (login bcrypt_match addr req).
Proof.
  intros a. unfold login. set (m := handleLogin _ _ _ _ _ _). assert (answers m) as Ha by apply answers_login.
  assert (orderly m) as Ho by apply orderly_login. specialize (Ho (ap_world a)).
  destruct (m (ap_world a)) as [[[r l]|e] w] eqn:E; cbn; [|exfalso; by eapply Ha]. split; [by eexists|exact Ho].
Qed.

Lemma cache_runs m : (∀ c e, (m c).1 ≠ Err e) → well_run (on_cache m).
Proof.
  intros Hm a. unfold on_cache. specialize (Hm (ap_cache a)). destruct (m (ap_cache a)) as [[r|e] c]; [|by destruct (Hm e)]. cbn.
  split; [by eexists|]. intros Ht. split; [exact Ht|by apply untouched_delivered].
Qed.

Lemma serve_asset_answers version asset cc c e : (serveAgentAsset decode_manifest version asset cc c).1 ≠ Err e.
Proof.
  unfold serveAgentAsset, mbind, stM_bind, st_try. destruct (openAgentAsset _ _ _ _) as [[[b t]|e1] c1]; [|done].
  by destruct (sys c1) as [[n|e2] c2].
Qed.

(** The proxy reads the hub's tables. *)
Lemma proxy_still req t s : w_tx s.1 = t → w_tx (serve req s).2.1 = t.
Proof.
  assert (∀ A (f : db → option A), preserves (λ s : World * list up_request, w_tx s.1 = t) (hub (db_row f))) as Hrow.
  { intros A f s' Hs. unfold hub. pose proof (quiet_db_row f s'.1) as Hq. destruct (db_row f s'.1). cbn in *. congruence. }
  assert (∀ q, preserves (E := herr) (λ s : World * list up_request, w_tx s.1 = t) (send upstream q)) as Hsend by (by intros q s' Hs).
  intros Hs. revert s Hs. change (preserves (λ s, w_tx s.1 = t) (serve req)).
  destruct req; cbn [serve_fb]; unfold handleFeedbackList, handleFeedbackDetail, handleFeedbackAction, handleFeedbackAttachment,
    handleAttachment, fbActionProbe, fetch_attachment, fbPrecondMgmt, fbPrecond, fbDo, loadSource, loadMessage; pres.
Qed.

Lemma proxy_runs req : well_run (proxy upstream json_decode json_encode json_encode_raw error_code decode_ref req).
Proof.
  intros a. unfold proxy. pose proof (proxy_still req (w_tx (ap_world a)) (ap_world a, ap_sent a) eq_refl) as Ht.
  destruct (serve_ok upstream json_decode json_encode json_encode_raw error_code decode_ref (ap_world a, ap_sent a) req)
    as (ans & w' & new & E & Hu & _). rewrite E in Ht |- *. cbn in Ht |- *. split; [by eexists|].
  intros Hw. split; [congruence|by apply untouched_delivered].
Qed.

Lemma stream_runs since h : well_run (open_stream since h).
Proof.
  intros a. unfold open_stream. destruct (stream_since since h); (split; [by eexists|]); intros Hw;
    (split; [exact Hw|by apply untouched_delivered]).
Qed.

Lemma answer_runs st : well_run (λ a, (Some st, a)).
Proof. intros a. split; [by eexists|]. intros Hw. split; [exact Hw|by apply untouched_delivered]. Qed.

Lemma client_runs {B} auth (next : session → HM (reply B)) :
  (∀ s, answers (next s)) → (∀ s, orderly (next s)) → well_run (on_world (requireClient next auth)).
Proof. intros. apply world_runs; [by apply answers_client|by apply orderly_client]. Qed.

Lemma source_runs {B} auth (next : sourceRow → HM (reply B)) :
  (∀ s, answers (next s)) → (∀ s, orderly (next s)) → well_run (on_world (sourceKeyAuth next auth)).
Proof. intros. apply world_runs; [by apply answers_source|by apply orderly_source]. Qed.

Lemma guarded_runs auth next : well_run next → well_run (guarded auth next).
Proof.
  intros Hn a. unfold guarded. pose proof (client_session auth (ap_world a)) as H.
  destruct (requireClient _ auth (ap_world a)) as [[[st s|st c msg]|e] w1] eqn:E; cbn [snd] in H; [| |by destruct H as (_ & _ & [])].
  - destruct H as (Ht & Hu & _ & Hk). rewrite Hk. cbn. specialize (Hn (with_world w1 a)) as [Hs Ho]. split; [exact Hs|].
    intros Hw. destruct Ho as [Ho1 Ho2]; [cbn; congruence|]. split; [exact Ho1|]. by eapply delivered_ext_l.
  - destruct H as (Ht & Hu & _ & Hk). rewrite Hk. cbn. split; [by eexists|]. intros Hw. split; [congruence|by apply untouched_delivered].
Qed.

Lemma routes_run auth r : well_run (routes auth r).
Proof.
  intros a. unfold Hub.routes, client, source. cbv zeta. generalize (ap_cfg a). intros cfg. destruct r.
  1: apply login_runs.
  1: apply world_runs; [apply answers_refresh|apply orderly_refresh].
  all: try (apply client_runs; intros s; unfold handleSession, handleMessageRead, handleMessageUnread, handleFaultRead,
    handleFaultMute, handleFaultUnmute, handleRulesGet, handleSettingsGet; [by eauto with errsdb|by eauto with orderlydb]).
  all: try (apply source_runs; intros s; [by eauto with errsdb|by eauto with orderlydb]).
  all: try (eapply answer_runs).
  - apply cache_runs. intros c e. unfold handleAgentStable. destruct (negb _); [done|]. apply serve_asset_answers.
  - apply cache_runs. intros c e. unfold handleAgentAsset. destruct (negb _); [done|]. case_decide; [done|]. apply serve_asset_answers.
  - apply source_runs; intros s; unfold handleAgentStatus; case_decide; [by apply errs_ret..|by apply orderly_still|by apply orderly_still].
  - by apply guarded_runs, stream_runs.
  - by apply guarded_runs, proxy_runs.
Qed.

(** ** Admission *)

(** Admitted by [P], or refused with nothing done. *)
Definition gated (P : Prop) (a : app) (ra : option Z * app) : Prop :=
  P ∨ (app_untouched a ra.2 ∧ ∃ st, ra.1 = Some st ∧ st ∈ [401; 403; 500]).

Lemma client_gate {B} auth (next : session → HM (reply B)) a :
  gated (∃ s, stands_for auth (w_db (ap_world a)) (h_now (w_ticks (ap_world a))) s) a (on_world (requireClient next auth) a).
Proof.
  pose proof (client_session auth (ap_world a)) as H. unfold gated, on_world.
  destruct (requireClient (λ s, mret (Reply 200 s)) auth (ap_world a)) as [[[st s|st c msg]|e] w1]; destruct H as (_ & Hu & H); [| |done].
  - left. exists s. apply H.
  - right. destruct H as [Hst ->]. cbn. split; [by split|]. exists st. split; [done|set_solver].
Qed.

Lemma source_gate {B} auth (next : sourceRow → HM (reply B)) (Q : sourceRow → Prop) a :
  (∀ src w, Q src ∨ (untouched w (next src w).2 ∧ ∃ c m, (next src w).1 = Ok (Fail 403 c m))) →
  gated (∃ src, opens auth (w_db (ap_world a)) src ∧ Q src) a (on_world (sourceKeyAuth next auth) a).
Proof.
  intros HQ. pose proof (source_session auth (ap_world a)) as H. unfold gated, on_world.
  destruct (sourceKeyAuth (λ s, mret (Reply 200 s)) auth (ap_world a)) as [[[st src|st c msg]|e] w1]; destruct H as (_ & Hu & H); [| |done].
  - destruct H as [Ho ->]. destruct (HQ src w1) as [HQs|(Hu2 & c & m & Hn)]; [left; by exists src|right].
    destruct (next src w1) as [r w2]. cbn in Hn, Hu2. subst r. cbn. split; [split; [by etransitivity|done]|].
    exists 403. split; [done|set_solver].
  - right. destruct H as [Hst ->]. cbn. split; [by split|]. by exists st.
Qed.

Lemma guarded_gate auth next a :
  gated (∃ s, stands_for auth (w_db (ap_world a)) (h_now (w_ticks (ap_world a))) s) a (guarded auth next a).
Proof.
  pose proof (client_session auth (ap_world a)) as H. unfold gated, guarded.
  destruct (requireClient (λ s, mret (Reply 200 s)) auth (ap_world a)) as [[[st s|st c msg]|e] w1]; destruct H as (_ & Hu & H); [| |done].
  - left. exists s. apply H.
  - right. destruct H as [Hst ->]. cbn. split; [by split|]. exists st. split; [done|set_solver].
Qed.

Lemma routes_gate auth r a : gated (admitted auth (ap_world a) r) a (routes auth r a).
Proof.
  destruct r; unfold admitted; cbn [audience_of]; try (by left); unfold Hub.routes, client, source; cbv zeta;
    try apply client_gate; try apply guarded_gate.
  - destruct (source_gate auth (λ src, handleIngestMetrics src req) (λ _, True) a) as [(src & ? & _)|?]; [by intros; left|left; eauto|by right].
  - destruct (source_gate auth (λ src, handleIngestEvents src req) (λ _, True) a) as [(src & ? & _)|?]; [by intros; left|left; eauto|by right].
  - apply (source_gate auth _ (λ src, s_Kind src = "device"%string)). intros src w. case_decide as Hk.
    + right. split; [done|]. by eexists _, _.
    + left. by destruct (decide (s_Kind src = "device"%string)).
Qed.

(** ** Runs *)

(** From [w] to [w']: the rows that were logged on the way carry the numbers that follow, in
    order, and exactly they were published, in order, between the turns of the streams and, if
    [quiet], without any; the log holds nothing else than what it held and these, and all of it
    if [whole]. *)
Record advanced (whole quiet : bool) (w w' : World) (rows : list changeRow) : Prop := {
  ad_tx : w_tx w' = None;
  ad_ok : db_ok (w_db w');
  ad_seqs : ch_seq <$> rows = seqZ (change_seq (w_db w) + 1) (Z.of_nat (length rows));
  ad_count : change_seq (w_db w') = change_seq (w_db w) + Z.of_nat (length rows);
  ad_log : d_changes (w_db w') `sublist_of` d_changes (w_db w) ++ rows;
  ad_whole : whole = true → d_changes (w_db w') = d_changes (w_db w) ++ rows;
  ad_sent : ∃ evs, w_broker w' = foldl broker_step (w_broker w) evs ∧ omap published evs = entry_of <$> rows ∧
    (quiet = true → evs = BPublish <$> (entry_of <$> rows)) }.

(** A run of publications. *)
Lemma published_all (es : list changeEntry) : omap published (BPublish <$> es) = es.
Proof. induction es as [|e es IH]; [done|]. cbn. by rewrite IH. Qed.
Lemma publish_steps (es : list changeEntry) b : foldl broker_step b (BPublish <$> es) = foldl (λ b e, Publish e b) b es.
Proof. revert b. induction es as [|e es IH]; intros b; [done|]. apply IH. Qed.

Lemma delivered_advanced w w' : db_ok (w_db w) → w_tx w' = None → delivered w w' → ∃ rows, advanced true true w w' rows.
Proof.
  intros Hok Ht (rows & (Hc & Hs & Hq) & Hb & Hinv). exists rows. split; [done|by apply Hinv|done|done|by rewrite Hc|done|].
  eexists. by rewrite Hb, <-publish_steps, published_all.
Qed.

Lemma advanced_trans k1 q1 k2 q2 w1 w2 w3 r1 r2 :
  advanced k1 q1 w1 w2 r1 → advanced k2 q2 w2 w3 r2 → advanced (k1 && k2) (q1 && q2) w1 w3 (r1 ++ r2).
Proof.
  intros [T1 O1 S1 C1 L1 W1 (e1 & B1 & P1 & Q1)] [T2 O2 S2 C2 L2 W2 (e2 & B2 & P2 & Q2)]. split; [done|done|..].
  - rewrite fmap_app, S1, S2, C1, length_app, Nat2Z.inj_add, seqZ_app by lia. f_equal. f_equal. lia.
  - rewrite C2, C1, length_app. lia.
  - rewrite app_assoc. etransitivity; [exact L2|]. by apply sublist_app.
  - intros [-> ->]%andb_prop. by rewrite W2, W1, app_assoc.
  - exists (e1 ++ e2). rewrite B2, B1, foldl_app, omap_app, P1, P2, !fmap_app. split; [done|]. split; [done|].
    intros [H1 H2]%andb_prop. by rewrite Q1, Q2.
Qed.

Definition is_retention (o : hub_op) : bool := match o with RetentionTick _ => true | _ => false end.
Definition is_turn (o : hub_op) : bool := match o with StreamTurn _ _ => true | _ => false end.

Notation hub_step := (hub_step bcrypt_match url_parse decode_manifest installer upstream json_decode json_encode json_encode_raw error_code decode_ref).
Notation hub_run := (hub_run bcrypt_match url_parse decode_manifest installer upstream json_decode json_encode json_encode_raw error_code decode_ref).

Lemma advanced_refl w : w_tx w = None → db_ok (w_db w) → advanced true true w w [].
Proof. intros. split; try done; rewrite ?app_nil_r; try done; [cbn; lia|]. by exists []. Qed.
Lemma advanced_weaken k q w w' rows : advanced k true w w' rows → advanced k q w w' rows.
Proof. intros [H1 H2 H3 H4 H5 H6 (evs & H7 & H8 & H9)]. split; try done. exists evs. eauto. Qed.

Lemma hub_step_advances a o :
  w_tx (ap_world a) = None → db_ok (w_db (ap_world a)) →
  ∃ rows, advanced (negb (is_retention o)) (negb (is_turn o)) (ap_world a) (ap_world (hub_step a o)) rows.
Proof.
  intros Ht Hok. destruct o as [auth r|now|now|now|i c]; cbn [Hub.hub_step is_retention is_turn negb].
  - destruct (routes_run auth r a) as [_ Hr]. destruct (Hr Ht) as [Ht' Hd]. by apply delivered_advanced.
  - destruct (orderly_heartbeats now (ap_world a) Ht) as [Ht' Hd]. by apply delivered_advanced.
  - destruct (orderly_rollup now (ap_world a) Ht) as [Ht' Hd]. by apply delivered_advanced.
  - destruct (retention_tick_log (ap_cfg a) now (ap_world a) Ht Hok) as (Ht' & Hok' & rows & Hs & Hc & Hl & Hb).
    exists rows. split; try done. exists (BPublish <$> (entry_of <$> rows)). by rewrite publish_steps, published_all.
  - exists []. unfold turn_stream. destruct (ap_streams a !! i) as [[at_ out]|]; [|by apply advanced_weaken, advanced_refl].
    destruct (stream_turn_spec c at_ (ap_world a)) as (x & fs & w' & evs & -> & Hd & Htx & Hb & Hp). cbn [ap_world with_streams with_world].
    split; rewrite ?Hd, ?Htx, ?app_nil_r; try done; [cbn; lia|]. by exists evs.
Qed.

Lemma hub_run_advances ops a :
  w_tx (ap_world a) = None → db_ok (w_db (ap_world a)) →
  ∃ rows, advanced (forallb (negb ∘ is_retention) ops) (forallb (negb ∘ is_turn) ops) (ap_world a) (ap_world (hub_run a ops)) rows.
Proof.
  revert a. induction ops as [|o ops IH]; intros a Ht Hok.
  - exists []. by apply advanced_refl.
  - destruct (hub_step_advances a o Ht Hok) as (r1 & H1). destruct (IH (hub_step a o) (ad_tx _ _ _ _ _ H1) (ad_ok _ _ _ _ _ H1)) as (r2 & H2).
    exists (r1 ++ r2). by eapply advanced_trans.
Qed.

(** ** The events on record stay *)

Definition keeps (f : app → option Z * app) : Prop := ∀ a,
  w_tx (ap_world a) = None → lasts (w_db (ap_world a)) (w_db (ap_world (f a).2)).

Lemma world_keeps {B} (m : HM (reply B)) : lasting m → keeps (on_world m).
Proof. intros Hm a Ht. unfold on_world. destruct (Hm _ Ht) as [_ H]. by destruct (m (ap_world a)) as [[r|e] w]. Qed.
Lemma client_keeps {B} auth (next : session → HM (reply B)) : (∀ s, lasting (next s)) → keeps (on_world (requireClient next auth)).
Proof. intros. by apply world_keeps, lasting_client. Qed.
Lemma source_keeps {B} auth (next : sourceRow → HM (reply B)) : (∀ s, lasting (next s)) → keeps (on_world (sourceKeyAuth next auth)).
Proof. intros. by apply world_keeps, lasting_source. Qed.

Lemma guarded_keeps auth next : keeps next → keeps (guarded auth next).
Proof.
  intros Hn a Ht. unfold guarded. pose proof (client_session auth (ap_world a)) as H.
  destruct (requireClient _ auth (ap_world a)) as [[[st s|st c msg]|e] w1]; destruct H as (Ht1 & [Hd _] & H); [| |done];
    destruct H as [_ Hk]; rewrite Hk; cbn.
  - rewrite <-Hd. apply (Hn (with_world w1 a)). cbn. congruence.
  - by rewrite Hd.
Qed.

Lemma routes_keep auth r : keeps (routes auth r).
Proof.
  intros a. unfold Hub.routes, client, source. cbv zeta. generalize (ap_cfg a). intros cfg. destruct r.
  1: { intros Ht. unfold login. set (m := handleLogin _ _ _ _ _ _). assert (lasting m) as Hm by apply lasting_login.
    destruct (Hm _ Ht) as [_ H]. by destruct (m (ap_world a)) as [[[r l]|e] w]. }
  1: apply world_keeps, lasting_refresh.
  all: try (apply client_keeps; intros s; unfold handleSession, handleMessageRead, handleMessageUnread, handleFaultRead,
    handleFaultMute, handleFaultUnmute; by first [eauto with orderlydb|apply lasting_still]).
  all: try (apply source_keeps; intros s; by eauto with orderlydb).
  all: try done.
  - intros _. unfold on_cache. by destruct (handleAgentStable _ _ _) as [[]].
  - intros _. unfold on_cache. by destruct (handleAgentAsset _ _ _ _) as [[]].
  - apply source_keeps; intros s; unfold handleAgentStatus; case_decide; by apply lasting_still.
  - apply guarded_keeps. intros a' _. unfold open_stream. by destruct (stream_since _ _).
  - apply guarded_keeps. intros a' _. unfold proxy.
    destruct (serve_ok upstream json_decode json_encode json_encode_raw error_code decode_ref (ap_world a', ap_sent a') req)
      as (ans & w' & new & E & [Hd' _] & _). rewrite E. cbn in Hd' |- *. by rewrite Hd'.
Qed.

Lemma hub_step_keeps a o :
  w_tx (ap_world a) = None → is_retention o = false → lasts (w_db (ap_world a)) (w_db (ap_world (hub_step a o))).
Proof.
  intros Ht. destruct o as [auth r|now|now|now|i c]; [intros _..|done|intros _].
  - by apply routes_keep.
  - by apply lasting_heartbeats.
  - by apply lasting_rollup.
  - cbn [Hub.hub_step]. unfold turn_stream. destruct (ap_streams a !! i) as [[at_ out]|]; [|done].
    destruct (stream_turn_spec c at_ (ap_world a)) as (x & fs & w' & evs & -> & Hd & _). cbn. by rewrite Hd.
Qed.

Lemma hub_run_keeps ops a :
  w_tx (ap_world a) = None → db_ok (w_db (ap_world a)) → (∀ now, RetentionTick now ∉ ops) →
  lasts (w_db (ap_world a)) (w_db (ap_world (hub_run a ops))).
Proof.
  revert a. induction ops as [|o ops IH]; intros a Ht Hok Hno; [done|].
  destruct (hub_step_advances a o Ht Hok) as (rows & Had). etransitivity; [apply (hub_step_keeps a o); [done|]|].
  - destruct o as [| | |now|]; try done. exfalso. by apply (Hno now); left.
  - apply IH; [exact (ad_tx _ _ _ _ _ Had)|exact (ad_ok _ _ _ _ _ Had)|]. intros now Hin. apply (Hno now). by right.
Qed.
End hub_lemmas.

(** ** Start *)

(** Between two operations: no transaction is open and the tables' invariant holds. *)
Definition ready `{HE : HubEnv} (a : app) : Prop := w_tx (ap_world a) = None ∧ db_ok (w_db (ap_world a)).

Lemma newApp_ready `{HE : HubEnv} cacheDir cfg hash files d a :
  db_ok d → newApp cacheDir cfg hash files d = Some a → ready a.
Proof.
  intros Hok. unfold newApp. cbv zeta.
  assert (orderly (_ ← loadRules; loadSettings)) as Ho by (apply orderly_bind; eauto with orderlydb).
  specialize (Ho (world_of d) eq_refl). destruct ((_ ← loadRules; loadSettings) (world_of d)) as [[doc|e] w]; [|done].
  destruct hash as [h|]; [|done]. intros [= <-]. cbn in Ho. destruct Ho as (Ht & rows & _ & _ & Hinv). split; [done|by apply Hinv].
Qed.

(** ** Properties *)

Section hub_properties.
Context `{HE : HubEnv} `{SS : SliceSort} `{SF : SqlFuns} `{CE : CacheEnv} `{CS : CandidateSort}.
Variable bcrypt_match : string → string → bool.
Variable url_parse : string → option URL.
Variable decode_manifest : string → option agentManifest.
Variable installer : option string.
Variable upstream : up_request → option up_response.
Variable json_decode : string → option json.
Variable json_encode : list (string * json) → string.
Variable json_encode_raw : list (string * string) → option string.
Variable error_code : string → option string.
Variable decode_ref : string → option string.
Notation routes := (routes bcrypt_match url_parse decode_manifest installer upstream json_decode json_encode json_encode_raw error_code decode_ref).
Notation hub_run := (hub_run bcrypt_match url_parse decode_manifest installer upstream json_decode json_encode json_encode_raw error_code decode_ref).

(** C2: the hub as a whole.  Whatever requests come, loops tick and open streams take their
    turns, one after the other, and whatever fails in them: no transaction stays open, the
    tables keep their invariant, the change numbers handed out follow each other without a gap,
    exactly the changes that carry them were published, in that order, to the subscribers of
    the moment (between publications only the streams themselves join, leave and take what
    they were sent), and the log holds nothing but what it held and these, and all of it as
    long as no retention run shortened it. *)
Theorem hub_conducts ops a (Hready : ready a) :
  let a' := hub_run a ops in let d := w_db (ap_world a) in let d' := w_db (ap_world a') in
  ready a' ∧ ∃ rows evs,
    ch_seq <$> rows = seqZ (change_seq d + 1) (Z.of_nat (length rows)) ∧
    change_seq d' = change_seq d + Z.of_nat (length rows) ∧
    w_broker (ap_world a') = foldl broker_step (w_broker (ap_world a)) evs ∧
    omap published evs = entry_of <$> rows ∧
    ((∀ i c, StreamTurn i c ∉ ops) → evs = BPublish <$> (entry_of <$> rows)) ∧
    d_changes d' `sublist_of` d_changes d ++ rows ∧
    ((∀ now, RetentionTick now ∉ ops) → d_changes d' = d_changes d ++ rows).
Proof.
  destruct Hready as [Ht Hok].
  destruct (hub_run_advances bcrypt_match url_parse decode_manifest installer upstream json_decode json_encode json_encode_raw
    error_code decode_ref ops a Ht Hok) as (rows & [H1 H2 H3 H4 H5 H6 (evs & H7 & H8 & H9)]).
  split; [by split|]. exists rows, evs. split_and!; [done..| |done|].
  - intros Hno. apply H9, forallb_forall. intros o Ho. destruct o as [| | | |i c]; try done.
    exfalso. by apply (Hno i c), list_elem_of_In.
  - intros Hno. apply H6, forallb_forall. intros o Ho. destruct o as [| | |now|]; try done.
    exfalso. by apply (Hno now), list_elem_of_In.
Qed.

(** C3: every request is answered, whatever fails, and no route runs without its credential: a
    live session for the clients, the key of an enabled source for ingest, of an enabled
    device for the agent's status.  Without it the answer is 401, 403 or 500, and tables,
    subscribers, streams, login limiter, release cache and services are left alone. *)
Theorem routes_gated auth r a :
  let '(answer, a') := routes auth r a in
  is_Some answer ∧
  (admitted auth (ap_world a) r ∨ app_untouched a a' ∧ ∃ st, answer = Some st ∧ st ∈ [401; 403; 500]).
Proof.
  pose proof (routes_gate bcrypt_match url_parse decode_manifest installer upstream json_decode json_encode json_encode_raw
    error_code decode_ref auth r a) as Hg.
  destruct (routes_run bcrypt_match url_parse decode_manifest installer upstream json_decode json_encode json_encode_raw
    error_code decode_ref auth r a) as [Ha _].
  destruct (routes auth r a) as [answer a']. by split.
Qed.
End hub_properties.

(** ** A hub, for the examples *)

Definition demo_config : config := loadConfig (λ _, "agent-cache"%string) (λ _, EmptyString).

Definition demo_app : option app :=
  newApp (HE := demo_env) (λ _, "agent-cache"%string) demo_config (Some "hash"%string) ∅ demo_db.

Definition subscribed (a : app) : app :=
  with_world (wset_broker (Subscribe (w_broker (ap_world a))).2 (ap_world a)) a.

Definition demo_run (a : app) (ops : list hub_op) : app :=
  hub_run (HE := demo_env) (SS := merge_slice_sort) (SF := demo_sql) (CE := demo_cache_env EmptyString) (CS := merge_candidate_sort)
    (λ _ pw, String.eqb pw "secret"%string) (λ _, None) (λ _, None) None (λ _, None) (λ _, None) (λ _, EmptyString) (λ _, None) (λ _, None)
    (λ _, None) a ops.

Definition demo_source_req (name : string) : sourceCreateReq :=
  {| sc_Name := name; sc_Kind := "device"; sc_AttachmentBaseURL := None; sc_MgmtKey := None |}%string.

(** A day: a login, a stream that opens, a new source the stream is told of, a logout, and
    attempts with the revoked token. *)
Definition demo_day : list hub_op := [
  Request "" (PostLogin "10.0.0.1:5000" {| lr_Username := "admin"; lr_Password := "secret"; lr_DeviceLabel := "phone" |});
  Request "Bearer tok_00" (GetStream "" "");
  StreamTurn 0 CaseEntry; StreamTurn 0 CaseEntry; StreamTurn 0 CaseEntry;
  Request "Bearer tok_00" (PostSource (demo_source_req "shed"));
  StreamTurn 0 CaseEntry; StreamTurn 0 CaseEntry;
  HeartbeatTick 0; RollupTick 0; RetentionTick 0;
  Request "Bearer tok_00" PostLogout;
  Request "Bearer tok_00" (GetStream "" "");
  Request "Bearer tok_00" (PostSource (demo_source_req "attic"))]%string.

(** The source was made, announced to the subscriber and written to the stream; what came
    after the logout was not. *)
Example demo_day_ends :
  match demo_app with
  | Some a => let a' := demo_run (subscribed a) demo_day in let w := ap_world a' in
      (λ s : stream_at * list frame, (s.1, fr_id <$> s.2)) <$> ap_streams a' = [(InLoop 1 1, [1])] ∧
      s_Name <$> d_sources (w_db w) = ["nas"; "shed"]%string ∧ (ce_Seq <$> default [] (br_subs (w_broker w) !! 0%nat)) = [1] ∧
      ss_revoked <$> d_sessions (w_db w) = [true]
  | None => False
  end.
Proof. vm_compute. by split_and!. Qed.

Lemma hub_conducts_witness :
  match demo_app with
  | Some a => ready (HE := demo_env) (demo_run (subscribed a) demo_day)
  | None => False
  end.
Proof.
  assert (is_Some demo_app) as [a Ha] by (vm_compute; by eexists). rewrite Ha.
  assert (ready (HE := demo_env) (subscribed a)) as Hr by exact (newApp_ready (HE := demo_env) _ _ _ _ _ _ demo_db_ok Ha).
  exact (proj1 (hub_conducts (HE := demo_env) (SS := merge_slice_sort) (SF := demo_sql) (CE := demo_cache_env EmptyString)
    (CS := merge_candidate_sort) (λ _ pw, String.eqb pw "secret"%string) (λ _, None) (λ _, None) None (λ _, None) (λ _, None)
    (λ _, EmptyString) (λ _, None) (λ _, None) (λ _, None) demo_day (subscribed a) Hr)).
Defined.

(** A keeping period of 200,000 days passes the check of the configuration, and the instant
    that many days ago lies in the future: everything is old enough to go. *)
Example retention_days_overflow :
  cfg_messagesDays (loadConfig (λ _, EmptyString)
    (λ k, if String.eqb k "ASSIST_RETENTION_MESSAGES_DAYS" then "200000" else EmptyString)%string) = 200000 ∧
  0 < days_before 0 200000.
Proof. by split. Qed.
