(* ===== verification/Pipeline.v ===== *)
(** From the agent to the hub: the events of the agent's queue, the requests that carry them
    over a network that may lose either direction, and the hub's table of events.

    The agent is [AgentReport]'s, which knows the hub as an oracle; here its requests are
    answered by [Ingest]'s handlers behind [Auth]'s check of the key. *)

From S2P Require Import Prelude GoBase Text GoTime Queue Collect HubTypes HubStore Fault Rules Ingest.
From S2P Require Import Body Retention Handlers Messages Sync Auth Orderly Install Admin Conduct Lasting Clock Release Proxy Hub AgentReport.
From Stdlib Require Import Ascii.
Local Open Scope Z_scope.

(** ** The agent: every run keeps its events, and its batches are bounded *)

Section agent_runs.
Context `{RE : ReportEnv}.
Variables (E0 : list (qrow payload)) (ps0 : list (request * http_answer)).
Notation keptE := (AgentReport.kept (settled_since ps0) E0 ps0).

Lemma keptE_catch {A} (m : stM Reporter rerr A) : preserves keptE m → preserves keptE (catch m).
Proof. intros Hm. unfold catch. pres. Qed.

Lemma keptE_peek t : preserves keptE (peek_head t (q_query (oldest t 1))).
Proof.
  intros r Hk. pose proof (keptE_op E0 ps0 (OpPeek t 1) (q_query (oldest t 1)) I (acts_peek t 1) r Hk) as Hk1.
  unfold peek_head. by destruct (lift_q _ r) as [[?|?] ?].
Qed.

(** A probe sends one event and deletes it when the hub took it. *)
Lemma keptE_probe d : preserves keptE (probeUnauthorized d).
Proof.
  assert (∀ err d', preserves keptE (handleProbeErr err d')) as Herr.
  { intros err d'. unfold handleProbeErr. pose proof (AgentReport.kept_now (settled_since ps0) E0 ps0). pres. }
  unfold probeUnauthorized.
  apply preserves_bind; [apply (keptE_peek metrics_q)|intros rows].
  assert (preserves keptE (evs ← peek_head events_q (PeekEvents 1);
    match evs with
    | ev :: _ =>
      now ← r_now;
      ack ← st_try (PostEvents (BuildEvents [q_Payload ev] now));
      match ack with
      | Ok _ => _ ← st_try (lift_q (DeleteEvents [q_ID ev])); mret (probe_ok d)
      | Err err => handleProbeErr err d
      end
    | [] => mret {| dl_attempt := dl_attempt d; dl_unauthorized := false; dl_nextTry := dl_nextTry d |}
    end)) as Hev.
  { intros r Hk. pose proof (keptE_peek events_q r Hk) as Hk1.
    destruct (peek_head_rows r) as (evs & r1 & Ep & Hin). change (q_query (oldest events_q 1)) with (PeekEvents 1 (P:=payload)) in Hk1.
    rewrite Ep in Hk1. rewrite (st_bind_Ok_step _ _ _ _ _ Ep). cbn [snd] in Hk1. destruct evs as [|ev evs]; [done|].
    set (r2 := rset_counters (S (rp_ticks r1)) (rp_ulids r1) r1).
    rewrite (st_bind_Ok_step _ _ _ (re_now (rp_ticks r1)) r2) by done.
    assert (keptE r2) as Hk2 by (by eapply AgentReport.kept_ext, Hk1).
    set (req := BuildEvents _ _). destruct (do_request_Ok req r2) as (a & r3 & Hd & _).
    assert (∀ row, row ∈ [ev] → row ∈ events_of (rp_q r2)) as Hin1 by (intros row ->%list_elem_of_singleton; apply Hin; left).
    destruct (request_pending E0 ps0 req [ev] r2 a r3 Hk2 Hin1 Hd) as (Hk3 & Hin3 & Hp3).
    assert (st_try (PostEvents req) r2 = (Ok (events_ack a), r3)) as Ht.
    { unfold st_try, PostEvents. by rewrite (st_bind_Ok_step _ _ _ _ _ Hd). }
    rewrite (st_bind_Ok_step _ _ _ _ _ Ht). destruct (events_ack a) as [ack|err] eqn:Ea; [|by apply Herr].
    assert (keptE (lift_q (DeleteEvents (q_ID <$> [ev])) r3).2) as Hk4.
    { apply kept_delete; [done|done|]. intros row ->%list_elem_of_singleton. eexists _, _, a.
      split; [exact Hp3|]. split; [left|]. left. by eexists. }
    unfold mbind, stM_bind, st_try. by destruct (lift_q _ r3). }
  destruct rows as [|row rows]; [exact Hev|].
  apply preserves_bind; [apply preserves_try, keptE_post_metrics|intros [ack|err]; [|apply Herr]].
  apply preserves_bind; [case_decide; [apply AgentReport.kept_interval|apply preserves_ret]|intros _].
  apply preserves_bind; [apply preserves_try, keptE_delete_metrics|intros _; apply preserves_ret].
Qed.

Lemma keptE_step fuel st d : preserves keptE (run_step fuel st d).
Proof.
  pose proof (keptE_catch _ (keptE_drainOnce E0 ps0 fuel)) as Hd.
  pose proof (AgentReport.kept_now (settled_since ps0) E0 ps0) as Hnow.
  assert (∀ w, preserves (E:=rerr) keptE (st_modify (rset_wake w))) as Hwake by apply AgentReport.kept_modify_wake.
  assert (preserves (E:=rerr) keptE anyPending) as Hany.
  { unfold anyPending. apply preserves_bind; [by eapply preserves_try, (keptE_op E0 ps0 (OpPeek metrics_q 0)); [|apply acts_pending]|intros m].
    apply preserves_bind; [by eapply preserves_try, (keptE_op E0 ps0 (OpPeek metrics_q 0)); [|apply acts_pending]|intros e]. pres. }
  pose proof keptE_probe as Hprobe.
  destruct st as [res|s]; unfold run_step, collect_tick.
  - apply preserves_bind; [apply AgentReport.kept_collect|intros; apply preserves_ret].
  - unfold drain_iteration, finalFlush, on_wake, after_drain. pres.
Qed.

Lemma keptE_steps fuel steps d : preserves keptE (run_steps fuel steps d).
Proof.
  revert d. induction steps as [|st steps IH]; intros d; cbn [run_steps]; [apply preserves_ret|].
  apply preserves_bind; [apply keptE_step|intros [d'| |]; [apply IH|apply preserves_ret|apply IH]].
Qed.
End agent_runs.

(** What is pending before any interleaving of the agent's goroutines is pending after it, or
    was settled by one of its requests. *)
Lemma run_keeps_events `{RE : ReportEnv} fuel steps d (r : Reporter) row :
  queue_ok (rp_q r) → row ∈ events_of (rp_q r) →
  let r' := (run_steps fuel steps d r).2 in
  rp_posts r `prefix_of` rp_posts r' ∧
  (row ∈ events_of (rp_q r') ∨ event_settled (q_Payload row) (drop (length (rp_posts r)) (rp_posts r'))).
Proof.
  intros Hok Hrow r'. assert (AgentReport.kept (settled_since (rp_posts r)) [row] (rp_posts r) r) as Hk.
  { split; [done|]. split; [done|]. intros row' ->%list_elem_of_singleton. by left. }
  destruct (keptE_steps [row] (rp_posts r) fuel steps d r Hk) as (_ & Hp & H). split; [exact Hp|]. apply (H row). left.
Qed.

(** ** Batches *)

Section bounded.
Context `{RE : ReportEnv}.

(** No request of events is longer than the reporter's limit [m]. *)
Definition within (m : Z) (posts : list (request * http_answer)) : Prop :=
  ∀ at_ ps a, (ReqEvents at_ ps, a) ∈ posts → Z.of_nat (length ps) <= m.

Definition bounded (m : Z) (r : Reporter) : Prop := rp_maxEventSend r = m ∧ within m (rp_posts r).
Variable m : Z.
Hypothesis Hm1 : 1 <= m.
Notation bd := (preserves (E:=rerr) (bounded m)).

Lemma bounded_q q r : bounded m r → bounded m (rset_q q r).
Proof. done. Qed.
Lemma bounded_wake w r : bounded m r → bounded m (rset_wake w r).
Proof. done. Qed.
Lemma bounded_counters a b r : bounded m r → bounded m (rset_counters a b r).
Proof. done. Qed.
Lemma bounded_interval s : bd (setIntervalSeconds s).
Proof. by intros r H. Qed.
Lemma bounded_lift {A} (o : stM (Queue payload) qerr A) : bd (lift_q o).
Proof. apply frame_lift, bounded_q. Qed.
Lemma bounded_head t o : bd (peek_head t o).
Proof. apply frame_peek, bounded_q. Qed.
Lemma bounded_now : bd r_now.
Proof. apply frame_now, bounded_counters. Qed.
Lemma bounded_ulid : bd r_ulid.
Proof. apply frame_ulid, bounded_counters. Qed.
Lemma bounded_collect res : bd (collectOnce res).
Proof. apply frame_collect; [apply bounded_q|apply bounded_wake|apply bounded_counters]. Qed.
Lemma bounded_any : bd anyPending.
Proof. apply frame_any, bounded_q. Qed.
Lemma bounded_flush : bd flushOverflowEvents.
Proof. apply frame_flush; [apply bounded_q|apply bounded_counters]. Qed.
Lemma bounded_outcome {A} (o : outcome rerr A) : bd (of_outcome o).
Proof. by intros r H. Qed.
#[local] Hint Resolve bounded_lift bounded_head bounded_now bounded_ulid bounded_interval bounded_collect bounded_any bounded_flush
  bounded_outcome : presdb.

(** A request is one more, and has the frames collected while it is under way. *)
Lemma bounded_request req :
  match req with ReqEvents _ ps => Z.of_nat (length ps) <= m | ReqMetrics _ => True end → bd (do_request req).
Proof.
  intros Hreq r (Hm & Hw). unfold do_request. set (n := length _). set (r1 := rset_posts _ r).
  assert (bounded m r1) as Hr1.
  { split; [done|]. intros at_ ps a [Hin|Hin]%elem_of_app; [by eapply Hw|].
    apply list_elem_of_singleton in Hin. injection Hin as <- _. exact Hreq. }
  apply (preserves_bind (E:=rerr) (bounded m)); [|intros ?; apply preserves_ret|exact Hr1].
  apply preserves_foldl. intros ??. apply bounded_collect.
Qed.
Lemma bounded_metrics p : bd (PostMetrics p).
Proof. apply preserves_bind; [by apply bounded_request|intros; apply bounded_outcome]. Qed.
Lemma bounded_events at_ ps : Z.of_nat (length ps) <= m → bd (PostEvents (BuildEvents ps at_)).
Proof. intros Hl. apply preserves_bind; [by apply bounded_request|intros; apply bounded_outcome]. Qed.
#[local] Hint Resolve bounded_metrics bounded_events : presdb.

(** A peek gives at most as many rows as asked for. *)
Lemma peek_length k r rows r1 :
  0 <= k → lift_q (PeekEvents k) r = (Ok rows, r1) → Z.of_nat (length rows) <= k ∧ rp_posts r1 = rp_posts r ∧
    rp_maxEventSend r1 = rp_maxEventSend r.
Proof.
  intros Hk. unfold lift_q. destruct (PeekEvents k (rp_q r)) as [[x|?] q'] eqn:E; [|done].
  intros [= -> <-]. apply q_query_Ok in E as (_ & -> & ->). split; [|done]. unfold oldest.
  rewrite decide_False by lia. rewrite length_take. lia.
Qed.

(** Peek at most [k] events and post them. *)
Lemma bounded_peek {B} k (rest : list (qrow payload) → stM Reporter rerr B) :
  0 <= k → k <= m → (∀ rows, Z.of_nat (length rows) <= k → bd (rest rows)) → bd (rows ← lift_q (PeekEvents k); rest rows).
Proof.
  intros Hk0 Hk Hr r H. unfold mbind, stM_bind. pose proof (bounded_lift (PeekEvents k) r H) as H1.
  destruct (lift_q (PeekEvents k) r) as [[rows|e] r1] eqn:E; [|done]. apply Hr; [|done]. by eapply peek_length.
Qed.

Lemma bounded_drain_metrics fuel : bd (drain_metrics fuel).
Proof. induction fuel as [|fuel IH]; cbn [drain_metrics]; unfold dropPoisonMetrics, emitSystemEventNoTrim; pres. Qed.

Lemma bounded_drain_events fuel : bd (drain_events fuel).
Proof.
  induction fuel as [|fuel IH]; cbn [drain_events]; [apply preserves_throw|]. intros r Hr. pose proof Hr as (Hm & _).
  rewrite (st_bind_Ok_step _ _ _ (rp_maxEventSend r) r) by done. rewrite Hm. revert r Hr Hm.
  cut (bd (rows ← lift_q (PeekEvents m);
    match rows with
    | [] => mret ()
    | _ =>
      now ← r_now;
      ack ← st_try (PostEvents (BuildEvents (q_Payload <$> rows) now));
      match ack with
      | Err serr => if decide (Classify serr = ErrPoison) then dropPoisonEvents rows serr ;; drain_events fuel else st_throw serr
      | Ok _ => lift_q (DeleteEvents (q_ID <$> rows)) ;; drain_events fuel
      end
    end)); [intros H r Hr _; by apply H|].
  apply bounded_peek; [lia|done|]. intros rows Hl.
  assert (∀ now, bd (PostEvents (BuildEvents (q_Payload <$> rows) now))) by (intros; apply bounded_events; by rewrite length_fmap).
  unfold dropPoisonEvents, emitSystemEventNoTrim. pres.
Qed.

Lemma bounded_steps fuel steps d : bd (run_steps fuel steps d).
Proof.
  assert (bd (drainOnce fuel)) as Hd.
  { unfold drainOnce. pose proof (bounded_drain_metrics fuel). pose proof (bounded_drain_events fuel). pres. }
  assert (bd (catch (drainOnce fuel))) as Hc by (unfold catch; pres).
  assert (∀ w, bd (st_modify (rset_wake w))) as Hw by (by intros w r Hr).
  assert (∀ d, bd (probeUnauthorized d)) as Hp.
  { intros d'. assert (∀ at_ p, bd (PostEvents (BuildEvents [p] at_))) by (intros; apply bounded_events; cbn; lia).
    unfold probeUnauthorized, handleProbeErr. pres. }
  revert d. induction steps as [|st steps IH]; intros d; cbn [run_steps]; [apply preserves_ret|].
  apply preserves_bind; [|intros []; auto; apply preserves_ret].
  destruct st as [res|s]; unfold run_step, collect_tick, drain_iteration, finalFlush, on_wake, after_drain; pres.
Qed.
End bounded.

(** ** What the hub decodes *)

Section wire.
(** The text of a [ref] object. *)
Variable json_text : json → string.

(** An event as [encoding/json] writes it for the agent's type and reads it for the hub's: the
    names of the fields agree, an empty body or reference is left out. *)
Definition wire (e : Event) : eventPayload :=
  {| ep_EventID := ev_EventID e; ep_Seq := ev_Seq e; ep_Kind := ev_Kind e;
     ep_OccurredAt := ISOTime_MarshalJSON (ev_OccurredAt e); ep_Severity := ev_Severity e;
     ep_FaultKey := ev_FaultKey e; ep_IncidentAction := ev_IncidentAction e; ep_Title := ev_Title e;
     ep_Body := nullStr (ev_Body e);
     ep_Ref := match ev_Ref e with Some j => json_text j | None => EmptyString end;
     ep_Attachments := (λ a, {| ad_ID := at_ID a; ad_Kind := at_Kind a; ad_Filename := at_Filename a; ad_Mime := at_Mime a;
                                ad_ByteSize := at_ByteSize a; ad_SHA256 := at_SHA256 a |}) <$> ev_Attachments e |}.

Definition wire_events (ps : list payload) : list eventPayload :=
  omap (λ p, match p with PEvent e => Some (wire e) | PMetrics _ => None end) ps.

Definition wire_batch (sentAt : Z) (ps : list payload) : ingestEventsReq :=
  {| ier_SentAt := ISOTime_MarshalJSON sentAt; ier_Events := wire_events ps |}.

(** The text of a ULID: 26 characters an event id may have. *)
Definition ulid_text (id : string) : Prop := String.length id = 26%nat ∧ Ingest.str_all event_id_char id = true.

(** The events the agent makes, from a clock within the years a timestamp can have. *)
Inductive agent_made : Event → Prop :=
| made_started seq version hostname now id :
    ts_range now → ulid_text id → agent_made (AgentStartedEvent seq version hostname now id)
| made_overflow seq t dropped firstAt lastAt now id :
    ts_range now → ulid_text id → ts_range firstAt → ts_range lastAt → int64_min <= dropped <= int64_max →
    agent_made (QueueOverflowEvent seq (kind_of t) dropped firstAt lastAt now id)
| made_dropped seq what reason now id :
    ts_range now → ulid_text id → agent_made (PayloadDroppedEvent seq what reason now id).

Lemma truncate_runes s n : 0 <= n → rune_count (truncateRunes s n) <= n.
Proof.
  intros Hn. unfold truncateRunes. case_decide; [done|]. unfold rune_count. rewrite runes_cut, length_take. lia.
Qed.

Lemma rune_count_le s : rune_count s <= Z.of_nat (String.length s).
Proof. unfold rune_count. pose proof (runes_length s). lia. Qed.

(** A title that begins with a rune keeps it when it is cut. *)
Lemma truncate_nonempty r s n : 1 <= n → whole r → truncateRunes (r +:+ s)%string n ≠ EmptyString.
Proof.
  intros Hn Hr. unfold truncateRunes. rewrite runes_cons by done. case_decide.
  - destruct Hr as [Hr _]. by destruct r; [cbn in Hr; lia|].
  - destruct (Z.to_nat n) as [|k] eqn:E; [lia|]. cbn [take concat_str]. destruct Hr as [Hr _]. by destruct r; [cbn in Hr; lia|].
Qed.

Lemma stamp_length t : ts_range t → (String.length (fmtRFC3339 t) <= 30)%nat.
Proof.
  intros Ht. unfold fmtRFC3339. destruct (civil_from_days (t / day_ns)) as [[y m] d] eqn:E.
  pose proof (civil_year_range _ _ _ _ Ht E) as Hy. rewrite !length_append, !pad_length. unfold append_int.
  rewrite decide_False by lia. rewrite decide_True by (cbn; lia). rewrite pad_length. cbn. lia.
Qed.

(** What the hub asks of an event, the clock apart. *)
Definition passes (e : Event) : Prop :=
  eventIDRe (ev_EventID e) = true ∧ ev_Kind e ≠ EmptyString ∧ validate_rest (wire e) = EmptyString ∧
  is_Some (parseTS (ISOTime_MarshalJSON (ev_OccurredAt e))).

Lemma built_passes e kind severity title body seq now id :
  e = {| ev_EventID := ("ag_" +:+ id)%string; ev_Seq := seq; ev_Kind := kind; ev_OccurredAt := NewISOTime now;
         ev_Severity := severity; ev_FaultKey := None; ev_IncidentAction := None; ev_Title := title; ev_Body := body;
         ev_Ref := None; ev_Attachments := [] |} →
  ts_range now → ulid_text id → kind ≠ EmptyString → severity ∈ ["info"; "warning"; "critical"]%string →
  title ≠ EmptyString → rune_count title <= 200 → rune_count body <= 20000 → passes e.
Proof.
  intros -> Hnow [Hl Hid] Hk Hsev Ht1 Ht2 Hb. unfold passes. cbn [ev_EventID ev_Kind ev_OccurredAt]. split_and!; [|done| |].
  - unfold eventIDRe, str_len. rewrite length_append, Hl. by rewrite !append_cons.
  - unfold validate_rest. cbn [wire ep_Severity ep_Title ep_Body ep_IncidentAction ep_FaultKey ev_Severity ev_Title ev_Body
      ev_IncidentAction ev_FaultKey]. rewrite bool_decide_true by done. cbn [negb]. rewrite !bool_decide_false by (done || lia).
    cbn [orb]. unfold nullStr. case_decide; [done|]. by rewrite bool_decide_false by lia.
  - unfold ISOTime_MarshalJSON, NewISOTime. rewrite parse_fmt; [by eexists|]. unfold ts_range, truncate_to in *.
    pose proof (Z.mod_pos_bound now Millisecond eq_refl). split; [|lia].
    assert (date_utc 0 1 1 0 0 0 0 = Millisecond * (date_utc 0 1 1 0 0 0 0 / Millisecond)) as E by (vm_compute; done).
    rewrite E in *. pose proof (Z.div_mod now Millisecond ltac:(done)). 
    assert (date_utc 0 1 1 0 0 0 0 / Millisecond <= now / Millisecond); [|nia]. apply Z.div_le_lower_bound; [done|lia].
Qed.

Lemma made_passes e : agent_made e → passes e.
Proof.
  intros [seq version hostname now id Hn Hid|seq t dropped firstAt lastAt now id Hn Hid H1 H2 Hd|seq what reason now id Hn Hid].
  - eapply built_passes; [reflexivity|done..|set_solver| |apply truncate_runes; lia|apply truncate_runes; lia].
    apply (truncate_nonempty "采"); [lia|]. split; [cbn; lia|done].
  - eapply built_passes; [reflexivity|done..|set_solver| |apply truncate_runes; lia|].
    + apply (truncate_nonempty "本"); [lia|]. split; [cbn; lia|done].
    + etransitivity; [apply rune_count_le|]. pose proof (stamp_length _ H1). pose proof (stamp_length _ H2).
      pose proof (fmt_d_length _ Hd). rewrite !length_append. destruct t; cbn [kind_of String.length]; lia.
  - eapply built_passes; [reflexivity|done..|set_solver| |apply truncate_runes; lia|apply truncate_runes; lia].
    apply (truncate_nonempty "上"); [lia|]. split; [cbn; lia|done].
Qed.

(** The message of a refusal for age. *)
Definition late_message : string := "occurredAt 超出 90 天补传窗口".

(** The hub refuses such an event for its age only, by a reading made meanwhile. *)
Lemma passes_valid `{HE : HubEnv} lo hi e rejected :
  passes e → refused lo hi (wire e) rejected →
  ∃ t n, parseTS (ISOTime_MarshalJSON (ev_OccurredAt e)) = Some t ∧ (lo <= n < hi)%nat ∧ maxBackfillAge < time_sub (h_now n) t ∧
    (ev_EventID e, "invalid_request"%string, late_message) ∈ rejected.
Proof.
  intros (Hid & Hk & Hrest & t & Ht) (w0 & msg & w1 & Hv & Hlo & Hhi & Hne & Hin). revert Hv.
  unfold validateEvent. cbn [wire ep_EventID ep_Kind ep_OccurredAt]. rewrite Hid, Ht. cbn [negb].
  rewrite decide_False by done. unfold nowUTC, mbind, stM_bind, mret, stM_ret.
  case_decide as Ha; [|rewrite Hrest; by intros [= <- <-]]. intros [= <- <-]. cbn in Hhi.
  exists t, (w_ticks w0). split_and!; [done|lia|lia|done|exact Hin].
Qed.
End wire.

(** ** The hub's side of a request *)

Section serving.
Context `{HE : HubEnv} `{SS : SliceSort} `{GR : GzipReader}.
Variable parse_events : string → option ingestEventsReq.
Variable parse_metrics : string → option ingestMetricsReq.
Variable auth : string.

Definition error_body (code msg : string) : resp_body :=
  {| rb_metrics := None; rb_events := None; rb_decode_err := EmptyString; rb_code := code; rb_message := msg; rb_text := EmptyString |}.

Definition answer_rej (r : rej) : RejectedEvent := {| rej_EventID := r.1.1; rej_Code := r.1.2; rej_Message := r.2 |}.

(** What the agent decodes of the hub's answers. *)
Definition events_answer (r : outcome herr (reply eventsReply)) : http_answer :=
  match r with
  | Ok (Reply st b) =>
    Response st EmptyString {| rb_metrics := None;
      rb_events := Some {| ea_Accepted := vp_accepted b; ea_Duplicates := vp_duplicates b;
        ea_Rejected := answer_rej <$> vp_rejected b;
        ea_LastSeq := vp_lastSeq b; ea_ServerTime := vp_serverTime b |};
      rb_decode_err := EmptyString; rb_code := EmptyString; rb_message := EmptyString; rb_text := EmptyString |}
  | Ok (Fail st code msg) => Response st EmptyString (error_body code msg)
  | Err _ => NoResponse EmptyString
  end.

Definition metrics_answer (r : outcome herr (reply metricsReply)) : http_answer :=
  match r with
  | Ok (Reply st b) =>
    Response st EmptyString {| rb_events := None;
      rb_metrics := Some {| ma_Accepted := mp_accepted b; ma_Duplicate := mp_duplicate b; ma_ServerTime := mp_serverTime b;
        ma_ReportIntervalSeconds := mp_reportIntervalSeconds b |};
      rb_decode_err := EmptyString; rb_code := EmptyString; rb_message := EmptyString; rb_text := EmptyString |}
  | Ok (Fail st code msg) => Response st EmptyString (error_body code msg)
  | Err _ => NoResponse EmptyString
  end.

(** The handlers from the body on, behind the check of the key. *)
Definition events_handler (enc raw : string) (src : sourceRow) : stM World herr (reply eventsReply) :=
  match decodeBody parse_events enc raw with inl r => mret r | inr req => handleIngestEvents src req end.
Definition metrics_handler (enc raw : string) (src : sourceRow) : stM World herr (reply metricsReply) :=
  match decodeBody parse_metrics enc raw with inl r => mret r | inr req => handleIngestMetrics src req end.

Definition post_events (enc raw : string) (w : World) : http_answer * World :=
  let '(r, w') := sourceKeyAuth (events_handler enc raw) auth w in (events_answer r, w').
Definition post_metrics (enc raw : string) (w : World) : http_answer * World :=
  let '(r, w') := sourceKeyAuth (metrics_handler enc raw) auth w in (metrics_answer r, w').

Lemma orderly_events_handler enc raw src : orderly (events_handler enc raw src).
Proof. unfold events_handler. destruct (decodeBody _ _ _); [apply orderly_still, still_ret|apply orderly_events]. Qed.
Lemma orderly_metrics_handler enc raw src : orderly (metrics_handler enc raw src).
Proof. unfold metrics_handler. destruct (decodeBody _ _ _); [apply orderly_still, still_ret|apply orderly_metrics]. Qed.
Lemma lasting_events_handler enc raw src : lasting (events_handler enc raw src).
Proof. unfold events_handler. destruct (decodeBody _ _ _); [apply lasting_still, still_ret|apply lasting_events]. Qed.
Lemma lasting_metrics_handler enc raw src : lasting (metrics_handler enc raw src).
Proof. unfold metrics_handler. destruct (decodeBody _ _ _); [apply lasting_still, still_ret|apply lasting_metrics]. Qed.

(** No transaction is open and the tables are sound. *)
Definition sound (w : World) : Prop := w_tx w = None ∧ db_ok (w_db w).

Lemma sourced {B} (h : sourceRow → stM World herr (reply B)) w :
  (∀ s, orderly (h s)) → (∀ s, lasting (h s)) → sound w →
  sound (sourceKeyAuth h auth w).2 ∧ lasts (w_db w) (w_db (sourceKeyAuth h auth w).2).
Proof.
  intros Ho Hl [Ht Hok]. destruct (orderly_source h auth Ho w Ht) as (Ht' & rows & _ & _ & Hinv).
  destruct (lasting_source h auth Hl w Ht) as [_ H]. split; [split; auto|done].
Qed.

(** The answers by which the agent deletes what it sent. *)
Definition settles (a : http_answer) : Prop :=
  (∃ ack, events_ack a = Ok ack) ∨ ∃ e, events_ack a = Err e ∧ Classify e = ErrPoison.

(** What an acknowledgement refuses. *)
Definition refusals (a : http_answer) : list RejectedEvent :=
  match events_ack a with Ok ack => ea_Rejected ack | Err _ => [] end.

Notation keys w := (pkey <$> d_events (w_db w) : list (string * string)).

(** A batch that was acknowledged, its events are on record, or were refused by a validation
    made while it was handled, with its message in the answer. *)
Lemma events_recorded src req w st b w' :
  handleIngestEvents src req w = (Ok (Reply st b), w') →
  ∀ ev, ev ∈ ier_Events req → (s_ID src, ep_EventID ev) ∈ keys w' ∨ refused (w_ticks w) (w_ticks w') ev (vp_rejected b).
Proof.
  intros Hrun. apply events_reply_ticks in Hrun as (_ & at_ & w0 & tr & last & acc & ch & w1 & Ht & Htx & Ht1 & Hrj & T1 & T2).
  pose proof (events_tx_sorts _ _ _ _ _ _ _ _ _ Htx) as Hsort.
  destruct (events_tx_Ok _ _ _ _ _ _ _ _ _ _ _ Ht Htx Ht1) as
    (cur & d1 & d2 & lo & hi & last0 & hub & Hid & _ & Hev1 & _ & _ & Htri & Hb & _ & Hev & _).
  destruct (batch_events _ _ _ _ _ _ _ Hb) as (rows & Hev2 & _ & Hkeys).
  assert (∀ x, x ∈ eids (tr_valid tr) → (s_ID src, x) ∈ keys w') as Hnew.
  { intros x (it & -> & Hit)%list_elem_of_fmap. rewrite Hev, Hev2, fmap_app, elem_of_app. right. rewrite Hkeys, Hid.
    apply list_elem_of_fmap. exists it.2. split; [done|]. apply list_elem_of_fmap_2. by rewrite sort_items_perm. }
  intros ev Hin. assert (∃ i, (i, ev) ∈ imap pair (ier_Events req)) as [i Hi].
  { apply list_elem_of_lookup_1 in Hin as [i Hl]. exists i. apply elem_of_lookup_imap. by exists i, ev. }
  destruct (Hsort _ Hi) as [Hv|[Hd|(w2 & msg & w3 & Hv & Hlo & Hhi & Hne & Hrej)]].
  - left. apply Hnew, list_elem_of_fmap. by exists (i, ev).
  - left. destruct (tg_old _ _ _ _ Htri (i, ev) Hi Hd) as [H|H]; [|by apply Hnew].
    rewrite Hev, Hev2, fmap_app, elem_of_app. by left.
  - right. rewrite Hrj. exists w2, msg, w3. split_and!; [done|lia|lia|done|done].
Qed.

(** The answer to a batch of at most a hundred events by which the agent may delete it: the key
    opened a source, the answer is an acknowledgement, and each event is on record for the
    source or among its refusals. *)
Lemma post_events_settled enc raw req w :
  decodeBody (B := eventsReply) parse_events enc raw = inr req →
  Z.of_nat (length (ier_Events req)) <= 100 → settles (post_events enc raw w).1 →
  ∃ src rejected, opens auth (w_db w) src ∧ refusals (post_events enc raw w).1 = answer_rej <$> rejected ∧
    ∀ ev, ev ∈ ier_Events req → (s_ID src, ep_EventID ev) ∈ keys (post_events enc raw w).2 ∨
      refused (w_ticks w) (w_ticks (post_events enc raw w).2) ev rejected.
Proof.
  intros Hdec Hlen Hset. unfold post_events in *. pose proof (source_session auth w) as H.
  assert (∀ r w1, sourceKeyAuth (λ s, mret (Reply 200 s)) auth w = (r, w1) → (w_ticks w <= w_ticks w1)%nat) as Htick.
  { intros r w1. apply adv_ticks, key_ticks. intros src n. apply preserves_ret. }
  destruct (sourceKeyAuth (λ s, mret (Reply 200 s)) auth w) as [[[st src|st c msg]|e] w1]; destruct H as (_ & _ & H); [| |done].
  - specialize (Htick _ _ eq_refl).
    destruct H as [Ho Hk]. rewrite Hk in Hset |- *. unfold events_handler in *. rewrite Hdec in Hset |- *.
    destruct (handleIngestEvents src req w1) as [[[st' b|st' c' msg']|e'] w2] eqn:E; cbn [snd fst] in *.
    + exists src, (vp_rejected b). split; [done|]. split.
      { by destruct (events_reply_ticks _ _ _ _ _ _ E) as [-> _]. }
      intros ev Hev. destruct (events_recorded _ _ _ _ _ _ E ev Hev) as [?|(w3 & m & w4 & H1 & H2 & H3 & H4 & H5)]; [by left|right].
      exists w3, m, w4. split_and!; [done|lia|done..].
    + exfalso. assert (st' = 500) as ->.
      { unfold handleIngestEvents in E. rewrite decide_False in E by lia. mrun E. mrun E. unfold st_try in Hrun0.
        destruct (withTx _ _) as [r w3]. injection Hrun0 as -> ->. destruct a0 as [[tr [[l a0] ch]]|e0]; [|by injection E].
        mrun E. mrun E. discriminate E. }
      by destruct Hset as [[ack Ha]|(e & [= <-] & Hp)].
    + exfalso. by destruct (answers_events src req _ _ _ E).
  - exfalso. destruct H as [Hst Hk]. rewrite Hk in Hset. cbn [fst events_answer] in Hset.
    repeat (apply elem_of_cons in Hst as [->|Hst]; [by destruct Hset as [[ack Ha]|(e & [= <-] & Hp)]|]). by apply elem_of_nil in Hst.
Qed.
End serving.

(** ** The exchange *)

Section exchange.
Context `{HE : HubEnv} `{SS : SliceSort} `{SF : SqlFuns} `{CE : CacheEnv} `{CS : CandidateSort} `{GR : GzipReader}.

(** The hub's surroundings, as in [Hub]. *)
Variable bcrypt_match : string → string → bool.
Variable url_parse : string → option URL.
Variable decode_manifest : string → option agentManifest.
Variable installer : option string.
Variable upstream : up_request → option up_response.
Variable json_decode : string → option json.
Variable json_encode : list (string * json) → string.
Variable json_encode_raw : list (string * string) → option string.
Variable error_code : string → option string.
Variable decode_ref : string → option string.
Notation hub_run := (hub_run bcrypt_match url_parse decode_manifest installer upstream json_decode json_encode json_encode_raw error_code decode_ref).
Notation routes := (routes bcrypt_match url_parse decode_manifest installer upstream json_decode json_encode json_encode_raw error_code decode_ref).

(** The text of a reference; the agent's encoder and the hub's decoders. *)
Variable json_text : json → string.
Variable text : AgentReport.request → string.
Variable parse_events : string → option ingestEventsReq.
Variable parse_metrics : string → option ingestMetricsReq.

(** The compression the agent is configured to use, if any. *)
Variable gzip : option (string → string).

(** The [Authorization] header of the agent's requests, and the source whose key it carries. *)
Variable auth sid : string.

(* @src agent/internal/report/client.go 122-150 !post *)
(** The [Content-Encoding] and the body of a request. *)
Definition wire_body (req : AgentReport.request) : string * string :=
  match gzip with Some z => ("gzip"%string, z (text req)) | None => (EmptyString, text req) end.

(** What a request of the agent does to the hub, and how it is answered. *)
Definition arrives (req : AgentReport.request) (w : World) : http_answer * World :=
  let '(enc, raw) := wire_body req in
  match req with
  | ReqEvents _ _ => post_events parse_events auth enc raw w
  | ReqMetrics _ => post_metrics parse_metrics auth enc raw w
  end.

(** [encoding/json] on both sides: a batch is decoded to what was encoded. *)
Definition understood (posts : list (AgentReport.request * http_answer)) : Prop :=
  ∀ at_ ps ans, (ReqEvents at_ ps, ans) ∈ posts → parse_events (text (ReqEvents at_ ps)) = Some (wire_batch json_text at_ ps).

(** [compress/gzip]: what is compressed is read back, and grows by at most 8 KiB. *)
Definition gzip_law : Prop := ∀ z s, gzip = Some z →
  gz_header (z s) = true ∧ gz_read (z s) = (s, GzEnded) ∧ (str_len s <= maxBody → str_len (z s) <= maxBody + 8 * 1024).

(** An answer after which the agent keeps what it sent: none, one it cannot read, 401, 403,
    429, 5xx. *)
Definition unheard (req : AgentReport.request) (a : http_answer) : Prop :=
  match req with
  | ReqEvents _ _ => ∃ e, events_ack a = Err e ∧ Classify e ≠ ErrPoison
  | ReqMetrics _ => ∃ e, metrics_ack a = Err e ∧ Classify e ≠ ErrPoison
  end.

(** More than the 256 KiB a body may have. *)
Definition oversize (req : AgentReport.request) : Prop := 256 * 1024 < str_len (text req).

(** What the hub did in an exchange: it served a request of the agent's, from one state of its
    world to another and with an answer of its own, or went about its other work. *)
Inductive moment :=
| Served (req : AgentReport.request) (w w' : World) (own : http_answer)
| Meanwhile (ops : list hub_op) (a : app).

(** The agent's requests with the answers it got, as a hub and a network could have made them:
    the hub answers; it does its part and the answer is lost; the request is lost; and between
    requests the hub serves others, streams, and runs its loops. *)
Inductive exchange : app → list moment → list (AgentReport.request * http_answer) → app → Prop :=
| ex_done a : exchange a [] [] a
| ex_meanwhile ops a ms posts a' :
    exchange (hub_run a ops) ms posts a' → exchange a (Meanwhile ops a :: ms) posts a'
| ex_served req answer a ms posts a' :
    (∀ src, opens auth (w_db (ap_world a)) src → s_ID src = sid) →
    answer = (arrives req (ap_world a)).1 ∨ unheard req answer →
    exchange (with_world (arrives req (ap_world a)).2 a) ms posts a' →
    exchange a (Served req (ap_world a) (arrives req (ap_world a)).2 (arrives req (ap_world a)).1 :: ms) ((req, answer) :: posts) a'
| ex_lost req answer a ms posts a' :
    unheard req answer → exchange a ms posts a' → exchange a ms ((req, answer) :: posts) a'.

(** What is decoded goes through the hub's routes. *)
Lemma arrives_routes at_ ps breq a :
  decodeBody (B := eventsReply) parse_events (wire_body (ReqEvents at_ ps)).1 (wire_body (ReqEvents at_ ps)).2 = inr breq →
  ap_world (routes auth (Hub.PostEvents breq) a).2 = (arrives (ReqEvents at_ ps) (ap_world a)).2.
Proof.
  unfold arrives, post_events, events_handler. destruct (wire_body _) as [enc raw]. cbn [fst snd]. intros ->.
  cbn -[sourceKeyAuth]. unfold source, on_world. by destruct (sourceKeyAuth _ _ _) as [[]].
Qed.

Lemma arrives_sound req w : sound w → sound (arrives req w).2 ∧ lasts (w_db w) (w_db (arrives req w).2).
Proof.
  intros Hw. unfold arrives. destruct (wire_body req) as [enc raw]. destruct req as [p|at_ ps]; unfold post_metrics, post_events.
  - pose proof (sourced auth (metrics_handler parse_metrics enc raw) w (orderly_metrics_handler _ _ _) (lasting_metrics_handler _ _ _) Hw).
    by destruct (sourceKeyAuth _ _ _).
  - pose proof (sourced auth (events_handler parse_events enc raw) w (orderly_events_handler _ _ _) (lasting_events_handler _ _ _) Hw).
    by destruct (sourceKeyAuth _ _ _).
Qed.

(** A batch that is not too large reaches the handler as it was sent. *)
Lemma decoded req breq :
  gzip_law → ¬ oversize req → parse_events (text req) = Some breq →
  decodeBody (B := eventsReply) parse_events (wire_body req).1 (wire_body req).2 = inr breq.
Proof.
  unfold oversize, wire_body. intros Hz Hs Hp. destruct gzip as [z|] eqn:E; cbn [fst snd].
  - destruct (Hz z (text req) E) as (H1 & H2 & H3). apply (decode_gzip _ _ (text req)); [done|done|apply H3|..]; unfold maxBody; lia || done.
  - apply decode_plain; [unfold maxBody; lia|done].
Qed.

(** What happened to an event of the agent's, as far as the hub is concerned: its row is in the
    table; *)
Definition on_record (e : Event) (d : db) : Prop :=
  (sid, ev_EventID e) ∈ (pkey <$> d_events d : list (string * string)).

(** it was there, and old enough to go, when a retention run took place; *)
Definition forgotten (e : Event) (ms : list moment) : Prop :=
  ∃ ops1 now ops2 a row, Meanwhile (ops1 ++ RetentionTick now :: ops2) a ∈ ms ∧
    let a1 := hub_run a ops1 in
    row ∈ d_events (w_db (ap_world a1)) ∧ pkey row = (sid, ev_EventID e) ∧
    str_lt (e_received_at row) (fmtTS (days_before now (cfg_messagesDays (ap_cfg a1)))).

(** the hub, handling a request that carried it, read on its clock that it happened more than
    90 days ago, and refused it by name in the answer the agent got. *)
Definition refused_late (e : Event) (ms : list moment) (posts : list (AgentReport.request * http_answer)) : Prop :=
  ∃ at_ ps w w' own t n, Served (ReqEvents at_ ps) w w' own ∈ ms ∧ PEvent e ∈ ps ∧ (ReqEvents at_ ps, own) ∈ posts ∧
    parseTS (ISOTime_MarshalJSON (ev_OccurredAt e)) = Some t ∧
    (w_ticks w <= n < w_ticks w')%nat ∧ maxBackfillAge < time_sub (h_now n) t ∧
    {| rej_EventID := ev_EventID e; rej_Code := "invalid_request"; rej_Message := late_message |} ∈ refusals own.

Lemma lasts_record e d d' : lasts d d' → on_record e d → on_record e d'.
Proof. unfold on_record. intros [l ->]. rewrite fmap_app, elem_of_app. by left. Qed.

Lemma forgotten_more e m ms : forgotten e ms → forgotten e (m :: ms).
Proof. intros (ops1 & now & ops2 & a & row & Hin & H). exists ops1, now, ops2, a, row. split; [by right|exact H]. Qed.

Lemma refused_more e m p ms posts : refused_late e ms posts → refused_late e (m ++ ms) (p ++ posts).
Proof.
  intros (at_ & ps & w & w' & own & t & n & H1 & H2 & H3 & H). exists at_, ps, w, w', own, t, n.
  split; [apply elem_of_app; by right|]. split; [done|]. split; [apply elem_of_app; by right|exact H].
Qed.

Lemma run_sound ops a : sound (ap_world a) → sound (ap_world (hub_run a ops)).
Proof.
  intros [Ht Hok]. destruct (hub_run_advances bcrypt_match url_parse decode_manifest installer upstream json_decode json_encode
    json_encode_raw error_code decode_ref ops a Ht Hok) as (rows & Had).
  split; [exact (ad_tx _ _ _ _ _ Had)|exact (ad_ok _ _ _ _ _ Had)].
Qed.

(** The hub's other work keeps an event, unless a retention run finds it too old. *)
Lemma run_remembers e ops a : sound (ap_world a) → on_record e (w_db (ap_world a)) →
  on_record e (w_db (ap_world (hub_run a ops))) ∨ forgotten e [Meanwhile ops a].
Proof.
  revert a. induction ops as [|o ops IH] using rev_ind; intros a Hs Hrec; [by left|].
  destruct (IH a Hs Hrec) as [Hrec1|(ops1 & now & ops2 & a1 & row & Hin & H)].
  2: { right. apply list_elem_of_singleton in Hin as [= <- ->]. exists ops1, now, (ops2 ++ [o]), a, row. split; [|exact H].
    rewrite <-app_assoc. by left. }
  pose proof (run_sound ops a Hs) as Hs1. unfold Hub.hub_run in *. rewrite foldl_app. cbn [foldl].
  fold (hub_run a ops) in *. destruct (is_retention o) eqn:Eo.
  - destruct o as [| | |now|]; try done. apply list_elem_of_fmap in Hrec1 as (row & Hk & Hrow).
    destruct Hs1 as [Ht1 Hok1].
    destruct (retention_tick_events (ap_cfg (hub_run a ops)) now (ap_world (hub_run a ops)) row Ht1 Hok1 Hrow) as [Hin|Hold].
    + left. unfold on_record. rewrite Hk. by apply (list_elem_of_fmap_2 pkey).
    + right. exists ops, now, [], a, row. split; [left|]. split; [exact Hrow|]. split; [by rewrite Hk|exact Hold].
  - left. eapply lasts_record; [|exact Hrec1]. apply hub_step_keeps; [apply Hs1|done].
Qed.

(** An exchange leaves the hub sound, and forgets nothing else. *)
Lemma exchange_sound a ms posts a' : exchange a ms posts a' → sound (ap_world a) → sound (ap_world a').
Proof.
  induction 1 as [a|ops a ms posts a' Hx IH|req answer a ms posts a' Hsid Ha Hx IH|req answer a ms posts a' Hu Hx IH];
    intros Hs; [done|by apply IH, run_sound| |by apply IH].
  apply IH. by apply arrives_sound.
Qed.

Lemma exchange_remembers e a ms posts a' : exchange a ms posts a' → sound (ap_world a) →
  on_record e (w_db (ap_world a)) → on_record e (w_db (ap_world a')) ∨ forgotten e ms.
Proof.
  induction 1 as [a|ops a ms posts a' Hx IH|req answer a ms posts a' Hsid Ha Hx IH|req answer a ms posts a' Hu Hx IH];
    intros Hs Hrec; [by left| | |by apply IH].
  - destruct (run_remembers e ops a Hs Hrec) as [Hrec1|(ops1 & now & ops2 & a1 & row & Hin & H)].
    + destruct (IH (run_sound ops a Hs) Hrec1) as [?|?]; [by left|right; by apply forgotten_more].
    + right. exists ops1, now, ops2, a1, row. split; [|exact H]. apply list_elem_of_singleton in Hin as ->. left.
  - destruct (arrives_sound req _ Hs) as [Hs1 Hl].
    destruct (IH Hs1 (lasts_record _ _ _ Hl Hrec)) as [?|?]; [by left|right; by apply forgotten_more].
Qed.

Lemma in_wire at_ ps e : PEvent e ∈ ps → wire json_text e ∈ ier_Events (wire_batch json_text at_ ps).
Proof. intros Hin. cbn. unfold wire_events. apply list_elem_of_omap. by exists (PEvent e). Qed.

Lemma wire_length ps : (length (wire_events json_text ps) <= length ps)%nat.
Proof.
  unfold wire_events. induction ps as [|[m|e] ps IH]; [done|unfold omap in *; cbn in *; lia..].
Qed.

(** The request that was settled by the hub's own answer. *)
Lemma served_settles at_ ps a ms posts a' e :
  gzip_law → sound (ap_world a) → (∀ src, opens auth (w_db (ap_world a)) src → s_ID src = sid) →
  parse_events (text (ReqEvents at_ ps)) = Some (wire_batch json_text at_ ps) → Z.of_nat (length ps) <= 100 →
  let own := (arrives (ReqEvents at_ ps) (ap_world a)).1 in let w' := (arrives (ReqEvents at_ ps) (ap_world a)).2 in
  exchange (with_world w' a) ms posts a' → settles own → PEvent e ∈ ps → passes json_text e →
  on_record e (w_db (ap_world a')) ∨ forgotten e (Served (ReqEvents at_ ps) (ap_world a) w' own :: ms) ∨
  refused_late e (Served (ReqEvents at_ ps) (ap_world a) w' own :: ms) ((ReqEvents at_ ps, own) :: posts) ∨
  oversize (ReqEvents at_ ps).
Proof.
  intros Hz Hs Hsid Hpe Hlen own w' Hx Hset He Hp. destruct (arrives_sound (ReqEvents at_ ps) _ Hs) as [Hs1 _].
  destruct (decide (256 * 1024 < str_len (text (ReqEvents at_ ps)))) as [Hbig|Hbig]; [by right; right; right|].
  pose proof (decoded (ReqEvents at_ ps) _ Hz Hbig Hpe) as Hdec.
  assert (arrives (ReqEvents at_ ps) (ap_world a) =
    post_events parse_events auth (wire_body (ReqEvents at_ ps)).1 (wire_body (ReqEvents at_ ps)).2 (ap_world a)) as Earr
    by (unfold arrives; by destruct (wire_body _)).
  unfold own, w' in *. clear own w'. rewrite Earr in *.
  destruct (post_events_settled parse_events auth _ _ _ (ap_world a) Hdec) as (src & rejected & Ho & Hrej & Hev); [|done|].
  { pose proof (wire_length ps). cbn [wire_batch ier_Events]. lia. }
  destruct (Hev _ (in_wire at_ ps e He)) as [Hrec|Hbad].
  - rewrite (Hsid src Ho) in Hrec. destruct (exchange_remembers e _ _ _ _ Hx Hs1 Hrec) as [?|?]; [by left|].
    right. left. by apply forgotten_more.
  - right. right. left. destruct (passes_valid json_text _ _ e rejected Hp Hbad) as (t & n & Ht & Hn & Hage & Hin).
    set (p := post_events _ _ _ _ _) in *. exists at_, ps, (ap_world a), p.2, p.1, t, n.
    split; [left|]. split; [exact He|]. split; [left|]. split; [exact Ht|]. split; [exact Hn|]. split; [exact Hage|].
    rewrite Hrej. apply list_elem_of_fmap. exists (ev_EventID e, "invalid_request"%string, late_message). by split.
Qed.

(** A settled request of an exchange: its events are on record, or were until they were
    forgotten, or were refused for their age, or it was refused for its size. *)
Lemma exchange_settled a ms posts a' : gzip_law → exchange a ms posts a' → sound (ap_world a) → within 100 posts → understood posts →
  ∀ at_ ps ans e, (ReqEvents at_ ps, ans) ∈ posts → settles ans → PEvent e ∈ ps → passes json_text e →
  on_record e (w_db (ap_world a')) ∨ forgotten e ms ∨ refused_late e ms posts ∨ oversize (ReqEvents at_ ps).
Proof.
  intros Hz. induction 1 as [a|ops a ms posts a' Hx IH|req answer a ms posts a' Hsid Ha Hx IH|req answer a ms posts a' Hu Hx IH];
    intros Hs Hw Hund at_ ps ans e Hin Hset He Hp; [by apply elem_of_nil in Hin| | |].
  - destruct (IH (run_sound ops a Hs) Hw Hund at_ ps ans e Hin Hset He Hp) as [?|[?|[?|?]]]; [by left|..|right; right; right; done].
    + right. left. by apply forgotten_more.
    + right. right. left. by apply (refused_more e [_] []).
  - assert (within 100 posts) as Hw' by (intros at' ps' a0 Hin'; eapply Hw; right; exact Hin').
    assert (understood posts) as Hund' by (intros at' ps' a0 Hin'; eapply Hund; right; exact Hin').
    destruct (arrives_sound req _ Hs) as [Hs1 _]. apply elem_of_cons in Hin as [[= <- <-]|Hin].
    + destruct Ha as [->|(err & E & Hk)]; [|by destruct Hset as [[ack E']|(err' & E' & Hk')]; rewrite E in E'; [|injection E' as <-]].
      eapply served_settles; [exact Hz|exact Hs|exact Hsid|eapply Hund; left|eapply Hw; left|exact Hx|exact Hset|exact He|exact Hp].
    + destruct (IH Hs1 Hw' Hund' at_ ps ans e Hin Hset He Hp) as [?|[?|[?|?]]]; [by left|..|right; right; right; done].
      * right. left. by apply forgotten_more.
      * right. right. left. by apply (refused_more e [_] [_]).
  - assert (within 100 posts) as Hw' by (intros at' ps' a0 Hin'; eapply Hw; right; exact Hin').
    assert (understood posts) as Hund' by (intros at' ps' a0 Hin'; eapply Hund; right; exact Hin').
    apply elem_of_cons in Hin as [[= <- <-]|Hin].
    + destruct Hu as (err & E & Hk). by destruct Hset as [[ack E']|(err' & E' & Hk')]; rewrite E in E'; [|injection E' as <-].
    + destruct (IH Hs Hw' Hund' at_ ps ans e Hin Hset He Hp) as [?|[?|[?|?]]]; [by left|right; left; done| |right; right; right; done].
      right. right. left. by apply (refused_more e [] [_]).
Qed.

(** Nothing is on record twice. *)
Lemma recorded_at_most_once x d : db_ok d → (length (filter (λ r, pkey r = x) (d_events d)) <= 1)%nat.
Proof.
  intros Hok. pose proof (ok_events _ Hok) as Hnd. revert Hnd.
  induction (d_events d) as [|r l IH]; [cbn; lia|]. rewrite fmap_cons. intros [Hn Hnd]%NoDup_cons.
  rewrite filter_cons. case_decide as Hr; [|by apply IH].
  rewrite list_filter_none; [cbn; lia|]. intros r' Hr' E. apply Hn. rewrite Hr, <-E. by apply list_elem_of_fmap_2.
Qed.

(** On record is on record once. *)
Lemma recorded_once e d : db_ok d → on_record e d →
  length (filter (λ r, pkey r = (sid, ev_EventID e)) (d_events d)) = 1%nat.
Proof.
  intros Hok. pose proof (ok_events _ Hok) as Hnd. unfold on_record. revert Hnd.
  induction (d_events d) as [|r l IH]; [intros _ H; cbn in H; by apply elem_of_nil in H|]. rewrite fmap_cons. intros [Hn Hnd]%NoDup_cons Hin.
  rewrite filter_cons. case_decide as Hr.
  - cbn. f_equal. rewrite list_filter_none; [done|]. intros r' Hr' E. apply Hn. rewrite Hr, <-E. by apply list_elem_of_fmap_2.
  - apply IH; [done|]. apply elem_of_cons in Hin as [E|?]; [by destruct Hr|done].
Qed.
End exchange.

(** ** Properties *)

(** C1: from the agent's queue to the hub's tables.  The agent and the hub run as they are, the
    network may lose any request and any answer, and in between the hub serves any other
    requests, streams, and runs its loops, retention among them; the agent repeats what it did
    not hear of.  The hub's table then has at most one row for an event the agent made, and the
    event is still in the agent's queue, or on record at the hub for the agent's source, or was
    there until a retention run found the row older than the keeping period; or the hub,
    handling a request that carried it, read on its clock that it happened more than 90 days
    ago and said so in the answer; or it was in a batch whose text is larger than 256 KiB. *)
Theorem delivered_once `{RE : ReportEnv} `{HE : HubEnv} `{SS : SliceSort} `{SF : SqlFuns} `{CE : CacheEnv} `{CS : CandidateSort}
    `{GR : GzipReader}
    bcrypt_match url_parse decode_manifest installer upstream json_decode json_encode json_encode_raw error_code decode_ref
    json_text text parse_events parse_metrics gzip auth sid fuel steps d r row e a ms a'
    (Hq : queue_ok (rp_q r)) (Hb : bounded 100 r) (Hrow : row ∈ events_of (rp_q r)) (He : q_Payload row = PEvent e)
    (Hmade : agent_made e) (Hready : ready a) (Hgzip : gzip_law gzip) :
  let r' := (run_steps fuel steps d r).2 in let posts := drop (length (rp_posts r)) (rp_posts r') in
  let rows := filter (λ s, pkey s = (sid, ev_EventID e)) (d_events (w_db (ap_world a'))) in
  understood json_text text parse_events posts →
  exchange bcrypt_match url_parse decode_manifest installer upstream json_decode json_encode json_encode_raw error_code decode_ref
    text parse_events parse_metrics gzip auth sid a ms posts a' →
  (length rows <= 1)%nat ∧
  (row ∈ events_of (rp_q r') ∨ length rows = 1%nat ∨
   forgotten bcrypt_match url_parse decode_manifest installer upstream json_decode json_encode json_encode_raw error_code decode_ref
     sid e ms ∨
   refused_late e ms posts ∨ (∃ at_ ps ans, (ReqEvents at_ ps, ans) ∈ posts ∧ PEvent e ∈ ps ∧ oversize text (ReqEvents at_ ps))).
Proof.
  intros r' posts rows Hund Hx.
  pose proof (exchange_sound _ _ _ _ _ _ _ _ _ _ _ _ _ _ _ _ _ _ _ _ Hx Hready) as [_ Hok'].
  split; [by apply recorded_at_most_once|].
  destruct (run_keeps_events fuel steps d r row Hq Hrow) as [_ [Hp|(at_ & ps & ans & Hin & Hps & Hset)]]; [by left|].
  right. rewrite He in Hps. assert (within 100 posts) as Hw.
  { destruct (bounded_steps 100 ltac:(done) fuel steps d r Hb) as [_ H]. intros at0 ps0 a0 Hin0. eapply H.
    exact (proj1 (elem_of_subseteq _ _) (subseteq_drop _ _) _ Hin0). }
  destruct (exchange_settled _ _ _ _ _ _ _ _ _ _ _ _ _ _ _ _ _ _ _ _ _ Hgzip Hx Hready Hw Hund at_ ps ans e Hin Hset Hps
    (made_passes json_text e Hmade)) as [Hrec|[Hgone|[Hold|Hbig]]].
  - left. by apply recorded_once.
  - right. by left.
  - right. right. by left.
  - right. right. right. by exists at_, ps, ans.
Qed.

(** ** An agent whose first answer is lost, for the examples *)

(** The agent reads the clock every ten seconds; its first request gets no answer, its second
    [answer]. *)
Definition pipe_env (answer : http_answer) : ReportEnv :=
  {| re_queue := good_env; re_now := λ n, date_utc 2026 9 18 5 0 0 0 + Z.of_nat n * 10 * Second;
     re_ulid := λ _, "01J8ZQ5W3K7N2M4P6R8T0V1X3Y"%string;
     re_hub := λ n _, match n with O => NoResponse "timeout" | _ => answer end; re_frames := λ _, []; re_scanned := λ _, false |}.

Definition pipe_agent : Reporter :=
  (Run_start (RE := pipe_env (NoResponse "")) (New (Open empty_qdb 10 10) test_info 0)).2.
Notation pipe_run answer :=
  (run_steps (RE := pipe_env answer) 5 [StepDrain SelTimer; StepDrain SelTimer] drain_init pipe_agent).2.

Definition pipe_db : db := set_d_sources [set_s_KeyHash (hashToken "ask_1") demo_source] empty_db.
(** Its two requests, which do not depend on how the second one is answered. *)
Definition pipe_req (i : nat) : AgentReport.request :=
  default (ReqEvents 0 []) ((rp_posts (pipe_run (NoResponse ""))).*1 !! i).

(** An encoder and a decoder that understand each other on these, and a compressor that does
    nothing. *)
Definition pipe_text (req : AgentReport.request) : string :=
  match req with ReqEvents at_ _ => fmt_d at_ | ReqMetrics _ => EmptyString end.
Definition pipe_parse (s : string) : option ingestEventsReq :=
  head (omap (λ req, match req with
    | ReqEvents at_ ps => if decide (pipe_text req = s) then Some (wire_batch (λ _, EmptyString) at_ ps) else None
    | ReqMetrics _ => None
    end) [pipe_req 0; pipe_req 1]).
Definition pipe_gzip : GzipReader := {| gz_header := λ _, true; gz_read := λ s, (s, GzEnded) |}.

Definition pipe_arrives (req : AgentReport.request) (w : World) : http_answer * World :=
  arrives (HE := demo_env) (SS := merge_slice_sort) (GR := pipe_gzip) pipe_text pipe_parse (λ _, None) (Some id) "Bearer ask_1" req w.

(** The hub takes the first request, whose answer is lost, and the second one, a repetition. *)
Definition pipe_hub : http_answer * World :=
  pipe_arrives (pipe_req 1) (pipe_arrives (pipe_req 0) (world_of pipe_db)).2.

(** It recognises the event, and the agent's queue is empty then. *)
Example pipe_ends :
  (ea_Accepted <$> match events_ack pipe_hub.1 with Ok ack => Some ack | Err _ => None end) = Some [] ∧
  (ea_Duplicates <$> match events_ack pipe_hub.1 with Ok ack => Some ack | Err _ => None end) =
    Some ["ag_01J8ZQ5W3K7N2M4P6R8T0V1X3Y"]%string ∧
  events_of (rp_q (pipe_run pipe_hub.1)) = [] ∧ length (d_events (w_db pipe_hub.2)) = 1%nat.
Proof. vm_compute. by split_and!. Qed.

Lemma pipe_agent_ok : queue_ok (rp_q pipe_agent).
Proof.
  eexists {| lg_in := λ t, if decide (t = metrics_q) then 0 else 1; lg_deleted := λ _, 0; lg_taken := λ _, 0 |}.
  split_and!; [apply queue_wf_intro| | |]; try (vm_compute; discriminate).
  - intros []; vm_compute; repeat (constructor || discriminate).
  - intros []; vm_compute; reflexivity.
Defined.

Lemma pipe_db_ok `{HE : HubEnv} : db_ok pipe_db.
Proof.
  split; cbn; try (by constructor).
  - intros _ m id Hm. by apply elem_of_nil in Hm.
  - split; constructor.
Defined.

(** The event it has queued at its start. *)
Definition pipe_event : Event :=
  AgentStartedEvent 1 "1" "h" (date_utc 2026 9 18 5 0 0 0) "01J8ZQ5W3K7N2M4P6R8T0V1X3Y".

Lemma pipe_made : agent_made pipe_event.
Proof. apply made_started; [vm_compute; split; discriminate || reflexivity|by split]. Defined.

Lemma pipe_queued : q_Payload <$> events_of (rp_q pipe_agent) = [PEvent pipe_event].
Proof. vm_compute. reflexivity. Defined.

(** The hub could have answered so. *)
Lemma pipe_posts : rp_posts (pipe_run pipe_hub.1) = [(pipe_req 0, NoResponse "timeout"); (pipe_req 1, pipe_hub.1)].
Proof. vm_compute. reflexivity. Defined.
Lemma pipe_answers : pipe_hub = pipe_arrives (pipe_req 1) (pipe_arrives (pipe_req 0) (world_of pipe_db)).2.
Proof. vm_compute. reflexivity. Defined.
Lemma pipe_unheard : unheard (pipe_req 0) (NoResponse "timeout").
Proof. vm_compute. eexists. split; [reflexivity|discriminate]. Defined.
Lemma pipe_sources : s_ID <$> d_sources (w_db (pipe_arrives (pipe_req 0) (world_of pipe_db)).2) = ["src_1"%string].
Proof. vm_compute. reflexivity. Defined.

Lemma pipe_source auth w src :
  s_ID <$> d_sources (w_db w) = ["src_1"]%string → opens auth (w_db w) src → s_ID src = "src_1"%string.
Proof.
  intros Hs (_ & Hin & _). apply (list_elem_of_fmap_2 s_ID) in Hin. rewrite Hs in Hin. by apply list_elem_of_singleton in Hin.
Qed.

Notation pipe_exchange a ms posts a' := (exchange (HE := demo_env) (SS := merge_slice_sort) (SF := demo_sql) (GR := pipe_gzip)
  (CE := demo_cache_env EmptyString) (CS := merge_candidate_sort)
  (λ _ pw, String.eqb pw "secret"%string) (λ _, None) (λ _, None) None (λ _, None) (λ _, None) (λ _, EmptyString) (λ _, None) (λ _, None)
  (λ _, None) pipe_text pipe_parse (λ _, None) (Some id) "Bearer ask_1"%string "src_1"%string a ms posts a').

Lemma pipe_twice a0 w req1 req2 :
  s_ID <$> d_sources (w_db w) = ["src_1"]%string →
  s_ID <$> d_sources (w_db (pipe_arrives req1 w).2) = ["src_1"]%string →
  unheard req1 (NoResponse "timeout") →
  let p1 := pipe_arrives req1 w in let p := pipe_arrives req2 p1.2 in
  pipe_exchange (with_world w a0) [Served req1 w p1.2 p1.1; Served req2 p1.2 p.2 p.1] [(req1, NoResponse "timeout"); (req2, p.1)] (with_world p.2 a0).
Proof.
  intros H1 H2 Hu p1 p. apply (ex_served _ _ _ _ _ _ _ _ _ _ _ _ _ _ _ _ req1 _ (with_world w a0)); [|right; exact Hu|].
  - intros src. exact (pipe_source _ _ src H1).
  - apply (ex_served _ _ _ _ _ _ _ _ _ _ _ _ _ _ _ _ req2 _ (with_world p1.2 a0)); [|by left|apply ex_done]. intros src. exact (pipe_source _ _ src H2).
Defined.

(** What the hub did meanwhile. *)
Definition pipe_moments : list moment :=
  let p1 := pipe_arrives (pipe_req 0) (world_of pipe_db) in let p := pipe_arrives (pipe_req 1) p1.2 in
  [Served (pipe_req 0) (world_of pipe_db) p1.2 p1.1; Served (pipe_req 1) p1.2 p.2 p.1].

Lemma pipe_exchanged a0 : pipe_exchange (with_world (world_of pipe_db) a0) pipe_moments
  (drop (length (rp_posts pipe_agent)) (rp_posts (pipe_run pipe_hub.1))) (with_world pipe_hub.2 a0).
Proof.
  assert (rp_posts pipe_agent = []) as -> by (vm_compute; reflexivity). cbn [length drop]. rewrite pipe_posts, pipe_answers.
  apply pipe_twice; [vm_compute; reflexivity|apply pipe_sources|apply pipe_unheard].
Defined.

Lemma pipe_gzip_law : gzip_law (GR := pipe_gzip) (Some id).
Proof. intros z s [= <-]. split_and!; [done..|]. cbn. unfold id. lia. Defined.

Definition pipe_wire (req : AgentReport.request) : option ingestEventsReq :=
  match req with ReqEvents at_ ps => Some (wire_batch (λ _, EmptyString) at_ ps) | ReqMetrics _ => None end.

Lemma pipe_parsed0 : pipe_parse (pipe_text (pipe_req 0)) = pipe_wire (pipe_req 0).
Proof. vm_compute. reflexivity. Defined.
Lemma pipe_parsed1 : pipe_parse (pipe_text (pipe_req 1)) = pipe_wire (pipe_req 1).
Proof. vm_compute. reflexivity. Defined.

Lemma understood_two txt parse req1 req2 ans1 ans2 :
  parse (txt req1) = pipe_wire req1 → parse (txt req2) = pipe_wire req2 →
  understood (λ _, EmptyString) txt parse [(req1, ans1); (req2, ans2)].
Proof.
  intros H1 H2 at_ ps ans [[= <- <-]|[[= <- <-]|Hin%elem_of_nil]%elem_of_cons]%elem_of_cons; [exact H1|exact H2|done].
Qed.

Lemma pipe_understood : understood (λ _, EmptyString) pipe_text pipe_parse
  (drop (length (rp_posts pipe_agent)) (rp_posts (pipe_run pipe_hub.1))).
Proof.
  assert (rp_posts pipe_agent = []) as -> by (vm_compute; reflexivity). cbn [length drop]. rewrite pipe_posts.
  exact (understood_two pipe_text pipe_parse (pipe_req 0) (pipe_req 1) _ _ pipe_parsed0 pipe_parsed1).
Qed.

Lemma pipe_start : bounded 100 pipe_agent.
Proof. split; [done|]. intros at_ ps a Hin. by apply elem_of_nil in Hin. Defined.

Notation pipe_forgotten e ms := (forgotten (HE := demo_env) (SS := merge_slice_sort) (SF := demo_sql)
  (CE := demo_cache_env EmptyString) (CS := merge_candidate_sort)
  (λ _ pw, String.eqb pw "secret"%string) (λ _, None) (λ _, None) None (λ _, None) (λ _, None) (λ _, EmptyString) (λ _, None) (λ _, None)
  (λ _, None) "src_1"%string e ms).

Lemma delivered_once_witness :
  let r' := pipe_run pipe_hub.1 in let posts := drop (length (rp_posts pipe_agent)) (rp_posts r') in
  let rows := filter (λ s, pkey s = ("src_1"%string, ev_EventID pipe_event)) (d_events (w_db pipe_hub.2)) in
  events_of (rp_q r') = [] ∧ (length rows <= 1)%nat ∧
  (length rows = 1%nat ∨ pipe_forgotten pipe_event pipe_moments ∨ refused_late (HE := demo_env) pipe_event pipe_moments posts ∨
   (∃ at_ ps ans, (ReqEvents at_ ps, ans) ∈ posts ∧ PEvent pipe_event ∈ ps ∧ oversize pipe_text (ReqEvents at_ ps))).
Proof.
  intros r' posts rows. assert (events_of (rp_q r') = []) as Hempty by (vm_compute; reflexivity). split; [exact Hempty|].
  assert (∃ row, row ∈ events_of (rp_q pipe_agent) ∧ q_Payload row = PEvent pipe_event) as (row & Hrow & He).
  { pose proof pipe_queued as Hrows. destruct (events_of (rp_q pipe_agent)) as [|row rest]; [done|]. injection Hrows as Hrow _.
    exists row. split; [left|done]. }
  destruct demo_app as [a0|] eqn:Ea; [|by vm_compute in Ea].
  assert (ready (HE := demo_env) (with_world (world_of pipe_db) a0)) as Hready by (split; [done|exact pipe_db_ok]).
  pose proof (pipe_exchanged a0) as Hx.
  pose proof (delivered_once _ _ _ _ _ _ _ _ _ _ _ _ _ _ _ _ _ _ _ _ _ _ _ _ _ _ pipe_agent_ok pipe_start Hrow He pipe_made Hready
    pipe_gzip_law pipe_understood Hx) as H.
  cbv zeta in H. unfold rows, posts, r' in *. clear rows posts r'.
  rewrite Hempty in H. cbn [ap_world with_world] in H.
  destruct H as [Hone [Hin|H]]; [destruct (proj1 (elem_of_nil _) Hin)|split; [exact Hone|exact H]].
Defined.
